(** * Prompt Battles: the untrusted-script admission and execution pipeline

    A shallow embedding of the TypeScript sources
    - [src/types/game.ts]         (sensor constraints, sensor configurations),
    - [src/entities/Tank.ts]      (the agent: sensor list, cone membership),
    - [src/sandbox/TankBrain.ts]  (the capability facade and the execution unit),
    - [src/scenes/BattleScene.ts] (the per-tick brain loop),
    - [src/llm/CodeValidator.ts]  (cleaner, validator, loop-guard rewriter),
    - [class LLMService]          (the generation orchestrator),
    followed by the properties stated about them.

    Conventions of the embedding.
    - A JavaScript [number] is a real number of [R]: the arithmetic of the
      sources is read exactly.  [NaN], the infinities (but for the one
      produced by [getWallDistance]) and rounding are outside this model.
      A count or an index is a [nat] or a [Z].
    - A JavaScript string is a [string], read as its sequence of 8-bit
      code units.
    - Mutable objects become explicit state passing; code that may raise
      runs in the small exception-and-state monad [Exec].
    - A compiled callable is given by what it does when called: the calls
      it makes on the capability object, then a return or a throw
      ([Script]).  Callables that do not return have no counterpart here.
    - Functions of the host and of the game engine ([Math.sqrt],
      [Math.atan2], [Phaser.Math.Clamp], [Phaser.Math.RadToDeg], regular
      expression matching, [Array.prototype.sort]) are given by their
      documented meaning; [new Function], number formatting, the
      inference backend and the physics of the scene are parameters. *)

From Stdlib Require Import Reals Lra Lia ZArith List Bool Arith String Ascii.
From Stdlib Require Import DecimalString.
From Stdlib Require Import Sorted Permutation.
From Equations Require Import Equations.
Import ListNotations.

Local Open Scope R_scope.

(* ===================================================================== *)
(** * 1. Numbers and engine helpers *)
(* ===================================================================== *)

Module Phaser.

(** [Phaser.Math.Clamp(value, min, max)] is
    [Math.max(min, Math.min(max, value))]. *)
Definition Clamp (value min max : R) : R := Rmax min (Rmin max value).

(** [Phaser.Math.RadToDeg(radians)] is [radians * (180 / Math.PI)]. *)
Definition RadToDeg (radians : R) : R := radians * (180 / PI).

(** [Phaser.Math.DegToRad(degrees)] is [degrees * (Math.PI / 180)]. *)
Definition DegToRad (degrees : R) : R := degrees * (PI / 180).

(** [Phaser.Math.Distance.Between(x1, y1, x2, y2)] is
    [Math.sqrt(dx * dx + dy * dy)] with [dx = x1 - x2], [dy = y1 - y2]. *)
Definition DistanceBetween (x1 y1 x2 y2 : R) : R :=
  let dx := x1 - x2 in
  let dy := y1 - y2 in
  sqrt (dx * dx + dy * dy).

End Phaser.

Module JsMath.

(** [Math.atan2(y, x)]: the angle of the point [(x, y)], in [(-PI, PI]]. *)
Definition atan2 (y x : R) : R :=
  if Rlt_dec 0 x then atan (y / x)
  else if Rlt_dec x 0 then
         (if Rle_dec 0 y then atan (y / x) + PI else atan (y / x) - PI)
  else if Rlt_dec 0 y then PI / 2
  else if Rlt_dec y 0 then - (PI / 2)
  else 0.

(** [Math.sign(v)] *)
Definition sign (v : R) : R :=
  if Rlt_dec 0 v then 1 else if Rlt_dec v 0 then -1 else 0.

(** [Math.trunc(v)]: the integer part, rounding toward zero. *)
Definition trunc (v : R) : Z :=
  if Rle_dec 0 v then (up v - 1)%Z else (- (up (- v) - 1))%Z.

(** [a % b]: the remainder has the sign of [a]. *)
Definition rem (a b : R) : R := a - b * IZR (trunc (a / b)).

End JsMath.

Module PhaserAngle.

(** [Phaser.Math.Wrap(value, min, max)] is
    [min + ((((value - min) % range) + range) % range)] with
    [range = max - min]. *)
Definition MathWrap (value min max : R) : R :=
  let range := max - min in
  min + JsMath.rem (JsMath.rem (value - min) range + range) range.

(** [Phaser.Math.Angle.Wrap(angle)] is [Wrap(angle, -Math.PI, Math.PI)]. *)
Definition Wrap (angle : R) : R := MathWrap angle (- PI) PI.

(** [Phaser.Math.Angle.Between(x1, y1, x2, y2)] is
    [Math.atan2(y2 - y1, x2 - x1)]. *)
Definition Between (x1 y1 x2 y2 : R) : R := JsMath.atan2 (y2 - y1) (x2 - x1).

End PhaserAngle.

(* ===================================================================== *)
(** * 2. Data model ([src/types/game.ts]) *)
(* ===================================================================== *)

Record Point := mkPoint { px : R; py : R }.

Record SensorConfig := mkSensor {
  arc : R;      (* degrees *)
  range : R;    (* pixels *)
  offset : R    (* degrees offset from tank heading *)
}.

Module SENSOR_CONSTRAINTS.
Definition maxSensors : nat := 8.
Definition maxArc : R := 120.
Definition maxRange : R := 400.
Definition minArc : R := 10.
Definition minRange : R := 50.
End SENSOR_CONSTRAINTS.

Record TankStats := mkStats {
  maxHealth : R;
  moveSpeed : R;
  turnSpeed : R;
  turretTurnSpeed : R;
  fireRate : R;
  projectileSpeed : R;
  projectileDamage : R;
  gunRange : R;
  defaultSensors : list SensorConfig
}.

Definition DEFAULT_TANK_STATS : TankStats :=
  {| maxHealth := 100; moveSpeed := 150; turnSpeed := 2; turretTurnSpeed := 3;
     fireRate := 2; projectileSpeed := 400; projectileDamage := 15;
     gunRange := 350;
     defaultSensors :=
       [ mkSensor 90 400 0; mkSensor 120 250 (-90);
         mkSensor 120 250 90; mkSensor 90 150 180 ] |}.

Module DEFAULT_BATTLE_CONFIG.
Definition arenaWidth : R := 1200.
Definition arenaHeight : R := 800.
Definition tankCount : nat := 8.
Definition battleDuration : Z := 120.
End DEFAULT_BATTLE_CONFIG.

Record EnemyInfo := mkEnemy {
  e_id : string;
  e_position : Point;
  e_heading : R;
  e_turretHeading : R;
  e_velocity : Point;
  e_health : R;
  e_distance : R;
  e_bearing : R
}.

(* ===================================================================== *)
(** * 3. The agent ([src/entities/Tank.ts]) *)
(* ===================================================================== *)

(** The fields of [class Tank] that the modelled methods read or write.
    [x], [y], [rotation] (radians) and [active] come from the engine's
    sprite; [now] stands for [this.scene.time.now]. *)
Record Tank := mkTank {
  tankId : string;
  stats : TankStats;
  x : R;
  y : R;
  rotation : R;
  turretRotation : R;
  active : bool;
  now : R;
  currentHealth : R;
  lastFireTime : R;
  targetTurretAngle : R;
  moveInput : R;
  turnInput : R;
  wantsFire : bool;
  sensors : list SensorConfig;
  arenaWidth : R;
  arenaHeight : R
}.

Definition set_sensors (t : Tank) (s : list SensorConfig) : Tank :=
  {| tankId := tankId t; stats := stats t; x := x t; y := y t;
     rotation := rotation t; turretRotation := turretRotation t;
     active := active t; now := now t; currentHealth := currentHealth t;
     lastFireTime := lastFireTime t; targetTurretAngle := targetTurretAngle t;
     moveInput := moveInput t; turnInput := turnInput t;
     wantsFire := wantsFire t; sensors := s;
     arenaWidth := arenaWidth t; arenaHeight := arenaHeight t |}.

(** ** Auxiliary result types and field updates *)

(** A number or [Infinity] (only [getWallDistance] produces the latter). *)
Inductive ExtNum : Type :=
| Fin (r : R)
| Infinity.

Inductive Side : Type := top | bottom | left_side | right_side.

Record Bounds := mkBounds { width : R; height : R }.

Record WallHit := mkWallHit { w_distance : ExtNum; w_angle : R }.

Definition set_moveInput (t : Tank) (v : R) : Tank :=
  {| tankId := tankId t; stats := stats t; x := x t; y := y t;
     rotation := rotation t; turretRotation := turretRotation t;
     active := active t; now := now t; currentHealth := currentHealth t;
     lastFireTime := lastFireTime t; targetTurretAngle := targetTurretAngle t;
     moveInput := v; turnInput := turnInput t;
     wantsFire := wantsFire t; sensors := sensors t;
     arenaWidth := arenaWidth t; arenaHeight := arenaHeight t |}.

Definition set_turnInput (t : Tank) (v : R) : Tank :=
  {| tankId := tankId t; stats := stats t; x := x t; y := y t;
     rotation := rotation t; turretRotation := turretRotation t;
     active := active t; now := now t; currentHealth := currentHealth t;
     lastFireTime := lastFireTime t; targetTurretAngle := targetTurretAngle t;
     moveInput := moveInput t; turnInput := v;
     wantsFire := wantsFire t; sensors := sensors t;
     arenaWidth := arenaWidth t; arenaHeight := arenaHeight t |}.

Definition set_targetTurretAngle (t : Tank) (v : R) : Tank :=
  {| tankId := tankId t; stats := stats t; x := x t; y := y t;
     rotation := rotation t; turretRotation := turretRotation t;
     active := active t; now := now t; currentHealth := currentHealth t;
     lastFireTime := lastFireTime t; targetTurretAngle := v;
     moveInput := moveInput t; turnInput := turnInput t;
     wantsFire := wantsFire t; sensors := sensors t;
     arenaWidth := arenaWidth t; arenaHeight := arenaHeight t |}.

Definition set_fired (t : Tank) (time : R) : Tank :=
  {| tankId := tankId t; stats := stats t; x := x t; y := y t;
     rotation := rotation t; turretRotation := turretRotation t;
     active := active t; now := now t; currentHealth := currentHealth t;
     lastFireTime := time; targetTurretAngle := targetTurretAngle t;
     moveInput := moveInput t; turnInput := turnInput t;
     wantsFire := true; sensors := sensors t;
     arenaWidth := arenaWidth t; arenaHeight := arenaHeight t |}.

Definition set_position (t : Tank) (x' y' : R) : Tank :=
  {| tankId := tankId t; stats := stats t; x := x'; y := y';
     rotation := rotation t; turretRotation := turretRotation t;
     active := active t; now := now t; currentHealth := currentHealth t;
     lastFireTime := lastFireTime t; targetTurretAngle := targetTurretAngle t;
     moveInput := moveInput t; turnInput := turnInput t;
     wantsFire := wantsFire t; sensors := sensors t;
     arenaWidth := arenaWidth t; arenaHeight := arenaHeight t |}.

Definition set_rotation (t : Tank) (v : R) : Tank :=
  {| tankId := tankId t; stats := stats t; x := x t; y := y t;
     rotation := v; turretRotation := turretRotation t;
     active := active t; now := now t; currentHealth := currentHealth t;
     lastFireTime := lastFireTime t; targetTurretAngle := targetTurretAngle t;
     moveInput := moveInput t; turnInput := turnInput t;
     wantsFire := wantsFire t; sensors := sensors t;
     arenaWidth := arenaWidth t; arenaHeight := arenaHeight t |}.

Definition set_turretRotation (t : Tank) (v : R) : Tank :=
  {| tankId := tankId t; stats := stats t; x := x t; y := y t;
     rotation := rotation t; turretRotation := v;
     active := active t; now := now t; currentHealth := currentHealth t;
     lastFireTime := lastFireTime t; targetTurretAngle := targetTurretAngle t;
     moveInput := moveInput t; turnInput := turnInput t;
     wantsFire := wantsFire t; sensors := sensors t;
     arenaWidth := arenaWidth t; arenaHeight := arenaHeight t |}.

Definition set_currentHealth (t : Tank) (v : R) : Tank :=
  {| tankId := tankId t; stats := stats t; x := x t; y := y t;
     rotation := rotation t; turretRotation := turretRotation t;
     active := active t; now := now t; currentHealth := v;
     lastFireTime := lastFireTime t; targetTurretAngle := targetTurretAngle t;
     moveInput := moveInput t; turnInput := turnInput t;
     wantsFire := wantsFire t; sensors := sensors t;
     arenaWidth := arenaWidth t; arenaHeight := arenaHeight t |}.

Definition set_active (t : Tank) (v : bool) : Tank :=
  {| tankId := tankId t; stats := stats t; x := x t; y := y t;
     rotation := rotation t; turretRotation := turretRotation t;
     active := v; now := now t; currentHealth := currentHealth t;
     lastFireTime := lastFireTime t; targetTurretAngle := targetTurretAngle t;
     moveInput := moveInput t; turnInput := turnInput t;
     wantsFire := wantsFire t; sensors := sensors t;
     arenaWidth := arenaWidth t; arenaHeight := arenaHeight t |}.

Definition set_wantsFire (t : Tank) (v : bool) : Tank :=
  {| tankId := tankId t; stats := stats t; x := x t; y := y t;
     rotation := rotation t; turretRotation := turretRotation t;
     active := active t; now := now t; currentHealth := currentHealth t;
     lastFireTime := lastFireTime t; targetTurretAngle := targetTurretAngle t;
     moveInput := moveInput t; turnInput := turnInput t;
     wantsFire := v; sensors := sensors t;
     arenaWidth := arenaWidth t; arenaHeight := arenaHeight t |}.

(** What [consumeFire] returns. *)
Record FireResult := mkFire {
  fired : bool;
  f_angle : R;
  f_position : Point
}.

(** ** Angle normalisation loops of [isPointInSensorIndex] *)

(** [while (angleDiff > 180) angleDiff -= 360;] *)
Equations? wrapAbove (angleDiff : R) : R
  by wf (Z.to_nat (up ((angleDiff - 180) / 360))) lt :=
  wrapAbove angleDiff with Rgt_dec angleDiff 180 := {
    | left _ => wrapAbove (angleDiff - 360);
    | right _ => angleDiff }.
Proof.
  set (q := (angleDiff - 180) / 360).
  replace ((angleDiff - 360 - 180) / 360) with (q - 1) by (unfold q; field).
  assert (Hq : 0 < q) by (unfold q; lra).
  destruct (archimed q) as [Hup Hlow].
  assert (Hshift : up (q - 1) = (up q - 1)%Z).
  { symmetry. apply tech_up; rewrite minus_IZR; simpl; lra. }
  assert (Hpos : (0 < up q)%Z) by (apply lt_IZR; simpl; lra).
  rewrite Hshift. lia.
Qed.

(** [while (angleDiff < -180) angleDiff += 360;] *)
Equations? wrapBelow (angleDiff : R) : R
  by wf (Z.to_nat (up ((- 180 - angleDiff) / 360))) lt :=
  wrapBelow angleDiff with Rlt_dec angleDiff (-180) := {
    | left _ => wrapBelow (angleDiff + 360);
    | right _ => angleDiff }.
Proof.
  set (q := (- 180 - angleDiff) / 360).
  replace ((- 180 - (angleDiff + 360)) / 360) with (q - 1)
    by (unfold q; field).
  assert (Hq : 0 < q) by (unfold q; lra).
  destruct (archimed q) as [Hup Hlow].
  assert (Hshift : up (q - 1) = (up q - 1)%Z).
  { symmetry. apply tech_up; rewrite minus_IZR; simpl; lra. }
  assert (Hpos : (0 < up q)%Z) by (apply lt_IZR; simpl; lra).
  rewrite Hshift. lia.
Qed.

Module TankM.

(** The body of the [configs.map(...)] callback of [configureSensors]. *)
Definition clampConfig (config : SensorConfig) : SensorConfig :=
  {| arc := Phaser.Clamp (arc config) SENSOR_CONSTRAINTS.minArc
                         SENSOR_CONSTRAINTS.maxArc;
     range := Phaser.Clamp (range config) SENSOR_CONSTRAINTS.minRange
                           SENSOR_CONSTRAINTS.maxRange;
     offset := offset config |}.

(** [Tank.configureSensors]: the returned boolean and the agent after
    the call. *)
Definition configureSensors (t : Tank) (configs : list SensorConfig)
  : bool * Tank :=
  if (List.length configs =? 0)%nat
     || (SENSOR_CONSTRAINTS.maxSensors <? List.length configs)%nat
  then (false, t)
  else (true, set_sensors t (map clampConfig configs)).

Definition getSensorCount (t : Tank) : nat := List.length (sensors t).

(** [Tank.isPointInSensorIndex(point, sensorIndex)]. *)
Definition isPointInSensorIndex (t : Tank) (point : Point) (sensorIndex : Z)
  : bool :=
  if (sensorIndex <? 0)%Z
     || (Z.of_nat (List.length (sensors t)) <=? sensorIndex)%Z
  then false
  else
    match nth_error (sensors t) (Z.to_nat sensorIndex) with
    | None => false
    | Some sensorConfig =>
        let dx := px point - x t in
        let dy := py point - y t in
        let distance := sqrt (dx * dx + dy * dy) in
        if Rgt_dec distance (range sensorConfig) then false
        else
          let angleToPoint := Phaser.RadToDeg (JsMath.atan2 dy dx) in
          let tankHeadingDeg := Phaser.RadToDeg (rotation t) in
          let sensorCenterAngle := tankHeadingDeg + offset sensorConfig in
          let angleDiff :=
            wrapBelow (wrapAbove (angleToPoint - sensorCenterAngle)) in
          let halfArc := arc sensorConfig / 2 in
          if Rle_dec (Rabs angleDiff) halfArc then true else false
    end.

(** [Tank.isPointDetectable(point)]: the first sensor index, in
    increasing order, whose cone holds the point decides. *)
Definition isPointDetectable (t : Tank) (point : Point) : bool :=
  existsb (fun i => isPointInSensorIndex t point (Z.of_nat i))
          (seq 0 (List.length (sensors t))).

Definition move (t : Tank) (speed : R) : Tank :=
  set_moveInput t (Phaser.Clamp speed (-1) 1).

Definition turn (t : Tank) (rate : R) : Tank :=
  set_turnInput t (Phaser.Clamp rate (-1) 1).

(** [Phaser.Math.Angle.Between(x1, y1, x2, y2)] is
    [Math.atan2(y2 - y1, x2 - x1)]. *)
Definition aimAt (t : Tank) (point : Point) : Tank :=
  set_targetTurretAngle t (JsMath.atan2 (py point - y t) (px point - x t)).

Definition fire (t : Tank) : bool * Tank :=
  let fireInterval := 1000 / fireRate (stats t) in
  if Rge_dec (now t - lastFireTime t) fireInterval
  then (true, set_fired t (now t))
  else (false, t).

Definition canFire (t : Tank) : bool :=
  let fireInterval := 1000 / fireRate (stats t) in
  if Rge_dec (now t - lastFireTime t) fireInterval then true else false.

Definition getPosition (t : Tank) : Point := {| px := x t; py := y t |}.

Definition getHealth (t : Tank) : R := currentHealth t.

Definition getHeading (t : Tank) : R := Phaser.RadToDeg (rotation t).

Definition getTurretHeading (t : Tank) : R :=
  Phaser.RadToDeg (turretRotation t).

Definition getGunRange (t : Tank) : R := gunRange (stats t).

Definition isDead (t : Tank) : bool :=
  if Rle_dec (currentHealth t) 0 then true else false.

Definition isCollidingWithWall (t : Tank) : bool := false.

Definition getWallCollisionSides (t : Tank) : list Side := [].

(** [Math.min(minDist, v)] with [minDist] possibly [Infinity]. *)
Definition minExt (minDist : ExtNum) (v : R) : ExtNum :=
  match minDist with
  | Infinity => Fin v
  | Fin m => Fin (Rmin m v)
  end.

Definition getWallDistance (t : Tank) (angleOffset : R) : ExtNum :=
  let tankHeadingRad := rotation t in
  let rayAngle := tankHeadingRad + Phaser.DegToRad angleOffset in
  let cosA := cos rayAngle in
  let sinA := sin rayAngle in
  let minDist := Infinity in
  let minDist :=
    if Rgt_dec (Rabs cosA) (1 / 1000) then
      if Rgt_dec cosA 0 then minExt minDist ((arenaWidth t - x t) / cosA)
      else minExt minDist (- x t / cosA)
    else minDist in
  let minDist :=
    if Rgt_dec (Rabs sinA) (1 / 1000) then
      if Rgt_dec sinA 0 then minExt minDist ((arenaHeight t - y t) / sinA)
      else minExt minDist (- y t / sinA)
    else minDist in
  match minDist with
  | Infinity => Infinity
  | Fin m => if Rgt_dec m 0 then Fin m else Infinity
  end.

Definition scanWallInSensor (t : Tank) (sensorIndex : Z) : option WallHit :=
  if (sensorIndex <? 0)%Z
     || (Z.of_nat (List.length (sensors t)) <=? sensorIndex)%Z
  then None
  else
    match nth_error (sensors t) (Z.to_nat sensorIndex) with
    | None => None
    | Some sensor =>
        let tankHeadingDeg := Phaser.RadToDeg (rotation t) in
        let sensorCenterAngle := offset sensor in
        let distance := getWallDistance t sensorCenterAngle in
        match distance with
        | Fin d =>
            if Rle_dec d (range sensor)
            then Some {| w_distance := distance;
                         w_angle := tankHeadingDeg + sensorCenterAngle |}
            else None
        | Infinity => None
        end
    end.

Definition getArenaBounds (t : Tank) : Bounds :=
  {| width := arenaWidth t; height := arenaHeight t |}.

(** [new Tank(scene, x, y, tankId, color, stats)]; [time] is the clock of
    the scene. *)
Definition create (x y : R) (tankId : string) (stats : TankStats) (time : R)
  : Tank :=
  {| tankId := tankId; stats := stats; x := x; y := y;
     rotation := 0; turretRotation := 0;
     active := true; now := time; currentHealth := maxHealth stats;
     lastFireTime := 0; targetTurretAngle := 0;
     moveInput := 0; turnInput := 0;
     wantsFire := false; sensors := defaultSensors stats;
     arenaWidth := DEFAULT_BATTLE_CONFIG.arenaWidth;
     arenaHeight := DEFAULT_BATTLE_CONFIG.arenaHeight |}.

(** [Tank.update(delta)], called every frame.  A sprite has its body
    (and its turret) exactly while it is active; the engine's setters
    [setRotation], [setPosition] and [turret.rotation] store the value
    they are given. *)
Definition update (t : Tank) (delta : R) : Tank :=
  if negb (active t) then t
  else
    let deltaSeconds := delta / 1000 in
    let t :=
      if Req_dec_T (turnInput t) 0 then t
      else
        let rotationAmount := turnSpeed (stats t) * deltaSeconds * turnInput t in
        set_rotation t (rotation t + rotationAmount) in
    let t :=
      if Req_dec_T (moveInput t) 0 then t
      else
        let moveDistance := moveSpeed (stats t) * deltaSeconds * moveInput t in
        let dx := cos (rotation t) * moveDistance in
        let dy := sin (rotation t) * moveDistance in
        set_position t (x t + dx) (y t + dy) in
    let t :=
      let turretAngleDiff :=
        PhaserAngle.Wrap (targetTurretAngle t - turretRotation t) in
      let maxTurretRotation := turretTurnSpeed (stats t) * deltaSeconds in
      if Rgt_dec (Rabs turretAngleDiff) maxTurretRotation
      then set_turretRotation t (turretRotation t
                                 + JsMath.sign turretAngleDiff
                                   * maxTurretRotation)
      else set_turretRotation t (targetTurretAngle t) in
    set_turnInput (set_moveInput t 0) 0.

Definition aimAtAngle (t : Tank) (angle : R) : Tank :=
  set_targetTurretAngle t angle.

(** [Tank.consumeFire]: what it returns and the agent after the call. *)
Definition consumeFire (t : Tank) : FireResult * Tank :=
  if wantsFire t then
    let barrelLength := 24 in
    let tipX := x t + cos (turretRotation t) * barrelLength in
    let tipY := y t + sin (turretRotation t) * barrelLength in
    ({| fired := true; f_angle := turretRotation t;
        f_position := {| px := tipX; py := tipY |} |},
     set_wantsFire t false)
  else
    ({| fired := false; f_angle := 0; f_position := {| px := 0; py := 0 |} |},
     t).

Definition getSensors (t : Tank) : list SensorConfig := sensors t.

Definition getSensorConfig (t : Tank) (index : Z) : option SensorConfig :=
  if (index <? 0)%Z || (Z.of_nat (List.length (sensors t)) <=? index)%Z
  then None
  else nth_error (sensors t) (Z.to_nat index).

(** [Tank.getDetectingSensorIndices(point)]. *)
Definition getDetectingSensorIndices (t : Tank) (point : Point) : list nat :=
  filter (fun i => isPointInSensorIndex t point (Z.of_nat i))
         (seq 0 (List.length (sensors t))).

(** [Tank.onDeath]: the sprite and its turret are destroyed; the event
    ['tankDeath'] that it emits first is handled by the scene
    ([BattleSceneM.onTankDeath]). *)
Definition onDeath (t : Tank) : Tank := set_active t false.

(** [Tank.takeDamage(amount)], without the visual effects. *)
Definition takeDamage (t : Tank) (amount : R) : Tank :=
  let t := set_currentHealth t (Rmax 0 (currentHealth t - amount)) in
  if Rle_dec (currentHealth t) 0 then onDeath t else t.

End TankM.

(* ===================================================================== *)
(** * 4. Host functions on arrays *)
(* ===================================================================== *)

(** [Array.prototype.sort(compareFn)]: a stable sort; [a] goes before [b]
    when [compareFn(a, b) <= 0] and [a] came first. *)
Fixpoint insertBy {A : Type} (compareFn : A -> A -> R) (a : A) (l : list A)
  : list A :=
  match l with
  | [] => [a]
  | b :: l' =>
      if Rle_dec (compareFn a b) 0 then a :: b :: l'
      else b :: insertBy compareFn a l'
  end.

Fixpoint sortBy {A : Type} (compareFn : A -> A -> R) (l : list A) : list A :=
  match l with
  | [] => []
  | a :: l' => insertBy compareFn a (sortBy compareFn l')
  end.

(* ===================================================================== *)
(** * 5. Exceptions and state *)
(* ===================================================================== *)

(** How a JavaScript computation ends: normally with a value, or by an
    exception (its message). *)
Inductive Outcome (A : Type) : Type :=
| Normal (a : A)
| Thrown (e : string).
Arguments Normal {A} a.
Arguments Thrown {A} e.

(** A computation over a mutable state [S]; the state reached when an
    exception is raised is kept. *)
Definition Exec (S A : Type) : Type := S -> Outcome A * S.

Definition ret {S A : Type} (a : A) : Exec S A := fun s => (Normal a, s).

Definition bind {S A B : Type} (m : Exec S A) (k : A -> Exec S B)
  : Exec S B :=
  fun s =>
    match m s with
    | (Normal a, s') => k a s'
    | (Thrown e, s') => (Thrown e, s')
    end.

Definition throw {S A : Type} (e : string) : Exec S A :=
  fun s => (Thrown e, s).

(** [try { m } catch (e) { h e }] *)
Definition tryCatch {S A : Type} (m : Exec S A) (h : string -> Exec S A)
  : Exec S A :=
  fun s =>
    match m s with
    | (Normal a, s') => (Normal a, s')
    | (Thrown e, s') => h e s'
    end.

Definition gets {S A : Type} (f : S -> A) : Exec S A :=
  fun s => (Normal (f s), s).

Definition modify {S : Type} (f : S -> S) : Exec S unit :=
  fun s => (Normal tt, f s).

Declare Scope exec_scope.
Delimit Scope exec_scope with exec.
Notation "x <- m ;; k" := (bind m (fun x => k))
  (at level 61, m at next level, right associativity) : exec_scope.
Notation "m ;; k" := (bind m (fun _ => k))
  (at level 61, right associativity) : exec_scope.

Infix "+++" := String.append (at level 60, right associativity).

(* ===================================================================== *)
(** * 6. The capability sandbox ([src/sandbox/TankBrain.ts]) *)
(* ===================================================================== *)

Inductive TraceType : Type := sensor | action | utility | config.

Record TraceEntry := mkTrace {
  method : string;
  type : TraceType;
  args : option string;
  result : option string
}.

Record SensorConstraints := mkConstraints {
  c_maxSensors : nat;
  c_maxArc : R;
  c_maxRange : R;
  c_minArc : R;
  c_minRange : R
}.

(** One call of a script on the capability object, with its arguments.
    Where the facade tests an argument at run time, the argument may be
    absent: [None] is a value that fails the test ([null], [undefined],
    something that is not an array). *)
Inductive ApiCall : Type :=
| CgetPosition
| CgetHealth
| CgetHeading
| CgetTurretHeading
| CcanFire
| CgetNearestEnemy
| CgetEnemies
| CconfigureSensors (configs : option (list SensorConfig))
| CgetSensorCount
| Cscan (sensorIndex : Z)
| CscanAll
| CgetGunRange
| CgetSensorConstraints
| CgetArenaBounds
| CisCollidingWithWall
| CgetWallCollisionSides
| CgetWallDistance (angleOffset : R)
| CscanWall (sensorIndex : Z)
| Cmove (speed : R)
| Cturn (rate : R)
| CaimAt (point : option Point)
| Cfire
| CangleTo (point : option Point)
| CdistanceTo (point : option Point).

(** What a call hands back to the script. *)
Inductive ApiResult : Type :=
| Rundefined
| Rnumber (r : ExtNum)
| Rboolean (b : bool)
| Rpoint (p : Point)
| Renemy (e : option EnemyInfo)
| Renemies (l : list EnemyInfo)
| Rcount (n : nat)
| Rconstraints (c : SensorConstraints)
| Rbounds (b : Bounds)
| Rsides (l : list Side)
| Rwall (w : option WallHit).

(** The behaviour of a compiled callable that returns: it calls the
    capability object some number of times, each next step depending on
    what the calls returned, and then returns or throws. *)
Inductive Script : Type :=
| SReturn
| SThrow (e : string)
| SCall (c : ApiCall) (k : ApiResult -> Script).

(** [class TankBrain], with the agent it is bound to and the host
    console. *)
Record TankBrain := mkBrain {
  tank : Tank;
  code : string;
  compiledFunction : option Script;
  error : option string;
  getEnemiesFn : Tank -> list EnemyInfo;
  lastTrace : list TraceEntry;
  console : list string
}.

Definition set_tank (b : TankBrain) (t : Tank) : TankBrain :=
  {| tank := t; code := code b; compiledFunction := compiledFunction b;
     error := error b; getEnemiesFn := getEnemiesFn b;
     lastTrace := lastTrace b; console := console b |}.

Definition set_lastTrace (b : TankBrain) (tr : list TraceEntry) : TankBrain :=
  {| tank := tank b; code := code b; compiledFunction := compiledFunction b;
     error := error b; getEnemiesFn := getEnemiesFn b;
     lastTrace := tr; console := console b |}.

Definition set_console (b : TankBrain) (c : list string) : TankBrain :=
  {| tank := tank b; code := code b; compiledFunction := compiledFunction b;
     error := error b; getEnemiesFn := getEnemiesFn b;
     lastTrace := lastTrace b; console := c |}.

Definition set_compiled (b : TankBrain) (f : option Script)
           (err : option string) : TankBrain :=
  {| tank := tank b; code := code b; compiledFunction := f;
     error := err; getEnemiesFn := getEnemiesFn b;
     lastTrace := lastTrace b; console := console b |}.

Definition set_code (b : TankBrain) (c : string) : TankBrain :=
  {| tank := tank b; code := c; compiledFunction := compiledFunction b;
     error := error b; getEnemiesFn := getEnemiesFn b;
     lastTrace := lastTrace b; console := console b |}.

(** Values that [formatValue] is applied to. *)
Inductive JsValue : Type :=
| JNull
| JUndefined
| JNumber (r : R)
| JBoolean (b : bool)
| JArray (len : nat)
| JPoint (p : Point)
| JEnemy (id : string)
| JObject
| JString (s : string).

(** The capability object handed to a script: a record of closures over
    some state [S] (the unit and its tank, or the validator's stand-in). *)
Set Implicit Arguments.
Record TankAPI (S : Type) := mkAPI {
  getPosition : Exec S Point;
  getHealth : Exec S R;
  getHeading : Exec S R;
  getTurretHeading : Exec S R;
  canFire : Exec S bool;
  getNearestEnemy : Exec S (option EnemyInfo);
  getEnemies : Exec S (list EnemyInfo);
  configureSensors : option (list SensorConfig) -> Exec S bool;
  getSensorCount : Exec S nat;
  scan : Z -> Exec S (list EnemyInfo);
  scanAll : Exec S (list EnemyInfo);
  getGunRange : Exec S R;
  getSensorConstraints : Exec S SensorConstraints;
  getArenaBounds : Exec S Bounds;
  isCollidingWithWall : Exec S bool;
  getWallCollisionSides : Exec S (list Side);
  getWallDistance : R -> Exec S ExtNum;
  scanWall : Z -> Exec S (option WallHit);
  move : R -> Exec S unit;
  turn : R -> Exec S unit;
  aimAt : option Point -> Exec S unit;
  fire : Exec S bool;
  angleTo : option Point -> Exec S R;
  distanceTo : option Point -> Exec S R
}.
Unset Implicit Arguments.

Section Sandbox.

(** Number formatting of the host: [n.toFixed(digits)] and [String(n)]. *)
Variable toFixed : R -> nat -> string.
Variable numberToString : R -> string.

Local Open Scope string_scope.
Local Open Scope exec_scope.

Definition extToFixed (v : ExtNum) (digits : nat) : string :=
  match v with
  | Fin r => toFixed r digits
  | Infinity => "Infinity"
  end.

Definition sideToString (s : Side) : string :=
  match s with
  | top => "top"
  | bottom => "bottom"
  | left_side => "left"
  | right_side => "right"
  end.

(** [TankBrain.trace]: push one entry on [lastTrace]. *)
Definition trace (method : string) (type : TraceType)
           (args result : option string) : Exec TankBrain unit :=
  modify (fun b =>
            set_lastTrace b (lastTrace b ++ [mkTrace method type args result])).

(** [TankBrain.formatValue]. *)
Definition formatValue (val : JsValue) : string :=
  match val with
  | JNull => "null"
  | JUndefined => "undefined"
  | JNumber r => toFixed r 0
  | JBoolean b => if b then "true" else "false"
  | JArray len => "[" +++ numberToString (INR len) +++ " items]"
  | JPoint p => "{x:" +++ toFixed (px p) 0 +++ ", y:" +++ toFixed (py p) 0 +++ "}"
  | JEnemy id => "Enemy(" +++ id +++ ")"
  | JObject => "{...}"
  | JString s => s
  end.

(** Reading the bound agent, and calling a method that changes it. *)
Definition onTank {A : Type} (f : Tank -> A) : Exec TankBrain A :=
  gets (fun b => f (tank b)).

Definition updateTank (f : Tank -> Tank) : Exec TankBrain unit :=
  modify (fun b => set_tank b (f (tank b))).

Definition callGetEnemiesFn : Exec TankBrain (list EnemyInfo) :=
  gets (fun b => getEnemiesFn b (tank b)).

Definition byDistance (a b : EnemyInfo) : R := e_distance a - e_distance b.

Definition api_getPosition : Exec TankBrain Point :=
  tryCatch
    (result <- onTank TankM.getPosition ;;
     trace "getPosition()" sensor None (Some (formatValue (JPoint result))) ;;
     ret result)
    (fun _ => ret {| px := 0; py := 0 |}).

Definition api_getHealth : Exec TankBrain R :=
  tryCatch
    (result <- onTank TankM.getHealth ;;
     trace "getHealth()" sensor None (Some (numberToString result)) ;;
     ret result)
    (fun _ => ret 0%R).

Definition api_getHeading : Exec TankBrain R :=
  tryCatch
    (result <- onTank TankM.getHeading ;;
     trace "getHeading()" sensor None (Some (toFixed result 0 +++ "°")) ;;
     ret result)
    (fun _ => ret 0%R).

Definition api_getTurretHeading : Exec TankBrain R :=
  tryCatch
    (result <- onTank TankM.getTurretHeading ;;
     trace "getTurretHeading()" sensor None (Some (toFixed result 0 +++ "°")) ;;
     ret result)
    (fun _ => ret 0%R).

Definition api_canFire : Exec TankBrain bool :=
  tryCatch
    (result <- onTank TankM.canFire ;;
     trace "canFire()" sensor None (Some (if result then "YES" else "NO")) ;;
     ret result)
    (fun _ => ret false).

Definition api_getNearestEnemy : Exec TankBrain (option EnemyInfo) :=
  tryCatch
    (allEnemies <- callGetEnemiesFn ;;
     tank <- gets tank ;;
     let detectable :=
       filter (fun e => TankM.isPointDetectable tank (e_position e))
              allEnemies in
     let detectable := sortBy byDistance detectable in
     let result :=
       match detectable with
       | e :: _ => Some e
       | [] => None
       end in
     trace "getNearestEnemy()" sensor None
           (Some match result with
                 | Some r => "dist:" +++ toFixed (e_distance r) 0
                 | None => "null"
                 end) ;;
     ret result)
    (fun _ => ret None).

Definition api_getEnemies : Exec TankBrain (list EnemyInfo) :=
  tryCatch
    (result <- callGetEnemiesFn ;;
     trace "getEnemies()" sensor None
           (Some ("[" +++ numberToString (INR (List.length result)) +++ "]")) ;;
     ret result)
    (fun _ => ret []).

Definition api_configureSensors (configs : option (list SensorConfig))
  : Exec TankBrain bool :=
  tryCatch
    (match configs with
     | None => ret false
     | Some configs =>
         tank <- gets tank ;;
         let call := TankM.configureSensors tank configs in
         let result := fst call in
         updateTank (fun _ => snd call) ;;
         trace "configureSensors()" config
               (Some ("[" +++ numberToString (INR (List.length configs))
                          +++ " sensors]"))
               (Some (if result then "OK" else "FAIL")) ;;
         ret result
     end)
    (fun _ => ret false).

Definition api_getSensorCount : Exec TankBrain nat :=
  tryCatch
    (result <- onTank TankM.getSensorCount ;;
     trace "getSensorCount()" sensor None
           (Some (numberToString (INR result))) ;;
     ret result)
    (fun _ => ret 0%nat).

Definition api_scan (sensorIndex : Z) : Exec TankBrain (list EnemyInfo) :=
  tryCatch
    (allEnemies <- callGetEnemiesFn ;;
     tank <- gets tank ;;
     let result :=
       filter (fun e => TankM.isPointInSensorIndex tank (e_position e)
                                                   sensorIndex)
              allEnemies in
     let result := sortBy byDistance result in
     trace ("scan(" +++ numberToString (IZR sensorIndex) +++ ")") sensor None
           (Some ("[" +++ numberToString (INR (List.length result)) +++ "]")) ;;
     ret result)
    (fun _ => ret []).

Definition api_scanAll : Exec TankBrain (list EnemyInfo) :=
  tryCatch
    (allEnemies <- callGetEnemiesFn ;;
     tank <- gets tank ;;
     let result :=
       filter (fun e => TankM.isPointDetectable tank (e_position e))
              allEnemies in
     let result := sortBy byDistance result in
     trace "scanAll()" sensor None
           (Some ("[" +++ numberToString (INR (List.length result)) +++ "]")) ;;
     ret result)
    (fun _ => ret []).

Definition api_getGunRange : Exec TankBrain R :=
  tryCatch
    (result <- onTank TankM.getGunRange ;;
     trace "getGunRange()" sensor None (Some (numberToString result)) ;;
     ret result)
    (fun _ => ret 350%R).

Definition api_getSensorConstraints : Exec TankBrain SensorConstraints :=
  ret {| c_maxSensors := SENSOR_CONSTRAINTS.maxSensors;
         c_maxArc := SENSOR_CONSTRAINTS.maxArc;
         c_maxRange := SENSOR_CONSTRAINTS.maxRange;
         c_minArc := SENSOR_CONSTRAINTS.minArc;
         c_minRange := SENSOR_CONSTRAINTS.minRange |}.

Definition api_getArenaBounds : Exec TankBrain Bounds :=
  tryCatch
    (onTank TankM.getArenaBounds)
    (fun _ => ret {| width := 1200; height := 800 |}).

Definition api_isCollidingWithWall : Exec TankBrain bool :=
  tryCatch
    (result <- onTank TankM.isCollidingWithWall ;;
     trace "isCollidingWithWall()" sensor None
           (Some (if result then "YES" else "NO")) ;;
     ret result)
    (fun _ => ret false).

Definition api_getWallCollisionSides : Exec TankBrain (list Side) :=
  tryCatch
    (result <- onTank TankM.getWallCollisionSides ;;
     trace "getWallCollisionSides()" sensor None
           (Some (if (0 <? List.length result)%nat
                  then String.concat "," (map sideToString result)
                  else "none")) ;;
     ret result)
    (fun _ => ret []).

Definition api_getWallDistance (angleOffset : R) : Exec TankBrain ExtNum :=
  tryCatch
    (result <- onTank (fun t => TankM.getWallDistance t angleOffset) ;;
     trace "getWallDistance()" sensor (Some (toFixed angleOffset 0 +++ "°"))
           (Some (extToFixed result 0)) ;;
     ret result)
    (fun _ => ret Infinity).

Definition api_scanWall (sensorIndex : Z) : Exec TankBrain (option WallHit) :=
  tryCatch
    (result <- onTank (fun t => TankM.scanWallInSensor t sensorIndex) ;;
     trace ("scanWall(" +++ numberToString (IZR sensorIndex) +++ ")") sensor None
           (Some match result with
                 | Some r => "dist:" +++ extToFixed (w_distance r) 0
                 | None => "null"
                 end) ;;
     ret result)
    (fun _ => ret None).

Definition api_move (speed : R) : Exec TankBrain unit :=
  tryCatch
    (updateTank (fun t => TankM.move t speed) ;;
     trace "move()" action (Some (toFixed speed 2)) None)
    (fun _ => ret tt).

Definition api_turn (rate : R) : Exec TankBrain unit :=
  tryCatch
    (updateTank (fun t => TankM.turn t rate) ;;
     trace "turn()" action (Some (toFixed rate 2)) None)
    (fun _ => ret tt).

Definition api_aimAt (point : option Point) : Exec TankBrain unit :=
  tryCatch
    (match point with
     | Some point =>
         updateTank (fun t => TankM.aimAt t point) ;;
         trace "aimAt()" action (Some (formatValue (JPoint point))) None
     | None => ret tt
     end)
    (fun _ => ret tt).

Definition api_fire : Exec TankBrain bool :=
  tryCatch
    (tank <- gets tank ;;
     let call := TankM.fire tank in
     let result := fst call in
     updateTank (fun _ => snd call) ;;
     trace "fire()" action None (Some (if result then "FIRED!" else "cooling")) ;;
     ret result)
    (fun _ => ret false).

Definition api_angleTo (point : option Point) : Exec TankBrain R :=
  tryCatch
    (match point with
     | None => ret 0%R
     | Some point =>
         pos <- onTank TankM.getPosition ;;
         let dx := (px point - px pos)%R in
         let dy := (py point - py pos)%R in
         let result := (JsMath.atan2 dy dx * (180 / PI))%R in
         trace "angleTo()" utility (Some (formatValue (JPoint point)))
               (Some (toFixed result 0 +++ "°")) ;;
         ret result
     end)
    (fun _ => ret 0%R).

Definition api_distanceTo (point : option Point) : Exec TankBrain R :=
  tryCatch
    (match point with
     | None => ret 0%R
     | Some point =>
         pos <- onTank TankM.getPosition ;;
         let dx := (px point - px pos)%R in
         let dy := (py point - py pos)%R in
         let result := sqrt (dx * dx + dy * dy) in
         trace "distanceTo()" utility (Some (formatValue (JPoint point)))
               (Some (toFixed result 0)) ;;
         ret result
     end)
    (fun _ => ret 0%R).

(** [TankBrain.createTankAPI]. *)
Definition createTankAPI : TankAPI TankBrain :=
  {| getPosition := api_getPosition;
     getHealth := api_getHealth;
     getHeading := api_getHeading;
     getTurretHeading := api_getTurretHeading;
     canFire := api_canFire;
     getNearestEnemy := api_getNearestEnemy;
     getEnemies := api_getEnemies;
     configureSensors := api_configureSensors;
     getSensorCount := api_getSensorCount;
     scan := api_scan;
     scanAll := api_scanAll;
     getGunRange := api_getGunRange;
     getSensorConstraints := api_getSensorConstraints;
     getArenaBounds := api_getArenaBounds;
     isCollidingWithWall := api_isCollidingWithWall;
     getWallCollisionSides := api_getWallCollisionSides;
     getWallDistance := api_getWallDistance;
     scanWall := api_scanWall;
     move := api_move;
     turn := api_turn;
     aimAt := api_aimAt;
     fire := api_fire;
     angleTo := api_angleTo;
     distanceTo := api_distanceTo |}.

(** A script calling one operation of the capability object it was
    handed. *)
Definition invoke {S : Type} (api : TankAPI S) (c : ApiCall)
  : Exec S ApiResult :=
  match c with
  | CgetPosition => r <- getPosition api ;; ret (Rpoint r)
  | CgetHealth => r <- getHealth api ;; ret (Rnumber (Fin r))
  | CgetHeading => r <- getHeading api ;; ret (Rnumber (Fin r))
  | CgetTurretHeading => r <- getTurretHeading api ;; ret (Rnumber (Fin r))
  | CcanFire => r <- canFire api ;; ret (Rboolean r)
  | CgetNearestEnemy => r <- getNearestEnemy api ;; ret (Renemy r)
  | CgetEnemies => r <- getEnemies api ;; ret (Renemies r)
  | CconfigureSensors configs =>
      r <- configureSensors api configs ;; ret (Rboolean r)
  | CgetSensorCount => r <- getSensorCount api ;; ret (Rcount r)
  | Cscan sensorIndex => r <- scan api sensorIndex ;; ret (Renemies r)
  | CscanAll => r <- scanAll api ;; ret (Renemies r)
  | CgetGunRange => r <- getGunRange api ;; ret (Rnumber (Fin r))
  | CgetSensorConstraints =>
      r <- getSensorConstraints api ;; ret (Rconstraints r)
  | CgetArenaBounds => r <- getArenaBounds api ;; ret (Rbounds r)
  | CisCollidingWithWall => r <- isCollidingWithWall api ;; ret (Rboolean r)
  | CgetWallCollisionSides =>
      r <- getWallCollisionSides api ;; ret (Rsides r)
  | CgetWallDistance angleOffset =>
      r <- getWallDistance api angleOffset ;; ret (Rnumber r)
  | CscanWall sensorIndex => r <- scanWall api sensorIndex ;; ret (Rwall r)
  | Cmove speed => move api speed ;; ret Rundefined
  | Cturn rate => turn api rate ;; ret Rundefined
  | CaimAt point => aimAt api point ;; ret Rundefined
  | Cfire => r <- fire api ;; ret (Rboolean r)
  | CangleTo point => r <- angleTo api point ;; ret (Rnumber (Fin r))
  | CdistanceTo point => r <- distanceTo api point ;; ret (Rnumber (Fin r))
  end.

(** Calling the compiled callable with the capability object. *)
Fixpoint runScript {S : Type} (api : TankAPI S) (s : Script) : Exec S unit :=
  match s with
  | SReturn => ret tt
  | SThrow e => throw e
  | SCall c k => r <- invoke api c ;; runScript api (k r)
  end.

Definition console_warn (msg : string) : Exec TankBrain unit :=
  modify (fun b => set_console b (console b ++ [msg])).

(** [TankBrain.execute]: one tick of the unit. *)
Definition execute : Exec TankBrain unit :=
  fun b =>
    match compiledFunction b with
    | None => (Normal tt, b)
    | Some fn =>
        if negb (active (tank b)) || TankM.isDead (tank b)
        then (Normal tt, b)
        else
          (modify (fun b => set_lastTrace b []) ;;
           tryCatch
             (let api := createTankAPI in runScript api fn)
             (fun e =>
                console_warn ("TankBrain execution error for "
                                +++ tankId (tank b) +++ ": " +++ e))) b
    end.

Definition isValid (b : TankBrain) : bool :=
  match compiledFunction b with
  | Some _ => true
  | None => false
  end.

Definition getLastTrace (b : TankBrain) : list TraceEntry := lastTrace b.

End Sandbox.

(* ===================================================================== *)
(** * 7. The per-tick brain loop ([src/scenes/BattleScene.ts]) *)
(* ===================================================================== *)

(** The part of [class BattleScene] that the update pass reads and
    writes.  A unit stored in [tankBrains] refers to a tank of [tanks] by
    its identifier; the [tank] field of a stored unit is the state the
    tank had when the unit last ran. *)
Record BattleScene := mkScene {
  tanks : list Tank;
  tankBrains : list (string * TankBrain);
  isGameOver : bool;
  isPaused : bool
}.

Fixpoint findTank (id : string) (l : list Tank) : option Tank :=
  match l with
  | [] => None
  | t :: l' => if String.eqb (tankId t) id then Some t else findTank id l'
  end.

Fixpoint putTank (t : Tank) (l : list Tank) : list Tank :=
  match l with
  | [] => []
  | t0 :: l' =>
      if String.eqb (tankId t0) (tankId t) then t :: l'
      else t0 :: putTank t l'
  end.

(** [Map.get] and [Map.set] on [tankBrains]. *)
Fixpoint getBrain (id : string) (m : list (string * TankBrain))
  : option TankBrain :=
  match m with
  | [] => None
  | (k, b) :: m' => if String.eqb k id then Some b else getBrain id m'
  end.

Fixpoint setBrain (id : string) (b : TankBrain) (m : list (string * TankBrain))
  : list (string * TankBrain) :=
  match m with
  | [] => [(id, b)]
  | (k, b0) :: m' =>
      if String.eqb k id then (k, b) :: m' else (k, b0) :: setBrain id b m'
  end.

(** [for (const x of xs) { body x }] *)
Fixpoint forEach {S A : Type} (xs : list A) (body : A -> Exec S unit)
  : Exec S unit :=
  match xs with
  | [] => ret tt
  | x :: xs' => bind (body x) (fun _ => forEach xs' body)
  end.

Section Scene.

Variable toFixed : R -> nat -> string.
Variable numberToString : R -> string.

(** Scene and engine code that the scripts do not take part in:
    [getEnemiesFor(tank)] over the tanks of the scene; the default AI
    [runTankAI(tank)], which commands its own tank; and the rest of one
    tank's turn ([tank.update(delta)], [wrapPosition], [consumeFire] and
    [fireHitscan]), which may move the tank, damage and remove other
    tanks and end the game. *)
Variable getEnemiesFor : list Tank -> Tank -> list EnemyInfo.
Variable runTankAI : list Tank -> Tank -> Tank.
Variable enginePass : R -> string -> list Tank * bool -> list Tank * bool.

Local Open Scope exec_scope.

(** [brain.execute()] for the unit of tank [id]: the unit runs on the
    current state of its tank, with [getEnemiesFn] the closure
    [() => this.getEnemiesFor(tank)]; the tank and the unit are written
    back. *)
Definition executeBrain (id : string) (brain : TankBrain) (t : Tank)
  : Exec BattleScene unit :=
  fun sc =>
    let bound :=
      {| tank := t; code := code brain;
         compiledFunction := compiledFunction brain; error := error brain;
         getEnemiesFn := fun t' => getEnemiesFor (putTank t' (tanks sc)) t';
         lastTrace := lastTrace brain; console := console brain |} in
    let run := execute toFixed numberToString bound in
    (fst run,
     {| tanks := putTank (tank (snd run)) (tanks sc);
        tankBrains := setBrain id (snd run) (tankBrains sc);
        isGameOver := isGameOver sc; isPaused := isPaused sc |}).

Definition defaultAI (t : Tank) : Exec BattleScene unit :=
  modify (fun sc =>
            {| tanks := putTank (runTankAI (tanks sc) t) (tanks sc);
               tankBrains := tankBrains sc;
               isGameOver := isGameOver sc; isPaused := isPaused sc |}).

Definition engineTurn (delta : R) (id : string) : Exec BattleScene unit :=
  modify (fun sc =>
            let r := enginePass delta id (tanks sc, isGameOver sc) in
            {| tanks := fst r; tankBrains := tankBrains sc;
               isGameOver := snd r; isPaused := isPaused sc |}).

(** The body of the loop over [activeTanks]. *)
Definition tankTurn (delta : R) (id : string) : Exec BattleScene unit :=
  fun sc =>
    match findTank id (tanks sc) with
    | None => (Normal tt, sc)
    | Some t =>
        ((match getBrain id (tankBrains sc) with
          | Some brain =>
              if isValid brain then executeBrain id brain t else defaultAI t
          | None => defaultAI t
          end) ;;
         engineTurn delta id) sc
    end.

(** [BattleScene.update(_time, delta)], up to the end of the loop over
    the tanks. *)
Definition update (delta : R) : Exec BattleScene unit :=
  fun sc =>
    if isGameOver sc || isPaused sc then (Normal tt, sc)
    else
      let activeTanks :=
        filter (fun t => active t && negb (TankM.isDead t)) (tanks sc) in
      forEach (map tankId activeTanks) (tankTurn delta) sc.

(** Successive ticks. *)
Fixpoint ticks (deltas : list R) : Exec BattleScene unit :=
  match deltas with
  | [] => ret tt
  | delta :: rest => update delta ;; ticks rest
  end.

End Scene.

(** ** The scene's own functions

    The arena is a torus: positions wrap at the edges, and sensing and
    shooting consider the eight neighbouring copies of a target. *)
Module BattleSceneM.

(** [wrapPosition(tank)]. *)
Definition wrapPosition (tank : Tank) : Tank :=
  if negb (active tank) then tank
  else
    let arenaWidth := DEFAULT_BATTLE_CONFIG.arenaWidth in
    let arenaHeight := DEFAULT_BATTLE_CONFIG.arenaHeight in
    let x0 := x tank in
    let y0 := y tank in
    let wrapped := false in
    let horizontal :=
      if Rlt_dec x0 0 then (arenaWidth + x0, true)
      else if Rgt_dec x0 arenaWidth then (x0 - arenaWidth, true)
      else (x0, wrapped) in
    let x1 := fst horizontal in
    let wrapped := snd horizontal in
    let vertical :=
      if Rlt_dec y0 0 then (arenaHeight + y0, true)
      else if Rgt_dec y0 arenaHeight then (y0 - arenaHeight, true)
      else (y0, wrapped) in
    let y1 := fst vertical in
    let wrapped := snd vertical in
    if wrapped then set_position tank x1 y1 else tank.

(** [getWrappedPositions(pos, arenaWidth, arenaHeight)]: the position and
    its eight ghost copies. *)
Definition getWrappedPositions (pos : Point) (arenaWidth arenaHeight : R)
  : list Point :=
  let offsets :=
    [ (- arenaWidth, 0); (arenaWidth, 0); (0, - arenaHeight); (0, arenaHeight);
      (- arenaWidth, - arenaHeight); (arenaWidth, - arenaHeight);
      (- arenaWidth, arenaHeight); (arenaWidth, arenaHeight) ] in
  pos :: map (fun offset => {| px := px pos + fst offset;
                               py := py pos + snd offset |}) offsets.

(** [t < 0 || t > 1] *)
Definition outsideSegment (t : R) : bool :=
  if Rlt_dec t 0 then true else if Rgt_dec t 1 then true else false.

(** [lineCircleIntersection(lineStart, lineEnd, circleCenter, radius)]. *)
Definition lineCircleIntersection (lineStart lineEnd circleCenter : Point)
           (radius : R) : option Point :=
  let dx := px lineEnd - px lineStart in
  let dy := py lineEnd - py lineStart in
  let fx := px lineStart - px circleCenter in
  let fy := py lineStart - py circleCenter in
  let a := dx * dx + dy * dy in
  let b := 2 * (fx * dx + fy * dy) in
  let c := fx * fx + fy * fy - radius * radius in
  let discriminant := b * b - 4 * a * c in
  if Rlt_dec discriminant 0 then None
  else
    let discriminant := sqrt discriminant in
    let t1 := (- b - discriminant) / (2 * a) in
    let t2 := (- b + discriminant) / (2 * a) in
    let pointAt (t : R) :=
      {| px := px lineStart + t * dx; py := py lineStart + t * dy |} in
    if outsideSegment t1 then
      if outsideSegment t2 then None else Some (pointAt t2)
    else Some (pointAt t1).

(** What [getShortestWrappedDistance] returns. *)
Record Shortest := mkShortest {
  bestPos : Point;
  distance : ExtNum
}.

(** [dist < bestDistance], where [bestDistance] starts as [Infinity]. *)
Definition below (dist : R) (bestDistance : ExtNum) : bool :=
  match bestDistance with
  | Infinity => true
  | Fin best => if Rlt_dec dist best then true else false
  end.

(** [getShortestWrappedDistance(from, to, arenaWidth, arenaHeight)]. *)
Definition getShortestWrappedDistance (from to : Point)
           (arenaWidth arenaHeight : R) : Shortest :=
  let wrappedPositions := getWrappedPositions to arenaWidth arenaHeight in
  fold_left
    (fun best pos =>
       let dist :=
         Phaser.DistanceBetween (px from) (py from) (px pos) (py pos) in
       if below dist (distance best)
       then {| bestPos := pos; distance := Fin dist |}
       else best)
    wrappedPositions
    {| bestPos := to; distance := Infinity |}.

(** The number held by [bestDistance] after the loop: nine positions have
    been compared, so it is no longer [Infinity]. *)
Definition finite (v : ExtNum) : R :=
  match v with
  | Fin r => r
  | Infinity => 0
  end.

(** [getEnemiesFor(tank)] over the tanks of the scene. *)
Definition getEnemiesFor (tanks : list Tank) (tank : Tank) : list EnemyInfo :=
  let arenaWidth := DEFAULT_BATTLE_CONFIG.arenaWidth in
  let arenaHeight := DEFAULT_BATTLE_CONFIG.arenaHeight in
  if negb (active tank) || TankM.isDead tank then []
  else
    let tankX := x tank in
    let tankY := y tank in
    let enemies :=
      fold_left
        (fun enemies other =>
           if String.eqb (tankId other) (tankId tank)
              || TankM.isDead other || negb (active other)
           then enemies
           else
             let otherX := x other in
             let otherY := y other in
             let shortest :=
               getShortestWrappedDistance
                 {| px := tankX; py := tankY |}
                 {| px := otherX; py := otherY |} arenaWidth arenaHeight in
             let bearing :=
               PhaserAngle.Between tankX tankY (px (bestPos shortest))
                                   (py (bestPos shortest)) in
             enemies
               ++ [ {| e_id := tankId other;
                       e_position := bestPos shortest;
                       e_heading := TankM.getHeading other;
                       e_turretHeading := TankM.getTurretHeading other;
                       e_velocity := {| px := 0; py := 0 |};
                       e_health := TankM.getHealth other;
                       e_distance := finite (distance shortest);
                       e_bearing := Phaser.RadToDeg bearing |} ])
        tanks [] in
    sortBy byDistance enemies.

(** [getEnemiesInSensor(tank, sensorIndex)]. *)
Definition getEnemiesInSensor (tanks : list Tank) (tank : Tank)
           (sensorIndex : Z) : list EnemyInfo :=
  let allEnemies := getEnemiesFor tanks tank in
  filter (fun enemy =>
            TankM.isPointInSensorIndex tank (e_position enemy) sensorIndex)
         allEnemies.

(** [getDetectableEnemies(tank)]. *)
Definition getDetectableEnemies (tanks : list Tank) (tank : Tank)
  : list EnemyInfo :=
  let allEnemies := getEnemiesFor tanks tank in
  filter (fun enemy => TankM.isPointDetectable tank (e_position enemy))
         allEnemies.

(** [runTankAI(tank)], the default AI: the tank after its commands. *)
Definition runTankAI (tanks : list Tank) (tank : Tank) : Tank :=
  if negb (active tank) || TankM.isDead tank then tank
  else
    let gunRange := TankM.getGunRange tank in
    let frontEnemies := getEnemiesInSensor tanks tank 0 in
    let leftEnemies := getEnemiesInSensor tanks tank 1 in
    let rightEnemies := getEnemiesInSensor tanks tank 2 in
    let rearEnemies := getEnemiesInSensor tanks tank 3 in
    if (0 <? List.length rearEnemies)%nat then
      let tank := TankM.turn tank 1 in
      TankM.move tank (5 / 10)
    else
      match frontEnemies with
      | enemy :: _ =>
          let tank := TankM.aimAt tank (e_position enemy) in
          let tank :=
            if (if Rle_dec (e_distance enemy) gunRange then true else false)
               && TankM.canFire tank
            then snd (TankM.fire tank)
            else tank in
          if Rgt_dec (e_distance enemy) (gunRange * (8 / 10))
          then TankM.move tank (8 / 10)
          else if Rlt_dec (e_distance enemy) 150
               then TankM.move tank (- (5 / 10))
               else TankM.move tank (3 / 10)
      | [] =>
          if (0 <? List.length leftEnemies)%nat then
            let tank := TankM.turn tank (- (5 / 10)) in
            TankM.move tank (3 / 10)
          else if (0 <? List.length rightEnemies)%nat then
            let tank := TankM.turn tank (5 / 10) in
            TankM.move tank (3 / 10)
          else
            let tank := TankM.turn tank (3 / 10) in
            TankM.move tank (5 / 10)
      end.

(** The candidate kept in [closestHit]. *)
Record Hit := mkHit {
  h_tank : Tank;
  h_distance : R;
  h_point : Point
}.

(** [!closestHit || distance < closestHit.distance] *)
Definition closer (dist : R) (closestHit : option Hit) : bool :=
  match closestHit with
  | None => true
  | Some hit => if Rlt_dec dist (h_distance hit) then true else false
  end.

(** The two nested loops of [fireHitscan] that look for the closest
    hit. *)
Definition findClosestHit (tanks : list Tank) (shooter : Tank)
           (startPos endPos : Point) (gunRange : R) : option Hit :=
  let arenaWidth := DEFAULT_BATTLE_CONFIG.arenaWidth in
  let arenaHeight := DEFAULT_BATTLE_CONFIG.arenaHeight in
  fold_left
    (fun closestHit tank =>
       if String.eqb (tankId tank) (tankId shooter)
          || TankM.isDead tank || negb (active tank)
       then closestHit
       else
         let wrappedPositions :=
           getWrappedPositions {| px := x tank; py := y tank |}
                               arenaWidth arenaHeight in
         let tankRadius := 24 in
         fold_left
           (fun closestHit pos =>
              match lineCircleIntersection startPos endPos pos tankRadius with
              | Some hit =>
                  let dist :=
                    Phaser.DistanceBetween (px startPos) (py startPos)
                                           (px hit) (py hit) in
                  if (if Rle_dec dist gunRange then true else false)
                     && closer dist closestHit
                  then Some {| h_tank := tank; h_distance := dist;
                               h_point := hit |}
                  else closestHit
              | None => closestHit
              end)
           wrappedPositions closestHit)
    tanks None.

(** [endGame(winner)]: the flag; the text it displays is [winnerText]. *)
Definition endGame (sc : BattleScene) : BattleScene :=
  if isGameOver sc then sc
  else {| tanks := tanks sc; tankBrains := tankBrains sc;
          isGameOver := true; isPaused := isPaused sc |}.

Definition winnerText (winner : option Tank) : string :=
  match winner with
  | Some w => String.append "Winner: " (tankId w)
  | None => "Draw!"%string
  end.

(** [checkWinCondition()]. *)
Definition checkWinCondition (sc : BattleScene) : BattleScene :=
  let aliveTanks := filter (fun t => negb (TankM.isDead t)) (tanks sc) in
  if (List.length aliveTanks <=? 1)%nat then endGame sc else sc.

(** [onTankDeath(tank)], the listener of ['tankDeath']. *)
Definition onTankDeath (sc : BattleScene) (tank : Tank) : BattleScene :=
  checkWinCondition
    {| tanks := filter (fun t => negb (String.eqb (tankId t) (tankId tank)))
                       (tanks sc);
       tankBrains := tankBrains sc;
       isGameOver := isGameOver sc; isPaused := isPaused sc |}.

(** [fireHitscan(shooter, startPos, angle)], without the tracer
    graphics: the tank that is hit takes the damage, and the scene hears
    of its death. *)
Definition fireHitscan (sc : BattleScene) (shooter : Tank) (startPos : Point)
           (angle : R) : BattleScene :=
  if negb (active shooter) || TankM.isDead shooter then sc
  else
    let gunRange := TankM.getGunRange shooter in
    let endX := px startPos + cos angle * gunRange in
    let endY := py startPos + sin angle * gunRange in
    let closestHit :=
      findClosestHit (tanks sc) shooter startPos
                     {| px := endX; py := endY |} gunRange in
    match closestHit with
    | Some hit =>
        let hitTank :=
          TankM.takeDamage (h_tank hit) (projectileDamage (stats shooter)) in
        let sc :=
          {| tanks := putTank hitTank (tanks sc);
             tankBrains := tankBrains sc;
             isGameOver := isGameOver sc; isPaused := isPaused sc |} in
        if TankM.isDead hitTank then onTankDeath sc hitTank else sc
    | None => sc
    end.

(** The rest of one tank's turn in [update]: [tank.update(delta)],
    [wrapPosition(tank)], [tank.consumeFire()] and [fireHitscan]. *)
Definition physicsTurn (delta : R) (id : string) (sc : BattleScene)
  : BattleScene :=
  match findTank id (tanks sc) with
  | None => sc
  | Some tank =>
      let tank := TankM.update tank delta in
      let tank := wrapPosition tank in
      let fireResult := fst (TankM.consumeFire tank) in
      let tank := snd (TankM.consumeFire tank) in
      let sc :=
        {| tanks := putTank tank (tanks sc); tankBrains := tankBrains sc;
           isGameOver := isGameOver sc; isPaused := isPaused sc |} in
      if fired fireResult
      then fireHitscan sc tank (f_position fireResult) (f_angle fireResult)
      else sc
  end.

(** [togglePause()]. *)
Definition togglePause (sc : BattleScene) : BattleScene :=
  if isGameOver sc then sc
  else {| tanks := tanks sc; tankBrains := tankBrains sc;
          isGameOver := isGameOver sc; isPaused := negb (isPaused sc) |}.

Local Open Scope string_scope.

Definition typeIcon (t : TraceType) : string :=
  match t with
  | sensor => "[S]"
  | action => "[A]"
  | utility => "[U]"
  | config => "[C]"
  end.

(** One line of [formatTrace]. *)
Definition formatEntry (entry : TraceEntry) : string :=
  let icon := typeIcon (type entry) in
  let line := icon +++ " " +++ method entry in
  let line :=
    match args entry with
    | Some a => if String.eqb a "" then line else line +++ " " +++ a
    | None => line
    end in
  match result entry with
  | Some r => line +++ " → " +++ r
  | None => line
  end.

(** [formatTrace(trace)]. *)
Definition formatTrace (trace : list TraceEntry) : list string :=
  if (List.length trace =? 0)%nat then ["  (no activity)"]
  else
    let lines := map formatEntry trace in
    if (15 <? List.length lines)%nat
    then "  ..." :: skipn (List.length lines - 15) lines
    else lines.

End BattleSceneM.

(* ===================================================================== *)
(** * 8. Host functions on strings *)
(* ===================================================================== *)

(** A string is read as its sequence of 8-bit code units; white space and
    word characters are the ASCII ones. *)
Module Js.

Local Open Scope char_scope.
Local Open Scope string_scope.

Definition code (c : ascii) : nat := nat_of_ascii c.

(** [\s] (and the characters removed by [trim]). *)
Definition isSpace (c : ascii) : bool :=
  (code c =? 32)%nat || ((9 <=? code c)%nat && (code c <=? 13)%nat).

Definition isUpper (c : ascii) : bool :=
  (65 <=? code c)%nat && (code c <=? 90)%nat.

Definition isLower (c : ascii) : bool :=
  (97 <=? code c)%nat && (code c <=? 122)%nat.

Definition isDigit (c : ascii) : bool :=
  (48 <=? code c)%nat && (code c <=? 57)%nat.

(** [\w] *)
Definition isWord (c : ascii) : bool :=
  isUpper c || isLower c || isDigit c || Ascii.eqb c "_".

Definition toLower (c : ascii) : ascii :=
  if isUpper c then ascii_of_nat (code c + 32) else c.

Definition newline : ascii := ascii_of_nat 10.

(** [.] without the [s] flag: anything but a line terminator. *)
Definition isDot (c : ascii) : bool :=
  negb ((code c =? 10)%nat || (code c =? 13)%nat).

Fixpoint trimStart (s : string) : string :=
  match s with
  | String c s' => if isSpace c then trimStart s' else s
  | EmptyString => EmptyString
  end.

Fixpoint trimEnd (s : string) : string :=
  match s with
  | String c s' =>
      match trimEnd s' with
      | EmptyString => if isSpace c then EmptyString else String c EmptyString
      | r => String c r
      end
  | EmptyString => EmptyString
  end.

Definition trim (s : string) : string := trimEnd (trimStart s).

Fixpoint startsWith (s prefix : string) {struct prefix} : bool :=
  match prefix, s with
  | EmptyString, _ => true
  | String p prefix', String c s' => Ascii.eqb c p && startsWith s' prefix'
  | String _ _, EmptyString => false
  end.

Fixpoint includes (s sub : string) : bool :=
  startsWith s sub
  || match s with
     | String _ s' => includes s' sub
     | EmptyString => false
     end.

Fixpoint endsWithChar (s : string) (c : ascii) : bool :=
  match s with
  | EmptyString => false
  | String a EmptyString => Ascii.eqb a c
  | String _ s' => endsWithChar s' c
  end.

(** [s.split(sep)] for a one-character separator. *)
Fixpoint split (s : string) (sep : ascii) : list string :=
  match s with
  | EmptyString => [EmptyString]
  | String c s' =>
      if Ascii.eqb c sep then EmptyString :: split s' sep
      else match split s' sep with
           | h :: t => String c h :: t
           | [] => [String c EmptyString]
           end
  end.

(** [lines.join(sep)] *)
Definition join (l : list string) (sep : string) : string :=
  String.concat sep l.

(** Number of occurrences of a character: [(s.match(/c/g) || []).length]. *)
Fixpoint countChar (s : string) (c : ascii) : nat :=
  match s with
  | EmptyString => 0
  | String a s' => (if Ascii.eqb a c then 1 else 0) + countChar s' c
  end.

(** [s.slice(0, -1)] *)
Fixpoint dropLast (s : string) : string :=
  match s with
  | EmptyString => EmptyString
  | String _ EmptyString => EmptyString
  | String c s' => String c (dropLast s')
  end.

(** [s.slice(n)] *)
Fixpoint drop (n : nat) (s : string) : string :=
  match n, s with
  | O, _ => s
  | S n', String _ s' => drop n' s'
  | S _, EmptyString => EmptyString
  end.

Fixpoint take (n : nat) (s : string) : string :=
  match n, s with
  | O, _ => EmptyString
  | S n', String c s' => String c (take n' s')
  | S _, EmptyString => EmptyString
  end.

(** Decimal rendering of a natural number in a template literal. *)
Definition natToString (n : nat) : string :=
  NilZero.string_of_uint (Nat.to_uint n).

(** ** Regular expressions

    The fragment of the host's regular expressions that the sources use,
    with the host's backtracking semantics: alternatives are tried in
    order, quantifiers are greedy, an empty iteration of a star is
    refused, and at most one capture group is recorded. *)
Inductive regex : Type :=
| Eps
| Chr (p : ascii -> bool)
| Seq (r1 r2 : regex)
| Alt (r1 r2 : regex)
| Star (r : regex)
| Group (r : regex)
| Bos
| Eos
| WordB.

Definition Plus (r : regex) : regex := Seq r (Star r).
Definition Opt (r : regex) : regex := Alt r Eps.

Definition ch (c : ascii) : regex := Chr (Ascii.eqb c).

(** The same character, ignoring case (flag [i]). *)
Definition chi (c : ascii) : regex :=
  Chr (fun a => Ascii.eqb (toLower a) (toLower c)).

Fixpoint lit (s : string) : regex :=
  match s with
  | EmptyString => Eps
  | String c EmptyString => ch c
  | String c s' => Seq (ch c) (lit s')
  end.

Fixpoint liti (s : string) : regex :=
  match s with
  | EmptyString => Eps
  | String c EmptyString => chi c
  | String c s' => Seq (chi c) (liti s')
  end.

Definition space : regex := Chr isSpace.
Definition word : regex := Chr isWord.
Definition any : regex := Chr (fun _ => true).

Fixpoint seqs (rs : list regex) : regex :=
  match rs with
  | [] => Eps
  | [r] => r
  | r :: rs' => Seq r (seqs rs')
  end.

(** [r1|r2|...], tried in this order. *)
Fixpoint alts (rs : list regex) : regex :=
  match rs with
  | [] => Chr (fun _ => false)
  | [r] => r
  | r :: rs' => Alt r (alts rs')
  end.

(** The state of a match attempt: the character before the cursor (none
    at the start of the input), the input from the cursor on, and the
    text of the capture group if it has taken part. *)
Record MState := mkM {
  prev : option ascii;
  rest : string;
  cap : option string
}.

Definition isWordOpt (c : option ascii) : bool :=
  match c with
  | Some a => isWord a
  | None => false
  end.

Definition nextChar (s : string) : option ascii :=
  match s with
  | String c _ => Some c
  | EmptyString => None
  end.

Fixpoint run (r : regex) (st : MState) (k : MState -> option MState)
  : option MState :=
  match r with
  | Eps => k st
  | Chr p =>
      match rest st with
      | String c s' =>
          if p c then k {| prev := Some c; rest := s'; cap := cap st |}
          else None
      | EmptyString => None
      end
  | Seq r1 r2 => run r1 st (fun st' => run r2 st' k)
  | Alt r1 r2 =>
      match run r1 st k with
      | Some res => Some res
      | None => run r2 st k
      end
  | Star r1 =>
      (fix loop (fuel : nat) (st : MState) {struct fuel} : option MState :=
         match fuel with
         | O => k st
         | S fuel' =>
             match run r1 st
                       (fun st' =>
                          if (String.length (rest st')
                              <? String.length (rest st))%nat
                          then loop fuel' st' else None) with
             | Some res => Some res
             | None => k st
             end
         end) (String.length (rest st)) st
  | Group r1 =>
      run r1 st
          (fun st' =>
             k {| prev := prev st'; rest := rest st';
                  cap := Some (take (String.length (rest st)
                                     - String.length (rest st'))
                                    (rest st)) |})
  | Bos => match prev st with
           | None => k st
           | Some _ => None
           end
  | Eos => match rest st with
           | EmptyString => k st
           | String _ _ => None
           end
  | WordB =>
      if xorb (isWordOpt (prev st)) (isWordOpt (nextChar (rest st)))
      then k st else None
  end.

(** A match attempt at the cursor. *)
Definition matchHere (r : regex) (p : option ascii) (s : string)
  : option MState :=
  run r {| prev := p; rest := s; cap := None |} Some.

(** The leftmost match at or after the cursor: the text skipped before
    it and the state at its end. *)
Fixpoint search (r : regex) (p : option ascii) (s : string)
  : option (string * MState) :=
  match matchHere r p s with
  | Some st => Some (EmptyString, st)
  | None =>
      match s with
      | EmptyString => None
      | String c s' =>
          match search r (Some c) s' with
          | Some (skipped, st) => Some (String c skipped, st)
          | None => None
          end
      end
  end.

(** [regex.test(s)] for a regex without the [g] flag. *)
Definition test (r : regex) (s : string) : bool :=
  match search r None s with
  | Some _ => true
  | None => false
  end.

(** [s.match(regex)] without the [g] flag: the first capture group of the
    leftmost match (the empty string stands for a group that matched
    nothing). *)
Definition matchGroup (r : regex) (s : string) : option string :=
  match search r None s with
  | Some (_, st) =>
      Some match cap st with
           | Some g => g
           | None => EmptyString
           end
  | None => None
  end.

(** The text of a match that starts at [s] and ends in state [st]. *)
Definition matched (s : string) (st : MState) : string :=
  take (String.length s - String.length (rest st)) s.

(** [s.replace(regex, f)] without the [g] flag: the leftmost match is
    replaced by [f] of its capture group. *)
Definition replaceFirst (r : regex) (f : option string -> string) (s : string)
  : string :=
  match search r None s with
  | Some (skipped, st) => skipped +++ f (cap st) +++ rest st
  | None => s
  end.

(** [s.replace(regex, f)] with the [g] flag, for a regex that matches no
    empty text: matches are found from left to right, each search
    starting where the previous match ended; [f] receives the value of a
    counter, which each match increments, and the capture group. *)
Fixpoint replaceAllFrom (fuel : nat) (r : regex)
         (f : nat -> option string -> string) (n : nat)
         (p : option ascii) (s : string) : string * nat :=
  match fuel with
  | O => (s, n)
  | S fuel' =>
      match search r p s with
      | None => (s, n)
      | Some (skipped, st) =>
          let tail := replaceAllFrom fuel' r f (S n) (prev st) (rest st) in
          (skipped +++ f n (cap st) +++ fst tail, snd tail)
      end
  end.

Definition replaceAll (r : regex) (f : nat -> option string -> string)
           (count : nat) (s : string) : string * nat :=
  replaceAllFrom (S (String.length s)) r f count None s.

(** [s.matchAll(regex)]: the capture groups of the successive matches. *)
Fixpoint matchAllFrom (fuel : nat) (r : regex) (p : option ascii) (s : string)
  : list string :=
  match fuel with
  | O => []
  | S fuel' =>
      match search r p s with
      | None => []
      | Some (_, st) =>
          match cap st with
          | Some g => g
          | None => EmptyString
          end :: matchAllFrom fuel' r (prev st) (rest st)
      end
  end.

Definition matchAll (r : regex) (s : string) : list string :=
  matchAllFrom (S (String.length s)) r None s.

End Js.

(* ===================================================================== *)
(** * 9. Cleaner, validator and loop guards ([src/llm/CodeValidator.ts]) *)
(* ===================================================================== *)

Record ValidationResult := mkValidation {
  valid : bool;
  errors : list string;
  warnings : list string
}.

(** A regular expression literal of the sources: its text ([source]) and
    its meaning. *)
Record Pattern := mkPattern {
  source : string;
  re : Js.regex
}.

Module CodeValidator.

Import Js.
Local Open Scope char_scope.
Local Open Scope string_scope.

(** [/\bNAME\b/] *)
Definition wholeWord (name : string) : Pattern :=
  {| source := "\b" +++ name +++ "\b";
     re := seqs [WordB; lit name; WordB] |}.

(** [/\bNAME\s*\(/] *)
Definition callOf (name : string) : Pattern :=
  {| source := "\b" +++ name +++ "\s*\(";
     re := seqs [WordB; lit name; Star space; ch "("] |}.

Definition FORBIDDEN_PATTERNS : list Pattern :=
  [ callOf "eval";
    callOf "Function";
    {| source := "\bnew\s+Function\b";
       re := seqs [WordB; lit "new"; Plus space; lit "Function"; WordB] |};
    callOf "import";
    {| source := "\bimport\s+";
       re := seqs [WordB; lit "import"; Plus space] |};
    callOf "require";
    callOf "fetch";
    wholeWord "XMLHttpRequest";
    wholeWord "WebSocket";
    wholeWord "window";
    wholeWord "document";
    wholeWord "global";
    wholeWord "process";
    wholeWord "__dirname";
    wholeWord "__filename";
    wholeWord "setTimeout";
    wholeWord "setInterval";
    wholeWord "setImmediate";
    wholeWord "requestAnimationFrame";
    wholeWord "localStorage";
    wholeWord "sessionStorage";
    wholeWord "indexedDB";
    wholeWord "navigator";
    wholeWord "location";
    wholeWord "history";
    wholeWord "alert";
    wholeWord "confirm";
    wholeWord "prompt";
    {| source := "\.constructor\b";
       re := seqs [ch "."; lit "constructor"; WordB] |};
    {| source := "\.__proto__\b";
       re := seqs [ch "."; lit "__proto__"; WordB] |};
    wholeWord "prototype";
    wholeWord "this" ].

Definition ALLOWED_TANK_METHODS : list string :=
  [ "getPosition"; "getHealth"; "getHeading"; "getTurretHeading"; "canFire";
    "getNearestEnemy"; "getEnemies";
    "configureSensors"; "getSensorCount"; "getSensorConstraints";
    "scan"; "scanAll";
    "getGunRange"; "getArenaBounds";
    "isCollidingWithWall"; "getWallCollisionSides"; "getWallDistance";
    "scanWall";
    "move"; "turn"; "aimAt"; "fire";
    "angleTo"; "distanceTo" ].

(** [set.has(name)] *)
Definition has (set : list string) (name : string) : bool :=
  existsb (String.eqb name) set.

(** The loop of [checkForbiddenPatterns] over the remaining patterns. *)
Fixpoint forbiddenLoop (patterns : list Pattern) (code : string)
         (errors : list string) : list string :=
  match patterns with
  | [] => errors
  | pattern :: patterns' =>
      forbiddenLoop patterns' code
        (if test (re pattern) code
         then (errors ++ ["Forbidden pattern detected: " +++ source pattern])%list
         else errors)
  end.

Definition checkForbiddenPatterns (code : string) : list string :=
  forbiddenLoop FORBIDDEN_PATTERNS code [].

(** [/tank\.(\w+)\s*\(/g] *)
Definition tankCallRe : regex :=
  seqs [lit "tank"; ch "."; Group (Plus word); Star space; ch "("].

Fixpoint methodLoop (names : list string) (warnings : list string)
  : list string :=
  match names with
  | [] => warnings
  | methodName :: names' =>
      methodLoop names'
        (if negb (has ALLOWED_TANK_METHODS methodName)
         then (warnings
                 ++ ["Unknown tank method: tank." +++ methodName +++ "()"])%list
         else warnings)
  end.

Definition validateTankMethods (code : string) : list string :=
  methodLoop (matchAll tankCallRe code) [].

(** ** Loop guards *)

Definition LOOP_LIMIT : nat := 100.

Definition notClosing (c : ascii) : bool := negb (Ascii.eqb c ")").

(** [/\bKEYWORD\s*\(([^)]+)\)\s*\{/g] *)
Definition loopRe (keyword : string) : regex :=
  seqs [WordB; lit keyword; Star space; ch "(";
        Group (Plus (Chr notClosing)); ch ")"; Star space; ch "{"].

(** The replacement callback: [guardCounter] is the counter before the
    increment, [condition] the capture group. *)
Definition guardText (keyword : string) (guardCounter : nat)
           (condition : option string) : string :=
  let varName := "__loopGuard" +++ Js.natToString guardCounter in
  "{ let " +++ varName +++ "=0; " +++ keyword +++ " ("
    +++ match condition with Some c => c | None => "" end
    +++ ") { if(++" +++ varName +++ ">" +++ Js.natToString LOOP_LIMIT
    +++ ")break;".

Fixpoint closeGuards (n : nat) (code : string) : string :=
  match n with
  | O => code
  | S n' => closeGuards n' (code +++ " }")
  end.

Definition injectLoopGuards (code : string) : string :=
  let guardCounter := 0%nat in
  let step1 := replaceAll (loopRe "while") (guardText "while")
                          guardCounter code in
  let code := fst step1 in
  let guardCounter := snd step1 in
  let step2 := replaceAll (loopRe "for") (guardText "for") guardCounter code in
  let code := fst step2 in
  let guardCounter := snd step2 in
  closeGuards guardCounter code.

(** ** The cleaner *)

(** Where the scanner of [stripComments] is: in code, inside a string
    opened by [q], just after a backslash inside that string, on the
    star that opens a block comment, inside a block comment, or inside a
    line comment. *)
Inductive ScanMode : Type :=
| InCode
| InString (q : ascii)
| Escaped (q : ascii)
| BlockOpen
| InBlock
| InLine.

Definition doubleQuote : ascii := ascii_of_nat 34.

Definition isQuote (c : ascii) : bool :=
  Ascii.eqb c doubleQuote || Ascii.eqb c "'" || Ascii.eqb c "`".

(** The character loop of [stripComments]: what is appended to [result]
    from the cursor on. *)
Fixpoint scan (mode : ScanMode) (code : string) : string :=
  match code with
  | EmptyString => EmptyString
  | String char code' =>
      match mode with
      | Escaped q => String char (scan (InString q) code')
      | InString q =>
          if Ascii.eqb char "\" then String char (scan (Escaped q) code')
          else if Ascii.eqb char q then String char (scan InCode code')
          else String char (scan (InString q) code')
      | InCode =>
          if isQuote char then String char (scan (InString char) code')
          else if Ascii.eqb char "/" then
            match code' with
            | String "*" _ => scan BlockOpen code'
            | String "/" _ => scan InLine code'
            | _ => String char (scan InCode code')
            end
          else String char (scan InCode code')
      | BlockOpen => scan InBlock code'
      | InBlock =>
          match code' with
          | EmptyString => String char EmptyString
          | String next code'' =>
              if Ascii.eqb char "*" && Ascii.eqb next "/"
              then scan InCode code''
              else scan InBlock code'
          end
      | InLine =>
          if Ascii.eqb char newline then String char (scan InCode code')
          else scan InLine code'
      end
  end.

Definition nonBlank (line : string) : bool :=
  (0 <? String.length (trim line))%nat.

Definition stripComments (code : string) : string :=
  let result := scan InCode code in
  let lines := split result newline in
  let cleanedLines := filter nonBlank lines in
  trim (join cleanedLines (String newline EmptyString)).

Definition languageTag : regex :=
  alts [liti "javascript"; liti "js"; liti "typescript"; liti "ts"].

(** [/^```(?:javascript|js|typescript|ts)?\n?/gi] *)
Definition fenceOpenRe : regex :=
  seqs [Bos; lit "```"; Opt languageTag; Opt (ch newline)].

(** [/\n?```\s*$/gi] *)
Definition fenceCloseRe : regex :=
  seqs [Opt (ch newline); lit "```"; Star space; Eos].

Definition colonOrSpace (c : ascii) : bool := Ascii.eqb c ":" || isSpace c.

(** [/^(?:here'?s?\s+(?:the\s+)?(?:code|solution|implementation)[:\s]*\n?)/i] *)
Definition herePrefixRe : regex :=
  seqs [Bos; liti "here"; Opt (ch "'"); Opt (chi "s"); Plus space;
        Opt (Seq (liti "the") (Plus space));
        alts [liti "code"; liti "solution"; liti "implementation"];
        Star (Chr colonOrSpace); Opt (ch newline)].

(** [/^(?:async\s+)?function\s+\w*\s*\(\s*tank\s*\)\s*\{(BODY)\}\s*$/],
    where BODY is [[\s\S]*]. *)
Definition funcRe : regex :=
  seqs [Bos; Opt (Seq (lit "async") (Plus space)); lit "function"; Plus space;
        Star word; Star space; ch "("; Star space; lit "tank"; Star space;
        ch ")"; Star space; ch "{"; Group (Star any); ch "}"; Star space; Eos].

(** [/^(?:const|let|var)\s+\w+\s*=\s*\(?\s*tank\s*\)?\s*=>\s*\{(BODY)\}\s*;?\s*$/] *)
Definition arrowRe : regex :=
  seqs [Bos; alts [lit "const"; lit "let"; lit "var"]; Plus space; Plus word;
        Star space; ch "="; Star space; Opt (ch "("); Star space; lit "tank";
        Star space; Opt (ch ")"); Star space; lit "=>"; Star space; ch "{";
        Group (Star any); ch "}"; Star space; Opt (ch ";"); Star space; Eos].

(** [/^\(?\s*tank\s*\)?\s*=>\s*\{(BODY)\}\s*;?\s*$/] *)
Definition pureArrowRe : regex :=
  seqs [Bos; Opt (ch "("); Star space; lit "tank"; Star space; Opt (ch ")");
        Star space; lit "=>"; Star space; ch "{"; Group (Star any); ch "}";
        Star space; Opt (ch ";"); Star space; Eos].

Definition isEndMark (c : ascii) : bool :=
  Ascii.eqb c "." || Ascii.eqb c "!" || Ascii.eqb c "?".

(** [/^[A-Z][a-z].*[.!?]$/] *)
Definition proseRe : regex :=
  seqs [Bos; Chr isUpper; Chr isLower; Star (Chr isDot); Chr isEndMark; Eos].

(** [/\}\s*$/] *)
Definition closingBraceRe : regex := seqs [ch "}"; Star space; Eos].

(** The test that a line starts the code. *)
Definition looksLikeCode (trimmedLine : string) : bool :=
  includes trimmedLine "tank."
  || startsWith trimmedLine "const "
  || startsWith trimmedLine "let "
  || startsWith trimmedLine "var "
  || startsWith trimmedLine "if "
  || startsWith trimmedLine "if("
  || startsWith trimmedLine "for "
  || startsWith trimmedLine "while "
  || startsWith trimmedLine "return "
  || startsWith trimmedLine "switch "
  || startsWith trimmedLine "try ".

(** [codeLines] with its last element replaced. *)
Definition setLast (codeLines : list string) (line : string) : list string :=
  (removelast codeLines ++ [line])%list.

(** The loop [for (const line of lines)] of [cleanCode]; the result is
    [codeLines] when the loop ends. *)
Fixpoint lineLoop (lines : list string) (inCode : bool) (braceDepth : Z)
         (codeLines : list string) : list string :=
  match lines with
  | [] => codeLines
  | line :: lines' =>
      let trimmedLine := trim line in
      if negb inCode && String.eqb trimmedLine "" then
        lineLoop lines' inCode braceDepth codeLines
      else
        let inCode := if negb inCode && looksLikeCode trimmedLine
                      then true else inCode in
        if inCode then
          let braceDepth := (braceDepth + Z.of_nat (countChar line "{"))%Z in
          let braceDepth := (braceDepth - Z.of_nat (countChar line "}"))%Z in
          if test proseRe trimmedLine && negb (includes trimmedLine "//")
             && (braceDepth =? 0)%Z
          then codeLines
          else
            let codeLines := (codeLines ++ [line])%list in
            if (braceDepth <? 0)%Z then
              let lastLine := last codeLines "" in
              let codeLines :=
                setLast codeLines
                        (trimEnd (replaceFirst closingBraceRe (fun _ => "")
                                               lastLine)) in
              if String.eqb (trim (last codeLines "")) ""
              then removelast codeLines
              else codeLines
            else lineLoop lines' inCode braceDepth codeLines
        else lineLoop lines' inCode braceDepth codeLines
  end.

(** The loop [while (result.endsWith('}'))]: every turn that does not
    break removes at least one character. *)
Fixpoint orphanLoop (fuel : nat) (result : string) : string :=
  match fuel with
  | O => result
  | S fuel' =>
      if endsWithChar result "}" then
        let openCount := countChar result "{" in
        let closeCount := countChar result "}" in
        if (openCount <? closeCount)%nat
        then orphanLoop fuel' (trim (dropLast result))
        else result
      else result
  end.

(** Length of the leading white space of a line (the capture group of
    the match of [^\s*] at its start). *)
Fixpoint indentOf (line : string) : nat :=
  match line with
  | String c line' => if isSpace c then S (indentOf line') else 0
  | EmptyString => 0
  end.

(** The [reduce] that computes [minIndent]; [None] is [Infinity]. *)
Definition minIndentOf (resultLines : list string) : option nat :=
  fold_left (fun min line =>
               let indent := indentOf line in
               match min with
               | None => Some indent
               | Some m => Some (Nat.min m indent)
               end)
            (filter nonBlank resultLines) None.

Definition cleanCode (rawCode : string) : string :=
  let code := trim rawCode in
  let code := fst (replaceAll fenceOpenRe (fun _ _ => "") 0 code) in
  let code := fst (replaceAll fenceCloseRe (fun _ _ => "") 0 code) in
  let code := trim code in
  let code := replaceFirst herePrefixRe (fun _ => "") code in
  let code := trim code in
  let code := stripComments code in
  let code := match matchGroup funcRe code with
              | Some body => trim body
              | None => code
              end in
  let code := match matchGroup arrowRe code with
              | Some body => trim body
              | None => code
              end in
  let code := match matchGroup pureArrowRe code with
              | Some body => trim body
              | None => code
              end in
  let lines := split code newline in
  let codeLines := lineLoop lines false 0%Z [] in
  match codeLines with
  | [] => trim code
  | _ =>
      let result := trim (join codeLines (String newline EmptyString)) in
      let result := orphanLoop (String.length result) result in
      let resultLines := split result newline in
      let minIndent := minIndentOf resultLines in
      let result :=
        match minIndent with
        | Some (S n) =>
            join (map (drop (S n)) resultLines) (String newline EmptyString)
        | _ => result
        end in
      trim result
  end.

Definition getCleanedCode (rawCode : string) : string := cleanCode rawCode.

End CodeValidator.

(** ** The validator's stand-in for the capability object *)

(** The mutable variables that the closures of [createMockTank] share. *)
Record MockTank := mkMock {
  fireCount : nat;
  sensorCount : nat
}.

Definition mockEnemy : EnemyInfo :=
  {| e_id := "enemy-1"; e_position := {| px := 200; py := 200 |};
     e_heading := 0; e_turretHeading := 0;
     e_velocity := {| px := 0; py := 0 |}; e_health := 100;
     e_distance := 141; e_bearing := 45 |}.

Definition MAX_FIRES_PER_TICK : nat := 1.

(** [CodeValidator.createMockTank]. *)
Definition createMockTank : TankAPI MockTank :=
  {| getPosition := ret {| px := 100; py := 100 |};
     getHealth := ret 100;
     getHeading := ret 0;
     getTurretHeading := ret 0;
     canFire := gets (fun m => (fireCount m <? MAX_FIRES_PER_TICK)%nat);
     getNearestEnemy := ret (Some mockEnemy);
     getEnemies := ret [mockEnemy];
     configureSensors := fun configs =>
       match configs with
       | Some configs =>
           if (0 <? List.length configs)%nat
              && (List.length configs <=? 8)%nat
           then bind (modify (fun m =>
                                {| fireCount := fireCount m;
                                   sensorCount := List.length configs |}))
                     (fun _ => ret true)
           else ret false
       | None => ret false
       end;
     getSensorCount := gets sensorCount;
     scan := fun index => if (index =? 0)%Z then ret [mockEnemy] else ret [];
     scanAll := ret [mockEnemy];
     getGunRange := ret 350;
     getSensorConstraints :=
       ret {| c_maxSensors := 8; c_maxArc := 120; c_maxRange := 400;
              c_minArc := 10; c_minRange := 50 |};
     getArenaBounds := ret {| width := 1200; height := 800 |};
     isCollidingWithWall := ret false;
     getWallCollisionSides := ret [];
     getWallDistance := fun _ => ret (Fin 300);
     scanWall := fun _ =>
       ret (Some {| w_distance := Fin 300; w_angle := 0 |});
     move := fun _ => ret tt;
     turn := fun _ => ret tt;
     aimAt := fun _ => ret tt;
     fire :=
       bind (modify (fun m => {| fireCount := S (fireCount m);
                                 sensorCount := sensorCount m |}))
            (fun _ => gets (fun m => (fireCount m <=? MAX_FIRES_PER_TICK)%nat));
     angleTo := fun _ => ret 45;
     distanceTo := fun _ => ret 141 |}.

Definition freshMock : MockTank := {| fireCount := 0; sensorCount := 4 |}.

Record Check := mkCheck {
  ck_valid : bool;
  ck_error : option string
}.

Section Validation.

(** The host's [new Function('tank', body)]: a [SyntaxError] with its
    message, or the callable, given by what it does when called. *)
Variable newFunction : string -> Outcome Script.

Local Open Scope string_scope.

Definition validateSyntax (code : string) : Check :=
  match newFunction code with
  | Normal _ => {| ck_valid := true; ck_error := None |}
  | Thrown message =>
      {| ck_valid := false; ck_error := Some ("Syntax error: " +++ message) |}
  end.

Definition testExecution (code : string) : Check :=
  let attempt : Outcome unit :=
    let mockTank := createMockTank in
    let guardedCode := CodeValidator.injectLoopGuards code in
    match newFunction guardedCode with
    | Thrown message => Thrown message
    | Normal fn => fst (runScript mockTank fn freshMock)
    end in
  match attempt with
  | Normal _ => {| ck_valid := true; ck_error := None |}
  | Thrown message =>
      {| ck_valid := false; ck_error := Some ("Runtime error: " +++ message) |}
  end.

Definition errorOf (c : Check) : string :=
  match ck_error c with
  | Some e => e
  | None => "undefined"
  end.

(** [CodeValidator.validate]: the full pipeline. *)
Definition validate (rawCode : string) : ValidationResult :=
  let errors : list string := [] in
  let warnings : list string := [] in
  let code := CodeValidator.cleanCode rawCode in
  let syntaxResult := validateSyntax code in
  if negb (ck_valid syntaxResult) then
    {| valid := false; errors := (errors ++ [errorOf syntaxResult])%list;
       warnings := warnings |}
  else
    let forbiddenErrors := CodeValidator.checkForbiddenPatterns code in
    let errors := (errors ++ forbiddenErrors)%list in
    let methodWarnings := CodeValidator.validateTankMethods code in
    let warnings := (warnings ++ methodWarnings)%list in
    let errors :=
      if (List.length errors =? 0)%nat then
        let execResult := testExecution code in
        if negb (ck_valid execResult)
        then (errors ++ [errorOf execResult])%list
        else errors
      else errors in
    {| valid := (List.length errors =? 0)%nat;
       errors := errors; warnings := warnings |}.

(** [TankBrain.compile]. *)
Definition compile (b : TankBrain) : TankBrain :=
  let guardedCode := CodeValidator.injectLoopGuards (code b) in
  match newFunction guardedCode with
  | Normal fn => set_compiled b (Some fn) None
  | Thrown message =>
      set_console
        (set_compiled b None (Some ("Compilation error: " +++ message)))
        (console b ++ ["TankBrain compilation error: " +++ message])%list
  end.

(** [TankBrain.setCode]. *)
Definition setCode (b : TankBrain) (code : string) : TankBrain :=
  compile (set_code b code).

(** [new TankBrain(tank, code, getEnemiesFn)]. *)
Definition newTankBrain (tank : Tank) (code : string)
           (getEnemiesFn : Tank -> list EnemyInfo) : TankBrain :=
  compile {| tank := tank; code := code; compiledFunction := None;
             error := None; getEnemiesFn := getEnemiesFn;
             lastTrace := []; console := [] |}.

End Validation.

(* ===================================================================== *)
(** * 10. The generation orchestrator ([class LLMService]) *)
(* ===================================================================== *)

Record TankBehavior := mkBehavior {
  bh_code : string;
  bh_strategy : string;
  bh_isValid : bool;
  bh_error : option string
}.

Record GenerationResult := mkGeneration {
  success : bool;
  behavior : option TankBehavior;
  gen_error : option string;
  rawResponse : option string
}.

Record LLMResponse := mkResponse {
  rsp_success : bool;
  content : option string;
  rsp_error : option string
}.

(** The inference backend as the service sees it: whether a model is
    loaded, and how many requests it has received. *)
Record Provider := mkProvider {
  modelLoaded : bool;
  requests : nat
}.

(** [!value] for an optional string: absent or empty. *)
Definition falsy (v : option string) : bool :=
  match v with
  | None => true
  | Some s => String.eqb s ""
  end.

(** [a || b] on optional strings. *)
Definition orElse (a b : option string) : option string :=
  if falsy a then b else a.

(** The text of an optional string in a template literal. *)
Definition render (v : option string) : string :=
  match v with
  | Some s => s
  | None => "undefined"
  end.

Module PromptBuilder.

Local Open Scope string_scope.

Definition NL : string := String Js.newline EmptyString.

Definition buildUserPrompt (userStrategy : string) : string :=
  "Write tank AI code for this strategy: " +++ String CodeValidator.doubleQuote
    userStrategy +++ String CodeValidator.doubleQuote NL +++ NL
    +++ "IMPORTANT: Output ONLY the raw code body. NO markdown, NO function wrapper, NO explanations, NO comments."
    +++ NL
    +++ "You may optionally call tank.configureSensors([...]) at the start to customize your sensor layout."
    +++ NL +++ "Start directly with code.".

End PromptBuilder.

Section LLMService.

(** The text constant [TANK_API_SYSTEM_PROMPT] of the prompt builder. *)
Variable TANK_API_SYSTEM_PROMPT : string.

(** The backend: its answer to its n-th request, given the two prompts;
    the request may also fail with an exception. *)
Variable respond : nat -> string -> string -> Outcome LLMResponse.

(** The validator handed to the constructor of the service. *)
Variable validate : string -> ValidationResult.
Variable getCleanedCode : string -> string.

Local Open Scope string_scope.
Local Open Scope exec_scope.

(** [this.provider.generate(systemPrompt, userPrompt)]. *)
Definition provider_generate (systemPrompt userPrompt : string)
  : Exec Provider LLMResponse :=
  fun p =>
    (respond (requests p) systemPrompt userPrompt,
     {| modelLoaded := modelLoaded p; requests := S (requests p) |}).

Definition failure (message : option string) : GenerationResult :=
  {| success := false; behavior := None; gen_error := message;
     rawResponse := None |}.

(** [LLMService.generateBehavior]. *)
Definition generateBehavior (userStrategy : string)
  : Exec Provider GenerationResult :=
  tryCatch
    (loaded <- gets modelLoaded ;;
     if negb loaded then
       ret (failure
              (Some "Model not loaded. Please wait for the model to finish loading."))
     else
       let systemPrompt := TANK_API_SYSTEM_PROMPT in
       let userPrompt := PromptBuilder.buildUserPrompt userStrategy in
       response <- provider_generate systemPrompt userPrompt ;;
       if negb (rsp_success response) || falsy (content response) then
         ret (failure (orElse (rsp_error response)
                              (Some "No response from model")))
       else
         let rawResponse := render (content response) in
         let cleanedCode := getCleanedCode rawResponse in
         let validation := validate rawResponse in
         if negb (valid validation) then
           ret {| success := false;
                  gen_error :=
                    Some (Js.join (errors validation) PromptBuilder.NL);
                  rawResponse := Some rawResponse;
                  behavior :=
                    Some {| bh_code := cleanedCode;
                            bh_strategy := userStrategy;
                            bh_isValid := false;
                            bh_error :=
                              Some (Js.join (errors validation)
                                            PromptBuilder.NL) |} |}
         else
           ret {| success := true;
                  behavior :=
                    Some {| bh_code := cleanedCode;
                            bh_strategy := userStrategy;
                            bh_isValid := true; bh_error := None |};
                  gen_error := None;
                  rawResponse := Some rawResponse |})
    (fun message => ret (failure (Some message))).

(** [LLMService.regenerateWithFeedback]. *)
Definition regenerateWithFeedback (userStrategy previousCode errorMessage : string)
  : Exec Provider GenerationResult :=
  let fixHint :=
    if Js.includes errorMessage "enemy.distanceTo is not a function" then
      PromptBuilder.NL +++ "FIX: Use tank.distanceTo(enemy.position) instead of enemy.distanceTo(). Enemy objects are plain data with no methods."
    else if Js.includes errorMessage "enemy.angleTo is not a function" then
      PromptBuilder.NL +++ "FIX: Use tank.angleTo(enemy.position) instead of enemy.angleTo(). Enemy objects are plain data with no methods."
    else if Js.includes errorMessage "is not a function" then
      PromptBuilder.NL +++ "FIX: Only use methods defined in the API. Enemy objects have no methods - only data (position, distance, health)."
    else "" in
  let feedbackPrompt :=
    PromptBuilder.buildUserPrompt userStrategy +++ PromptBuilder.NL
      +++ PromptBuilder.NL +++ "CRITICAL ERROR in your previous code:"
      +++ PromptBuilder.NL +++ errorMessage +++ fixHint +++ PromptBuilder.NL
      +++ PromptBuilder.NL +++ "Your broken code:" +++ PromptBuilder.NL
      +++ previousCode +++ PromptBuilder.NL +++ PromptBuilder.NL
      +++ "Output ONLY the fixed code. Do NOT repeat the same mistake." in
  tryCatch
    (response <- provider_generate TANK_API_SYSTEM_PROMPT feedbackPrompt ;;
     if negb (rsp_success response) || falsy (content response) then
       ret (failure (orElse (rsp_error response)
                            (Some "No response from model")))
     else
       let rawResponse := render (content response) in
       let cleanedCode := getCleanedCode rawResponse in
       let validation := validate rawResponse in
       if negb (valid validation) then
         ret {| success := false; behavior := None;
                gen_error :=
                  Some (Js.join (errors validation) PromptBuilder.NL);
                rawResponse := Some rawResponse |}
       else
         ret {| success := true;
                behavior :=
                  Some {| bh_code := cleanedCode;
                          bh_strategy := userStrategy;
                          bh_isValid := true; bh_error := None |};
                gen_error := None;
                rawResponse := Some rawResponse |})
    (fun message => ret (failure (Some message))).

(** [result.behavior?.code] *)
Definition behaviorCode (result : GenerationResult) : option string :=
  match behavior result with
  | Some b => Some (bh_code b)
  | None => None
  end.

(** The loop [for (let i = 0; i < maxRetries && !result.success; i++)] of
    [generateWithAutoRetry], with [remaining] turns left
    ([maxRetries - i]); it yields the last [result]. *)
Fixpoint retryLoop (remaining : nat) (userStrategy : string)
         (result : GenerationResult) (lastCode : string)
  : Exec Provider GenerationResult :=
  match remaining with
  | O => ret result
  | S remaining' =>
      if success result then ret result
      else if String.eqb lastCode "" then ret result
      else
        result <- regenerateWithFeedback userStrategy lastCode
                    (render (orElse (gen_error result)
                                    (Some "Unknown error"))) ;;
        let lastCode :=
          if negb (falsy (behaviorCode result))
          then render (behaviorCode result)
          else if negb (falsy (rawResponse result))
               then render (rawResponse result)
               else lastCode in
        retryLoop remaining' userStrategy result lastCode
  end.

(** [LLMService.generateWithAutoRetry]. *)
Definition generateWithAutoRetry (userStrategy : string) (maxRetries : nat)
  : Exec Provider GenerationResult :=
  result <- generateBehavior userStrategy ;;
  let lastCode :=
    render (orElse (orElse (behaviorCode result) (rawResponse result))
                   (Some "")) in
  result <- retryLoop maxRetries userStrategy result lastCode ;;
  if negb (success result) then
    ret {| success := false; behavior := None;
           gen_error :=
             Some ("Code generation failed after "
                     +++ Js.natToString maxRetries
                     +++ " attempts. Last error: "
                     +++ render (gen_error result));
           rawResponse := rawResponse result |}
  else ret result.

End LLMService.

(* ===================================================================== *)
(** * 11. Vocabulary of the statements and sample data *)
(* ===================================================================== *)

(** ** Vocabulary of the sensor statements *)

(** The fields of the agent other than its sensor list. *)
Definition same_but_sensors (t t' : Tank) : Prop :=
  t' = set_sensors t (sensors t').

(** The documented bounds of one stored sensor. *)
Definition within_constraints (s : SensorConfig) : Prop :=
  SENSOR_CONSTRAINTS.minArc <= arc s <= SENSOR_CONSTRAINTS.maxArc
  /\ SENSOR_CONSTRAINTS.minRange <= range s <= SENSOR_CONSTRAINTS.maxRange.

(** A sample agent: the first tank with the default statistics. *)
Definition tank0 : Tank :=
  {| tankId := "tank-0"; stats := DEFAULT_TANK_STATS; x := 100; y := 100;
     rotation := 0; turretRotation := 0; active := true; now := 1000;
     currentHealth := 100; lastFireTime := 0; targetTurretAngle := 0;
     moveInput := 0; turnInput := 0; wantsFire := false;
     sensors := defaultSensors DEFAULT_TANK_STATS;
     arenaWidth := 1200; arenaHeight := 800 |}.

(** ** Vocabulary of the cone-membership statements *)

(** Distance from the observer to a point, as [isPointInSensorIndex]
    computes it. *)
Definition distanceOf (t : Tank) (point : Point) : R :=
  let dx := px point - x t in
  let dy := py point - y t in
  sqrt (dx * dx + dy * dy).

(** Bearing from the observer to a point, in degrees. *)
Definition bearingOf (t : Tank) (point : Point) : R :=
  Phaser.RadToDeg (JsMath.atan2 (py point - y t) (px point - x t)).

(** Absolute centre bearing of a sensor: observer heading plus offset. *)
Definition centreOf (t : Tank) (s : SensorConfig) : R :=
  Phaser.RadToDeg (rotation t) + offset s.

(** The point at the given bearing (degrees) and distance from the
    observer. *)
Definition pointAt (t : Tank) (bearing dist : R) : Point :=
  {| px := x t + dist * cos (Phaser.DegToRad bearing);
     py := y t + dist * sin (Phaser.DegToRad bearing) |}.

(** ** Sample data *)

(** The observer of scenario C: heading 0, one sensor of arc 90, range
    400 and offset 0. *)
Definition tankC : Tank := set_sensors tank0 [mkSensor 90 400 0].

(** An enemy seen from [tankC] at the given bearing and distance. *)
Definition enemyAt (id : string) (bearing dist : R) : EnemyInfo :=
  {| e_id := id; e_position := pointAt tankC bearing dist;
     e_heading := 0; e_turretHeading := 0;
     e_velocity := {| px := 0; py := 0 |}; e_health := 100;
     e_distance := dist; e_bearing := bearing |}.

(** A unit bound to [t] that sees the enemies [l] and runs [fn]. *)
Definition brainOf (t : Tank) (l : list EnemyInfo) (fn : option Script)
  : TankBrain :=
  {| tank := t; code := ""; compiledFunction := fn; error := None;
     getEnemiesFn := fun _ => l; lastTrace := []; console := [] |}.

(** ** Scripts that do not throw *)

(** The script that makes the same calls and returns where the given one
    throws. *)
Fixpoint quiet (s : Script) : Script :=
  match s with
  | SReturn => SReturn
  | SThrow _ => SReturn
  | SCall c k => SCall c (fun r => quiet (k r))
  end.

(** A unit with another callable and another console history. *)
Definition relabel (fn : option Script) (log : list string) (b : TankBrain)
  : TankBrain :=
  {| tank := tank b; code := code b; compiledFunction := fn;
     error := error b; getEnemiesFn := getEnemiesFn b;
     lastTrace := lastTrace b; console := log |}.

Definition quietBrain (b : TankBrain) : TankBrain :=
  relabel (option_map quiet (compiledFunction b)) [] b.

Definition quietScene (sc : BattleScene) : BattleScene :=
  {| tanks := tanks sc;
     tankBrains := map (fun kb => (fst kb, quietBrain (snd kb))) (tankBrains sc);
     isGameOver := isGameOver sc; isPaused := isPaused sc |}.

(** ** Vocabulary of the trace statements *)

(** The name under which a script calls an operation. *)
Definition operationName (c : ApiCall) : string :=
  match c with
  | CgetPosition => "getPosition"
  | CgetHealth => "getHealth"
  | CgetHeading => "getHeading"
  | CgetTurretHeading => "getTurretHeading"
  | CcanFire => "canFire"
  | CgetNearestEnemy => "getNearestEnemy"
  | CgetEnemies => "getEnemies"
  | CconfigureSensors _ => "configureSensors"
  | CgetSensorCount => "getSensorCount"
  | Cscan _ => "scan"
  | CscanAll => "scanAll"
  | CgetGunRange => "getGunRange"
  | CgetSensorConstraints => "getSensorConstraints"
  | CgetArenaBounds => "getArenaBounds"
  | CisCollidingWithWall => "isCollidingWithWall"
  | CgetWallCollisionSides => "getWallCollisionSides"
  | CgetWallDistance _ => "getWallDistance"
  | CscanWall _ => "scanWall"
  | Cmove _ => "move"
  | Cturn _ => "turn"
  | CaimAt _ => "aimAt"
  | Cfire => "fire"
  | CangleTo _ => "angleTo"
  | CdistanceTo _ => "distanceTo"
  end.

(** The two static getters. *)
Definition staticGetter (c : ApiCall) : bool :=
  match c with
  | CgetSensorConstraints | CgetArenaBounds => true
  | _ => false
  end.

(** Whether the argument of a call passes the run-time test that the
    facade makes before it does anything ([Array.isArray(configs)], a
    point that is present). *)
Definition argumentAccepted (c : ApiCall) : bool :=
  match c with
  | CconfigureSensors None => false
  | CaimAt None => false
  | CangleTo None => false
  | CdistanceTo None => false
  | _ => true
  end.

(** Sample number formatting of the host. *)
Definition plainFixed (r : R) (digits : nat) : string := "#".
Definition plainString (r : R) : string := "#".

(** The statement "this call appends exactly one entry to the trace". *)
Definition appendsOneEntry (api : TankAPI TankBrain) (c : ApiCall)
           (b : TankBrain)
  : Prop :=
  exists e, lastTrace (snd (invoke api c b)) = lastTrace b ++ [e].

(** Two units that differ only by their callable, which returns where
    the other one throws, and by what they wrote to the console. *)
Definition brainSim (b b' : TankBrain) : Prop :=
  exists log, b' = relabel (option_map quiet (compiledFunction b)) log b.

(** Two scenes with the same tanks and flags and pairwise similar
    units. *)
Definition sceneSim (sc sc' : BattleScene) : Prop :=
  tanks sc = tanks sc'
  /\ isGameOver sc = isGameOver sc'
  /\ isPaused sc = isPaused sc'
  /\ Forall2 (fun kb kb' => fst kb = fst kb' /\ brainSim (snd kb) (snd kb'))
             (tankBrains sc) (tankBrains sc').

(** What the scene shows of its units: the trace of each. *)
Definition traces (sc : BattleScene) : list (string * list TraceEntry) :=
  map (fun kb => (fst kb, lastTrace (snd kb))) (tankBrains sc).

(** A second tank, and two scripts for examples: one that throws at
    once, one that moves. *)
Definition tank1 : Tank :=
  {| tankId := "tank-1"; stats := DEFAULT_TANK_STATS; x := 500; y := 300;
     rotation := 0; turretRotation := 0; active := true; now := 1000;
     currentHealth := 100; lastFireTime := 0; targetTurretAngle := 0;
     moveInput := 0; turnInput := 0; wantsFire := false;
     sensors := defaultSensors DEFAULT_TANK_STATS;
     arenaWidth := 1200; arenaHeight := 800 |}.

Definition throwingScript : Script := SThrow "boom".

Definition movingScript : Script := SCall (Cmove 1) (fun _ => SReturn).

(** A script that reads the sensor constraints, then the arena bounds. *)
Definition readingScript : Script :=
  SCall CgetSensorConstraints
        (fun _ => SCall CgetArenaBounds (fun _ => SReturn)).


(** ** Vocabulary of the validator statements *)

(** The error reported for a forbidden pattern. *)
Definition forbiddenError (p : Pattern) : string :=
  "Forbidden pattern detected: " +++ source p.

(** The forbidden patterns that match a script body, in the order of the
    deny-list. *)
Definition matchedPatterns (code : string) : list Pattern :=
  filter (fun p => Js.test (re p) code) CodeValidator.FORBIDDEN_PATTERNS.

(** A host compiler for examples: every body parses, and the callable
    returns at once. *)
Definition acceptAll (body : string) : Outcome Script := Normal SReturn.

Fixpoint distinct (l : list string) : bool :=
  match l with
  | [] => true
  | s :: l' => negb (existsb (String.eqb s) l') && distinct l'
  end.

(** ** Vocabulary of the cleaner statements *)

(** Characters other than a line feed, a quote, a backquote, a slash and
    a brace. *)
Definition plainChar (c : ascii) : bool :=
  negb (Ascii.eqb c Js.newline
        || Ascii.eqb c CodeValidator.doubleQuote
        || Ascii.eqb c "'"%char
        || Ascii.eqb c "`"%char
        || Ascii.eqb c "/"%char
        || Ascii.eqb c "{"%char
        || Ascii.eqb c "}"%char).

Fixpoint allPlain (s : string) : bool :=
  match s with
  | EmptyString => true
  | String c s' => plainChar c && allPlain s'
  end.

(** The characters of a body of plain lines: plain ones and line feeds. *)
Definition bodyChar (c : ascii) : bool :=
  plainChar c || Ascii.eqb c Js.newline.

Fixpoint allBody (s : string) : bool :=
  match s with
  | EmptyString => true
  | String c s' => bodyChar c && allBody s'
  end.

(** A line that starts with a call on the capability object and goes on
    with plain characters. *)
Definition plainLine (line : string) : Prop :=
  exists r, line = ("tank." +++ r)%string /\ allPlain r = true.

(** A body made of such lines, one statement per line, with no white
    space at its end. *)
Definition plainBody (s : string) : Prop :=
  exists line lines,
    Forall plainLine (line :: lines)
    /\ s = Js.join (line :: lines) (String Js.newline EmptyString)
    /\ Js.trimEnd s = s.

(** Two calls, one per line. *)
Definition twoCalls : string :=
  Js.join ["tank.aimAt(enemy.position);"%string; "tank.fire();"%string]
          (String Js.newline EmptyString).


(** ** Vocabulary of the orchestrator statements *)

(** A backend that always answers with code, and a validator that
    rejects every such answer. *)
Definition alwaysInvalidCode
           (respond : nat -> string -> string -> Outcome LLMResponse)
           (validate : string -> ValidationResult) : Prop :=
  forall (n : nat) (systemPrompt userPrompt : string),
  exists rsp c,
    respond n systemPrompt userPrompt = Normal rsp
    /\ rsp_success rsp = true
    /\ content rsp = Some c
    /\ c <> EmptyString
    /\ valid (validate c) = false.

(** The final message of [generateWithAutoRetry]. *)
Definition exhaustedMessage (maxRetries : nat) (lastError : string) : string :=
  ("Code generation failed after " +++ Js.natToString maxRetries
     +++ " attempts. Last error: " +++ lastError)%string.

(** For examples: a backend that always answers [eval(1)], and a
    validator that rejects everything with one error. *)
Definition evalBackend (n : nat) (systemPrompt userPrompt : string)
  : Outcome LLMResponse :=
  Normal {| rsp_success := true; content := Some "eval(1)"%string;
            rsp_error := None |}.

Definition rejectAll (rawCode : string) : ValidationResult :=
  {| valid := false; errors := ["rejected"%string]; warnings := [] |}.

(** What an attempt that ended in a validation failure reports. *)
Definition rejected (validate : string -> ValidationResult)
           (result : GenerationResult) : Prop :=
  success result = false
  /\ exists c,
      rawResponse result = Some c
      /\ c <> EmptyString
      /\ valid (validate c) = false
      /\ gen_error result
         = Some (Js.join (errors (validate c)) PromptBuilder.NL).

(** ** Sample inputs of the validator *)

(** Scenario A: a function wrapper inside a markdown fence. *)
Definition scenarioA : string :=
  ("```js" +++ PromptBuilder.NL +++ "function ai(tank){ tank.move(1); }"
     +++ PromptBuilder.NL +++ "```")%string.

(** Scenario B: a call followed by a dynamic evaluation. *)
Definition scenarioB : string := "tank.move(1); eval('1+1');".

(** ** Vocabulary of the geometry statements *)

(** The point of parameter [t] on the segment from [s] to [e]. *)
Definition along (s e : Point) (t : R) : Point :=
  {| px := px s + t * (px e - px s); py := py s + t * (py e - py s) |}.

(** The point lies on the circle of centre [c] and radius [r]. *)
Definition onCircle (c : Point) (r : R) (p : Point) : Prop :=
  (px p - px c) * (px p - px c) + (py p - py c) * (py p - py c) = r * r.

(** Distance between two points, as the engine computes it. *)
Definition dist (p q : Point) : R :=
  Phaser.DistanceBetween (px p) (py p) (px q) (py q).

(** Nearest first. *)
Definition byDistanceSorted (l : list EnemyInfo) : Prop :=
  StronglySorted (fun a b => e_distance a <= e_distance b) l.

(** A tank that another tank can sense and hit: not that tank itself,
    alive and active. *)
Definition opponent (self other : Tank) : bool :=
  negb (String.eqb (tankId other) (tankId self)
        || TankM.isDead other || negb (active other)).

(** The entry that [getEnemiesFor(tank)] builds for another tank. *)
Definition enemyInfoOf (tank other : Tank) : EnemyInfo :=
  let shortest :=
    BattleSceneM.getShortestWrappedDistance
      {| px := x tank; py := y tank |} {| px := x other; py := y other |}
      DEFAULT_BATTLE_CONFIG.arenaWidth DEFAULT_BATTLE_CONFIG.arenaHeight in
  {| e_id := tankId other;
     e_position := BattleSceneM.bestPos shortest;
     e_heading := TankM.getHeading other;
     e_turretHeading := TankM.getTurretHeading other;
     e_velocity := {| px := 0; py := 0 |};
     e_health := TankM.getHealth other;
     e_distance := BattleSceneM.finite (BattleSceneM.distance shortest);
     e_bearing :=
       Phaser.RadToDeg
         (PhaserAngle.Between (x tank) (y tank)
                              (px (BattleSceneM.bestPos shortest))
                              (py (BattleSceneM.bestPos shortest))) |}.

(** ** Vocabulary of the sandbox statements *)

(** What a script cannot touch: everything of a tank but its move and
    turn inputs, its turret target, its shot flag and time, and its
    sensors. *)
Definition sameBody (t t' : Tank) : Prop :=
  tankId t' = tankId t /\ stats t' = stats t
  /\ x t' = x t /\ y t' = y t /\ rotation t' = rotation t
  /\ turretRotation t' = turretRotation t
  /\ active t' = active t /\ now t' = now t
  /\ currentHealth t' = currentHealth t
  /\ arenaWidth t' = arenaWidth t /\ arenaHeight t' = arenaHeight t.

(** The inputs are saturated and the sensors respect the documented
    constraints. *)
Definition wellCommanded (t : Tank) : Prop :=
  -1 <= moveInput t <= 1 /\ -1 <= turnInput t <= 1
  /\ (1 <= List.length (sensors t) <= SENSOR_CONSTRAINTS.maxSensors)%nat
  /\ Forall within_constraints (sensors t).

(** A trace entry that records a granted shot. *)
Definition grantedShot (entry : TraceEntry) : bool :=
  String.eqb (method entry) "fire()"
  && match result entry with
     | Some r => String.eqb r "FIRED!"
     | None => false
     end.

Definition grantedShots (trace : list TraceEntry) : nat :=
  List.length (filter grantedShot trace).

(** A script that calls [fire] twice. *)
Definition firingTwice : Script :=
  SCall Cfire (fun _ => SCall Cfire (fun _ => SReturn)).

(** A scene with the two sample tanks and no unit. *)
Definition twoTankScene : BattleScene :=
  {| tanks := [tank0; tank1]; tankBrains := [];
     isGameOver := false; isPaused := false |}.

(** ** Vocabulary of the further orchestrator statements *)


(** For examples: a backend that always answers with one move, and a
    validator that accepts everything. *)
Definition moveBackend (n : nat) (systemPrompt userPrompt : string)
  : Outcome LLMResponse :=
  Normal {| rsp_success := true; content := Some "tank.move(1);"%string;
            rsp_error := None |}.

Definition acceptEverything (rawCode : string) : ValidationResult :=
  {| valid := true; errors := []; warnings := [] |}.

(** ** Vocabulary of the rewriter statements *)

(** Every character of the text is in the class. *)
Fixpoint allChars (p : ascii -> bool) (s : string) : bool :=
  match s with
  | EmptyString => true
  | String c s' => p c && allChars p s'
  end.

(** The last character of a text, if it has one. *)
Fixpoint lastChar (s : string) : option ascii :=
  match s with
  | EmptyString => None
  | String c EmptyString => Some c
  | String _ s' => lastChar s'
  end.

(** The text names no loop keyword. *)
Definition loopFree (s : string) : Prop :=
  Js.includes s "while" = false /\ Js.includes s "for" = false.

(** The character before the cursor once the text [u] has been read from
    a position that [pv] precedes. *)
Definition after (pv : option ascii) (u : string) : option ascii :=
  match lastChar u with
  | Some c => Some c
  | None => pv
  end.

(** The text does not go on with a character of the class. *)
Definition stops (p : ascii -> bool) (t : string) : Prop :=
  match t with
  | EmptyString => True
  | String c _ => p c = false
  end.

(** ** Vocabulary of the further cleaner statements *)

(** Neither a quote nor a slash: a character that opens neither a string
    nor a comment. *)
Definition tame (c : ascii) : bool :=
  negb (CodeValidator.isQuote c || Ascii.eqb c "/").

(** A wrapper [function name(tank) {] ... [}] around a body, each on
    lines of its own. *)
Definition wrapped (name body : string) : string :=
  ("function " +++ name +++ "(tank) {"
     +++ String Js.newline (body +++ String Js.newline "}"))%string.

(** A body inside a markdown fence with the given language tag. *)
Definition fenced (tag body : string) : string :=
  ("```" +++ tag
     +++ String Js.newline (body +++ String Js.newline "```"))%string.

(* ===================================================================== *)
(** * The numbers of the host *)
(* ===================================================================== *)

(** A number as a script can hand it to the tank: a real, an infinity or
    NaN.  [Math.min] and [Math.max] convert what they are given to a
    number first; a missing argument, [undefined] and a text that is not
    a numeral convert to NaN. *)
Module JsNumber.

Inductive num : Type :=
| Num (r : R)
| PosInfinity
| NegInfinity
| NaN.

(** [Math.min(a, b)]: NaN as soon as one argument is NaN. *)
Definition min (a b : num) : num :=
  match a, b with
  | NaN, _ => NaN
  | _, NaN => NaN
  | NegInfinity, _ => NegInfinity
  | _, NegInfinity => NegInfinity
  | PosInfinity, v => v
  | v, PosInfinity => v
  | Num x, Num y => Num (Rmin x y)
  end.

(** [Math.max(a, b)]: NaN as soon as one argument is NaN. *)
Definition max (a b : num) : num :=
  match a, b with
  | NaN, _ => NaN
  | _, NaN => NaN
  | PosInfinity, _ => PosInfinity
  | _, PosInfinity => PosInfinity
  | NegInfinity, v => v
  | v, NegInfinity => v
  | Num x, Num y => Num (Rmax x y)
  end.

(** [Phaser.Math.Clamp(value, min, max)], that is
    [Math.max(min, Math.min(max, value))], on these numbers. *)
Definition Clamp (value lo hi : num) : num := max lo (min hi value).

End JsNumber.

(** The operations of the tank that store what a script passes, on the
    numbers of the host. *)
Module TankJs.

Import JsNumber.

Record SensorConfig := mkSensor {
  arc : num;
  range : num;
  offset : num
}.

(** The body of the [configs.map(...)] callback of [configureSensors]. *)
Definition clampConfig (config : SensorConfig) : SensorConfig :=
  {| arc := Clamp (arc config) (Num SENSOR_CONSTRAINTS.minArc)
                  (Num SENSOR_CONSTRAINTS.maxArc);
     range := Clamp (range config) (Num SENSOR_CONSTRAINTS.minRange)
                    (Num SENSOR_CONSTRAINTS.maxRange);
     offset := offset config |}.

(** [Tank.configureSensors(configs)].  It reads nothing of the tank and
    writes [this.sensors] only: the returned boolean and the sensors
    after the call, from the sensors before it. *)
Definition configureSensors (sensors configs : list SensorConfig)
  : bool * list SensorConfig :=
  if (List.length configs =? 0)%nat
     || (SENSOR_CONSTRAINTS.maxSensors <? List.length configs)%nat
  then (false, sensors)
  else (true, map clampConfig configs).

(** [Tank.move(speed)]: the number it stores in [this.moveInput]. *)
Definition move (speed : num) : num := Clamp speed (Num (-1)) (Num 1).

(** [Tank.turn(rate)]: the number it stores in [this.turnInput]. *)
Definition turn (rate : num) : num := Clamp rate (Num (-1)) (Num 1).

End TankJs.

(** ** Vocabulary of the statements on the numbers of the host *)

(** A configuration of real numbers, as the host holds it. *)
Definition hostConfig (s : SensorConfig) : TankJs.SensorConfig :=
  {| TankJs.arc := JsNumber.Num (arc s);
     TankJs.range := JsNumber.Num (range s);
     TankJs.offset := JsNumber.Num (offset s) |}.

(** The documented bounds of one stored sensor, on the numbers of the
    host: its arc and its range are real numbers within the bounds. *)
Definition withinHostConstraints (s : TankJs.SensorConfig) : Prop :=
  exists a r,
    TankJs.arc s = JsNumber.Num a /\ TankJs.range s = JsNumber.Num r
    /\ SENSOR_CONSTRAINTS.minArc <= a <= SENSOR_CONSTRAINTS.maxArc
    /\ SENSOR_CONSTRAINTS.minRange <= r <= SENSOR_CONSTRAINTS.maxRange.

(** A configuration whose range is NaN. *)
Definition nanRange : TankJs.SensorConfig :=
  {| TankJs.arc := JsNumber.Num 120; TankJs.range := JsNumber.NaN;
     TankJs.offset := JsNumber.Num 0 |}.

(** ** Vocabulary of the statements on wrapped answers *)











(** What the stages of the cleaner that come before the unwrapping need
    of a text to leave it as it is: it starts with a character that is
    neither white space, nor a backquote, nor an h, it has no white space
    at its end, no quote, no slash and no blank line. *)
Definition solidText (s : string) : Prop :=
  (exists c x,
      s = String c x /\ Js.isSpace c = false /\ c <> "`"%char
      /\ Js.toLower c <> "h"%char)
  /\ Js.trimEnd s = s
  /\ allChars tame s = true
  /\ Forall (fun l => CodeValidator.nonBlank l = true) (Js.split s Js.newline).



(** The first character of a line after its indentation is no capital
    letter, so that the line does not read as prose. *)
Definition notProse (line : string) : bool :=
  match Js.trimStart line with
  | String c _ => negb (Js.isUpper c)
  | EmptyString => true
  end.

(** The brace depth that the line loop of the cleaner computes stays at
    zero or above, line after line. *)
Fixpoint bracesOpen (depth : Z) (lines : list string) : bool :=
  match lines with
  | [] => true
  | line :: lines' =>
      let depth := (depth + Z.of_nat (Js.countChar line "{")
                    - Z.of_nat (Js.countChar line "}"))%Z in
      (0 <=? depth)%Z && bracesOpen depth lines'
  end.

(** A text that none of the three wrapper patterns matches. *)
Definition notWrapped (s : string) : Prop :=
  Js.matchGroup CodeValidator.funcRe s = None
  /\ Js.matchGroup CodeValidator.arrowRe s = None
  /\ Js.matchGroup CodeValidator.pureArrowRe s = None.

(** A script to which no stage of the cleaner applies: a solid text that
    is no wrapper, whose first line passes the test for code, none of
    whose lines starts with a capital letter, and whose closing braces
    never outnumber the opening ones. *)
Definition cleanScript (s : string) : Prop :=
  solidText s
  /\ notWrapped s
  /\ CodeValidator.looksLikeCode (Js.trim (hd EmptyString (Js.split s Js.newline)))
     = true
  /\ forallb notProse (Js.split s Js.newline) = true
  /\ bracesOpen 0 (Js.split s Js.newline) = true.


(* ===================================================================== *)
(** * Properties *)
(* ===================================================================== *)

(** ** Sensor configuration *)

Lemma Clamp_bounds (v lo hi : R) :
  lo <= hi -> lo <= Phaser.Clamp v lo hi <= hi.
Proof.
  intros Hle. unfold Phaser.Clamp, Rmax, Rmin.
  repeat destruct Rle_dec; lra.
Qed.

Lemma Clamp_inside (v lo hi : R) :
  lo <= v <= hi -> Phaser.Clamp v lo hi = v.
Proof.
  intros Hv. unfold Phaser.Clamp, Rmax, Rmin.
  repeat destruct Rle_dec; lra.
Qed.

Lemma configureSensors_reject (t : Tank) (configs : list SensorConfig) :
  List.length configs = 0%nat \/ (8 < List.length configs)%nat ->
  TankM.configureSensors t configs = (false, t).
Proof.
  intros H. unfold TankM.configureSensors, SENSOR_CONSTRAINTS.maxSensors.
  destruct H as [H | H].
  - rewrite H. reflexivity.
  - apply Nat.ltb_lt in H. rewrite H, orb_true_r. reflexivity.
Qed.

Lemma configureSensors_accept (t : Tank) (configs : list SensorConfig) :
  (1 <= List.length configs <= 8)%nat ->
  TankM.configureSensors t configs
  = (true, set_sensors t (map TankM.clampConfig configs)).
Proof.
  intros [Hlo Hhi]. unfold TankM.configureSensors, SENSOR_CONSTRAINTS.maxSensors.
  replace (List.length configs =? 0)%nat with false
    by (symmetry; apply Nat.eqb_neq; lia).
  replace (8 <? List.length configs)%nat with false
    by (symmetry; apply Nat.ltb_ge; lia).
  reflexivity.
Qed.

(** C4. [configureSensors] is atomic: with no entry or with more than 8
    entries the call reports failure and the agent, its sensor list
    included, is unchanged; with 1 to 8 entries it reports success and the
    sensor list is replaced as a whole: the new list has exactly one
    sensor per entry of the request, in the order of the request, built
    from that entry, and nothing of the old list remains. *)
Theorem C4_configureSensors_atomic (t : Tank) (configs : list SensorConfig) :
  (List.length configs = 0%nat \/ (8 < List.length configs)%nat ->
     fst (TankM.configureSensors t configs) = false
     /\ snd (TankM.configureSensors t configs) = t
     /\ sensors (snd (TankM.configureSensors t configs)) = sensors t)
  /\
  ((1 <= List.length configs <= 8)%nat ->
     fst (TankM.configureSensors t configs) = true
     /\ sensors (snd (TankM.configureSensors t configs))
        = map TankM.clampConfig configs
     /\ List.length (sensors (snd (TankM.configureSensors t configs)))
        = List.length configs
     /\ same_but_sensors t (snd (TankM.configureSensors t configs))).
Proof.
  split; intros H.
  - rewrite (configureSensors_reject t configs H). simpl. auto.
  - rewrite (configureSensors_accept t configs H). simpl.
    repeat split. apply length_map.
Qed.

Lemma C4_configureSensors_atomic_witness :
  (fst (TankM.configureSensors tank0 []) = false
   /\ snd (TankM.configureSensors tank0 []) = tank0
   /\ sensors (snd (TankM.configureSensors tank0 [])) = sensors tank0)
  /\
  (fst (TankM.configureSensors tank0 [mkSensor 500 20 720]) = true
   /\ sensors (snd (TankM.configureSensors tank0 [mkSensor 500 20 720]))
      = map TankM.clampConfig [mkSensor 500 20 720]
   /\ List.length
        (sensors (snd (TankM.configureSensors tank0 [mkSensor 500 20 720])))
      = 1%nat
   /\ same_but_sensors tank0
        (snd (TankM.configureSensors tank0 [mkSensor 500 20 720]))).
Proof.
  split.
  - apply (proj1 (C4_configureSensors_atomic tank0 [])). left. reflexivity.
  - apply (proj2 (C4_configureSensors_atomic tank0 [mkSensor 500 20 720])).
    simpl. lia.
Defined.

Lemma clampConfig_within (c : SensorConfig) :
  within_constraints (TankM.clampConfig c).
Proof.
  unfold within_constraints, TankM.clampConfig; simpl.
  split; apply Clamp_bounds;
    unfold SENSOR_CONSTRAINTS.minArc, SENSOR_CONSTRAINTS.maxArc,
      SENSOR_CONSTRAINTS.minRange, SENSOR_CONSTRAINTS.maxRange; lra.
Qed.

(** On real numbers a request of 1 to 8 entries always succeeds: the i-th
    stored sensor has the arc of the i-th entry clamped into [10, 120],
    its range clamped into [50, 400] and its offset unchanged. *)
Lemma configureSensors_clamps_reals (t : Tank) (configs : list SensorConfig) :
  (1 <= List.length configs <= 8)%nat ->
  fst (TankM.configureSensors t configs) = true
  /\ (forall i c, nth_error configs i = Some c ->
        exists s, nth_error (sensors (snd (TankM.configureSensors t configs))) i
                  = Some s
          /\ arc s = Rmax 10 (Rmin 120 (arc c))
          /\ range s = Rmax 50 (Rmin 400 (range c))
          /\ offset s = offset c
          /\ 10 <= arc s <= 120 /\ 50 <= range s <= 400)
  /\ Forall within_constraints (sensors (snd (TankM.configureSensors t configs))).
Proof.
  intros H. rewrite (configureSensors_accept t configs H). simpl.
  split; [reflexivity | split].
  - intros i c Hc. exists (TankM.clampConfig c). split.
    + rewrite nth_error_map, Hc. reflexivity.
    + pose proof (clampConfig_within c) as [Ha Hr].
      unfold SENSOR_CONSTRAINTS.minArc, SENSOR_CONSTRAINTS.maxArc,
        SENSOR_CONSTRAINTS.minRange, SENSOR_CONSTRAINTS.maxRange in *.
      repeat split; try reflexivity; lra.
  - apply Forall_forall. intros s Hs. apply in_map_iff in Hs.
    destruct Hs as [c [<- _]]. apply clampConfig_within.
Qed.

(** *** The same operations on the numbers of the host *)

Lemma host_Clamp_real (v lo hi : R) :
  JsNumber.Clamp (JsNumber.Num v) (JsNumber.Num lo) (JsNumber.Num hi)
  = JsNumber.Num (Phaser.Clamp v lo hi).
Proof. reflexivity. Qed.

Lemma host_Clamp_NaN (lo hi : JsNumber.num) :
  JsNumber.Clamp JsNumber.NaN lo hi = JsNumber.NaN.
Proof. destruct lo, hi; reflexivity. Qed.

(** Every number but NaN, the infinite ones included, is clamped to a
    real number within the bounds. *)
Lemma host_Clamp_number (v : JsNumber.num) (lo hi : R) :
  lo <= hi -> v <> JsNumber.NaN ->
  exists r, JsNumber.Clamp v (JsNumber.Num lo) (JsNumber.Num hi)
            = JsNumber.Num r
            /\ lo <= r <= hi.
Proof.
  intros Hle Hv. destruct v as [x | | |].
  - exists (Phaser.Clamp x lo hi). split; [reflexivity |].
    apply Clamp_bounds. exact Hle.
  - exists hi. split; [| lra]. cbn. unfold Rmax.
    destruct (Rle_dec lo hi); [reflexivity | lra].
  - exists lo. split; [| lra]. reflexivity.
  - contradiction.
Qed.

(** The model on real numbers is the restriction of the operations of
    the host to real numbers. *)
Lemma host_configureSensors_real (t : Tank) (configs : list SensorConfig) :
  TankJs.configureSensors (map hostConfig (sensors t)) (map hostConfig configs)
  = (fst (TankM.configureSensors t configs),
     map hostConfig (sensors (snd (TankM.configureSensors t configs)))).
Proof.
  unfold TankJs.configureSensors, TankM.configureSensors.
  rewrite length_map.
  destruct ((List.length configs =? 0)%nat
            || (SENSOR_CONSTRAINTS.maxSensors <? List.length configs)%nat);
    [reflexivity |].
  cbn [fst snd set_sensors sensors]. rewrite !map_map. reflexivity.
Qed.

Lemma host_move_real (t : Tank) (v : R) :
  TankJs.move (JsNumber.Num v) = JsNumber.Num (moveInput (TankM.move t v))
  /\ TankJs.turn (JsNumber.Num v) = JsNumber.Num (turnInput (TankM.turn t v)).
Proof. split; reflexivity. Qed.

(** What an accepted request stores, entry by entry: NaN for a NaN arc
    or range, and values within the documented bounds for an entry whose
    arc and range are not NaN. *)
Lemma host_configureSensors_stored (sensors configs : list TankJs.SensorConfig) :
  (1 <= List.length configs <= 8)%nat ->
  fst (TankJs.configureSensors sensors configs) = true
  /\ forall i c,
      nth_error configs i = Some c ->
      exists s,
        nth_error (snd (TankJs.configureSensors sensors configs)) i = Some s
        /\ (TankJs.arc c = JsNumber.NaN -> TankJs.arc s = JsNumber.NaN)
        /\ (TankJs.range c = JsNumber.NaN -> TankJs.range s = JsNumber.NaN)
        /\ (TankJs.arc c <> JsNumber.NaN ->
            TankJs.range c <> JsNumber.NaN ->
            withinHostConstraints s).
Proof.
  intros Hlen. unfold TankJs.configureSensors.
  replace ((List.length configs =? 0)%nat
           || (SENSOR_CONSTRAINTS.maxSensors <? List.length configs)%nat)
    with false.
  2:{ symmetry. apply orb_false_iff. unfold SENSOR_CONSTRAINTS.maxSensors.
      split; [apply Nat.eqb_neq | apply Nat.ltb_ge]; lia. }
  cbn [fst snd]. split; [reflexivity |].
  intros i c Hc. exists (TankJs.clampConfig c). split.
  { rewrite nth_error_map, Hc. reflexivity. }
  unfold TankJs.clampConfig. cbn [TankJs.arc TankJs.range].
  split; [intros ->; apply host_Clamp_NaN |].
  split; [intros ->; apply host_Clamp_NaN |].
  intros Ha Hr.
  destruct (host_Clamp_number (TankJs.arc c) SENSOR_CONSTRAINTS.minArc
              SENSOR_CONSTRAINTS.maxArc) as [a [Ea Hab]];
    [unfold SENSOR_CONSTRAINTS.minArc, SENSOR_CONSTRAINTS.maxArc; lra
    | exact Ha |].
  destruct (host_Clamp_number (TankJs.range c) SENSOR_CONSTRAINTS.minRange
              SENSOR_CONSTRAINTS.maxRange) as [r [Er Hrb]];
    [unfold SENSOR_CONSTRAINTS.minRange, SENSOR_CONSTRAINTS.maxRange; lra
    | exact Hr |].
  exists a, r. cbn [TankJs.arc TankJs.range]. repeat split; tauto || lra.
Qed.

(** C10.  The code stores a NaN range as it is: the request is accepted,
    the stored arc is within its bounds, and the stored range is NaN,
    which is within no bounds.  Any arc or range that is NaN is stored as
    NaN, whatever the rest of the request; an entry whose arc and range
    are not NaN is stored within the bounds. *)
Theorem C10_configureSensors_stores_NaN :
  (forall sensors,
      TankJs.configureSensors sensors [nanRange] = (true, [nanRange]))
  /\ ~ withinHostConstraints nanRange
  /\ (forall sensors configs,
        (1 <= List.length configs <= 8)%nat ->
        fst (TankJs.configureSensors sensors configs) = true
        /\ forall i c,
            nth_error configs i = Some c ->
            exists s,
              nth_error (snd (TankJs.configureSensors sensors configs)) i
              = Some s
              /\ (TankJs.arc c = JsNumber.NaN -> TankJs.arc s = JsNumber.NaN)
              /\ (TankJs.range c = JsNumber.NaN ->
                  TankJs.range s = JsNumber.NaN)
              /\ (TankJs.arc c <> JsNumber.NaN ->
                  TankJs.range c <> JsNumber.NaN ->
                  withinHostConstraints s)).
Proof.
  split; [| split].
  - intros sensors. unfold TankJs.configureSensors, nanRange. cbn.
    unfold TankJs.clampConfig. cbn.
    unfold SENSOR_CONSTRAINTS.minArc, SENSOR_CONSTRAINTS.maxArc, Rmin, Rmax.
    repeat destruct Rle_dec; try lra; reflexivity.
  - intros [a [r [_ [Hr _]]]]. discriminate Hr.
  - exact host_configureSensors_stored.
Qed.

Lemma C10_configureSensors_stores_NaN_witness :
  exists s,
    nth_error (snd (TankJs.configureSensors [] [nanRange])) 0 = Some s
    /\ TankJs.range s = JsNumber.NaN.
Proof.
  destruct (proj2 (proj2 C10_configureSensors_stores_NaN) [] [nanRange])
    as [_ H]; [cbn; lia |].
  destruct (H 0%nat nanRange eq_refl) as [s [Hs [_ [Hr _]]]].
  exists s. split; [exact Hs | exact (Hr eq_refl)].
Defined.

(** ** Angle normalisation *)

Lemma wrapAbove_spec (a : R) :
  wrapAbove a <= Rmax a 180
  /\ (a <= 180 -> wrapAbove a = a)
  /\ (180 < a -> -180 < wrapAbove a <= 180)
  /\ exists n : Z, wrapAbove a = a - 360 * IZR n.
Proof.
  funelim (wrapAbove a).
  - destruct H as [Hmax [Hid [Hgt [n Hn]]]].
    assert (Hr : 180 < angleDiff) by lra.
    repeat split.
    + unfold Rmax in *. repeat destruct Rle_dec; lra.
    + intros; lra.
    + destruct (Rle_dec (angleDiff - 360) 180) as [Hle | Hnle].
      * rewrite (Hid Hle). lra.
      * apply Hgt. lra.
    + destruct (Rle_dec (angleDiff - 360) 180) as [Hle | Hnle].
      * rewrite (Hid Hle). lra.
      * apply Hgt. lra.
    + exists (n + 1)%Z. rewrite Hn, plus_IZR. simpl. lra.
  - repeat split.
    + apply Rmax_l.
    + intros; lra.
    + intros; lra.
    + exists 0%Z. simpl. lra.
Qed.

Lemma wrapBelow_spec (a : R) :
  Rmin a (-180) <= wrapBelow a
  /\ (-180 <= a -> wrapBelow a = a)
  /\ (a < -180 -> -180 <= wrapBelow a < 180)
  /\ exists n : Z, wrapBelow a = a + 360 * IZR n.
Proof.
  funelim (wrapBelow a).
  - destruct H as [Hmin [Hid [Hlt [n Hn]]]].
    repeat split.
    + unfold Rmin in *. repeat destruct Rle_dec; lra.
    + intros; lra.
    + destruct (Rle_dec (-180) (angleDiff + 360)) as [Hle | Hnle].
      * rewrite (Hid Hle). lra.
      * apply Hlt. lra.
    + destruct (Rle_dec (-180) (angleDiff + 360)) as [Hle | Hnle].
      * rewrite (Hid Hle). lra.
      * apply Hlt. lra.
    + exists (n + 1)%Z. rewrite Hn, plus_IZR. simpl. lra.
  - repeat split.
    + apply Rmin_l.
    + intros; lra.
    + intros; lra.
    + exists 0%Z. simpl. lra.
Qed.

(** The two loops together: a value of [[-180, 180]] that differs from the
    input by a whole number of turns. *)
Lemma normalise_spec (a : R) :
  -180 <= wrapBelow (wrapAbove a) <= 180
  /\ exists n : Z, wrapBelow (wrapAbove a) = a + 360 * IZR n.
Proof.
  destruct (wrapAbove_spec a) as [_ [Hid [Hgt [n Hn]]]].
  destruct (wrapBelow_spec (wrapAbove a)) as [_ [Hid' [Hlt' [m Hm]]]].
  split.
  - destruct (Rle_dec a 180) as [Ha | Ha].
    + rewrite (Hid Ha) in *.
      destruct (Rle_dec (-180) a) as [Hb | Hb].
      * rewrite (Hid' Hb). lra.
      * assert (a < -180) by lra. specialize (Hlt' H). lra.
    + assert (Ha' : 180 < a) by lra. specialize (Hgt Ha').
      rewrite Hid' by lra. lra.
  - exists (m - n)%Z. rewrite Hm, Hn, minus_IZR. lra.
Qed.

(** Against the normalisation into [(-180, 180]]: the loops give the same
    absolute value. *)
Lemma normalise_abs (a d : R) (k : Z) :
  d = a + 360 * IZR k -> -180 < d <= 180 ->
  Rabs (wrapBelow (wrapAbove a)) = Rabs d.
Proof.
  intros Hd Hrange.
  destruct (normalise_spec a) as [Hr [n Hn]].
  set (r := wrapBelow (wrapAbove a)) in *.
  assert (Hdiff : r - d = 360 * IZR (n - k)) by (rewrite minus_IZR; lra).
  assert (Hlo : (-1 <= n - k)%Z).
  { apply le_IZR. simpl. lra. }
  assert (Hhi : (n - k < 1)%Z).
  { apply lt_IZR. simpl. lra. }
  assert (Hcase : (n - k = -1 \/ n - k = 0)%Z) by lia.
  destruct Hcase as [Hc | Hc]; rewrite Hc in Hdiff; simpl in Hdiff.
  - assert (r = -180) by lra. assert (d = 180) by lra.
    rewrite H, H0. replace (-180) with (- (180)) by lra.
    apply Rabs_Ropp.
  - f_equal. lra.
Qed.

(** ** Bearing and distance of a point given in polar form *)

Lemma cos_pos_interval (a : R) :
  - PI < a <= PI -> 0 < cos a -> - (PI / 2) < a < PI / 2.
Proof.
  intros Ha Hc. pose proof PI_RGT_0 as Hpi.
  destruct (Rle_dec (PI / 2) a) as [H1 | H1].
  - assert (cos a <= 0) by (apply cos_le_0; lra). lra.
  - destruct (Rle_dec a (- (PI / 2))) as [H2 | H2].
    + assert (cos (- a) <= 0) by (apply cos_le_0; lra).
      rewrite cos_neg in H. lra.
    + lra.
Qed.

Lemma cos_neg_interval (a : R) :
  - PI < a <= PI -> cos a < 0 -> a < - (PI / 2) \/ PI / 2 < a.
Proof.
  intros Ha Hc. pose proof PI_RGT_0 as Hpi.
  destruct (Rlt_dec a (- (PI / 2))) as [H1 | H1]; [left; assumption |].
  destruct (Rlt_dec (PI / 2) a) as [H2 | H2]; [right; assumption |].
  assert (0 <= cos a) by (apply cos_ge_0; lra). lra.
Qed.

Lemma cos_zero_interval (a : R) :
  - PI < a <= PI -> cos a = 0 -> a = - (PI / 2) \/ a = PI / 2.
Proof.
  intros Ha Hc. pose proof PI_RGT_0 as Hpi.
  destruct (Rlt_dec a (- (PI / 2))) as [H1 | H1].
  - assert (cos (- a) < 0) by (apply cos_lt_0; lra).
    rewrite cos_neg in H. lra.
  - destruct (Rlt_dec (PI / 2) a) as [H2 | H2].
    + assert (cos a < 0) by (apply cos_lt_0; lra). lra.
    + destruct (Req_dec a (- (PI / 2))) as [E1 | E1]; [left; assumption |].
      destruct (Req_dec a (PI / 2)) as [E2 | E2]; [right; assumption |].
      assert (0 < cos a) by (apply cos_gt_0; lra). lra.
Qed.

Lemma tan_shift_PI (a : R) : cos a <> 0 -> tan (a - PI) = tan a.
Proof.
  intros Hc. unfold tan.
  replace (a - PI) with (- (PI - a)) by lra.
  rewrite sin_neg, cos_neg.
  rewrite sin_PI_x. rewrite Rtrigo_facts.cos_pi_minus.
  field. assumption.
Qed.

Lemma atan2_polar (d a : R) :
  0 < d -> - PI < a <= PI -> JsMath.atan2 (d * sin a) (d * cos a) = a.
Proof.
  intros Hd Ha. pose proof PI_RGT_0 as Hpi. unfold JsMath.atan2.
  destruct (Rlt_dec 0 (d * cos a)) as [Hx | Hx].
  - assert (Hc : 0 < cos a) by nra.
    replace (d * sin a / (d * cos a)) with (tan a)
      by (unfold tan; field; lra).
    apply atan_tan. apply cos_pos_interval; assumption.
  - destruct (Rlt_dec (d * cos a) 0) as [Hx' | Hx'].
    + assert (Hc : cos a < 0) by nra.
      replace (d * sin a / (d * cos a)) with (tan a)
        by (unfold tan; field; lra).
      destruct (cos_neg_interval a Ha Hc) as [Hlow | Hhigh].
      * assert (Hs : sin a < 0) by (apply sin_lt_0_var; lra).
        destruct (Rle_dec 0 (d * sin a)) as [Hy | Hy]; [nra |].
        replace (tan a) with (tan (a + PI)).
        -- rewrite atan_tan by lra. lra.
        -- rewrite <- (tan_shift_PI (a + PI)).
           ++ f_equal. lra.
           ++ rewrite neg_cos. lra.
      * assert (Hs : 0 <= sin a) by (apply sin_ge_0; lra).
        destruct (Rle_dec 0 (d * sin a)) as [Hy | Hy]; [| nra].
        rewrite <- (tan_shift_PI a) by lra.
        rewrite atan_tan by lra. lra.
    + assert (Hc : cos a = 0) by nra.
      destruct (cos_zero_interval a Ha Hc) as [E | E]; subst a.
      * rewrite sin_neg, sin_PI2.
        destruct (Rlt_dec 0 (d * - (1))) as [H1 | H1]; [lra |].
        destruct (Rlt_dec (d * - (1)) 0) as [H2 | H2]; lra.
      * rewrite sin_PI2.
        destruct (Rlt_dec 0 (d * 1)) as [H1 | H1]; lra.
Qed.

Lemma DegToRad_RadToDeg (r : R) : Phaser.RadToDeg (Phaser.DegToRad r) = r.
Proof.
  unfold Phaser.RadToDeg, Phaser.DegToRad. field.
  pose proof PI_RGT_0. lra.
Qed.

Lemma distanceOf_pointAt (t : Tank) (b d : R) :
  0 <= d -> distanceOf t (pointAt t b d) = d.
Proof.
  intros Hd. unfold distanceOf, pointAt; simpl.
  set (a := Phaser.DegToRad b).
  replace ((x t + d * cos a - x t) * (x t + d * cos a - x t)
           + (y t + d * sin a - y t) * (y t + d * sin a - y t))
    with (d * d * ((sin a)² + (cos a)²)) by (unfold Rsqr; ring).
  rewrite sin2_cos2, Rmult_1_r. apply sqrt_square. assumption.
Qed.

Lemma bearingOf_pointAt (t : Tank) (b d : R) :
  0 < d -> -180 < b <= 180 -> bearingOf t (pointAt t b d) = b.
Proof.
  intros Hd Hb. unfold bearingOf, pointAt; simpl.
  replace (y t + d * sin (Phaser.DegToRad b) - y t)
    with (d * sin (Phaser.DegToRad b)) by ring.
  replace (x t + d * cos (Phaser.DegToRad b) - x t)
    with (d * cos (Phaser.DegToRad b)) by ring.
  rewrite atan2_polar.
  - apply DegToRad_RadToDeg.
  - assumption.
  - pose proof PI_RGT_0 as Hpi. unfold Phaser.DegToRad.
    assert (H1 : 0 < (b + 180) * PI) by (apply Rmult_lt_0_compat; lra).
    assert (H2 : 0 <= (180 - b) * PI) by (apply Rmult_le_pos; lra).
    lra.
Qed.

(** ** Cone membership *)

Lemma isPointInSensorIndex_at (t : Tank) (point : Point) (i : nat)
      (s : SensorConfig) :
  nth_error (sensors t) i = Some s ->
  TankM.isPointInSensorIndex t point (Z.of_nat i)
  = if Rgt_dec (distanceOf t point) (range s) then false
    else if Rle_dec
              (Rabs (wrapBelow (wrapAbove (bearingOf t point - centreOf t s))))
              (arc s / 2)
         then true else false.
Proof.
  intros Hs. unfold TankM.isPointInSensorIndex.
  assert (Hi : (i < List.length (sensors t))%nat).
  { apply nth_error_Some. rewrite Hs. discriminate. }
  replace (Z.of_nat i <? 0)%Z with false by (symmetry; apply Z.ltb_ge; lia).
  replace (Z.of_nat (List.length (sensors t)) <=? Z.of_nat i)%Z with false
    by (symmetry; apply Z.leb_gt; lia).
  simpl. rewrite Nat2Z.id, Hs. reflexivity.
Qed.

Lemma isPointInSensorIndex_out_of_range (t : Tank) (point : Point) (i : Z) :
  (i < 0 \/ Z.of_nat (List.length (sensors t)) <= i)%Z ->
  TankM.isPointInSensorIndex t point i = false.
Proof.
  intros H. unfold TankM.isPointInSensorIndex.
  destruct H as [H | H].
  - apply Z.ltb_lt in H. rewrite H. reflexivity.
  - apply Z.leb_le in H. rewrite H, orb_true_r. reflexivity.
Qed.

Lemma cone_membership_iff (t : Tank) (point : Point) (i : nat)
      (s : SensorConfig) (d : R) (k : Z) :
  nth_error (sensors t) i = Some s ->
  d = bearingOf t point - centreOf t s + 360 * IZR k ->
  -180 < d <= 180 ->
  TankM.isPointInSensorIndex t point (Z.of_nat i) = true
  <-> distanceOf t point <= range s /\ Rabs d <= arc s / 2.
Proof.
  intros Hs Hd Hrange.
  rewrite (isPointInSensorIndex_at t point i s Hs).
  rewrite (normalise_abs _ d k Hd Hrange).
  destruct (Rgt_dec (distanceOf t point) (range s)) as [Hfar | Hnear].
  - split; [discriminate | intros [H _]; lra].
  - destruct (Rle_dec (Rabs d) (arc s / 2)) as [Hin | Hout].
    + split; [intros _; split; lra | reflexivity].
    + split; [discriminate | intros [_ H]; contradiction].
Qed.

(** The signed difference normalised into [(-180, 180]] always exists. *)
Lemma signed_difference_exists (a : R) :
  exists k : Z, -180 < a + 360 * IZR k <= 180.
Proof.
  destruct (normalise_spec a) as [Hr [n Hn]].
  destruct (Req_dec (wrapBelow (wrapAbove a)) (-180)) as [E | E].
  - exists (n + 1)%Z. rewrite plus_IZR. simpl. lra.
  - exists n. lra.
Qed.

Lemma scenario_point (t : Tank) (b d : R) :
  sensors t = [mkSensor 90 400 0] -> rotation t = 0 ->
  0 < d -> -180 < b <= 180 ->
  TankM.isPointInSensorIndex t (pointAt t b d) 0 = true
  <-> d <= 400 /\ Rabs b <= 45.
Proof.
  intros Hs Hrot Hd Hb.
  assert (Hnth : nth_error (sensors t) 0 = Some (mkSensor 90 400 0))
    by (rewrite Hs; reflexivity).
  pose proof (cone_membership_iff t (pointAt t b d) 0 (mkSensor 90 400 0) b 0
                Hnth) as H.
  simpl in H. rewrite H.
  - rewrite distanceOf_pointAt by lra.
    replace (90 / 2) with 45 by lra. reflexivity.
  - rewrite bearingOf_pointAt by assumption.
    unfold centreOf, Phaser.RadToDeg. rewrite Hrot. simpl. lra.
  - assumption.
Qed.

(** C6. Cone membership.  For a sensor [s] stored at index [i] of the
    observer, and [d] the signed difference between the bearing to the
    target and the sensor's centre bearing (heading plus offset)
    normalised into (-180, 180], the target is a member if and only if
    its distance is at most the range of [s] and |d| is at most half the
    arc of [s]; a target beyond the range is rejected whatever its
    bearing.  With the single sensor {arc 90, range 400, offset 0} and
    heading 0: bearing 95 at distance 100 is out, bearing 40 at distance
    399 is in, bearing 40 at distance 401 is out. *)
Theorem C6_cone_membership :
  (forall (t : Tank) (point : Point) (i : nat) (s : SensorConfig)
          (d : R) (k : Z),
      nth_error (sensors t) i = Some s ->
      d = bearingOf t point - centreOf t s + 360 * IZR k ->
      -180 < d <= 180 ->
      (TankM.isPointInSensorIndex t point (Z.of_nat i) = true
       <-> distanceOf t point <= range s /\ Rabs d <= arc s / 2)
      /\ (range s < distanceOf t point ->
          TankM.isPointInSensorIndex t point (Z.of_nat i) = false))
  /\
  (forall t : Tank,
      sensors t = [mkSensor 90 400 0] -> rotation t = 0 ->
      TankM.isPointInSensorIndex t (pointAt t 95 100) 0 = false
      /\ TankM.isPointInSensorIndex t (pointAt t 40 399) 0 = true
      /\ TankM.isPointInSensorIndex t (pointAt t 40 401) 0 = false).
Proof.
  split.
  - intros t point i s d k Hs Hd Hrange. split.
    + exact (cone_membership_iff t point i s d k Hs Hd Hrange).
    + intros Hfar. rewrite (isPointInSensorIndex_at t point i s Hs).
      destruct (Rgt_dec (distanceOf t point) (range s)); [reflexivity | lra].
  - intros t Hs Hrot. repeat split.
    + apply not_true_is_false. intros H.
      apply (scenario_point t 95 100 Hs Hrot) in H; try lra.
      destruct H as [_ H]. rewrite Rabs_pos_eq in H; lra.
    + apply (scenario_point t 40 399 Hs Hrot); try lra.
      split; [lra | rewrite Rabs_pos_eq; lra].
    + apply not_true_is_false. intros H.
      apply (scenario_point t 40 401 Hs Hrot) in H; lra.
Qed.

(** ** Detectability and the nearest enemy *)

Lemma isPointDetectable_iff (t : Tank) (point : Point) :
  TankM.isPointDetectable t point = true
  <-> exists i : Z, TankM.isPointInSensorIndex t point i = true.
Proof.
  unfold TankM.isPointDetectable. rewrite existsb_exists. split.
  - intros [i [_ Hi]]. exists (Z.of_nat i). exact Hi.
  - intros [i Hi].
    destruct (Z_lt_dec i 0) as [Hneg | Hpos].
    + rewrite isPointInSensorIndex_out_of_range in Hi by (left; lia).
      discriminate.
    + destruct (Z_le_dec (Z.of_nat (List.length (sensors t))) i) as [Hbig | Hin].
      * rewrite isPointInSensorIndex_out_of_range in Hi by (right; lia).
        discriminate.
      * exists (Z.to_nat i). split.
        -- apply in_seq. lia.
        -- rewrite Z2Nat.id by lia. exact Hi.
Qed.

Lemma insertBy_In {A : Type} (cmp : A -> A -> R) (a e : A) (l : list A) :
  In e (insertBy cmp a l) <-> e = a \/ In e l.
Proof.
  induction l as [| b l IH]; simpl.
  - intuition.
  - destruct (Rle_dec (cmp a b) 0); simpl.
    + intuition.
    + rewrite IH. intuition.
Qed.

Lemma sortBy_In {A : Type} (cmp : A -> A -> R) (e : A) (l : list A) :
  In e (sortBy cmp l) <-> In e l.
Proof.
  induction l as [| a l IH]; simpl.
  - reflexivity.
  - rewrite insertBy_In, IH. intuition.
Qed.

Lemma sortBy_length {A : Type} (cmp : A -> A -> R) (l : list A) :
  List.length (sortBy cmp l) = List.length l.
Proof.
  assert (Hins : forall a s, List.length (insertBy cmp a s) = S (List.length s)).
  { intros a s. induction s as [| b s IH]; simpl; [reflexivity |].
    destruct (Rle_dec (cmp a b) 0); simpl; [reflexivity | now rewrite IH]. }
  induction l as [| a l IH]; simpl; [reflexivity |].
  rewrite Hins, IH. reflexivity.
Qed.

(** The first element after sorting by distance is a nearest one. *)
Lemma sortBy_distance_head (l : list EnemyInfo) :
  match sortBy byDistance l with
  | [] => l = []
  | r :: _ => In r l /\ forall e, In e l -> e_distance r <= e_distance e
  end.
Proof.
  induction l as [| a l IH]; simpl; [reflexivity |].
  destruct (sortBy byDistance l) as [| r s]; simpl.
  - subst l. split; [left; reflexivity |].
    intros e [<- | []]. lra.
  - destruct IH as [Hr Hmin]. unfold byDistance at 1.
    destruct (Rle_dec (e_distance a - e_distance r) 0) as [Hle | Hgt].
    + split; [left; reflexivity |].
      intros e [<- | He]; [lra |]. specialize (Hmin e He). lra.
    + split; [right; exact Hr |].
      intros e [<- | He]; [lra |]. exact (Hmin e He).
Qed.

Section NearestEnemy.

Variable toFixed : R -> nat -> string.

Lemma api_getNearestEnemy_value (b : TankBrain) :
  fst (api_getNearestEnemy toFixed b)
  = Normal (match sortBy byDistance
                    (filter (fun e => TankM.isPointDetectable (tank b)
                                                              (e_position e))
                            (getEnemiesFn b (tank b))) with
            | e :: _ => Some e
            | [] => None
            end).
Proof. reflexivity. Qed.

(** C5. [getNearestEnemy] answers [null] when no known enemy lies within
    any sensor cone of the observer, whether or not there are enemies
    outside the cones; when some enemy lies within a cone, it answers an
    enemy that lies within a cone and whose distance is least among the
    enemies within a cone. *)
Theorem C5_getNearestEnemy (b : TankBrain) :
  let enemies := getEnemiesFn b (tank b) in
  let inCone (e : EnemyInfo) :=
    exists i : Z,
      TankM.isPointInSensorIndex (tank b) (e_position e) i = true in
  ((forall e, In e enemies -> ~ inCone e) ->
   fst (api_getNearestEnemy toFixed b) = Normal None)
  /\
  ((exists e, In e enemies /\ inCone e) ->
   exists r, fst (api_getNearestEnemy toFixed b) = Normal (Some r)
             /\ In r enemies /\ inCone r
             /\ forall e, In e enemies -> inCone e ->
                          e_distance r <= e_distance e).
Proof.
  intros enemies inCone. rewrite api_getNearestEnemy_value.
  fold enemies.
  set (detectable :=
         filter (fun e => TankM.isPointDetectable (tank b) (e_position e))
                enemies).
  assert (Hdet : forall e, In e detectable <-> In e enemies /\ inCone e).
  { intros e. unfold detectable. rewrite filter_In, isPointDetectable_iff.
    reflexivity. }
  pose proof (sortBy_distance_head detectable) as Hhead.
  split.
  - intros Hnone.
    destruct (sortBy byDistance detectable) as [| r s]; [reflexivity |].
    destruct Hhead as [Hr _]. apply Hdet in Hr. destruct Hr as [Hin Hc].
    exfalso. exact (Hnone r Hin Hc).
  - intros [e [Hin Hc]].
    destruct (sortBy byDistance detectable) as [| r s].
    + assert (He : In e detectable) by (apply Hdet; split; assumption).
      rewrite Hhead in He. destruct He.
    + destruct Hhead as [Hr Hmin]. exists r.
      apply Hdet in Hr. destruct Hr as [Hrin Hrc].
      repeat split; try assumption.
      intros e' He' Hc'. apply Hmin. apply Hdet. split; assumption.
Qed.

End NearestEnemy.

Lemma C6_cone_membership_witness :
  (TankM.isPointInSensorIndex tankC (pointAt tankC 40 399) (Z.of_nat 0) = true
   <-> distanceOf tankC (pointAt tankC 40 399) <= 400 /\ Rabs 40 <= 90 / 2)
  /\ TankM.isPointInSensorIndex tankC (pointAt tankC 95 100) 0 = false.
Proof.
  split.
  - apply (proj1 C6_cone_membership tankC (pointAt tankC 40 399) 0%nat
                 (mkSensor 90 400 0) 40 0%Z).
    + reflexivity.
    + rewrite bearingOf_pointAt by lra.
      unfold centreOf, Phaser.RadToDeg. simpl. lra.
    + lra.
  - apply (proj2 C6_cone_membership tankC); reflexivity.
Defined.

Lemma enemyAt_inCone (id : string) (bearing dist : R) :
  0 < dist -> -180 < bearing <= 180 ->
  (exists i : Z,
      TankM.isPointInSensorIndex tankC (e_position (enemyAt id bearing dist)) i
      = true)
  <-> dist <= 400 /\ Rabs bearing <= 45.
Proof.
  intros Hd Hb. simpl. split.
  - intros [i Hi].
    destruct (Z.eq_dec i 0) as [-> | Hne].
    + apply (scenario_point tankC bearing dist) in Hi;
        [exact Hi | reflexivity | reflexivity | assumption | assumption].
    + rewrite isPointInSensorIndex_out_of_range in Hi; [discriminate |].
      simpl. lia.
  - intros H. exists 0%Z.
    apply (scenario_point tankC bearing dist);
      [reflexivity | reflexivity | assumption | assumption | exact H].
Qed.

Lemma C5_getNearestEnemy_witness :
  fst (api_getNearestEnemy plainFixed
         (brainOf tankC [enemyAt "tank-1" 95 100] None)) = Normal None
  /\ exists r,
      fst (api_getNearestEnemy plainFixed
             (brainOf tankC [enemyAt "tank-1" 95 100; enemyAt "tank-2" 40 399]
                      None))
      = Normal (Some r)
      /\ e_distance r <= 399.
Proof.
  split.
  - apply (proj1 (C5_getNearestEnemy plainFixed
                    (brainOf tankC [enemyAt "tank-1" 95 100] None))).
    simpl. intros e [<- | []] Hc.
    apply enemyAt_inCone in Hc; try lra.
    destruct Hc as [_ Hc]. rewrite Rabs_pos_eq in Hc; lra.
  - destruct (proj2 (C5_getNearestEnemy plainFixed
                       (brainOf tankC
                          [enemyAt "tank-1" 95 100; enemyAt "tank-2" 40 399]
                          None))) as [r [Hr [Hin [Hc Hmin]]]].
    + exists (enemyAt "tank-2" 40 399). split.
      * simpl. right. left. reflexivity.
      * apply enemyAt_inCone; try lra.
        split; [lra | rewrite Rabs_pos_eq; lra].
    + exists r. split; [exact Hr |].
      apply (Hmin (enemyAt "tank-2" 40 399)).
      * simpl. right. left. reflexivity.
      * apply enemyAt_inCone; try lra.
        split; [lra | rewrite Rabs_pos_eq; lra].
Defined.

(** ** The facade never raises, and what it appends to the trace *)

Section SandboxProperties.

Variable toFixed : R -> nat -> string.
Variable numberToString : R -> string.

Let api : TankAPI TankBrain := createTankAPI toFixed numberToString.

Lemma invoke_normal (c : ApiCall) (b : TankBrain) :
  exists r, fst (invoke api c b) = Normal r.
Proof.
  destruct c; try (eexists; reflexivity);
    match goal with
    | o : option _ |- _ => destruct o; eexists; reflexivity
    end.
Qed.

Lemma invoke_relabel (fn : option Script) (log : list string)
      (c : ApiCall) (b : TankBrain) :
  invoke api c (relabel fn log b)
  = (fst (invoke api c b), relabel fn log (snd (invoke api c b))).
Proof.
  destruct c; try reflexivity;
    match goal with
    | o : option _ |- _ => destruct o; reflexivity
    end.
Qed.

Lemma runScript_relabel (fn : option Script) (log : list string)
      (s : Script) (b : TankBrain) :
  runScript api s (relabel fn log b)
  = (fst (runScript api s b), relabel fn log (snd (runScript api s b))).
Proof.
  revert b. induction s as [| e | c k IH]; intros b; try reflexivity.
  simpl. unfold bind. rewrite invoke_relabel.
  destruct (invoke_normal c b) as [r Hr].
  destruct (invoke api c b) as [o b1]. simpl in *. subst o.
  apply IH.
Qed.

Lemma runScript_quiet (s : Script) (b : TankBrain) :
  runScript api (quiet s) b = (Normal tt, snd (runScript api s b)).
Proof.
  revert b. induction s as [| e | c k IH]; intros b; try reflexivity.
  simpl. unfold bind.
  destruct (invoke_normal c b) as [r Hr].
  destruct (invoke api c b) as [o b1]. simpl in *. subst o.
  apply IH.
Qed.

Lemma invoke_trace_accepted (c : ApiCall) (b : TankBrain) :
  staticGetter c = false -> argumentAccepted c = true ->
  exists e, lastTrace (snd (invoke api c b)) = lastTrace b ++ [e]
            /\ String.prefix (operationName c) (method e) = true.
Proof.
  intros Hs Ha.
  destruct c; try discriminate Hs; try (eexists; split; reflexivity);
    match goal with
    | o : option _ |- _ =>
        destruct o; try discriminate Ha; eexists; split; reflexivity
    end.
Qed.

Lemma invoke_trace_refused (c : ApiCall) (b : TankBrain) :
  argumentAccepted c = false ->
  lastTrace (snd (invoke api c b)) = lastTrace b.
Proof.
  intros Ha.
  destruct c; try discriminate Ha;
    match goal with
    | o : option _ |- _ => destruct o; try discriminate Ha; reflexivity
    end.
Qed.

Lemma execute_normal (b : TankBrain) :
  fst (execute toFixed numberToString b) = Normal tt.
Proof.
  unfold execute. destruct (compiledFunction b) as [fn |]; [| reflexivity].
  destruct (negb (active (tank b)) || TankM.isDead (tank b));
    [reflexivity |].
  unfold bind, modify, tryCatch, console_warn.
  destruct (runScript _ fn _) as [[[] | e] b1]; reflexivity.
Qed.

Lemma execute_trace (b : TankBrain) (fn : Script) :
  compiledFunction b = Some fn ->
  active (tank b) = true -> TankM.isDead (tank b) = false ->
  lastTrace (snd (execute toFixed numberToString b))
  = lastTrace (snd (runScript api fn (set_lastTrace b []))).
Proof.
  intros Hfn Hact Hdead. unfold execute. rewrite Hfn, Hact, Hdead. simpl.
  unfold bind, modify, tryCatch, console_warn. fold api.
  destruct (runScript api fn _) as [[[] | e] b1]; reflexivity.
Qed.

(** The entries of one run follow those already present. *)
Lemma runScript_trace_extends (s : Script) (b : TankBrain) :
  exists entries,
    lastTrace (snd (runScript api s b)) = lastTrace b ++ entries.
Proof.
  revert b. induction s as [| e | c k IH]; intros b.
  - exists []. simpl. now rewrite app_nil_r.
  - exists []. simpl. now rewrite app_nil_r.
  - simpl. unfold bind.
    destruct (invoke_normal c b) as [r Hr].
    assert (Hc : exists es, lastTrace (snd (invoke api c b)) = lastTrace b ++ es).
    { destruct (argumentAccepted c) eqn:Ha.
      - destruct (staticGetter c) eqn:Hs.
        + exists []. rewrite app_nil_r. destruct c; try discriminate Hs;
            reflexivity.
        + destruct (invoke_trace_accepted c b Hs Ha) as [e [He _]].
          exists [e]. exact He.
      - exists []. rewrite app_nil_r. apply invoke_trace_refused. exact Ha. }
    destruct Hc as [es Hes].
    destruct (invoke api c b) as [o b1]. simpl in *. subst o.
    destruct (IH r b1) as [es' Hes']. exists (es ++ es').
    rewrite Hes', Hes, app_assoc. reflexivity.
Qed.

End SandboxProperties.

(** C7.  The two static getters leave no trace: in every state
    [getSensorConstraints] and [getArenaBounds] return and the trace list
    is what it was before the call, so no entry describes the call,
    whereas a sibling operation such as [getGunRange] appends its
    entry; and the trace of a tick whose script calls the two getters is
    empty. *)
Theorem C7_static_getters_untraced (toFixed : R -> nat -> string)
        (numberToString : R -> string) (b : TankBrain) :
  lastTrace (snd (invoke (createTankAPI toFixed numberToString)
                         CgetSensorConstraints b)) = lastTrace b
  /\ lastTrace (snd (invoke (createTankAPI toFixed numberToString)
                            CgetArenaBounds b)) = lastTrace b
  /\ ~ appendsOneEntry (createTankAPI toFixed numberToString)
        CgetSensorConstraints b
  /\ ~ appendsOneEntry (createTankAPI toFixed numberToString)
        CgetArenaBounds b
  /\ appendsOneEntry (createTankAPI toFixed numberToString) CgetGunRange b
  /\ execute toFixed numberToString (brainOf tank0 [] (Some readingScript))
     = (Normal tt, brainOf tank0 [] (Some readingScript)).
Proof.
  assert (Hno : forall (l : list TraceEntry) e, l <> l ++ [e]).
  { intros l e H. apply (f_equal (@List.length TraceEntry)) in H.
    rewrite length_app in H. cbn in H. lia. }
  split; [reflexivity |]. split; [reflexivity |].
  split; [intros [e He]; exact (Hno _ _ He) |].
  split; [intros [e He]; exact (Hno _ _ He) |].
  split; [eexists; reflexivity |].
  unfold execute. cbn [brainOf compiledFunction tank].
  unfold TankM.isDead. cbn [currentHealth tank0 active].
  destruct (Rle_dec 100 0) as [H | _]; [lra |].
  reflexivity.
Qed.

(** A guard of the facade that refuses its argument returns before the
    trace call: [aimAt] called without a point appends nothing. *)
Example refused_argument_untraced :
  ~ appendsOneEntry (createTankAPI plainFixed plainString)
      (CaimAt None) (brainOf tank0 [] None).
Proof. intros [e He]; simpl in He; discriminate He. Qed.

(** With arguments of the types that the call type gives them (an
    integer index, real numbers, a point or none, a list of
    configurations or none), every operation of the sandbox other than
    the two static getters returns normally and, when its argument
    passes the run-time test of the facade, appends exactly one entry to
    the trace, whose method field starts with the name of the operation,
    whatever the underlying call answers; when the argument fails the
    test it appends nothing.  A tick in which the unit runs its callable
    starts from the empty trace. *)
Lemma typed_call_traces (toFixed : R -> nat -> string)
        (numberToString : R -> string) (c : ApiCall) (b : TankBrain) :
  staticGetter c = false ->
  (exists r, fst (invoke (createTankAPI toFixed numberToString) c b) = Normal r)
  /\ (argumentAccepted c = true ->
      exists e,
        lastTrace (snd (invoke (createTankAPI toFixed numberToString) c b))
        = lastTrace b ++ [e]
        /\ String.prefix (operationName c) (method e) = true)
  /\ (argumentAccepted c = false ->
      lastTrace (snd (invoke (createTankAPI toFixed numberToString) c b))
      = lastTrace b)
  /\ (forall fn,
         compiledFunction b = Some fn ->
         active (tank b) = true -> TankM.isDead (tank b) = false ->
         lastTrace (snd (execute toFixed numberToString b))
         = lastTrace (snd (runScript (createTankAPI toFixed numberToString) fn
                                     (set_lastTrace b [])))).
Proof.
  intros Hs. repeat split.
  - apply invoke_normal.
  - intros Ha. apply invoke_trace_accepted; assumption.
  - apply invoke_trace_refused.
  - intros fn. apply execute_trace.
Qed.

(** ** One tick of one unit, on examples *)

Lemma isDead_full_health (t : Tank) :
  currentHealth t = 100 -> TankM.isDead t = false.
Proof.
  intros H. unfold TankM.isDead. rewrite H.
  destruct (Rle_dec 100 0); [lra | reflexivity].
Qed.

(** A script that moves: the command reaches the tank and the trace holds
    the one call. *)
Example execute_movingScript :
  let after :=
    snd (execute plainFixed plainString
                 (brainOf tank1 [] (Some movingScript))) in
  lastTrace after = [mkTrace "move()" action (Some "#"%string) None]
  /\ moveInput (tank after) = Phaser.Clamp 1 (-1) 1
  /\ console after = [].
Proof.
  unfold execute. cbn [brainOf compiledFunction tank].
  rewrite (isDead_full_health tank1 eq_refl).
  cbn -[Phaser.Clamp]. repeat split.
Qed.

(** A script that throws at once: nothing but a line on the console. *)
Example execute_throwingScript :
  let before := brainOf tank0 [] (Some throwingScript) in
  let after := snd (execute plainFixed plainString before) in
  fst (execute plainFixed plainString before) = Normal tt
  /\ lastTrace after = []
  /\ tank after = tank0
  /\ console after = ["TankBrain execution error for tank-0: boom"%string].
Proof.
  unfold execute. cbn [brainOf compiledFunction tank].
  rewrite (isDead_full_health tank0 eq_refl).
  cbn. repeat split.
Qed.

(** ** Failure isolation in the tick loop *)

Lemma relabel_self (b : TankBrain) :
  relabel (compiledFunction b) (console b) b = b.
Proof. destruct b; reflexivity. Qed.

Section SceneProperties.

Variable toFixed : R -> nat -> string.
Variable numberToString : R -> string.
Variable getEnemiesFor : list Tank -> Tank -> list EnemyInfo.
Variable runTankAI : list Tank -> Tank -> Tank.
Variable enginePass : R -> string -> list Tank * bool -> list Tank * bool.

Let api : TankAPI TankBrain := createTankAPI toFixed numberToString.
Let exec := execute toFixed numberToString.
Let turn := tankTurn toFixed numberToString getEnemiesFor runTankAI enginePass.
Let upd := update toFixed numberToString getEnemiesFor runTankAI enginePass.
Let run := ticks toFixed numberToString getEnemiesFor runTankAI enginePass.

Lemma runScript_keeps_callable (s : Script) (b : TankBrain) :
  compiledFunction (snd (runScript api s b)) = compiledFunction b.
Proof.
  rewrite <- (relabel_self b) at 1. unfold api.
  rewrite runScript_relabel. reflexivity.
Qed.

Lemma execute_keeps_callable (b : TankBrain) :
  compiledFunction (snd (exec b)) = compiledFunction b.
Proof.
  unfold exec, execute.
  destruct (compiledFunction b) as [fn |] eqn:Hfn; [| exact Hfn].
  destruct (negb (active (tank b)) || TankM.isDead (tank b)); [exact Hfn |].
  unfold bind, modify, tryCatch, console_warn.
  pose proof (runScript_keeps_callable fn (set_lastTrace b [])) as Hk.
  unfold api in Hk.
  destruct (runScript _ fn _) as [[[] | e] b1]; simpl in *;
    rewrite Hk; exact Hfn.
Qed.

Lemma execute_relabel (b : TankBrain) (log : list string) :
  snd (exec (relabel (option_map quiet (compiledFunction b)) log b))
  = relabel (option_map quiet (compiledFunction b)) log (snd (exec b)).
Proof.
  unfold exec, execute. simpl.
  destruct (compiledFunction b) as [fn |]; simpl; [| reflexivity].
  destruct (negb (active (tank b)) || TankM.isDead (tank b)); [reflexivity |].
  unfold bind, modify, tryCatch, console_warn.
  change (set_lastTrace (relabel (Some (quiet fn)) log b) [])
    with (relabel (Some (quiet fn)) log (set_lastTrace b [])).
  rewrite runScript_relabel, runScript_quiet. simpl.
  destruct (runScript _ fn (set_lastTrace b [])) as [[[] | e] b1]; reflexivity.
Qed.

Lemma forEach_normal {S A : Type} (xs : list A) (body : A -> Exec S unit) :
  (forall x s, fst (body x s) = Normal tt) ->
  forall s, fst (forEach xs body s) = Normal tt.
Proof.
  intros Hbody. induction xs as [| x xs IH]; intros s; simpl.
  - reflexivity.
  - unfold bind. specialize (Hbody x s).
    destruct (body x s) as [o s1]. simpl in Hbody. subst o. apply IH.
Qed.

Lemma tankTurn_normal (delta : R) (id : string) (sc : BattleScene) :
  fst (turn delta id sc) = Normal tt.
Proof.
  unfold turn, tankTurn. destruct (findTank id (tanks sc)) as [t |];
    [| reflexivity].
  unfold bind.
  assert (Hexec : forall brain,
             fst (executeBrain toFixed numberToString getEnemiesFor id brain t
                               sc) = Normal tt).
  { intros brain. unfold executeBrain. simpl. apply execute_normal. }
  destruct (getBrain id (tankBrains sc)) as [brain |].
  - destruct (isValid brain).
    + specialize (Hexec brain).
      destruct (executeBrain _ _ _ _ _ _ _) as [o s1]. simpl in Hexec.
      subst o. reflexivity.
    + reflexivity.
  - reflexivity.
Qed.

Lemma update_normal (delta : R) (sc : BattleScene) :
  fst (upd delta sc) = Normal tt.
Proof.
  unfold upd, update. destruct (isGameOver sc || isPaused sc);
    [reflexivity |].
  apply forEach_normal. intros id s. apply tankTurn_normal.
Qed.

Lemma ticks_normal (deltas : list R) (sc : BattleScene) :
  fst (run deltas sc) = Normal tt.
Proof.
  revert sc. induction deltas as [| delta rest IH]; intros sc; simpl.
  - reflexivity.
  - unfold run in *. simpl. unfold bind.
    pose proof (update_normal delta sc) as Hu. unfold upd in Hu.
    destruct (update _ _ _ _ _ delta sc) as [o s1]. simpl in Hu. subst o.
    apply IH.
Qed.

Lemma getBrain_sim (id : string) (m m' : list (string * TankBrain)) :
  Forall2 (fun kb kb' => fst kb = fst kb' /\ brainSim (snd kb) (snd kb')) m m' ->
  match getBrain id m, getBrain id m' with
  | Some b, Some b' => brainSim b b'
  | None, None => True
  | _, _ => False
  end.
Proof.
  induction 1 as [| [k b] [k' b'] m m' [Hk Hb] _ IH]; simpl; [exact I |].
  simpl in Hk, Hb. subst k'. destruct (String.eqb k id); [exact Hb | exact IH].
Qed.

Lemma setBrain_sim (id : string) (b b' : TankBrain)
      (m m' : list (string * TankBrain)) :
  brainSim b b' ->
  Forall2 (fun kb kb' => fst kb = fst kb' /\ brainSim (snd kb) (snd kb')) m m' ->
  Forall2 (fun kb kb' => fst kb = fst kb' /\ brainSim (snd kb) (snd kb'))
          (setBrain id b m) (setBrain id b' m').
Proof.
  intros Hb. induction 1 as [| [k b0] [k' b0'] m m' [Hk Hb0] Hrest IH]; simpl.
  - constructor; [split; [reflexivity | exact Hb] | constructor].
  - simpl in Hk, Hb0. subst k'. destruct (String.eqb k id).
    + constructor; [split; [reflexivity | exact Hb] | exact Hrest].
    + constructor; [split; [reflexivity | exact Hb0] | exact IH].
Qed.

Lemma tankTurn_sim (delta : R) (id : string) (sc sc' : BattleScene) :
  sceneSim sc sc' ->
  sceneSim (snd (turn delta id sc)) (snd (turn delta id sc')).
Proof.
  intros Hsim. pose proof Hsim as [Ht [Hg [Hp Hb]]].
  unfold turn, tankTurn. rewrite <- Ht.
  destruct (findTank id (tanks sc)) as [t |]; [| exact Hsim].
  assert (Hengine : forall s s', sceneSim s s' ->
             sceneSim (snd (engineTurn enginePass delta id s))
                      (snd (engineTurn enginePass delta id s'))).
  { intros s s' [Ht' [Hg' [Hp' Hb']]]. unfold engineTurn, modify. simpl.
    rewrite <- Ht', <- Hg'. repeat split; assumption. }
  assert (Hai : sceneSim (snd (defaultAI runTankAI t sc))
                         (snd (defaultAI runTankAI t sc'))).
  { unfold defaultAI, modify. simpl. rewrite <- Ht.
    repeat split; assumption. }
  pose proof (getBrain_sim id _ _ Hb) as Hget.
  unfold bind.
  destruct (getBrain id (tankBrains sc)) as [brain |],
           (getBrain id (tankBrains sc')) as [brain' |];
    try contradiction.
  - destruct Hget as [log ->].
    assert (Hv : isValid
                   (relabel (option_map quiet (compiledFunction brain)) log
                            brain) = isValid brain).
    { unfold isValid. simpl. destruct (compiledFunction brain); reflexivity. }
    rewrite Hv. destruct (isValid brain).
    + unfold executeBrain. simpl. rewrite <- Ht.
      set (bound := {| tank := t; code := code brain;
                       compiledFunction := compiledFunction brain;
                       error := error brain;
                       getEnemiesFn :=
                         fun t' => getEnemiesFor (putTank t' (tanks sc)) t';
                       lastTrace := lastTrace brain;
                       console := console brain |}).
      change {| tank := t; code := code brain;
                compiledFunction := option_map quiet (compiledFunction brain);
                error := error brain;
                getEnemiesFn :=
                  fun t' => getEnemiesFor (putTank t' (tanks sc)) t';
                lastTrace := lastTrace brain; console := log |}
        with (relabel (option_map quiet (compiledFunction bound)) log bound).
      pose proof (execute_relabel bound log) as Hrel. unfold exec in Hrel.
      pose proof (execute_normal toFixed numberToString bound) as Hn1.
      pose proof (execute_normal toFixed numberToString
                    (relabel (option_map quiet (compiledFunction bound)) log
                             bound)) as Hn2.
      rewrite Hn1, Hn2, Hrel. apply Hengine.
      repeat split; simpl; try assumption.
      apply setBrain_sim; [| exact Hb].
      exists log. f_equal.
      pose proof (execute_keeps_callable bound) as Hk. unfold exec in Hk.
      rewrite Hk. reflexivity.
    + simpl in Hai. destruct (defaultAI runTankAI t sc) as [o s1] eqn:E1.
      destruct (defaultAI runTankAI t sc') as [o' s1'] eqn:E1'.
      unfold defaultAI, modify in E1, E1'.
      injection E1 as <- <-. injection E1' as <- <-.
      apply Hengine. exact Hai.
  - apply Hengine. exact Hai.
Qed.

Lemma forEach_sim (delta : R) (ids : list string) (sc sc' : BattleScene) :
  sceneSim sc sc' ->
  sceneSim (snd (forEach ids (turn delta) sc))
           (snd (forEach ids (turn delta) sc')).
Proof.
  revert sc sc'. induction ids as [| id ids IH]; intros sc sc' Hsim; simpl.
  - exact Hsim.
  - unfold bind.
    pose proof (tankTurn_normal delta id sc) as H1.
    pose proof (tankTurn_normal delta id sc') as H2.
    pose proof (tankTurn_sim delta id sc sc' Hsim) as H3.
    destruct (turn delta id sc) as [o s1].
    destruct (turn delta id sc') as [o' s1'].
    simpl in *. subst o o'. apply IH. exact H3.
Qed.

Lemma update_sim (delta : R) (sc sc' : BattleScene) :
  sceneSim sc sc' ->
  sceneSim (snd (upd delta sc)) (snd (upd delta sc')).
Proof.
  intros Hsim. pose proof Hsim as [Ht [Hg [Hp Hb]]].
  unfold upd, update. rewrite <- Ht, <- Hg, <- Hp.
  destruct (isGameOver sc || isPaused sc); [exact Hsim |].
  apply forEach_sim. exact Hsim.
Qed.

Lemma ticks_sim (deltas : list R) (sc sc' : BattleScene) :
  sceneSim sc sc' ->
  sceneSim (snd (run deltas sc)) (snd (run deltas sc')).
Proof.
  revert sc sc'. induction deltas as [| delta rest IH]; intros sc sc' Hsim.
  - exact Hsim.
  - unfold run in *. simpl. unfold bind.
    pose proof (update_normal delta sc) as H1.
    pose proof (update_normal delta sc') as H2.
    pose proof (update_sim delta sc sc' Hsim) as H3.
    unfold upd in *.
    destruct (update _ _ _ _ _ delta sc) as [o s1].
    destruct (update _ _ _ _ _ delta sc') as [o' s1'].
    simpl in *. subst o o'. apply IH. exact H3.
Qed.

Lemma quietScene_sim (sc : BattleScene) : sceneSim sc (quietScene sc).
Proof.
  unfold sceneSim, quietScene. simpl. repeat split.
  induction (tankBrains sc) as [| [k b] m IH]; simpl; constructor.
  - split; [reflexivity |]. exists []. reflexivity.
  - exact IH.
Qed.

Lemma sceneSim_traces (sc sc' : BattleScene) :
  sceneSim sc sc' -> traces sc = traces sc'.
Proof.
  intros [_ [_ [_ Hb]]]. unfold traces.
  induction Hb as [| [k b] [k' b'] m m' [Hk [log Hb']] _ IH]; simpl.
  - reflexivity.
  - simpl in *. subst k' b'. simpl. f_equal. exact IH.
Qed.

End SceneProperties.

(** C3. Failure isolation.  [execute] never lets an exception of the
    script escape: whatever the callable does, the call returns normally;
    when the callable throws, the only effect of the exception is one
    line on the console, the state being the one the script had reached.
    Hence any number of ticks of the scene completes normally, and the
    tanks, the game flags and the traces of all units after these ticks
    are exactly those obtained when every throwing script returns
    instead at the point where it throws: a script that throws, even on
    every invocation, changes nothing for the scripts of the other
    agents in this tick or in later ones. *)
Theorem C3_failure_isolation
        (toFixed : R -> nat -> string) (numberToString : R -> string)
        (getEnemiesFor : list Tank -> Tank -> list EnemyInfo)
        (runTankAI : list Tank -> Tank -> Tank)
        (enginePass : R -> string -> list Tank * bool -> list Tank * bool) :
  (forall b : TankBrain, fst (execute toFixed numberToString b) = Normal tt)
  /\
  (forall (b b1 : TankBrain) (fn : Script) (e : string),
      compiledFunction b = Some fn ->
      active (tank b) = true -> TankM.isDead (tank b) = false ->
      runScript (createTankAPI toFixed numberToString) fn (set_lastTrace b [])
      = (Thrown e, b1) ->
      exists line,
        execute toFixed numberToString b
        = (Normal tt, set_console b1 (console b1 ++ [line])))
  /\
  (forall (deltas : list R) (sc : BattleScene),
      fst (ticks toFixed numberToString getEnemiesFor runTankAI enginePass
                 deltas sc) = Normal tt)
  /\
  (forall (deltas : list R) (sc : BattleScene),
      let after :=
        snd (ticks toFixed numberToString getEnemiesFor runTankAI enginePass
                   deltas sc) in
      let afterQuiet :=
        snd (ticks toFixed numberToString getEnemiesFor runTankAI enginePass
                   deltas (quietScene sc)) in
      tanks after = tanks afterQuiet
      /\ isGameOver after = isGameOver afterQuiet
      /\ traces after = traces afterQuiet).
Proof.
  repeat split.
  - apply execute_normal.
  - intros b b1 fn e Hfn Hact Hdead Hrun. eexists.
    unfold execute. rewrite Hfn, Hact, Hdead. simpl.
    unfold bind, modify, tryCatch, console_warn. rewrite Hrun. reflexivity.
  - apply ticks_normal.
  - pose proof (ticks_sim toFixed numberToString getEnemiesFor runTankAI
                  enginePass deltas sc (quietScene sc) (quietScene_sim sc))
      as [Ht _]. exact Ht.
  - pose proof (ticks_sim toFixed numberToString getEnemiesFor runTankAI
                  enginePass deltas sc (quietScene sc) (quietScene_sim sc))
      as [_ [Hg _]]. exact Hg.
  - apply sceneSim_traces. apply ticks_sim. apply quietScene_sim.
Qed.

Lemma C3_failure_isolation_witness :
  exists line,
    execute plainFixed plainString (brainOf tank0 [] (Some throwingScript))
    = (Normal tt,
       set_console (brainOf tank0 [] (Some throwingScript)) ([] ++ [line])).
Proof.
  apply (proj1 (proj2 (C3_failure_isolation plainFixed plainString
                         (fun _ _ => []) (fun _ t => t) (fun _ _ s => s)))
          (brainOf tank0 [] (Some throwingScript))
          (brainOf tank0 [] (Some throwingScript)) throwingScript "boom"%string).
  - reflexivity.
  - reflexivity.
  - unfold TankM.isDead. simpl. destruct (Rle_dec 100 0); [lra | reflexivity].
  - reflexivity.
Defined.

(** ** The forbidden-construct scan *)

Lemma forbiddenLoop_spec (patterns : list Pattern) (code : string)
      (errs : list string) :
  CodeValidator.forbiddenLoop patterns code errs
  = errs ++ map forbiddenError
                (filter (fun p => Js.test (re p) code) patterns).
Proof.
  revert errs. induction patterns as [| p ps IH]; intros errs; simpl.
  - now rewrite app_nil_r.
  - rewrite IH. destruct (Js.test (re p) code); simpl.
    + rewrite <- app_assoc. reflexivity.
    + reflexivity.
Qed.

Lemma checkForbiddenPatterns_spec (code : string) :
  CodeValidator.checkForbiddenPatterns code
  = map forbiddenError (matchedPatterns code).
Proof.
  unfold CodeValidator.checkForbiddenPatterns, matchedPatterns.
  rewrite forbiddenLoop_spec. apply app_nil_l.
Qed.

Lemma distinct_NoDup (l : list string) : distinct l = true -> NoDup l.
Proof.
  induction l as [| s l IH]; simpl; intros H; constructor.
  - apply andb_prop in H. destruct H as [H _].
    intros Hin. apply negb_true_iff in H.
    assert (existsb (String.eqb s) l = true).
    { apply existsb_exists. exists s. split; [exact Hin | apply String.eqb_refl]. }
    congruence.
  - apply IH. apply andb_prop in H. tauto.
Qed.

Lemma forbidden_sources_distinct :
  NoDup (map forbiddenError CodeValidator.FORBIDDEN_PATTERNS).
Proof. apply distinct_NoDup. vm_compute. reflexivity. Qed.

Lemma kept_images_NoDup {X Y : Type} (image : X -> Y) (keep : X -> bool)
      (xs : list X) (Hxs : NoDup (map image xs)) :
  NoDup (map image (filter keep xs)).
Proof.
  induction xs as [| x xs IH]; simpl in *; [constructor |].
  inversion Hxs as [| ? ? Hfresh Hrest]; subst.
  destruct (keep x); simpl; [| exact (IH Hrest)].
  constructor; [| exact (IH Hrest)].
  intros Hin. apply Hfresh. apply in_map_iff in Hin.
  destruct Hin as [x' [Heq Hin']]. apply filter_In in Hin'.
  apply in_map_iff. exists x'. tauto.
Qed.

(** C2. When the cleaned input passes the syntax stage and matches some
    forbidden pattern, [validate] answers [valid = false]; its errors
    are exactly the errors naming the matched patterns, in the order of
    the deny-list, so every matched pattern is reported, and reported
    once, however many patterns match. *)
Theorem C2_forbidden_patterns_all_reported
        (newFunction : string -> Outcome Script) (rawCode : string) :
  let code := CodeValidator.cleanCode rawCode in
  ck_valid (validateSyntax newFunction code) = true ->
  (exists p, In p CodeValidator.FORBIDDEN_PATTERNS
             /\ Js.test (re p) code = true) ->
  valid (validate newFunction rawCode) = false
  /\ errors (validate newFunction rawCode)
     = map forbiddenError (matchedPatterns code)
  /\ forall p, In p CodeValidator.FORBIDDEN_PATTERNS ->
               Js.test (re p) code = true ->
               In (forbiddenError p) (errors (validate newFunction rawCode))
               /\ count_occ string_dec
                            (errors (validate newFunction rawCode))
                            (forbiddenError p) = 1%nat.
Proof.
  intros code Hsyntax [p0 [Hin0 Htest0]].
  assert (Herrors : errors (validate newFunction rawCode)
                    = map forbiddenError (matchedPatterns code)
                    /\ valid (validate newFunction rawCode) = false).
  { unfold validate. fold code. rewrite Hsyntax.
    change (negb true) with false. cbv iota.
    rewrite checkForbiddenPatterns_spec.
    assert (Hne : In p0 (matchedPatterns code))
      by (apply filter_In; split; assumption).
    destruct (matchedPatterns code) as [| q qs]; [destruct Hne |].
    cbn [app map List.length Nat.eqb errors valid].
    split; reflexivity. }
  destruct Herrors as [Herrors Hvalid].
  split; [exact Hvalid | split; [exact Herrors |]].
  intros p Hin Htest. rewrite Herrors.
  assert (Hp : In (forbiddenError p) (map forbiddenError (matchedPatterns code))).
  { apply in_map. apply filter_In. split; assumption. }
  split; [exact Hp |].
  apply NoDup_count_occ'; [| exact Hp].
  apply kept_images_NoDup. exact forbidden_sources_distinct.
Qed.

Lemma C2_forbidden_patterns_all_reported_witness :
  valid (validate acceptAll "tank.move(1); eval('1+1'); window.alert(1);")
  = false
  /\ errors (validate acceptAll "tank.move(1); eval('1+1'); window.alert(1);")
     = ["Forbidden pattern detected: \beval\s*\(";
        "Forbidden pattern detected: \bwindow\b";
        "Forbidden pattern detected: \balert\b"]%string.
Proof.
  destruct (C2_forbidden_patterns_all_reported acceptAll
              "tank.move(1); eval('1+1'); window.alert(1);")
    as [Hv [He _]].
  - reflexivity.
  - exists (CodeValidator.callOf "eval"). split.
    + left. reflexivity.
    + vm_compute. reflexivity.
  - split; [exact Hv |]. rewrite He. vm_compute. reflexivity.
Defined.

(** ** The cleaner *)

Lemma plainChar_inv (c : ascii) :
  plainChar c = true ->
  Ascii.eqb c Js.newline = false
  /\ Ascii.eqb c CodeValidator.doubleQuote = false
  /\ Ascii.eqb c "'"%char = false
  /\ Ascii.eqb c "`"%char = false
  /\ Ascii.eqb c "/"%char = false
  /\ Ascii.eqb c "{"%char = false
  /\ Ascii.eqb c "}"%char = false.
Proof.
  unfold plainChar. intros H. apply negb_true_iff in H.
  repeat (apply orb_false_elim in H; destruct H as [H ?]).
  repeat split; assumption.
Qed.

Lemma search_Bos_later (r : Js.regex) (p : ascii) (s : string) :
  Js.search (Js.Seq Js.Bos r) (Some p) s = None.
Proof.
  revert p. induction s as [| c s IH]; intros p; cbn [Js.search].
  - reflexivity.
  - rewrite IH. reflexivity.
Qed.

(** A regex anchored at the start matches at the start or nowhere. *)
Lemma search_anchored (r : Js.regex) (s : string) :
  Js.matchHere (Js.Seq Js.Bos r) None s = None ->
  Js.search (Js.Seq Js.Bos r) None s = None.
Proof.
  intros H. destruct s as [| c s]; cbn [Js.search]; rewrite H.
  - reflexivity.
  - rewrite search_Bos_later. reflexivity.
Qed.

(** *** Texts that start with a call on the capability object *)

Section CallFirst.

Local Open Scope string_scope.

Variable w : string.

Lemma call_fenceOpen :
  Js.search CodeValidator.fenceOpenRe None ("tank." +++ w) = None.
Proof. apply search_anchored. reflexivity. Qed.

Lemma call_herePrefix :
  Js.search CodeValidator.herePrefixRe None ("tank." +++ w) = None.
Proof. apply search_anchored. reflexivity. Qed.

Lemma call_func :
  Js.search CodeValidator.funcRe None ("tank." +++ w) = None.
Proof. apply search_anchored. reflexivity. Qed.

Lemma call_arrow :
  Js.search CodeValidator.arrowRe None ("tank." +++ w) = None.
Proof. apply search_anchored. reflexivity. Qed.

Lemma call_pureArrow :
  Js.search CodeValidator.pureArrowRe None ("tank." +++ w) = None.
Proof. apply search_anchored. reflexivity. Qed.

Lemma call_prose :
  Js.search CodeValidator.proseRe None ("tank." +++ w) = None.
Proof. apply search_anchored. reflexivity. Qed.

Lemma call_trimEnd :
  Js.trimEnd ("tank." +++ w) = "tank." +++ Js.trimEnd w.
Proof.
  assert (Hkeep : forall c u, Js.isSpace c = false ->
                              Js.trimEnd (String c u) = String c (Js.trimEnd u)).
  { intros c u Hc. cbn [Js.trimEnd]. rewrite Hc.
    destruct (Js.trimEnd u); reflexivity. }
  cbn [String.append]. rewrite !Hkeep by reflexivity. reflexivity.
Qed.

Lemma call_trim : Js.trim ("tank." +++ w) = "tank." +++ Js.trimEnd w.
Proof. unfold Js.trim. exact call_trimEnd. Qed.

Lemma call_nonBlank : CodeValidator.nonBlank ("tank." +++ w) = true.
Proof. unfold CodeValidator.nonBlank. rewrite call_trim. reflexivity. Qed.

End CallFirst.

(** *** Texts without quotes, slashes and braces *)

Lemma bodyChar_inv (c : ascii) :
  bodyChar c = true ->
  Ascii.eqb c CodeValidator.doubleQuote = false
  /\ Ascii.eqb c "'"%char = false
  /\ Ascii.eqb c "`"%char = false
  /\ Ascii.eqb c "/"%char = false
  /\ Ascii.eqb c "{"%char = false
  /\ Ascii.eqb c "}"%char = false.
Proof.
  unfold bodyChar. intros H. apply orb_prop in H. destruct H as [H | H].
  - apply plainChar_inv in H. tauto.
  - apply Ascii.eqb_eq in H. subst c. repeat split; reflexivity.
Qed.

Lemma allBody_cons (c : ascii) (u : string) :
  allBody (String c u) = true -> bodyChar c = true /\ allBody u = true.
Proof. simpl. intros H. apply andb_prop in H. exact H. Qed.

Lemma allPlain_cons (c : ascii) (u : string) :
  allPlain (String c u) = true -> plainChar c = true /\ allPlain u = true.
Proof. simpl. intros H. apply andb_prop in H. exact H. Qed.

Lemma body_fenceClose (p : option ascii) (u : string) :
  allBody u = true -> Js.search CodeValidator.fenceCloseRe p u = None.
Proof.
  revert p. induction u as [| c u IH]; intros p Hu.
  - reflexivity.
  - apply allBody_cons in Hu. destruct Hu as [Hc Hu].
    apply bodyChar_inv in Hc. destruct Hc as [_ [_ [Hbq _]]].
    cbn [Js.search]. rewrite (IH (Some c) Hu).
    unfold Js.matchHere, CodeValidator.fenceCloseRe.
    cbn -[Ascii.eqb Js.newline].
    rewrite (Ascii.eqb_sym "`" c), Hbq.
    destruct (Ascii.eqb Js.newline c); [| reflexivity].
    destruct u as [| c' u']; [reflexivity |].
    apply allBody_cons in Hu. destruct Hu as [Hc' _].
    apply bodyChar_inv in Hc'. destruct Hc' as [_ [_ [Hbq' _]]].
    rewrite (Ascii.eqb_sym "`" c'), Hbq'. reflexivity.
Qed.

Lemma body_scan (u : string) :
  allBody u = true -> CodeValidator.scan CodeValidator.InCode u = u.
Proof.
  induction u as [| c u IH]; intros Hu; [reflexivity |].
  apply allBody_cons in Hu. destruct Hu as [Hc Hu].
  apply bodyChar_inv in Hc. destruct Hc as [Hdq [Hsq [Hbq [Hsl _]]]].
  cbn [CodeValidator.scan]. unfold CodeValidator.isQuote.
  rewrite Hdq, Hsq, Hbq, Hsl. cbn [orb]. rewrite (IH Hu). reflexivity.
Qed.

Lemma body_count_open (u : string) :
  allBody u = true -> Js.countChar u "{" = 0%nat.
Proof.
  induction u as [| c u IH]; intros Hu; [reflexivity |].
  apply allBody_cons in Hu. destruct Hu as [Hc Hu].
  apply bodyChar_inv in Hc. destruct Hc as [_ [_ [_ [_ [Ho _]]]]].
  cbn [Js.countChar]. rewrite Ho, (IH Hu). reflexivity.
Qed.

Lemma body_count_close (u : string) :
  allBody u = true -> Js.countChar u "}" = 0%nat.
Proof.
  induction u as [| c u IH]; intros Hu; [reflexivity |].
  apply allBody_cons in Hu. destruct Hu as [Hc Hu].
  apply bodyChar_inv in Hc. destruct Hc as [_ [_ [_ [_ [_ Hcl]]]]].
  cbn [Js.countChar]. rewrite Hcl, (IH Hu). reflexivity.
Qed.

Lemma body_endsWith (u : string) :
  allBody u = true -> Js.endsWithChar u "}" = false.
Proof.
  induction u as [| c u IH]; intros Hu; [reflexivity |].
  apply allBody_cons in Hu. destruct Hu as [Hc Hu].
  apply bodyChar_inv in Hc. destruct Hc as [_ [_ [_ [_ [_ Hcl]]]]].
  cbn [Js.endsWithChar]. destruct u; [exact Hcl | exact (IH Hu)].
Qed.

Lemma allPlain_allBody (u : string) : allPlain u = true -> allBody u = true.
Proof.
  induction u as [| c u IH]; intros Hu; [reflexivity |].
  apply allPlain_cons in Hu. destruct Hu as [Hc Hu].
  simpl. unfold bodyChar. rewrite Hc, (IH Hu). reflexivity.
Qed.

Lemma allBody_app (u v : string) :
  allBody u = true -> allBody v = true -> allBody (u +++ v) = true.
Proof.
  induction u as [| c u IH]; intros Hu Hv; [exact Hv |].
  apply allBody_cons in Hu. destruct Hu as [Hc Hu].
  simpl. rewrite Hc, (IH Hu Hv). reflexivity.
Qed.

Lemma plainLine_allBody (line : string) :
  plainLine line -> allBody line = true.
Proof.
  intros [r [-> Hr]]. apply (allPlain_allBody r) in Hr.
  simpl. exact Hr.
Qed.

Lemma join_allBody (lines : list string) :
  Forall plainLine lines ->
  allBody (Js.join lines (String Js.newline EmptyString)) = true.
Proof.
  unfold Js.join. induction 1 as [| line lines Hline Hlines IH];
    [reflexivity |].
  cbn [String.concat]. destruct lines as [| line' lines'].
  - apply plainLine_allBody. exact Hline.
  - apply allBody_app; [apply plainLine_allBody; exact Hline |].
    apply (allBody_app (String Js.newline EmptyString)); [reflexivity |].
    exact IH.
Qed.

(** *** Lines *)

Lemma split_plain (u : string) :
  allPlain u = true -> Js.split u Js.newline = [u].
Proof.
  induction u as [| c u IH]; intros Hu; [reflexivity |].
  apply allPlain_cons in Hu. destruct Hu as [Hc Hu].
  apply plainChar_inv in Hc. destruct Hc as [Hnl _].
  cbn [Js.split]. rewrite Hnl, (IH Hu). reflexivity.
Qed.

Lemma split_plain_app (u v : string) :
  allPlain u = true ->
  Js.split (u +++ String Js.newline v) Js.newline
  = u :: Js.split v Js.newline.
Proof.
  induction u as [| c u IH]; intros Hu.
  - cbn [String.append Js.split]. rewrite Ascii.eqb_refl. reflexivity.
  - apply allPlain_cons in Hu. destruct Hu as [Hc Hu].
    apply plainChar_inv in Hc. destruct Hc as [Hnl _].
    cbn [String.append Js.split]. rewrite Hnl, (IH Hu). reflexivity.
Qed.

Lemma plainLine_allPlain (line : string) :
  plainLine line -> allPlain line = true.
Proof. intros [r [-> Hr]]. simpl. exact Hr. Qed.

Lemma split_join (line : string) (lines : list string) :
  Forall plainLine (line :: lines) ->
  Js.split (Js.join (line :: lines) (String Js.newline EmptyString)) Js.newline
  = line :: lines.
Proof.
  unfold Js.join. revert line.
  induction lines as [| line' lines IH]; intros line Hall.
  - cbn [String.concat]. apply split_plain. apply plainLine_allPlain.
    inversion Hall; assumption.
  - inversion Hall as [| ? ? Hline Hrest]; subst.
    change (String.concat (String Js.newline "") (line :: line' :: lines))
      with (line +++ String Js.newline
                 (String.concat (String Js.newline "") (line' :: lines)))%string.
    rewrite (split_plain_app line _ (plainLine_allPlain line Hline)).
    rewrite (IH line' Hrest). reflexivity.
Qed.

Lemma filter_nonBlank (lines : list string) :
  Forall plainLine lines -> filter CodeValidator.nonBlank lines = lines.
Proof.
  induction 1 as [| line lines [r [-> _]] _ IH]; [reflexivity |].
  cbn [filter]. rewrite call_nonBlank, IH. reflexivity.
Qed.

Lemma lineLoop_plain (lines : list string) (inCode : bool)
      (codeLines : list string) :
  Forall plainLine lines ->
  CodeValidator.lineLoop lines inCode 0%Z codeLines = codeLines ++ lines.
Proof.
  intros Hall. revert inCode codeLines.
  induction Hall as [| line lines Hline _ IH]; intros inCode codeLines.
  - cbn [CodeValidator.lineLoop]. now rewrite app_nil_r.
  - pose proof (plainLine_allBody line Hline) as Hbody.
    destruct Hline as [r [-> Hr]].
    cbn [CodeValidator.lineLoop]. cbv zeta. rewrite call_trim.
    replace (String.eqb ("tank." +++ Js.trimEnd r) "") with false
      by reflexivity.
    replace (CodeValidator.looksLikeCode ("tank." +++ Js.trimEnd r))
      with true by reflexivity.
    rewrite andb_false_r, andb_true_r.
    replace (if negb inCode then true else inCode) with true
      by (destruct inCode; reflexivity).
    rewrite (body_count_open _ Hbody), (body_count_close _ Hbody).
    unfold Js.test. rewrite call_prose.
    cbn [andb Z.of_nat Z.add Z.sub Z.opp Z.eqb Z.ltb Z.compare].
    rewrite IH, <- app_assoc. reflexivity.
Qed.

Lemma minIndent_plain (line : string) (lines : list string) :
  Forall plainLine (line :: lines) ->
  CodeValidator.minIndentOf (line :: lines) = Some 0%nat.
Proof.
  intros Hall. unfold CodeValidator.minIndentOf.
  rewrite (filter_nonBlank _ Hall).
  inversion Hall as [| ? ? [r [-> _]] Hrest]; subst.
  cbn [fold_left]. change (CodeValidator.indentOf ("tank." +++ r)) with 0%nat.
  clear Hall. induction Hrest as [| l ls [r' [-> _]] _ IH]; [reflexivity |].
  cbn [fold_left]. change (CodeValidator.indentOf ("tank." +++ r')) with 0%nat.
  exact IH.
Qed.

(** The cleaner leaves a body of plain lines as it is. *)
Lemma cleanCode_plainBody (s : string) :
  plainBody s -> CodeValidator.cleanCode s = s.
Proof.
  intros [line [lines [Hall [Hs Htrim]]]].
  pose proof (join_allBody _ Hall) as Hbody. rewrite <- Hs in Hbody.
  pose proof (split_join line lines Hall) as Hsplit. rewrite <- Hs in Hsplit.
  assert (Hcall : exists w, s = ("tank." +++ w)%string).
  { inversion Hall as [| ? ? [r [Hline _]] _]; subst line.
    destruct lines as [| line' lines'].
    - exists r. exact Hs.
    - exists (r +++ String Js.newline
                (Js.join (line' :: lines') (String Js.newline EmptyString)))%string.
      exact Hs. }
  destruct Hcall as [w Hw].
  assert (Htrim' : Js.trim s = s).
  { unfold Js.trim. rewrite Hw at 1. exact (eq_trans (f_equal Js.trimEnd (eq_sym Hw)) Htrim). }
  unfold CodeValidator.cleanCode. cbv zeta.
  rewrite Htrim'.
  unfold Js.replaceAll. cbn [Js.replaceAllFrom].
  replace (Js.search CodeValidator.fenceOpenRe None s) with (@None (string * Js.MState))
    by (rewrite Hw; symmetry; apply call_fenceOpen).
  cbn [fst]. rewrite (body_fenceClose None s Hbody). cbn [fst].
  rewrite Htrim'.
  unfold Js.replaceFirst.
  replace (Js.search CodeValidator.herePrefixRe None s) with (@None (string * Js.MState))
    by (rewrite Hw; symmetry; apply call_herePrefix).
  rewrite Htrim'.
  assert (Hstrip : CodeValidator.stripComments s = s).
  { unfold CodeValidator.stripComments.
    rewrite (body_scan s Hbody), Hsplit, (filter_nonBlank _ Hall), <- Hs.
    exact Htrim'. }
  rewrite Hstrip.
  unfold Js.matchGroup.
  replace (Js.search CodeValidator.funcRe None s) with (@None (string * Js.MState))
    by (rewrite Hw; symmetry; apply call_func).
  replace (Js.search CodeValidator.arrowRe None s) with (@None (string * Js.MState))
    by (rewrite Hw; symmetry; apply call_arrow).
  replace (Js.search CodeValidator.pureArrowRe None s) with (@None (string * Js.MState))
    by (rewrite Hw; symmetry; apply call_pureArrow).
  rewrite Hsplit, (lineLoop_plain _ false [] Hall). cbn [app].
  rewrite <- Hs, Htrim'.
  assert (Horphan : forall fuel, CodeValidator.orphanLoop fuel s = s).
  { intros [| fuel]; cbn [CodeValidator.orphanLoop]; [reflexivity |].
    rewrite (body_endsWith s Hbody). reflexivity. }
  rewrite Horphan, Hsplit, (minIndent_plain line lines Hall).
  exact Htrim'.
Qed.

(** *** Trimming *)







(** ** The retry policy *)

Section RetryPolicy.

Variable SYSTEM_PROMPT : string.
Variable respond : nat -> string -> string -> Outcome LLMResponse.
Variable validate : string -> ValidationResult.
Variable getCleanedCode : string -> string.

Let generate := generateBehavior SYSTEM_PROMPT respond validate getCleanedCode.
Let regenerate :=
  regenerateWithFeedback SYSTEM_PROMPT respond validate getCleanedCode.
Let loop := retryLoop SYSTEM_PROMPT respond validate getCleanedCode.
Let autoRetry :=
  generateWithAutoRetry SYSTEM_PROMPT respond validate getCleanedCode.

Lemma falsy_nonempty (c : string) : c <> EmptyString -> falsy (Some c) = false.
Proof.
  intros Hc. unfold falsy. apply String.eqb_neq. exact Hc.
Qed.

Lemma generateBehavior_requests (userStrategy : string) (p : Provider) :
  (requests p <= requests (snd (generate userStrategy p)) <= S (requests p))%nat
  /\ modelLoaded (snd (generate userStrategy p)) = modelLoaded p.
Proof.
  unfold generate, generateBehavior, tryCatch, bind, gets, provider_generate.
  destruct (modelLoaded p) eqn:Hl; cbn [negb fst snd ret].
  - destruct (respond _ _ _) as [rsp | e]; cbn [fst snd ret requests modelLoaded].
    + destruct (negb (rsp_success rsp) || falsy (content rsp));
        [cbn; repeat split; (lia || assumption) |].
      destruct (negb (valid _)); cbn; repeat split; (lia || assumption).
    + cbn. repeat split; (lia || assumption).
  - cbn. repeat split; (lia || assumption).
Qed.

Lemma regenerate_requests (userStrategy previousCode errorMessage : string)
      (p : Provider) :
  requests (snd (regenerate userStrategy previousCode errorMessage p))
  = S (requests p)
  /\ modelLoaded (snd (regenerate userStrategy previousCode errorMessage p))
     = modelLoaded p.
Proof.
  unfold regenerate, regenerateWithFeedback, tryCatch, bind, provider_generate.
  destruct (respond _ _ _) as [rsp | e]; cbn [fst snd ret requests modelLoaded].
  - destruct (negb (rsp_success rsp) || falsy (content rsp));
      [cbn; split; reflexivity |].
    destruct (negb (valid _)); cbn; split; reflexivity.
  - cbn. split; reflexivity.
Qed.

Lemma regenerate_normal (userStrategy previousCode errorMessage : string)
      (p : Provider) :
  exists r,
    fst (regenerate userStrategy previousCode errorMessage p) = Normal r.
Proof.
  unfold regenerate, regenerateWithFeedback, tryCatch, bind, provider_generate.
  destruct (respond _ _ _) as [rsp | e]; cbn [fst snd ret].
  - destruct (negb (rsp_success rsp) || falsy (content rsp));
      [eexists; reflexivity |].
    destruct (negb (valid _)); eexists; reflexivity.
  - eexists; reflexivity.
Qed.

Lemma retryLoop_requests (remaining : nat) (userStrategy : string)
      (result : GenerationResult) (lastCode : string) (p : Provider) :
  (requests p
   <= requests (snd (loop remaining userStrategy result lastCode p))
   <= requests p + remaining)%nat.
Proof.
  revert result lastCode p.
  induction remaining as [| n IH]; intros result lastCode p.
  - cbn. lia.
  - unfold loop in *. cbn [retryLoop].
    destruct (success result); [cbn; lia |].
    destruct (String.eqb lastCode ""); [cbn; lia |].
    unfold bind.
    set (err := render (orElse (gen_error result) (Some "Unknown error"%string))).
    pose proof (regenerate_requests userStrategy lastCode err p) as [Hr _].
    destruct (regenerate_normal userStrategy lastCode err p) as [r Hn].
    unfold regenerate in Hr, Hn.
    destruct (regenerateWithFeedback _ _ _ _ _ _ _ _) as [o p1].
    cbn [fst snd] in Hr, Hn. subst o.
    match goal with
    | |- context [retryLoop _ _ _ _ n userStrategy r ?lc p1] =>
        specialize (IH r lc p1)
    end.
    lia.
Qed.

Hypothesis Hbackend : alwaysInvalidCode respond validate.

Lemma generate_rejected (userStrategy : string) (p : Provider) :
  modelLoaded p = true ->
  exists r,
    generate userStrategy p
    = (Normal r, {| modelLoaded := modelLoaded p;
                    requests := S (requests p) |})
    /\ rejected validate r.
Proof.
  intros Hl.
  destruct (Hbackend (requests p) SYSTEM_PROMPT
                     (PromptBuilder.buildUserPrompt userStrategy))
    as [rsp [c [Hrsp [Hs [Hc [Hne Hinv]]]]]].
  unfold generate, generateBehavior, tryCatch, bind, gets, provider_generate.
  rewrite Hl. cbn [negb]. rewrite Hrsp, Hs, Hc, (falsy_nonempty c Hne).
  cbn [negb orb render]. rewrite Hinv. cbn [negb]. unfold ret.
  rewrite ?Hl. eexists. split; [reflexivity |].
  split; [reflexivity |]. exists c. repeat split; assumption.
Qed.

Lemma regenerate_rejected (userStrategy previousCode errorMessage : string)
      (p : Provider) :
  exists r,
    regenerate userStrategy previousCode errorMessage p
    = (Normal r, {| modelLoaded := modelLoaded p;
                    requests := S (requests p) |})
    /\ rejected validate r /\ behavior r = None.
Proof.
  unfold regenerate, regenerateWithFeedback, tryCatch, bind, provider_generate.
  match goal with
  | |- context [respond ?n ?sp ?up] =>
      destruct (Hbackend n sp up) as [rsp [c [Hrsp [Hs [Hc [Hne Hinv]]]]]];
      rewrite Hrsp
  end.
  rewrite Hs, Hc, (falsy_nonempty c Hne).
  cbn [negb orb render]. rewrite Hinv. cbn [negb]. unfold ret.
  eexists. split; [reflexivity |].
  split; [| reflexivity].
  split; [reflexivity |]. exists c. repeat split; assumption.
Qed.

Lemma retryLoop_rejected (remaining : nat) (userStrategy : string)
      (result : GenerationResult) (lastCode : string) (p : Provider) :
  rejected validate result -> lastCode <> EmptyString ->
  exists r,
    loop remaining userStrategy result lastCode p
    = (Normal r, {| modelLoaded := modelLoaded p;
                    requests := requests p + remaining |})
    /\ rejected validate r.
Proof.
  revert result lastCode p.
  induction remaining as [| n IH]; intros result lastCode p Hrej Hlast.
  - exists result. split; [| exact Hrej].
    cbn. rewrite Nat.add_0_r. destruct p; reflexivity.
  - unfold loop in *. cbn [retryLoop].
    destruct Hrej as [Hfail Hrest]. rewrite Hfail.
    replace (String.eqb lastCode "") with false
      by (symmetry; apply String.eqb_neq; exact Hlast).
    unfold bind.
    set (err := render (orElse (gen_error result) (Some "Unknown error"%string))).
    destruct (regenerate_rejected userStrategy lastCode err p)
      as [r [Hrun [Hrej' Hnob]]].
    unfold regenerate in Hrun. rewrite Hrun.
    pose proof Hrej' as [_ [c [Hraw [Hne _]]]].
    assert (Hcode : behaviorCode r = None)
      by (unfold behaviorCode; rewrite Hnob; reflexivity).
    rewrite Hcode, Hraw. cbn [falsy negb].
    replace (String.eqb c "") with false
      by (symmetry; apply String.eqb_neq; exact Hne).
    cbn [negb render].
    destruct (IH r c {| modelLoaded := modelLoaded p;
                        requests := S (requests p) |} Hrej' Hne)
      as [r' [Hloop Hrej'']].
    exists r'. split; [| exact Hrej''].
    rewrite Hloop. cbn [modelLoaded requests].
    f_equal. f_equal. lia.
Qed.

Lemma autoRetry_requests (userStrategy : string) (maxRetries : nat)
      (p : Provider) :
  (requests (snd (autoRetry userStrategy maxRetries p))
   <= requests p + 1 + maxRetries)%nat.
Proof.
  unfold autoRetry, generateWithAutoRetry, bind.
  pose proof (generateBehavior_requests userStrategy p) as [Hg _].
  unfold generate in Hg.
  destruct (generateBehavior _ _ _ _ userStrategy p) as [[r | e] p1];
    cbn [fst snd] in *; [| lia].
  match goal with
  | |- context [retryLoop _ _ _ _ maxRetries userStrategy r ?lc p1] =>
      pose proof (retryLoop_requests maxRetries userStrategy r lc p1) as Hl;
      unfold loop in Hl;
      destruct (retryLoop _ _ _ _ maxRetries userStrategy r lc p1)
        as [[r' | e'] p2]
  end; cbn [fst snd] in *; [| lia].
  destruct (negb (success r')); cbn; lia.
Qed.

Lemma autoRetry_rejected (userStrategy : string) (maxRetries : nat)
      (p : Provider) :
  modelLoaded p = true ->
  exists r lastRaw,
    autoRetry userStrategy maxRetries p
    = (Normal r, {| modelLoaded := modelLoaded p;
                    requests := requests p + 1 + maxRetries |})
    /\ success r = false
    /\ rawResponse r = Some lastRaw
    /\ valid (validate lastRaw) = false
    /\ gen_error r
       = Some (exhaustedMessage maxRetries
                 (Js.join (errors (validate lastRaw)) PromptBuilder.NL)).
Proof.
  intros Hl.
  destruct (generate_rejected userStrategy p Hl) as [r0 [Hgen Hrej0]].
  unfold autoRetry, generateWithAutoRetry, bind.
  unfold generate in Hgen. rewrite Hgen.
  pose proof Hrej0 as [_ [c0 [Hraw0 [Hne0 _]]]].
  set (lastCode := render (orElse (orElse (behaviorCode r0) (rawResponse r0))
                                  (Some ""%string))).
  assert (Hlast : lastCode <> EmptyString).
  { unfold lastCode. rewrite Hraw0. unfold orElse.
    destruct (falsy (behaviorCode r0)) eqn:Hb.
    - rewrite (falsy_nonempty c0 Hne0). exact Hne0.
    - rewrite Hb. destruct (behaviorCode r0) as [code |]; [| discriminate Hb].
      cbn in *. apply String.eqb_neq. exact Hb. }
  destruct (retryLoop_rejected maxRetries userStrategy r0 lastCode
              {| modelLoaded := modelLoaded p; requests := S (requests p) |}
              Hrej0 Hlast) as [r [Hloop Hrej]].
  unfold loop in Hloop. rewrite Hloop.
  destruct Hrej as [Hfail [c [Hraw [Hne [Hinv Herr]]]]].
  rewrite Hfail. cbn [negb modelLoaded requests]. unfold ret.
  eexists. exists c. split.
  - f_equal. f_equal. lia.
  - cbn [success rawResponse gen_error]. rewrite Herr.
    repeat split; assumption.
Qed.

End RetryPolicy.

(** C9. Whatever the backend does, [generateWithAutoRetry] sends it at
    most one request plus [maxRetries] further ones.  When a model is
    loaded and the backend always answers with code that fails
    validation, it sends exactly [1 + maxRetries] requests and returns a
    failure that carries the last raw answer and the message "Code
    generation failed after [maxRetries] attempts. Last error: " followed
    by the validation errors of that last answer: the count named is the
    retry budget, which is the number of further attempts made. *)
Theorem C9_auto_retry_exhausted
        (SYSTEM_PROMPT : string)
        (respond : nat -> string -> string -> Outcome LLMResponse)
        (validate : string -> ValidationResult)
        (getCleanedCode : string -> string)
        (userStrategy : string) (maxRetries : nat) (p : Provider) :
  let run :=
    generateWithAutoRetry SYSTEM_PROMPT respond validate getCleanedCode
                          userStrategy maxRetries p in
  (requests (snd run) <= requests p + 1 + maxRetries)%nat
  /\
  (alwaysInvalidCode respond validate -> modelLoaded p = true ->
   requests (snd run) = (requests p + 1 + maxRetries)%nat
   /\ exists r lastRaw,
       fst run = Normal r
       /\ success r = false
       /\ rawResponse r = Some lastRaw
       /\ valid (validate lastRaw) = false
       /\ gen_error r
          = Some (exhaustedMessage maxRetries
                    (Js.join (errors (validate lastRaw)) PromptBuilder.NL))).
Proof.
  intros run. split.
  - apply autoRetry_requests.
  - intros Hbackend Hl.
    destruct (autoRetry_rejected SYSTEM_PROMPT respond validate getCleanedCode
                Hbackend userStrategy maxRetries p Hl)
      as [r [lastRaw [Hrun H]]].
    unfold run. rewrite Hrun. split; [reflexivity |].
    exists r, lastRaw. split; [reflexivity | exact H].
Qed.

Lemma C9_auto_retry_exhausted_witness :
  let run :=
    generateWithAutoRetry EmptyString evalBackend rejectAll (fun s => s)
                          "charge" 3 {| modelLoaded := true; requests := 0 |} in
  requests (snd run) = 4%nat
  /\ exists r lastRaw,
      fst run = Normal r
      /\ success r = false
      /\ rawResponse r = Some lastRaw
      /\ valid (rejectAll lastRaw) = false
      /\ gen_error r
         = Some (exhaustedMessage 3
                   (Js.join (errors (rejectAll lastRaw)) PromptBuilder.NL)).
Proof.
  apply (proj2 (C9_auto_retry_exhausted EmptyString evalBackend rejectAll
                  (fun s => s) "charge" 3
                  {| modelLoaded := true; requests := 0 |})).
  - intros n sp up.
    exists {| rsp_success := true; content := Some "eval(1)"%string;
              rsp_error := None |}, "eval(1)"%string.
    repeat split. discriminate.
  - reflexivity.
Defined.

(** ** The loop-guard rewrite, as text *)

Lemma closeGuards_spec (n : nat) (code : string) :
  CodeValidator.closeGuards n code
  = (code +++ String.concat "" (repeat " }"%string n))%string.
Proof.
  revert code. induction n as [| n IH]; intros code; simpl.
  - induction code as [| c code IHc]; simpl; [reflexivity | now rewrite <- IHc].
  - rewrite IH. destruct n as [| n']; simpl.
    + induction code as [| c code IHc]; simpl; [reflexivity |].
      f_equal. exact IHc.
    + clear IH. induction code as [| c code IHc]; simpl; [reflexivity |].
      f_equal. exact IHc.
Qed.

(** One closing brace is appended for each loop header rewritten. *)
Lemma injectLoopGuards_closes (code : string) :
  let whiles := Js.replaceAll (CodeValidator.loopRe "while")
                              (CodeValidator.guardText "while") 0 code in
  let fors := Js.replaceAll (CodeValidator.loopRe "for")
                            (CodeValidator.guardText "for")
                            (snd whiles) (fst whiles) in
  CodeValidator.injectLoopGuards code
  = (fst fors +++ String.concat "" (repeat " }"%string (snd fors)))%string.
Proof.
  intros whiles fors. unfold CodeValidator.injectLoopGuards.
  apply closeGuards_spec.
Qed.

Example injectLoopGuards_while_true :
  CodeValidator.injectLoopGuards "while(true){ tank.move(1); }"
  = "{ let __loopGuard0=0; while (true) { if(++__loopGuard0>100)break; tank.move(1); } }"%string.
Proof. vm_compute. reflexivity. Qed.

(** A header whose condition holds a closing parenthesis is left as it
    is. *)
Example injectLoopGuards_call_in_condition :
  CodeValidator.injectLoopGuards "while (tank.canFire()) { tank.fire(); }"
  = "while (tank.canFire()) { tank.fire(); }"%string.
Proof. vm_compute. reflexivity. Qed.

(** ** End-to-end scenarios of the validator *)

Example scenarioA_cleans :
  CodeValidator.cleanCode scenarioA = "tank.move(1);"%string
  /\ valid (validate acceptAll scenarioA) = true.
Proof. split; vm_compute; reflexivity. Qed.

Example scenarioB_rejected :
  errors (validate acceptAll scenarioB)
  = ["Forbidden pattern detected: \beval\s*\("%string]
  /\ valid (validate acceptAll scenarioB) = false
  /\ CodeValidator.getCleanedCode scenarioB = scenarioB.
Proof. repeat split; vm_compute; reflexivity. Qed.

(** ** The agent: cooldown, movement, damage *)

Lemma fire_interval_pos (t : Tank) :
  0 < fireRate (stats t) -> 0 < 1000 / fireRate (stats t).
Proof.
  intros H. apply Rdiv_lt_0_compat; lra.
Qed.

Lemma fire_cooldown (t : Tank) (Hrate : 0 < fireRate (stats t)) :
  fst (TankM.fire t) = TankM.canFire t
  /\ (TankM.canFire t = true ->
      TankM.canFire (snd (TankM.fire t)) = false
      /\ TankM.fire (snd (TankM.fire t)) = (false, snd (TankM.fire t))
      /\ lastFireTime (snd (TankM.fire t)) = now t
      /\ wantsFire (snd (TankM.fire t)) = true)
  /\ (TankM.canFire t = false -> snd (TankM.fire t) = t).
Proof.
  pose proof (fire_interval_pos t Hrate) as Hpos.
  unfold TankM.fire, TankM.canFire.
  destruct (Rge_dec (now t - lastFireTime t) (1000 / fireRate (stats t)))
    as [Hge | Hlt]; cbn [fst snd].
  - split; [reflexivity |]. split; [| discriminate].
    intros _. cbn.
    destruct (Rge_dec (now t - now t) (1000 / fireRate (stats t))) as [H | H].
    + exfalso. lra.
    + repeat split; reflexivity.
  - split; [reflexivity |]. split; [discriminate | reflexivity].
Qed.

(** X1. A shot is granted exactly when [canFire] says so; once it is
    granted, and until the clock moves, [canFire] is false and another
    [fire] is refused and changes nothing; a refused [fire] changes
    nothing. *)
Theorem X1_fire_cooldown (t : Tank) (Hrate : 0 < fireRate (stats t)) :
  fst (TankM.fire t) = TankM.canFire t
  /\ (TankM.canFire t = true ->
      TankM.canFire (snd (TankM.fire t)) = false
      /\ TankM.fire (snd (TankM.fire t)) = (false, snd (TankM.fire t))
      /\ lastFireTime (snd (TankM.fire t)) = now t
      /\ wantsFire (snd (TankM.fire t)) = true)
  /\ (TankM.canFire t = false -> snd (TankM.fire t) = t).
Proof.
  exact (fire_cooldown t Hrate).
Qed.

Lemma X1_fire_cooldown_witness :
  TankM.canFire tank0 = true
  /\ TankM.canFire (snd (TankM.fire tank0)) = false.
Proof.
  assert (Hrate : 0 < fireRate (stats tank0)) by (cbn; lra).
  destruct (X1_fire_cooldown tank0 Hrate) as [_ [Hgranted _]].
  assert (Hcan : TankM.canFire tank0 = true).
  { unfold TankM.canFire. cbn.
    destruct (Rge_dec (1000 - 0) (1000 / 2)) as [H | H];
      [reflexivity | exfalso; lra]. }
  split; [exact Hcan | exact (proj1 (Hgranted Hcan))].
Defined.

Lemma Clamp_unit (v : R) : -1 <= Phaser.Clamp v (-1) 1 <= 1.
Proof.
  unfold Phaser.Clamp, Rmax, Rmin.
  destruct (Rle_dec 1 v); destruct (Rle_dec (-1) _); lra.
Qed.

Lemma step_length (a d : R) :
  sqrt ((cos a * d) * (cos a * d) + (sin a * d) * (sin a * d)) = Rabs d.
Proof.
  replace ((cos a * d) * (cos a * d) + (sin a * d) * (sin a * d))
    with (Rsqr d * (Rsqr (sin a) + Rsqr (cos a))) by (unfold Rsqr; ring).
  rewrite sin2_cos2, Rmult_1_r. apply sqrt_Rsqr_abs.
Qed.

Lemma DistanceBetween_step (x0 y0 a d : R) :
  Phaser.DistanceBetween x0 y0 (x0 + cos a * d) (y0 + sin a * d) = Rabs d.
Proof.
  unfold Phaser.DistanceBetween. cbv zeta.
  replace (x0 - (x0 + cos a * d)) with (cos a * (- d)) by ring.
  replace (y0 - (y0 + sin a * d)) with (sin a * (- d)) by ring.
  rewrite step_length. apply Rabs_Ropp.
Qed.

Lemma DistanceBetween_same (x0 y0 : R) :
  Phaser.DistanceBetween x0 y0 x0 y0 = 0.
Proof.
  unfold Phaser.DistanceBetween. cbv zeta.
  replace ((x0 - x0) * (x0 - x0) + (y0 - y0) * (y0 - y0)) with 0 by ring.
  apply sqrt_0.
Qed.

Lemma scaled_input_bound (s ds i : R) :
  0 <= s -> 0 <= ds -> -1 <= i <= 1 -> Rabs (s * ds * i) <= s * ds.
Proof.
  intros Hs Hds Hi.
  assert (Hprod : 0 <= s * ds) by (apply Rmult_le_pos; assumption).
  rewrite Rabs_mult, (Rabs_pos_eq (s * ds)) by assumption.
  assert (Habs : Rabs i <= 1) by (apply Rabs_le; lra).
  pose proof (Rabs_pos i).
  nra.
Qed.

(** The position, heading and inputs after one frame of an active tank
    whose inputs are [m] and [r]. *)
Lemma update_active (t : Tank) (delta : R) :
  active t = true ->
  let ds := delta / 1000 in
  let rot := rotation t + turnSpeed (stats t) * ds * turnInput t in
  let d := moveSpeed (stats t) * ds * moveInput t in
  let t' := TankM.update t delta in
  rotation t' = rot
  /\ x t' = x t + cos rot * d
  /\ y t' = y t + sin rot * d
  /\ moveInput t' = 0 /\ turnInput t' = 0
  /\ tankId t' = tankId t /\ stats t' = stats t /\ active t' = true
  /\ currentHealth t' = currentHealth t /\ sensors t' = sensors t
  /\ wantsFire t' = wantsFire t /\ lastFireTime t' = lastFireTime t
  /\ now t' = now t.
Proof.
  intros Hactive. cbv zeta. unfold TankM.update. rewrite Hactive.
  cbn [negb]. cbv zeta.
  destruct (Req_dec_T (turnInput t) 0) as [Hturn | Hturn];
    destruct (Req_dec_T (moveInput _) 0) as [Hmove | Hmove];
    cbn in Hmove |- *;
    match goal with
    | |- context [Rgt_dec ?a ?b] => destruct (Rgt_dec a b)
    end; cbn;
    rewrite ?Hturn, ?Hmove, ?Hactive;
    repeat split; try reflexivity; try ring;
    replace (rotation t + turnSpeed (stats t) * (delta / 1000) * 0)
      with (rotation t) by ring; reflexivity.
Qed.

(** With real numbers for the speed and the rate: one frame moves an
    active tank by at most [moveSpeed * delta / 1000] pixels and turns
    it by at most [turnSpeed * delta / 1000] radians, and it clears both
    inputs. *)
Lemma update_speed_limit (t : Tank) (speed rate delta : R)
        (Hactive : active t = true) (Hdelta : 0 <= delta)
        (Hmove : 0 <= moveSpeed (stats t)) (Hturn : 0 <= turnSpeed (stats t)) :
  let t' := TankM.update (TankM.turn (TankM.move t speed) rate) delta in
  Phaser.DistanceBetween (x t) (y t) (x t') (y t')
    <= moveSpeed (stats t) * (delta / 1000)
  /\ Rabs (rotation t' - rotation t) <= turnSpeed (stats t) * (delta / 1000)
  /\ moveInput t' = 0 /\ turnInput t' = 0.
Proof.
  cbv zeta.
  set (t1 := TankM.turn (TankM.move t speed) rate).
  assert (Hactive1 : active t1 = true) by exact Hactive.
  destruct (update_active t1 delta Hactive1)
    as (Hrot & Hx & Hy & Hmi & Hti & _).
  rewrite Hrot, Hx, Hy, Hmi, Hti.
  change (x t1) with (x t). change (y t1) with (y t).
  change (rotation t1) with (rotation t). change (stats t1) with (stats t).
  change (moveInput t1) with (Phaser.Clamp speed (-1) 1).
  change (turnInput t1) with (Phaser.Clamp rate (-1) 1).
  assert (Hds : 0 <= delta / 1000) by lra.
  split; [| split; [| split; reflexivity]].
  - rewrite DistanceBetween_step.
    apply scaled_input_bound; [assumption | assumption | apply Clamp_unit].
  - replace (rotation t
             + turnSpeed (stats t) * (delta / 1000) * Phaser.Clamp rate (-1) 1
             - rotation t)
      with (turnSpeed (stats t) * (delta / 1000) * Phaser.Clamp rate (-1) 1)
      by ring.
    apply scaled_input_bound; [assumption | assumption | apply Clamp_unit].
Qed.

(** The tank after [move] and [turn] have stored inputs within their
    bounds. *)
Lemma stored_inputs (t : Tank) (m r : R) :
  -1 <= m <= 1 -> -1 <= r <= 1 ->
  set_turnInput (set_moveInput t m) r = TankM.turn (TankM.move t m) r.
Proof.
  intros Hm Hr. unfold TankM.turn, TankM.move.
  rewrite (Clamp_inside m (-1) 1 Hm), (Clamp_inside r (-1) 1 Hr).
  reflexivity.
Qed.

Lemma host_inputs (speed rate : JsNumber.num) :
  speed <> JsNumber.NaN -> rate <> JsNumber.NaN ->
  exists m r : R,
    TankJs.move speed = JsNumber.Num m /\ TankJs.turn rate = JsNumber.Num r
    /\ -1 <= m <= 1 /\ -1 <= r <= 1.
Proof.
  intros Hs Hr.
  destruct (host_Clamp_number speed (-1) 1) as [m [Em Hm]]; [lra | exact Hs |].
  destruct (host_Clamp_number rate (-1) 1) as [r [Er Hr']]; [lra | exact Hr |].
  exists m, r. repeat split; try assumption; lra.
Qed.

(** X2. Whatever speed and rate other than NaN a script commands, the
    infinite ones included, [move] and [turn] store real inputs and one
    frame then moves an active tank by at most [moveSpeed * delta / 1000]
    pixels and turns it by at most [turnSpeed * delta / 1000] radians,
    and clears both inputs.  A NaN speed or rate (a missing argument, for
    instance) is stored as NaN, and nothing is said of the frame then. *)
Theorem X2_update_speed_limit (t : Tank) (speed rate : JsNumber.num)
        (delta : R)
        (Hactive : active t = true) (Hdelta : 0 <= delta)
        (Hmove : 0 <= moveSpeed (stats t)) (Hturn : 0 <= turnSpeed (stats t))
        (Hspeed : speed <> JsNumber.NaN) (Hrate : rate <> JsNumber.NaN) :
  (exists m r : R,
      TankJs.move speed = JsNumber.Num m /\ TankJs.turn rate = JsNumber.Num r
      /\ let t' := TankM.update (set_turnInput (set_moveInput t m) r) delta in
         Phaser.DistanceBetween (x t) (y t) (x t') (y t')
           <= moveSpeed (stats t) * (delta / 1000)
         /\ Rabs (rotation t' - rotation t)
            <= turnSpeed (stats t) * (delta / 1000)
         /\ moveInput t' = 0 /\ turnInput t' = 0)
  /\ TankJs.move JsNumber.NaN = JsNumber.NaN
  /\ TankJs.turn JsNumber.NaN = JsNumber.NaN.
Proof.
  split; [| split; reflexivity].
  destruct (host_inputs speed rate Hspeed Hrate) as [m [r [Em [Er [Hm Hr]]]]].
  exists m, r. split; [exact Em |]. split; [exact Er |].
  rewrite (stored_inputs t m r Hm Hr).
  exact (update_speed_limit t m r delta Hactive Hdelta Hmove Hturn).
Qed.

Lemma X2_update_speed_limit_witness :
  (exists m r : R,
      TankJs.move JsNumber.PosInfinity = JsNumber.Num m
      /\ TankJs.turn (JsNumber.Num (-3)) = JsNumber.Num r
      /\ let t' := TankM.update (set_turnInput (set_moveInput tank0 m) r) 16 in
         Phaser.DistanceBetween (x tank0) (y tank0) (x t') (y t')
           <= moveSpeed (stats tank0) * (16 / 1000)
         /\ Rabs (rotation t' - rotation tank0)
            <= turnSpeed (stats tank0) * (16 / 1000)
         /\ moveInput t' = 0 /\ turnInput t' = 0)
  /\ TankJs.move JsNumber.NaN = JsNumber.NaN
  /\ TankJs.turn JsNumber.NaN = JsNumber.NaN.
Proof.
  apply (X2_update_speed_limit tank0 JsNumber.PosInfinity (JsNumber.Num (-3))
                               16);
    [reflexivity | lra | cbn; lra | cbn; lra | discriminate | discriminate].
Defined.

(** ** Wrap-around of positions *)

Lemma wrapPosition_fields (t : Tank) :
  BattleSceneM.wrapPosition t
  = set_position t (x (BattleSceneM.wrapPosition t))
                 (y (BattleSceneM.wrapPosition t)).
Proof.
  unfold BattleSceneM.wrapPosition. destruct (active t); cbn [negb].
  - cbv zeta.
    destruct (Rlt_dec (x t) 0); [| destruct (Rgt_dec (x t) _)];
      (destruct (Rlt_dec (y t) 0); [| destruct (Rgt_dec (y t) _)]);
      cbn; try reflexivity; destruct t; reflexivity.
  - destruct t; reflexivity.
Qed.

Lemma wrapPosition_range (t : Tank) (Hactive : active t = true)
        (Hx : - DEFAULT_BATTLE_CONFIG.arenaWidth <= x t
              <= 2 * DEFAULT_BATTLE_CONFIG.arenaWidth)
        (Hy : - DEFAULT_BATTLE_CONFIG.arenaHeight <= y t
              <= 2 * DEFAULT_BATTLE_CONFIG.arenaHeight) :
  let t' := BattleSceneM.wrapPosition t in
  0 <= x t' <= DEFAULT_BATTLE_CONFIG.arenaWidth
  /\ 0 <= y t' <= DEFAULT_BATTLE_CONFIG.arenaHeight
  /\ t' = set_position t (x t') (y t')
  /\ (0 <= x t <= DEFAULT_BATTLE_CONFIG.arenaWidth ->
      0 <= y t <= DEFAULT_BATTLE_CONFIG.arenaHeight -> t' = t).
Proof.
  cbv zeta. split; [| split; [| split; [apply wrapPosition_fields |]]].
  all: unfold BattleSceneM.wrapPosition; rewrite Hactive; cbn [negb]; cbv zeta;
    unfold DEFAULT_BATTLE_CONFIG.arenaWidth, DEFAULT_BATTLE_CONFIG.arenaHeight
      in *;
    destruct (Rlt_dec (x t) 0); [| destruct (Rgt_dec (x t) _)];
      (destruct (Rlt_dec (y t) 0); [| destruct (Rgt_dec (y t) _)]);
      cbn; try lra; intros; try lra; reflexivity.
Qed.

Lemma Rabs_bound (a b : R) : Rabs a <= b -> - b <= a <= b.
Proof.
  unfold Rabs. destruct (Rcase_abs a); lra.
Qed.

(** X3. [wrapPosition] shifts each coordinate of an active tank by at
    most one arena size: a tank that is less than one arena size outside
    comes back inside, a tank inside is not touched, and nothing but
    the position changes. *)
Theorem X3_wrapPosition_inside (t : Tank) (Hactive : active t = true)
        (Hx : - DEFAULT_BATTLE_CONFIG.arenaWidth <= x t
              <= 2 * DEFAULT_BATTLE_CONFIG.arenaWidth)
        (Hy : - DEFAULT_BATTLE_CONFIG.arenaHeight <= y t
              <= 2 * DEFAULT_BATTLE_CONFIG.arenaHeight) :
  let t' := BattleSceneM.wrapPosition t in
  0 <= x t' <= DEFAULT_BATTLE_CONFIG.arenaWidth
  /\ 0 <= y t' <= DEFAULT_BATTLE_CONFIG.arenaHeight
  /\ t' = set_position t (x t') (y t')
  /\ (0 <= x t <= DEFAULT_BATTLE_CONFIG.arenaWidth ->
      0 <= y t <= DEFAULT_BATTLE_CONFIG.arenaHeight -> t' = t).
Proof.
  exact (wrapPosition_range t Hactive Hx Hy).
Qed.

Lemma X3_wrapPosition_inside_witness :
  let t := set_position tank0 (-5) 810 in
  let t' := BattleSceneM.wrapPosition t in
  0 <= x t' <= DEFAULT_BATTLE_CONFIG.arenaWidth
  /\ 0 <= y t' <= DEFAULT_BATTLE_CONFIG.arenaHeight
  /\ t' = set_position t (x t') (y t')
  /\ (0 <= x t <= DEFAULT_BATTLE_CONFIG.arenaWidth ->
      0 <= y t <= DEFAULT_BATTLE_CONFIG.arenaHeight -> t' = t).
Proof.
  apply (X3_wrapPosition_inside (set_position tank0 (-5) 810));
    [ reflexivity
    | unfold DEFAULT_BATTLE_CONFIG.arenaWidth; cbn; lra
    | unfold DEFAULT_BATTLE_CONFIG.arenaHeight; cbn; lra ].
Defined.

(** With real numbers for the speed and the rate: an active tank inside
    the arena is inside the arena again after one frame and the wrap
    that follows it. *)
Lemma frame_stays_inside (t : Tank) (speed rate delta : R)
        (Hactive : active t = true) (Hdelta : 0 <= delta)
        (Hmove : 0 <= moveSpeed (stats t))
        (Hstep : moveSpeed (stats t) * (delta / 1000)
                 <= DEFAULT_BATTLE_CONFIG.arenaHeight)
        (Hx : 0 <= x t <= DEFAULT_BATTLE_CONFIG.arenaWidth)
        (Hy : 0 <= y t <= DEFAULT_BATTLE_CONFIG.arenaHeight) :
  let t' :=
    BattleSceneM.wrapPosition
      (TankM.update (TankM.turn (TankM.move t speed) rate) delta) in
  0 <= x t' <= DEFAULT_BATTLE_CONFIG.arenaWidth
  /\ 0 <= y t' <= DEFAULT_BATTLE_CONFIG.arenaHeight.
Proof.
  cbv zeta.
  set (t1 := TankM.turn (TankM.move t speed) rate).
  assert (Hactive1 : active t1 = true) by exact Hactive.
  destruct (update_active t1 delta Hactive1)
    as (_ & Hx1 & Hy1 & _ & _ & _ & _ & Hactive2 & _).
  set (a := rotation t1 + turnSpeed (stats t1) * (delta / 1000) * turnInput t1)
    in Hx1, Hy1.
  change (x t1) with (x t) in Hx1. change (y t1) with (y t) in Hy1.
  change (stats t1) with (stats t) in Hx1, Hy1.
  change (moveInput t1) with (Phaser.Clamp speed (-1) 1) in Hx1, Hy1.
  set (d := moveSpeed (stats t) * (delta / 1000) * Phaser.Clamp speed (-1) 1)
    in Hx1, Hy1.
  assert (Hd : Rabs d <= moveSpeed (stats t) * (delta / 1000)).
  { apply scaled_input_bound; [assumption | lra | apply Clamp_unit]. }
  assert (Hcos : Rabs (cos a * d) <= Rabs d).
  { rewrite Rabs_mult. pose proof (Rabs_pos d).
    assert (Rabs (cos a) <= 1) by (apply Rabs_le; pose proof (COS_bound a); lra).
    pose proof (Rabs_pos (cos a)). nra. }
  assert (Hsin : Rabs (sin a * d) <= Rabs d).
  { rewrite Rabs_mult. pose proof (Rabs_pos d).
    assert (Rabs (sin a) <= 1) by (apply Rabs_le; pose proof (SIN_bound a); lra).
    pose proof (Rabs_pos (sin a)). nra. }
  unfold DEFAULT_BATTLE_CONFIG.arenaWidth, DEFAULT_BATTLE_CONFIG.arenaHeight
    in *.
  apply Rabs_bound in Hcos. apply Rabs_bound in Hsin.
  assert (Hd' : Rabs d <= 800) by lra.
  destruct (wrapPosition_range (TankM.update t1 delta) Hactive2)
    as (Hrx & Hry & _).
  - unfold DEFAULT_BATTLE_CONFIG.arenaWidth. rewrite Hx1. lra.
  - unfold DEFAULT_BATTLE_CONFIG.arenaHeight. rewrite Hy1. lra.
  - unfold DEFAULT_BATTLE_CONFIG.arenaWidth, DEFAULT_BATTLE_CONFIG.arenaHeight
      in *. split; assumption.
Qed.

(** X4. Together: an active tank inside the arena is inside the arena
    again after one frame and the wrap that follows it, whatever speed
    and rate other than NaN it was commanded, as long as it cannot cross
    more than one arena height in that frame. *)
Theorem X4_frame_stays_inside (t : Tank) (speed rate : JsNumber.num)
        (delta : R)
        (Hactive : active t = true) (Hdelta : 0 <= delta)
        (Hmove : 0 <= moveSpeed (stats t))
        (Hstep : moveSpeed (stats t) * (delta / 1000)
                 <= DEFAULT_BATTLE_CONFIG.arenaHeight)
        (Hx : 0 <= x t <= DEFAULT_BATTLE_CONFIG.arenaWidth)
        (Hy : 0 <= y t <= DEFAULT_BATTLE_CONFIG.arenaHeight)
        (Hspeed : speed <> JsNumber.NaN) (Hrate : rate <> JsNumber.NaN) :
  exists m r : R,
    TankJs.move speed = JsNumber.Num m /\ TankJs.turn rate = JsNumber.Num r
    /\ let t' :=
         BattleSceneM.wrapPosition
           (TankM.update (set_turnInput (set_moveInput t m) r) delta) in
       0 <= x t' <= DEFAULT_BATTLE_CONFIG.arenaWidth
       /\ 0 <= y t' <= DEFAULT_BATTLE_CONFIG.arenaHeight.
Proof.
  destruct (host_inputs speed rate Hspeed Hrate) as [m [r [Em [Er [Hm Hr]]]]].
  exists m, r. split; [exact Em |]. split; [exact Er |].
  rewrite (stored_inputs t m r Hm Hr).
  exact (frame_stays_inside t m r delta Hactive Hdelta Hmove Hstep Hx Hy).
Qed.

Lemma X4_frame_stays_inside_witness :
  exists m r : R,
    TankJs.move (JsNumber.Num (-7)) = JsNumber.Num m
    /\ TankJs.turn JsNumber.NegInfinity = JsNumber.Num r
    /\ let t' :=
         BattleSceneM.wrapPosition
           (TankM.update (set_turnInput (set_moveInput tank0 m) r) 16) in
       0 <= x t' <= DEFAULT_BATTLE_CONFIG.arenaWidth
       /\ 0 <= y t' <= DEFAULT_BATTLE_CONFIG.arenaHeight.
Proof.
  apply (X4_frame_stays_inside tank0 (JsNumber.Num (-7)) JsNumber.NegInfinity
                               16);
    unfold DEFAULT_BATTLE_CONFIG.arenaWidth, DEFAULT_BATTLE_CONFIG.arenaHeight;
    cbn; try reflexivity; try discriminate; lra.
Defined.

(** ** Damage *)

(** X5. Damage never makes the health negative and never raises it; the
    tank is dead afterwards exactly when the damage reaches its health,
    and then it is deactivated; otherwise only its health changes. *)
Theorem X5_takeDamage_health (t : Tank) (amount : R)
        (Hamount : 0 <= amount) (Hhealth : 0 <= currentHealth t) :
  let t' := TankM.takeDamage t amount in
  0 <= currentHealth t' <= currentHealth t
  /\ (TankM.isDead t' = true <-> currentHealth t <= amount)
  /\ (TankM.isDead t' = true -> active t' = false /\ currentHealth t' = 0)
  /\ (TankM.isDead t' = false ->
      t' = set_currentHealth t (currentHealth t - amount)).
Proof.
  cbv zeta. unfold TankM.takeDamage, TankM.isDead, TankM.onDeath. cbv zeta.
  cbn [currentHealth set_currentHealth].
  unfold Rmax.
  destruct (Rle_dec 0 (currentHealth t - amount)) as [Hpos | Hneg].
  - destruct (Rle_dec (currentHealth t - amount) 0) as [Hzero | Hlive];
      cbn [currentHealth set_currentHealth set_active active].
    + destruct (Rle_dec (currentHealth t - amount) 0); [| contradiction].
      repeat split; try lra; try discriminate; intros; lra.
    + destruct (Rle_dec (currentHealth t - amount) 0); [contradiction |].
      repeat split; try lra; try discriminate; intros; try lra; reflexivity.
  - destruct (Rle_dec 0 0) as [_ | H]; [| exfalso; lra].
    cbn [currentHealth set_currentHealth set_active active].
    destruct (Rle_dec 0 0) as [_ | H]; [| exfalso; lra].
    repeat split; try lra; try discriminate; intros; lra.
Qed.

Lemma X5_takeDamage_health_witness :
  let t' := TankM.takeDamage tank0 15 in
  0 <= currentHealth t' <= currentHealth tank0
  /\ (TankM.isDead t' = true <-> currentHealth tank0 <= 15)
  /\ (TankM.isDead t' = true -> active t' = false /\ currentHealth t' = 0)
  /\ (TankM.isDead t' = false ->
      t' = set_currentHealth tank0 (currentHealth tank0 - 15)).
Proof.
  apply (X5_takeDamage_health tank0 15); cbn; lra.
Defined.

(** ** The shot flag *)

(** A granted shot is handed to the scene exactly once: [consumeFire]
    reports a shot exactly when [fire] has set the flag since the last
    call, it clears the flag, and the shot leaves from the point 24
    pixels from the tank along the turret. *)
Lemma consumeFire_once (t : Tank) :
  let r := TankM.consumeFire t in
  fired (fst r) = wantsFire t
  /\ fired (fst (TankM.consumeFire (snd r))) = false
  /\ (wantsFire t = true ->
      f_angle (fst r) = turretRotation t
      /\ Phaser.DistanceBetween (x t) (y t) (px (f_position (fst r)))
                                (py (f_position (fst r))) = 24
      /\ snd r = set_wantsFire t false)
  /\ (wantsFire t = false -> snd r = t)
  /\ (TankM.canFire t = true ->
      fired (fst (TankM.consumeFire (snd (TankM.fire t)))) = true).
Proof.
  cbv zeta. unfold TankM.consumeFire.
  destruct (wantsFire t) eqn:Hw; cbn [fst snd fired f_angle f_position
                                      wantsFire set_wantsFire px py].
  - rewrite ?Hw. repeat split; try reflexivity; try discriminate.
    + cbv zeta. rewrite DistanceBetween_step. apply Rabs_pos_eq. lra.
    + unfold TankM.fire, TankM.canFire.
      destruct (Rge_dec _ _); [reflexivity | discriminate].
  - rewrite ?Hw. repeat split; try reflexivity; try discriminate.
    unfold TankM.fire, TankM.canFire.
    destruct (Rge_dec _ _); [reflexivity | discriminate].
Qed.

(** ** Reading the sensors back *)

Lemma clampConfig_id (c : SensorConfig) :
  within_constraints c -> TankM.clampConfig c = c.
Proof.
  intros [[Ha1 Ha2] [Hr1 Hr2]].
  unfold SENSOR_CONSTRAINTS.minArc, SENSOR_CONSTRAINTS.maxArc,
    SENSOR_CONSTRAINTS.minRange, SENSOR_CONSTRAINTS.maxRange in *.
  unfold TankM.clampConfig.
  rewrite !Clamp_inside
    by (unfold SENSOR_CONSTRAINTS.minArc, SENSOR_CONSTRAINTS.maxArc,
          SENSOR_CONSTRAINTS.minRange, SENSOR_CONSTRAINTS.maxRange; lra).
  destruct c; reflexivity.
Qed.

Lemma map_clampConfig_id (configs : list SensorConfig) :
  Forall within_constraints configs -> map TankM.clampConfig configs = configs.
Proof.
  induction 1 as [| c l Hc _ IH]; [reflexivity |].
  cbn. rewrite clampConfig_id, IH by assumption. reflexivity.
Qed.

(** X6. Configurations that respect the documented bounds are read back
    as they were written: after an accepted [configureSensors],
    [getSensors] returns the list given, [getSensorCount] its length, and
    [getSensorConfig] the element at an index in range and nothing at any
    other index. *)
Theorem X6_sensors_read_back (t : Tank) (configs : list SensorConfig)
        (Hlen : (1 <= List.length configs <= SENSOR_CONSTRAINTS.maxSensors)%nat)
        (Hok : Forall within_constraints configs) :
  let t' := snd (TankM.configureSensors t configs) in
  fst (TankM.configureSensors t configs) = true
  /\ TankM.getSensors t' = configs
  /\ TankM.getSensorCount t' = List.length configs
  /\ (forall i : nat, TankM.getSensorConfig t' (Z.of_nat i) = nth_error configs i)
  /\ (forall index : Z,
        (index < 0 \/ Z.of_nat (List.length configs) <= index)%Z ->
        TankM.getSensorConfig t' index = None).
Proof.
  cbv zeta. unfold SENSOR_CONSTRAINTS.maxSensors in Hlen.
  rewrite (configureSensors_accept t configs Hlen). cbn [fst snd].
  unfold TankM.getSensors, TankM.getSensorCount, TankM.getSensorConfig.
  cbn [sensors set_sensors].
  rewrite (map_clampConfig_id configs Hok). repeat split.
  - intros i.
    destruct (Z.of_nat i <? 0)%Z eqn:Hneg; [apply Z.ltb_lt in Hneg; lia |].
    cbn [orb].
    destruct (Z.of_nat (List.length configs) <=? Z.of_nat i)%Z eqn:Hhigh.
    + apply Z.leb_le in Hhigh. symmetry. apply nth_error_None. lia.
    + rewrite Nat2Z.id. reflexivity.
  - intros index [Hneg | Hhigh].
    + apply Z.ltb_lt in Hneg. rewrite Hneg. reflexivity.
    + apply Z.leb_le in Hhigh. rewrite Hhigh, orb_true_r. reflexivity.
Qed.

Lemma X6_sensors_read_back_witness :
  let configs := [mkSensor 60 400 0; mkSensor 120 200 180] in
  let t' := snd (TankM.configureSensors tank0 configs) in
  fst (TankM.configureSensors tank0 configs) = true
  /\ TankM.getSensors t' = configs
  /\ TankM.getSensorCount t' = List.length configs
  /\ (forall i : nat, TankM.getSensorConfig t' (Z.of_nat i) = nth_error configs i)
  /\ (forall index : Z,
        (index < 0 \/ Z.of_nat (List.length configs) <= index)%Z ->
        TankM.getSensorConfig t' index = None).
Proof.
  apply (X6_sensors_read_back tank0 [mkSensor 60 400 0; mkSensor 120 200 180]).
  - cbn. unfold SENSOR_CONSTRAINTS.maxSensors. lia.
  - repeat constructor; cbn;
      unfold SENSOR_CONSTRAINTS.minArc, SENSOR_CONSTRAINTS.maxArc,
        SENSOR_CONSTRAINTS.minRange, SENSOR_CONSTRAINTS.maxRange; lra.
Defined.

Lemma filter_seq_sorted (f : nat -> bool) (n start : nat) :
  StronglySorted lt (filter f (seq start n)).
Proof.
  revert start. induction n as [| n IH]; intros start; cbn.
  - constructor.
  - destruct (f start); [| apply IH].
    constructor; [apply IH |].
    apply Forall_forall. intros j Hj. apply filter_In in Hj.
    destruct Hj as [Hj _]. apply in_seq in Hj. lia.
Qed.

(** X7. [getDetectingSensorIndices] lists, in increasing order and
    without repetition, exactly the indices whose cone holds the point;
    the list is not empty exactly when [isPointDetectable] holds. *)
Theorem X7_detecting_indices (t : Tank) (point : Point) :
  (forall i : nat,
     In i (TankM.getDetectingSensorIndices t point)
     <-> TankM.isPointInSensorIndex t point (Z.of_nat i) = true)
  /\ (TankM.isPointDetectable t point = true
      <-> TankM.getDetectingSensorIndices t point <> [])
  /\ StronglySorted lt (TankM.getDetectingSensorIndices t point)
  /\ Forall (fun i => (i < TankM.getSensorCount t)%nat)
            (TankM.getDetectingSensorIndices t point).
Proof.
  unfold TankM.getDetectingSensorIndices, TankM.isPointDetectable,
    TankM.getSensorCount.
  set (f := fun i : nat => TankM.isPointInSensorIndex t point (Z.of_nat i)).
  set (n := List.length (sensors t)).
  assert (Hrange : forall i, f i = true -> (i < n)%nat).
  { intros i Hi. destruct (Nat.lt_ge_cases i n) as [Hlt | Hge]; [exact Hlt |].
    unfold f in Hi.
    rewrite isPointInSensorIndex_out_of_range in Hi; [discriminate |].
    right. fold n. lia. }
  repeat split.
  - intros Hin. apply filter_In in Hin. tauto.
  - intros Hi. apply filter_In. split; [| exact Hi].
    apply in_seq. specialize (Hrange i Hi). lia.
  - intros Hex Hnil. apply existsb_exists in Hex. destruct Hex as [i [Hin Hi]].
    assert (Hin' : In i (filter f (seq 0 n))) by (apply filter_In; tauto).
    rewrite Hnil in Hin'. contradiction.
  - intros Hne. apply existsb_exists.
    destruct (filter f (seq 0 n)) as [| i l] eqn:Hf; [contradiction |].
    exists i. apply filter_In. rewrite Hf. left. reflexivity.
  - apply filter_seq_sorted.
  - apply Forall_forall. intros i Hi. apply filter_In in Hi.
    destruct Hi as [Hi _]. apply in_seq in Hi. lia.
Qed.

(** ** Distance to the edge of the arena *)

(** The candidate distance along one axis: position [p] in an arena
    side of size [e], direction component [c]. *)
Lemma edge_candidate (p e c : R) :
  0 < p < e -> 1 / 1000 < Rabs c ->
  let v := if Rgt_dec c 0 then (e - p) / c else - p / c in
  0 < v
  /\ (p + v * c = 0 \/ p + v * c = e)
  /\ forall d, 0 < d <= v -> 0 <= p + d * c <= e.
Proof.
  intros Hp Hc. cbv zeta.
  destruct (Rgt_dec c 0) as [Hpos | Hneg].
  - assert (Hv : 0 < (e - p) / c) by (apply Rdiv_lt_0_compat; lra).
    assert (Heq : (e - p) / c * c = e - p) by (field; lra).
    split; [exact Hv |]. split; [right; lra |].
    intros d [Hd Hle]. nra.
  - assert (Hc' : c < 0).
    { unfold Rabs in Hc. destruct (Rcase_abs c); lra. }
    assert (Hv : 0 < - p / c).
    { replace (- p / c) with (p / - c) by (field; lra).
      apply Rdiv_lt_0_compat; lra. }
    assert (Heq : - p / c * c = - p) by (field; lra).
    split; [exact Hv |]. split; [left; lra |].
    intros d [Hd Hle]. nra.
Qed.

Lemma direction_not_tiny (a : R) :
  1 / 1000 < Rabs (cos a) \/ 1 / 1000 < Rabs (sin a).
Proof.
  destruct (Rlt_dec (1 / 1000) (Rabs (cos a))) as [H | Hc]; [left; exact H |].
  right. apply Rnot_lt_le in Hc.
  destruct (Rlt_dec (1 / 1000) (Rabs (sin a))) as [H | Hs]; [exact H |].
  apply Rnot_lt_le in Hs. exfalso.
  pose proof (sin2_cos2 a) as H1. unfold Rsqr in H1.
  apply Rabs_bound in Hc. apply Rabs_bound in Hs. nra.
Qed.

(** X8. For a tank strictly inside its arena, [getWallDistance] is a
    positive number [d].  Along each axis on which the ray has a
    direction component above 0.001 in absolute value, the point at
    distance [d] along the ray is within the arena, and on one such axis
    it lies exactly on an edge of the arena. *)
Theorem X8_getWallDistance_inside (t : Tank) (angleOffset : R)
        (Hx : 0 < x t < arenaWidth t) (Hy : 0 < y t < arenaHeight t) :
  let a := rotation t + Phaser.DegToRad angleOffset in
  exists d : R,
    TankM.getWallDistance t angleOffset = Fin d
    /\ 0 < d
    /\ (1 / 1000 < Rabs (cos a) -> 0 <= x t + d * cos a <= arenaWidth t)
    /\ (1 / 1000 < Rabs (sin a) -> 0 <= y t + d * sin a <= arenaHeight t)
    /\ ((1 / 1000 < Rabs (cos a)
         /\ (x t + d * cos a = 0 \/ x t + d * cos a = arenaWidth t))
        \/ (1 / 1000 < Rabs (sin a)
            /\ (y t + d * sin a = 0 \/ y t + d * sin a = arenaHeight t))).
Proof.
  cbv zeta. unfold TankM.getWallDistance. cbv zeta.
  set (a := rotation t + Phaser.DegToRad angleOffset).
  pose proof (direction_not_tiny a) as Hdir.
  destruct (Rgt_dec (Rabs (cos a)) (1 / 1000)) as [Hc | Hc];
    destruct (Rgt_dec (Rabs (sin a)) (1 / 1000)) as [Hs | Hs].
  - (* both axes *)
    destruct (edge_candidate (x t) (arenaWidth t) (cos a) Hx Hc)
      as (Hv1 & He1 & Hin1).
    destruct (edge_candidate (y t) (arenaHeight t) (sin a) Hy Hs)
      as (Hv2 & He2 & Hin2).
    set (v1 := if Rgt_dec (cos a) 0 then (arenaWidth t - x t) / cos a
               else - x t / cos a) in *.
    set (v2 := if Rgt_dec (sin a) 0 then (arenaHeight t - y t) / sin a
               else - y t / sin a) in *.
    assert (Hmin : (if Rgt_dec (sin a) 0
                    then TankM.minExt
                           (if Rgt_dec (cos a) 0
                            then TankM.minExt Infinity
                                   ((arenaWidth t - x t) / cos a)
                            else TankM.minExt Infinity (- x t / cos a))
                           ((arenaHeight t - y t) / sin a)
                    else TankM.minExt
                           (if Rgt_dec (cos a) 0
                            then TankM.minExt Infinity
                                   ((arenaWidth t - x t) / cos a)
                            else TankM.minExt Infinity (- x t / cos a))
                           (- y t / sin a))
                   = Fin (Rmin v1 v2)).
    { unfold v1, v2. destruct (Rgt_dec (sin a) 0); destruct (Rgt_dec (cos a) 0);
        reflexivity. }
    rewrite Hmin.
    assert (Hpos : 0 < Rmin v1 v2) by (apply Rmin_glb_lt; assumption).
    destruct (Rgt_dec (Rmin v1 v2) 0) as [_ | H]; [| exfalso; lra].
    exists (Rmin v1 v2). split; [reflexivity |]. split; [exact Hpos |].
    split; [intros _; apply Hin1; split; [exact Hpos | apply Rmin_l] |].
    split; [intros _; apply Hin2; split; [exact Hpos | apply Rmin_r] |].
    unfold Rmin. destruct (Rle_dec v1 v2).
    + left. split; [exact Hc | exact He1].
    + right. split; [exact Hs | exact He2].
  - (* the horizontal axis only *)
    destruct (edge_candidate (x t) (arenaWidth t) (cos a) Hx Hc)
      as (Hv1 & He1 & Hin1).
    set (v1 := if Rgt_dec (cos a) 0 then (arenaWidth t - x t) / cos a
               else - x t / cos a) in *.
    assert (Hmin : (if Rgt_dec (cos a) 0
                    then TankM.minExt Infinity ((arenaWidth t - x t) / cos a)
                    else TankM.minExt Infinity (- x t / cos a))
                   = Fin v1).
    { unfold v1. destruct (Rgt_dec (cos a) 0); reflexivity. }
    rewrite Hmin.
    destruct (Rgt_dec v1 0) as [_ | H]; [| exfalso; lra].
    exists v1. split; [reflexivity |]. split; [exact Hv1 |].
    split; [intros _; apply Hin1; lra |].
    split; [intros H; exfalso; apply Hs; exact H |].
    left. split; [exact Hc | exact He1].
  - (* the vertical axis only *)
    destruct (edge_candidate (y t) (arenaHeight t) (sin a) Hy Hs)
      as (Hv2 & He2 & Hin2).
    set (v2 := if Rgt_dec (sin a) 0 then (arenaHeight t - y t) / sin a
               else - y t / sin a) in *.
    assert (Hmin : (if Rgt_dec (sin a) 0
                    then TankM.minExt Infinity ((arenaHeight t - y t) / sin a)
                    else TankM.minExt Infinity (- y t / sin a))
                   = Fin v2).
    { unfold v2. destruct (Rgt_dec (sin a) 0); reflexivity. }
    rewrite Hmin.
    destruct (Rgt_dec v2 0) as [_ | H]; [| exfalso; lra].
    exists v2. split; [reflexivity |]. split; [exact Hv2 |].
    split; [intros H; exfalso; apply Hc; exact H |].
    split; [intros _; apply Hin2; lra |].
    right. split; [exact Hs | exact He2].
  - exfalso. destruct Hdir as [H | H]; [apply Hc | apply Hs]; exact H.
Qed.

Lemma X8_getWallDistance_inside_witness :
  let a := rotation tank0 + Phaser.DegToRad 90 in
  exists d : R,
    TankM.getWallDistance tank0 90 = Fin d
    /\ 0 < d
    /\ (1 / 1000 < Rabs (cos a) -> 0 <= x tank0 + d * cos a <= arenaWidth tank0)
    /\ (1 / 1000 < Rabs (sin a) -> 0 <= y tank0 + d * sin a <= arenaHeight tank0)
    /\ ((1 / 1000 < Rabs (cos a)
         /\ (x tank0 + d * cos a = 0 \/ x tank0 + d * cos a = arenaWidth tank0))
        \/ (1 / 1000 < Rabs (sin a)
            /\ (y tank0 + d * sin a = 0
                \/ y tank0 + d * sin a = arenaHeight tank0))).
Proof.
  apply (X8_getWallDistance_inside tank0 90); cbn; lra.
Defined.

(** ** The hitscan geometry *)

Section LineCircle.

Variables s e c : Point.
Variable r : R.

Let dx := px e - px s.
Let dy := py e - py s.
Let fx := px s - px c.
Let fy := py s - py c.
Let qa := dx * dx + dy * dy.
Let qb := 2 * (fx * dx + fy * dy).
Let qc := fx * fx + fy * fy - r * r.

(** Being on the circle is a quadratic equation in the parameter. *)
Lemma onCircle_along (t : R) :
  onCircle c r (along s e t) <-> qa * (t * t) + qb * t + qc = 0.
Proof.
  unfold onCircle, along, qa, qb, qc, fx, fy, dx, dy. cbn [px py].
  split; intros H; nra.
Qed.

Lemma root_discriminant (t : R) :
  qa * (t * t) + qb * t + qc = 0 ->
  qb * qb - 4 * qa * qc = (2 * qa * t + qb) * (2 * qa * t + qb).
Proof.
  intros H. nra.
Qed.

Hypothesis Hqa : 0 < qa.

Lemma roots_are_roots (D : R) :
  0 <= D -> D * D = qb * qb - 4 * qa * qc ->
  (forall t, t = (- qb - D) / (2 * qa) \/ t = (- qb + D) / (2 * qa) ->
             qa * (t * t) + qb * t + qc = 0)
  /\ (forall t, qa * (t * t) + qb * t + qc = 0 ->
                t = (- qb - D) / (2 * qa) \/ t = (- qb + D) / (2 * qa))
  /\ (- qb - D) / (2 * qa) <= (- qb + D) / (2 * qa).
Proof.
  intros HD Hsq. repeat split.
  - intros t [Ht | Ht]; subst t.
    + replace (qa * ((- qb - D) / (2 * qa) * ((- qb - D) / (2 * qa)))
               + qb * ((- qb - D) / (2 * qa)) + qc)
        with ((D * D - (qb * qb - 4 * qa * qc)) / (4 * qa)) by (field; lra).
      rewrite Hsq. unfold Rdiv. ring.
    + replace (qa * ((- qb + D) / (2 * qa) * ((- qb + D) / (2 * qa)))
               + qb * ((- qb + D) / (2 * qa)) + qc)
        with ((D * D - (qb * qb - 4 * qa * qc)) / (4 * qa)) by (field; lra).
      rewrite Hsq. unfold Rdiv. ring.
  - intros t Ht. pose proof (root_discriminant t Ht) as Hd.
    rewrite <- Hsq in Hd.
    assert (Hcases : D = 2 * qa * t + qb \/ D = - (2 * qa * t + qb)).
    { assert (Hz : (D - (2 * qa * t + qb)) * (D + (2 * qa * t + qb)) = 0)
        by nra.
      apply Rmult_integral in Hz. destruct Hz; [left | right]; lra. }
    destruct Hcases as [Hc | Hc]; [right | left]; rewrite Hc; field; lra.
  - apply Rmult_le_compat_r; [| lra].
    apply Rlt_le, Rinv_0_lt_compat. lra.
Qed.

Lemma lineCircle_spec :
  match BattleSceneM.lineCircleIntersection s e c r with
  | Some p =>
      exists t, 0 <= t <= 1 /\ p = along s e t /\ onCircle c r p
                /\ forall t', 0 <= t' < t -> ~ onCircle c r (along s e t')
  | None => forall t, 0 <= t <= 1 -> ~ onCircle c r (along s e t)
  end.
Proof.
  unfold BattleSceneM.lineCircleIntersection. cbv zeta.
  fold dx dy fx fy. fold qa. fold qb. fold qc.
  destruct (Rlt_dec (qb * qb - 4 * qa * qc) 0) as [Hneg | Hpos].
  - intros t _ Hon. apply onCircle_along in Hon.
    pose proof (root_discriminant t Hon) as Hd.
    pose proof (Rle_0_sqr (2 * qa * t + qb)) as Hsq. unfold Rsqr in Hsq. lra.
  - apply Rnot_lt_le in Hpos.
    set (D := sqrt (qb * qb - 4 * qa * qc)).
    assert (HD : 0 <= D) by apply sqrt_pos.
    assert (Hsq : D * D = qb * qb - 4 * qa * qc) by (apply sqrt_sqrt; exact Hpos).
    destruct (roots_are_roots D HD Hsq) as (Hroot & Honly & Horder).
    set (t1 := (- qb - D) / (2 * qa)) in *.
    set (t2 := (- qb + D) / (2 * qa)) in *.
    unfold BattleSceneM.outsideSegment.
    destruct (Rlt_dec t1 0) as [H1 | H1];
      [| destruct (Rgt_dec t1 1) as [H1' | H1']].
    + destruct (Rlt_dec t2 0) as [H2 | H2];
        [| destruct (Rgt_dec t2 1) as [H2' | H2']].
      * intros t Ht Hon. apply onCircle_along in Hon.
        destruct (Honly t Hon); lra.
      * intros t Ht Hon. apply onCircle_along in Hon.
        destruct (Honly t Hon); lra.
      * exists t2. split; [lra |]. split; [reflexivity |].
        split; [apply onCircle_along, Hroot; right; reflexivity |].
        intros t' Ht' Hon. apply onCircle_along in Hon.
        destruct (Honly t' Hon); lra.
    + destruct (Rlt_dec t2 0) as [H2 | H2];
        [| destruct (Rgt_dec t2 1) as [H2' | H2']].
      * intros t Ht Hon. apply onCircle_along in Hon.
        destruct (Honly t Hon); lra.
      * intros t Ht Hon. apply onCircle_along in Hon.
        destruct (Honly t Hon); lra.
      * exfalso. lra.
    + exists t1. split; [lra |]. split; [reflexivity |].
      split; [apply onCircle_along, Hroot; left; reflexivity |].
      intros t' Ht' Hon. apply onCircle_along in Hon.
      destruct (Honly t' Hon); lra.
Qed.

End LineCircle.

(** X9. For a segment that is not reduced to a point,
    [lineCircleIntersection] returns the first point, from the start of
    the segment, at which the segment meets the circle, and nothing
    exactly when the segment does not meet the circle (a segment that
    lies wholly inside the circle included). *)
Theorem X9_lineCircleIntersection (s e c : Point) (r : R)
        (Hse : 0 < (px e - px s) * (px e - px s)
                   + (py e - py s) * (py e - py s)) :
  match BattleSceneM.lineCircleIntersection s e c r with
  | Some p =>
      exists t, 0 <= t <= 1 /\ p = along s e t /\ onCircle c r p
                /\ forall t', 0 <= t' < t -> ~ onCircle c r (along s e t')
  | None => forall t, 0 <= t <= 1 -> ~ onCircle c r (along s e t)
  end.
Proof.
  exact (lineCircle_spec s e c r Hse).
Qed.

Lemma X9_lineCircleIntersection_witness :
  match BattleSceneM.lineCircleIntersection
          (mkPoint 0 0) (mkPoint 10 0) (mkPoint 5 0) 1 with
  | Some p =>
      exists t, 0 <= t <= 1 /\ p = along (mkPoint 0 0) (mkPoint 10 0) t
                /\ onCircle (mkPoint 5 0) 1 p
                /\ forall t', 0 <= t' < t ->
                              ~ onCircle (mkPoint 5 0) 1
                                  (along (mkPoint 0 0) (mkPoint 10 0) t')
  | None => forall t, 0 <= t <= 1 ->
                      ~ onCircle (mkPoint 5 0) 1
                          (along (mkPoint 0 0) (mkPoint 10 0) t)
  end.
Proof.
  apply (X9_lineCircleIntersection (mkPoint 0 0) (mkPoint 10 0)
                                    (mkPoint 5 0) 1).
  cbn. lra.
Defined.

(** ** The shortest way round the torus *)

(** The loop of [getShortestWrappedDistance]: after the positions [seen]
    and then [l], [best] holds the first of the nearest positions seen,
    with its distance. *)
Lemma shortest_loop (from : Point) (l seen : list Point)
      (best : BattleSceneM.Shortest) :
  (BattleSceneM.distance best = Infinity /\ seen = []
   \/ BattleSceneM.distance best = Fin (dist from (BattleSceneM.bestPos best))
      /\ In (BattleSceneM.bestPos best) seen
      /\ forall pos, In pos seen ->
                     dist from (BattleSceneM.bestPos best) <= dist from pos) ->
  let r :=
    fold_left
      (fun (best : BattleSceneM.Shortest) (pos : Point) =>
         if BattleSceneM.below
              (Phaser.DistanceBetween (px from) (py from) (px pos) (py pos))
              (BattleSceneM.distance best)
         then {| BattleSceneM.bestPos := pos;
                 BattleSceneM.distance :=
                   Fin (Phaser.DistanceBetween (px from) (py from)
                                               (px pos) (py pos)) |}
         else best) l best in
  BattleSceneM.distance r = Infinity /\ (seen ++ l)%list = []
  \/ BattleSceneM.distance r = Fin (dist from (BattleSceneM.bestPos r))
     /\ In (BattleSceneM.bestPos r) (seen ++ l)
     /\ forall pos, In pos (seen ++ l) ->
                    dist from (BattleSceneM.bestPos r) <= dist from pos.
Proof.
  cbv zeta. revert seen best. induction l as [| pos l IH]; intros seen best Hinv.
  - cbn. rewrite app_nil_r. exact Hinv.
  - cbn [fold_left].
    replace (seen ++ pos :: l)%list with ((seen ++ [pos]) ++ l)%list
      by (rewrite <- app_assoc; reflexivity).
    apply IH. right.
    change (Phaser.DistanceBetween (px from) (py from) (px pos) (py pos))
      with (dist from pos).
    destruct Hinv as [[Hinf ->] | (Hfin & Hin & Hmin)].
    + rewrite Hinf. cbn.
      split; [reflexivity |]. split; [left; reflexivity |].
      intros q [<- | []]. lra.
    + rewrite Hfin. cbn [BattleSceneM.below].
      destruct (Rlt_dec (dist from pos) (dist from (BattleSceneM.bestPos best)))
        as [Hlt | Hge]; cbn [BattleSceneM.bestPos BattleSceneM.distance].
      * split; [reflexivity |]. split; [apply in_or_app; right; left; reflexivity |].
        intros q Hq. apply in_app_or in Hq. destruct Hq as [Hq | [<- | []]].
        -- specialize (Hmin q Hq). lra.
        -- lra.
      * split; [exact Hfin |]. split; [apply in_or_app; left; exact Hin |].
        intros q Hq. apply in_app_or in Hq. destruct Hq as [Hq | [<- | []]].
        -- apply Hmin, Hq.
        -- lra.
Qed.

Lemma shortest_wrapped (from to : Point) (arenaWidth arenaHeight : R) :
  let r := BattleSceneM.getShortestWrappedDistance from to arenaWidth
                                                   arenaHeight in
  In (BattleSceneM.bestPos r)
     (BattleSceneM.getWrappedPositions to arenaWidth arenaHeight)
  /\ BattleSceneM.distance r = Fin (dist from (BattleSceneM.bestPos r))
  /\ (forall pos,
        In pos (BattleSceneM.getWrappedPositions to arenaWidth arenaHeight) ->
        dist from (BattleSceneM.bestPos r) <= dist from pos)
  /\ BattleSceneM.finite (BattleSceneM.distance r) <= dist from to.
Proof.
  cbv zeta. unfold BattleSceneM.getShortestWrappedDistance. cbv zeta.
  destruct (shortest_loop from
              (BattleSceneM.getWrappedPositions to arenaWidth arenaHeight) []
              {| BattleSceneM.bestPos := to; BattleSceneM.distance := Infinity |})
    as [[_ Hnil] | (Hfin & Hin & Hmin)].
  - left. split; reflexivity.
  - discriminate.
  - cbn [app] in Hin, Hmin.
    split; [exact Hin |]. split; [exact Hfin |]. split; [exact Hmin |].
    rewrite Hfin. cbn [BattleSceneM.finite]. apply Hmin. left. reflexivity.
Qed.

(** X10. [getShortestWrappedDistance] returns one of the nine copies of
    the target, its distance from the observer, and no copy is nearer;
    in particular the distance is a number, and it is at most the direct
    distance. *)
Theorem X10_shortest_wrapped_distance (from to : Point)
        (arenaWidth arenaHeight : R) :
  let r := BattleSceneM.getShortestWrappedDistance from to arenaWidth
                                                   arenaHeight in
  In (BattleSceneM.bestPos r)
     (BattleSceneM.getWrappedPositions to arenaWidth arenaHeight)
  /\ BattleSceneM.distance r = Fin (dist from (BattleSceneM.bestPos r))
  /\ (forall pos,
        In pos (BattleSceneM.getWrappedPositions to arenaWidth arenaHeight) ->
        dist from (BattleSceneM.bestPos r) <= dist from pos)
  /\ BattleSceneM.finite (BattleSceneM.distance r) <= dist from to.
Proof.
  exact (shortest_wrapped from to arenaWidth arenaHeight).
Qed.

(** ** Sorting by distance *)

Lemma insertBy_Permutation {A : Type} (cmp : A -> A -> R) (a : A) (l : list A) :
  Permutation (insertBy cmp a l) (a :: l).
Proof.
  induction l as [| b l IH]; cbn; [apply Permutation_refl |].
  destruct (Rle_dec (cmp a b) 0); [apply Permutation_refl |].
  apply perm_trans with (b :: a :: l); [| apply perm_swap].
  apply perm_skip, IH.
Qed.

Lemma sortBy_Permutation {A : Type} (cmp : A -> A -> R) (l : list A) :
  Permutation (sortBy cmp l) l.
Proof.
  induction l as [| a l IH]; cbn; [apply perm_nil |].
  apply perm_trans with (a :: sortBy cmp l);
    [apply insertBy_Permutation | apply perm_skip, IH].
Qed.

Lemma insertBy_distance_sorted (a : EnemyInfo) (l : list EnemyInfo) :
  byDistanceSorted l -> byDistanceSorted (insertBy byDistance a l).
Proof.
  unfold byDistanceSorted. induction 1 as [| b l Hl IH Hb]; cbn.
  - repeat constructor.
  - unfold byDistance at 1.
    destruct (Rle_dec (e_distance a - e_distance b) 0) as [Hle | Hgt].
    + constructor; [constructor; assumption |].
      constructor; [lra |].
      apply Forall_forall. intros e He.
      rewrite Forall_forall in Hb. specialize (Hb e He). lra.
    + constructor; [exact IH |].
      apply Forall_forall. intros e He. apply insertBy_In in He.
      destruct He as [-> | He]; [lra |].
      rewrite Forall_forall in Hb. exact (Hb e He).
Qed.

Lemma sortBy_distance_sorted (l : list EnemyInfo) :
  byDistanceSorted (sortBy byDistance l).
Proof.
  induction l as [| a l IH]; cbn; [constructor |].
  apply insertBy_distance_sorted, IH.
Qed.

(** ** What a tank is told about the others *)

(** A loop that appends one entry for each element it does not skip. *)
Lemma append_loop {X Y : Type} (skip : X -> bool) (entry : X -> Y)
      (xs : list X) (acc : list Y) :
  fold_left (fun acc x => if skip x then acc else (acc ++ [entry x])%list)
            xs acc
  = (acc ++ map entry (filter (fun x => negb (skip x)) xs))%list.
Proof.
  revert acc. induction xs as [| x xs IH]; intros acc; cbn.
  - rewrite app_nil_r. reflexivity.
  - destruct (skip x); cbn; rewrite IH; [reflexivity |].
    rewrite <- app_assoc. reflexivity.
Qed.

Lemma getEnemiesFor_value (tanks : list Tank) (tank : Tank) :
  BattleSceneM.getEnemiesFor tanks tank
  = if negb (active tank) || TankM.isDead tank then []
    else sortBy byDistance
                (map (enemyInfoOf tank) (filter (opponent tank) tanks)).
Proof.
  unfold BattleSceneM.getEnemiesFor. cbv zeta.
  destruct (negb (active tank) || TankM.isDead tank); [reflexivity |].
  f_equal.
  exact (append_loop
           (fun other => String.eqb (tankId other) (tankId tank)
                         || TankM.isDead other || negb (active other))
           (enemyInfoOf tank) tanks []).
Qed.

(** What one entry says, whoever it is about. *)
Lemma enemyInfoOf_facts (tank other : Tank) :
  let e := enemyInfoOf tank other in
  e_id e = tankId other
  /\ e_health e = currentHealth other
  /\ In (e_position e)
        (BattleSceneM.getWrappedPositions
           (TankM.getPosition other) DEFAULT_BATTLE_CONFIG.arenaWidth
           DEFAULT_BATTLE_CONFIG.arenaHeight)
  /\ e_distance e = dist (TankM.getPosition tank) (e_position e)
  /\ e_distance e <= dist (TankM.getPosition tank) (TankM.getPosition other)
  /\ e_bearing e
     = Phaser.RadToDeg (JsMath.atan2 (py (e_position e) - y tank)
                                     (px (e_position e) - x tank)).
Proof.
  cbv zeta. unfold enemyInfoOf. cbv zeta.
  cbn [e_id e_health e_position e_distance e_bearing].
  unfold TankM.getPosition, TankM.getHealth.
  destruct (shortest_wrapped
              {| px := x tank; py := y tank |}
              {| px := x other; py := y other |}
              DEFAULT_BATTLE_CONFIG.arenaWidth DEFAULT_BATTLE_CONFIG.arenaHeight)
    as (Hin & Hfin & _ & Hle).
  cbv zeta in Hin, Hfin, Hle.
  repeat split; try reflexivity; try assumption.
  rewrite Hfin. reflexivity.
Qed.

Lemma opponent_facts (tank other : Tank) :
  opponent tank other = true ->
  tankId other <> tankId tank
  /\ TankM.isDead other = false /\ active other = true.
Proof.
  unfold opponent. intros H. apply negb_true_iff in H.
  apply orb_false_iff in H. destruct H as [H Hactive].
  apply orb_false_iff in H. destruct H as [Hid Hdead].
  apply String.eqb_neq in Hid. apply negb_false_iff in Hactive. tauto.
Qed.

(** X11. [getEnemiesFor] tells a dead or inactive tank nothing; to any
    other tank it gives one entry for each tank of the scene that is not
    itself, is alive and is active, nearest first.  An entry carries the
    identifier and the health of the tank it is about, places it at one
    of its nine copies on the torus, and its distance is the distance
    from the observer to that place. *)
Theorem X11_getEnemiesFor (tanks : list Tank) (tank : Tank) :
  let l := BattleSceneM.getEnemiesFor tanks tank in
  (active tank = false \/ TankM.isDead tank = true -> l = [])
  /\ (active tank = true -> TankM.isDead tank = false ->
      Permutation l (map (enemyInfoOf tank) (filter (opponent tank) tanks)))
  /\ byDistanceSorted l
  /\ Forall
       (fun e =>
          exists other,
            In other tanks
            /\ tankId other <> tankId tank
            /\ TankM.isDead other = false /\ active other = true
            /\ e_id e = tankId other
            /\ e_health e = currentHealth other
            /\ In (e_position e)
                  (BattleSceneM.getWrappedPositions
                     (TankM.getPosition other)
                     DEFAULT_BATTLE_CONFIG.arenaWidth
                     DEFAULT_BATTLE_CONFIG.arenaHeight)
            /\ e_distance e = dist (TankM.getPosition tank) (e_position e)
            /\ e_distance e
               <= dist (TankM.getPosition tank) (TankM.getPosition other))
       l.
Proof.
  cbv zeta. rewrite getEnemiesFor_value.
  destruct (active tank) eqn:Hactive; destruct (TankM.isDead tank) eqn:Hdead;
    cbn [negb orb].
  1, 3, 4: repeat split; try constructor; intros; try discriminate;
    try reflexivity; destruct H; discriminate.
  split; [intros [H | H]; discriminate |].
  split; [intros _ _; apply sortBy_Permutation |].
  split; [apply sortBy_distance_sorted |].
  apply Forall_forall. intros e He. apply sortBy_In in He.
  apply in_map_iff in He. destruct He as [other [<- Hother]].
  apply filter_In in Hother. destruct Hother as [Hin Hopp].
  destruct (opponent_facts tank other Hopp) as (Hid & Hd & Ha).
  destruct (enemyInfoOf_facts tank other) as (H1 & H2 & H3 & H4 & H5 & _).
  exists other. repeat split; assumption.
Qed.

Section EnemyInfoAndFacade.

Variable toFixed : R -> nat -> string.
Variable numberToString : R -> string.

(** X12. What a tank is told about an enemy agrees with what the
    sandbox computes from the enemy's position: for every entry of
    [getEnemiesFor], [distanceTo(enemy.position)] returns
    [enemy.distance] and [angleTo(enemy.position)] returns
    [enemy.bearing]. *)
Theorem X12_enemy_info_consistent (tanks : list Tank) (b : TankBrain)
        (e : EnemyInfo)
        (He : In e (BattleSceneM.getEnemiesFor tanks (tank b))) :
  fst (api_distanceTo toFixed numberToString (Some (e_position e)) b)
  = Normal (e_distance e)
  /\ fst (api_angleTo toFixed numberToString (Some (e_position e)) b)
     = Normal (e_bearing e).
Proof.
  rewrite getEnemiesFor_value in He.
  destruct (negb (active (tank b)) || TankM.isDead (tank b)); [destruct He |].
  apply sortBy_In in He. apply in_map_iff in He.
  destruct He as [other [<- _]].
  destruct (enemyInfoOf_facts (tank b) other) as (_ & _ & _ & Hd & _ & Hb).
  cbv zeta in Hd, Hb. split.
  - unfold api_distanceTo, tryCatch, bind, onTank, gets, trace, modify, ret.
    cbn [fst]. rewrite Hd. unfold dist, Phaser.DistanceBetween,
                             TankM.getPosition. cbn [px py].
    do 2 f_equal. ring.
  - unfold api_angleTo, tryCatch, bind, onTank, gets, trace, modify, ret.
    cbn [fst]. rewrite Hb. unfold Phaser.RadToDeg, TankM.getPosition.
    cbn [px py]. reflexivity.
Qed.

End EnemyInfoAndFacade.

Lemma getEnemiesFor_two_tanks :
  BattleSceneM.getEnemiesFor [tank0; tank1] tank0 = [enemyInfoOf tank0 tank1].
Proof.
  rewrite getEnemiesFor_value.
  rewrite (isDead_full_health tank0 eq_refl).
  change (active tank0) with true. cbn [negb orb filter].
  unfold opponent.
  rewrite (isDead_full_health tank0 eq_refl),
    (isDead_full_health tank1 eq_refl).
  reflexivity.
Qed.

Lemma X12_enemy_info_consistent_witness :
  fst (api_distanceTo plainFixed plainString
                      (Some (e_position (enemyInfoOf tank0 tank1)))
                      (brainOf tank0 [] None))
  = Normal (e_distance (enemyInfoOf tank0 tank1))
  /\ fst (api_angleTo plainFixed plainString
                      (Some (e_position (enemyInfoOf tank0 tank1)))
                      (brainOf tank0 [] None))
     = Normal (e_bearing (enemyInfoOf tank0 tank1)).
Proof.
  apply (X12_enemy_info_consistent plainFixed plainString [tank0; tank1]
                                   (brainOf tank0 [] None)).
  change (tank (brainOf tank0 [] None)) with tank0.
  rewrite getEnemiesFor_two_tanks. left. reflexivity.
Defined.

(** ** What scripts can and cannot do through the sandbox *)

Lemma sameBody_refl (t : Tank) : sameBody t t.
Proof. unfold sameBody. repeat split. Qed.

Lemma sameBody_trans (t1 t2 t3 : Tank) :
  sameBody t1 t2 -> sameBody t2 t3 -> sameBody t1 t3.
Proof.
  unfold sameBody. intros H1 H2.
  destruct H1 as (A1 & A2 & A3 & A4 & A5 & A6 & A7 & A8 & A9 & A10 & A11).
  destruct H2 as (B1 & B2 & B3 & B4 & B5 & B6 & B7 & B8 & B9 & B10 & B11).
  repeat split; congruence.
Qed.

Lemma grantedShots_app (tr : list TraceEntry) (e : TraceEntry) :
  grantedShots (tr ++ [e])
  = (grantedShots tr + if grantedShot e then 1 else 0)%nat.
Proof.
  unfold grantedShots. rewrite filter_app, length_app. cbn [filter].
  destruct (grantedShot e); reflexivity.
Qed.

(** The commands keep a tank well commanded. *)
Lemma move_wellCommanded (t : Tank) (v : R) :
  wellCommanded t -> wellCommanded (TankM.move t v).
Proof.
  intros (_ & Ht & Hs). split; [apply Clamp_unit |]. split; assumption.
Qed.

Lemma turn_wellCommanded (t : Tank) (v : R) :
  wellCommanded t -> wellCommanded (TankM.turn t v).
Proof.
  intros (Hm & _ & Hs). split; [exact Hm |]. split; [apply Clamp_unit | exact Hs].
Qed.

Lemma aimAt_wellCommanded (t : Tank) (p : Point) :
  wellCommanded t -> wellCommanded (TankM.aimAt t p).
Proof. intros H. exact H. Qed.

Lemma fire_wellCommanded (t : Tank) :
  wellCommanded t -> wellCommanded (snd (TankM.fire t)).
Proof.
  intros H. unfold TankM.fire. destruct (Rge_dec _ _); exact H.
Qed.

Lemma configureSensors_wellCommanded (t : Tank) (configs : list SensorConfig) :
  wellCommanded t -> wellCommanded (snd (TankM.configureSensors t configs)).
Proof.
  intros H. unfold TankM.configureSensors.
  destruct ((List.length configs =? 0)%nat
            || (SENSOR_CONSTRAINTS.maxSensors <? List.length configs)%nat)
    eqn:Hlen; [exact H |].
  apply orb_false_iff in Hlen. destruct Hlen as [Hzero Hmax].
  apply Nat.eqb_neq in Hzero. apply Nat.ltb_ge in Hmax.
  destruct H as (Hm & Ht & _).
  split; [exact Hm |]. split; [exact Ht |].
  cbn [snd sensors set_sensors]. rewrite length_map.
  split; [lia |].
  apply Forall_forall. intros c Hc. apply in_map_iff in Hc.
  destruct Hc as [c0 [<- _]]. apply clampConfig_within.
Qed.

Section Confinement.

Variable toFixed : R -> nat -> string.
Variable numberToString : R -> string.

Let api : TankAPI TankBrain := createTankAPI toFixed numberToString.

(** One call: the unit keeps its code, its callable, its view of the
    enemies and its console; the tank keeps its body; the trace grows by
    at most one entry. *)
Lemma invoke_step (c : ApiCall) (b : TankBrain) :
  let b' := snd (invoke api c b) in
  code b' = code b /\ compiledFunction b' = compiledFunction b
  /\ error b' = error b /\ getEnemiesFn b' = getEnemiesFn b
  /\ console b' = console b
  /\ sameBody (tank b) (tank b')
  /\ (lastTrace b' = lastTrace b \/ exists e, lastTrace b' = lastTrace b ++ [e]).
Proof.
  cbv zeta.
  destruct c as [| | | | | | | configs | | i | | | | | | | a | i | v | v
                 | point | | point | point];
    try destruct configs as [configs |]; try destruct point as [point |];
    unfold sameBody;
    cbn -[sortBy filter TankM.isPointDetectable TankM.isPointInSensorIndex
          TankM.getWallDistance TankM.scanWallInSensor JsMath.atan2
          Phaser.Clamp Phaser.RadToDeg String.append];
    try (unfold TankM.configureSensors;
         destruct ((List.length configs =? 0)%nat
                   || (SENSOR_CONSTRAINTS.maxSensors <? List.length configs)%nat));
    try (unfold TankM.fire; destruct (Rge_dec _ _));
    cbn -[sortBy filter TankM.isPointDetectable TankM.isPointInSensorIndex
          TankM.getWallDistance TankM.scanWallInSensor JsMath.atan2
          Phaser.Clamp Phaser.RadToDeg String.append];
    repeat split; try reflexivity;
    try (left; reflexivity); try (right; eexists; reflexivity).
Qed.

(** What every call preserves, a whole run preserves. *)
Lemma runScript_preserves (rel : TankBrain -> TankBrain -> Prop) :
  (forall b, rel b b) ->
  (forall b1 b2 b3, rel b1 b2 -> rel b2 b3 -> rel b1 b3) ->
  (forall c b, rel b (snd (invoke api c b))) ->
  forall s b, rel b (snd (runScript api s b)).
Proof.
  intros Hrefl Htrans Hstep s. induction s as [| e | c k IH]; intros b.
  - apply Hrefl.
  - apply Hrefl.
  - cbn [runScript]. unfold bind.
    destruct (invoke_normal toFixed numberToString c b) as [r Hr].
    pose proof (Hstep c b) as H1. fold api in Hr.
    destruct (invoke api c b) as [o b1]. cbn [fst snd] in *. subst o.
    apply Htrans with b1; [exact H1 | apply IH].
Qed.

(** And so does a tick of the unit. *)
Lemma execute_preserves (rel : TankBrain -> TankBrain -> Prop) :
  (forall b, rel b b) ->
  (forall b1 b2 b3, rel b1 b2 -> rel b2 b3 -> rel b1 b3) ->
  (forall c b, rel b (snd (invoke api c b))) ->
  (forall b, rel b (set_lastTrace b [])) ->
  (forall b msg, rel b (set_console b (console b ++ [msg]))) ->
  forall b, rel b (snd (execute toFixed numberToString b)).
Proof.
  intros Hrefl Htrans Hstep Hclear Hwarn b. unfold execute.
  destruct (compiledFunction b) as [fn |]; [| apply Hrefl].
  destruct (negb (active (tank b)) || TankM.isDead (tank b)); [apply Hrefl |].
  unfold bind, modify, tryCatch, console_warn. fold api.
  pose proof (runScript_preserves rel Hrefl Htrans Hstep fn
                                  (set_lastTrace b [])) as Hrun.
  destruct (runScript api fn (set_lastTrace b [])) as [[[] | e] b1];
    cbn [fst snd] in *.
  - apply Htrans with (set_lastTrace b []); [apply Hclear | exact Hrun].
  - apply Htrans with b1;
      [apply Htrans with (set_lastTrace b []); [apply Hclear | exact Hrun] |].
    apply Hwarn.
Qed.

(** The calls of the capability object, with arguments of the types
    that the call type gives them, leave the identity, statistics,
    position, heading, turret, health, clock and arena of the tank as
    they were, and so does a tick whose callable makes such calls only;
    the unit keeps its code, its callable and its view of the enemies. *)
Lemma typed_tick_keeps_body (b : TankBrain) :
  let b' := snd (execute toFixed numberToString b) in
  sameBody (tank b) (tank b')
  /\ code b' = code b /\ compiledFunction b' = compiledFunction b
  /\ error b' = error b /\ getEnemiesFn b' = getEnemiesFn b.
Proof.
  cbv zeta.
  apply (execute_preserves
           (fun b b' =>
              sameBody (tank b) (tank b')
              /\ code b' = code b /\ compiledFunction b' = compiledFunction b
              /\ error b' = error b /\ getEnemiesFn b' = getEnemiesFn b)).
  - intros b0. split; [apply sameBody_refl | repeat split].
  - intros b1 b2 b3 (S1 & A1 & A2 & A3 & A4) (S2 & B1 & B2 & B3 & B4).
    split; [exact (sameBody_trans _ _ _ S1 S2) |]. repeat split; congruence.
  - intros c b0. destruct (invoke_step c b0) as (H1 & H2 & H3 & H4 & _ & H6 & _).
    split; [exact H6 |]. split; [exact H1 |]. split; [exact H2 |].
    split; [exact H3 | exact H4].
  - intros b0. split; [apply sameBody_refl | repeat split].
  - intros b0 msg. split; [apply sameBody_refl | repeat split].
Qed.

(** The tank after one call: one of five commands, or the tank as it
    was. *)
Lemma invoke_tank (c : ApiCall) (b : TankBrain) :
  tank (snd (invoke api c b))
  = match c with
    | Cmove speed => TankM.move (tank b) speed
    | Cturn rate => TankM.turn (tank b) rate
    | CaimAt (Some point) => TankM.aimAt (tank b) point
    | Cfire => snd (TankM.fire (tank b))
    | CconfigureSensors (Some configs) =>
        snd (TankM.configureSensors (tank b) configs)
    | _ => tank b
    end.
Proof.
  destruct c as [| | | | | | | configs | | i | | | | | | | a | i | v | v
                 | point | | point | point];
    try destruct configs as [configs |]; try destruct point as [point |];
    reflexivity.
Qed.

(** On real numbers the inputs of a tank stay in [-1, 1] and its
    sensors keep to the documented constraints: a new tank with the
    default statistics is so, and a tick whose callable calls the
    capability object with real numbers, the default AI and the frame
    update keep it so. *)
Lemma typed_tick_well_commanded :
  (forall (x0 y0 : R) (id : string) (time : R),
      wellCommanded (TankM.create x0 y0 id DEFAULT_TANK_STATS time))
  /\ (forall b : TankBrain,
         wellCommanded (tank b) ->
         wellCommanded (tank (snd (execute toFixed numberToString b))))
  /\ (forall (tanks : list Tank) (t : Tank),
         wellCommanded t -> wellCommanded (BattleSceneM.runTankAI tanks t))
  /\ (forall (t : Tank) (delta : R),
         wellCommanded t -> wellCommanded (TankM.update t delta)).
Proof.
  split; [| split; [| split]].
  - intros x0 y0 id time. unfold wellCommanded, TankM.create.
    cbn [moveInput turnInput sensors defaultSensors DEFAULT_TANK_STATS
         List.length].
    unfold SENSOR_CONSTRAINTS.maxSensors.
    repeat split; try lra; try lia.
    repeat constructor; cbn;
      unfold SENSOR_CONSTRAINTS.minArc, SENSOR_CONSTRAINTS.maxArc,
        SENSOR_CONSTRAINTS.minRange, SENSOR_CONSTRAINTS.maxRange; lra.
  - apply (execute_preserves
             (fun b b' => wellCommanded (tank b) -> wellCommanded (tank b'))).
    + intros b H. exact H.
    + intros b1 b2 b3 H12 H23 H. apply H23, H12, H.
    + intros c b H. rewrite invoke_tank.
      destruct c as [| | | | | | | configs | | i | | | | | | | a | i | v | v
                     | point | | point | point];
        try destruct configs as [configs |]; try destruct point as [point |];
        try exact H.
      * apply configureSensors_wellCommanded, H.
      * apply move_wellCommanded, H.
      * apply turn_wellCommanded, H.
      * apply fire_wellCommanded, H.
    + intros b H. exact H.
    + intros b msg H. exact H.
  - intros tanks t H. unfold BattleSceneM.runTankAI. cbv zeta.
    destruct (negb (active t) || TankM.isDead t); [exact H |].
    destruct (0 <? List.length (BattleSceneM.getEnemiesInSensor tanks t 3))%nat.
    { apply move_wellCommanded, turn_wellCommanded, H. }
    destruct (BattleSceneM.getEnemiesInSensor tanks t 0) as [| enemy rest].
    + destruct (0 <? List.length (BattleSceneM.getEnemiesInSensor tanks t 1))%nat;
        [apply move_wellCommanded, turn_wellCommanded, H |].
      destruct (0 <? List.length (BattleSceneM.getEnemiesInSensor tanks t 2))%nat;
        apply move_wellCommanded, turn_wellCommanded, H.
    + assert (Hf : wellCommanded
                     (if (if Rle_dec (e_distance enemy) (TankM.getGunRange t)
                          then true else false)
                         && TankM.canFire (TankM.aimAt t (e_position enemy))
                      then snd (TankM.fire (TankM.aimAt t (e_position enemy)))
                      else TankM.aimAt t (e_position enemy))).
      { destruct (_ && _); [apply fire_wellCommanded |];
          apply aimAt_wellCommanded, H. }
      destruct (Rgt_dec _ _); [apply move_wellCommanded, Hf |].
      destruct (Rlt_dec _ _); apply move_wellCommanded, Hf.
  - intros t delta (Hm & Ht & Hs).
    destruct (active t) eqn:Hactive.
    + destruct (update_active t delta Hactive)
        as (_ & _ & _ & Hmi & Hti & _ & _ & _ & _ & Hsens & _).
      unfold wellCommanded. rewrite Hmi, Hti, Hsens.
      split; [lra |]. split; [lra | exact Hs].
    + unfold TankM.update. rewrite Hactive. cbn [negb].
      split; [exact Hm |]. split; [exact Ht | exact Hs].
Qed.

(** Only a granted [fire] adds a granted shot to the trace. *)
Lemma invoke_shots (c : ApiCall) (b : TankBrain) :
  grantedShots (lastTrace (snd (invoke api c b)))
  = (grantedShots (lastTrace b)
     + match c with
       | Cfire => if fst (TankM.fire (tank b)) then 1 else 0
       | _ => 0
       end)%nat.
Proof.
  destruct c as [| | | | | | | configs | | i | | | | | | | a | i | v | v
                 | point | | point | point];
    try destruct configs as [configs |]; try destruct point as [point |];
    cbn -[sortBy filter TankM.isPointDetectable TankM.isPointInSensorIndex
          TankM.getWallDistance TankM.scanWallInSensor JsMath.atan2
          Phaser.Clamp Phaser.RadToDeg String.append grantedShots
          TankM.configureSensors TankM.fire TankM.canFire];
    rewrite ?grantedShots_app, ?Nat.add_0_r; try reflexivity.
  destruct (fst (TankM.fire (tank b))); reflexivity.
Qed.

(** X15. However often a script calls [fire] during a tick, at most one
    of the calls is granted: the trace of a tick holds at most one
    granted shot. *)
Theorem X15_one_shot_per_tick (b : TankBrain) (fn : Script)
        (Hfn : compiledFunction b = Some fn)
        (Hactive : active (tank b) = true)
        (Halive : TankM.isDead (tank b) = false)
        (Hrate : 0 < fireRate (stats (tank b))) :
  (grantedShots (lastTrace (snd (execute toFixed numberToString b))) <= 1)%nat.
Proof.
  rewrite (execute_trace toFixed numberToString b fn Hfn Hactive Halive).
  fold api.
  pose proof (runScript_preserves
                (fun b b' =>
                   0 < fireRate (stats (tank b)) ->
                   0 < fireRate (stats (tank b'))
                   /\ (grantedShots (lastTrace b')
                       + (if TankM.canFire (tank b') then 1 else 0)
                       <= grantedShots (lastTrace b)
                          + (if TankM.canFire (tank b) then 1 else 0))%nat))
    as Hrun.
  destruct (Hrun) with (s := fn) (b := set_lastTrace b []) as [_ Hle].
  - intros b0 H. split; [exact H | lia].
  - intros b1 b2 b3 H12 H23 H. destruct (H12 H) as [H2 Hle2].
    destruct (H23 H2) as [H3 Hle3]. split; [exact H3 | lia].
  - intros c b0 H. rewrite invoke_shots, invoke_tank.
    destruct c as [| | | | | | | configs | | i | | | | | | | a | i | v | v
                   | point | | point | point];
      try destruct configs as [configs |]; try destruct point as [point |];
      cbv beta iota;
      try (split; [exact H | lia]).
    + (* configureSensors *)
      unfold TankM.configureSensors. destruct (_ || _); split;
        try exact H; cbn [snd]; unfold TankM.canFire; cbn; lia.
    + (* move *)
      split; [exact H |].
      change (TankM.canFire (TankM.move (tank b0) v))
        with (TankM.canFire (tank b0)). lia.
    + (* turn *)
      split; [exact H |].
      change (TankM.canFire (TankM.turn (tank b0) v))
        with (TankM.canFire (tank b0)). lia.
    + (* aimAt *)
      split; [exact H |].
      change (TankM.canFire (TankM.aimAt (tank b0) point))
        with (TankM.canFire (tank b0)). lia.
    + (* fire *)
      destruct (fire_cooldown (tank b0) H) as (Hfst & Hyes & Hno).
      destruct (TankM.canFire (tank b0)) eqn:Hcan.
      * destruct (Hyes eq_refl) as (Hafter & _).
        rewrite Hfst, Hafter. split; [| lia].
        unfold TankM.fire. destruct (Rge_dec _ _); exact H.
      * rewrite Hfst, (Hno eq_refl), Hcan. split; [exact H | lia].
  - exact Hrate.
  - cbn [lastTrace set_lastTrace grantedShots filter List.length] in Hle.
    destruct (TankM.canFire _), (TankM.canFire _); lia.
Qed.

End Confinement.

(** X14. The inputs of a tank lie in [-1, 1] and its sensors respect the
    documented constraints (arcs in [10, 120], ranges in [50, 400]) as
    long as no NaN is passed: a new tank with the default statistics is
    so; [move] and [turn] store a real number within [-1, 1] for every
    number other than NaN, the infinite ones included; an accepted
    [configureSensors] stores arcs and ranges within their bounds when
    none of those given is NaN; on real numbers these commands, the
    default AI and the frame update keep a tank so.  A NaN speed or rate
    is stored as NaN. *)
Theorem X14_well_commanded :
  (forall (x0 y0 : R) (id : string) (time : R),
      wellCommanded (TankM.create x0 y0 id DEFAULT_TANK_STATS time))
  /\ (forall v : JsNumber.num,
         v <> JsNumber.NaN ->
         exists m r : R,
           TankJs.move v = JsNumber.Num m /\ -1 <= m <= 1
           /\ TankJs.turn v = JsNumber.Num r /\ -1 <= r <= 1)
  /\ (forall sensors configs,
         (1 <= List.length configs <= SENSOR_CONSTRAINTS.maxSensors)%nat ->
         Forall (fun c => TankJs.arc c <> JsNumber.NaN
                          /\ TankJs.range c <> JsNumber.NaN) configs ->
         fst (TankJs.configureSensors sensors configs) = true
         /\ Forall withinHostConstraints
                   (snd (TankJs.configureSensors sensors configs)))
  /\ (forall (t : Tank) (v w : R) (configs : list SensorConfig),
         wellCommanded t ->
         TankJs.move (JsNumber.Num v)
         = JsNumber.Num (moveInput (TankM.move t v))
         /\ TankJs.turn (JsNumber.Num w)
            = JsNumber.Num (turnInput (TankM.turn t w))
         /\ TankJs.configureSensors (map hostConfig (sensors t))
                                    (map hostConfig configs)
            = (fst (TankM.configureSensors t configs),
               map hostConfig (sensors (snd (TankM.configureSensors t configs))))
         /\ wellCommanded (TankM.turn (TankM.move t v) w)
         /\ wellCommanded (snd (TankM.configureSensors t configs)))
  /\ (forall (tanks : list Tank) (t : Tank),
         wellCommanded t -> wellCommanded (BattleSceneM.runTankAI tanks t))
  /\ (forall (t : Tank) (delta : R),
         wellCommanded t -> wellCommanded (TankM.update t delta))
  /\ TankJs.move JsNumber.NaN = JsNumber.NaN
  /\ TankJs.turn JsNumber.NaN = JsNumber.NaN.
Proof.
  destruct (typed_tick_well_commanded plainFixed plainString)
    as (Hnew & _ & Hai & Hupd).
  split; [exact Hnew |].
  split.
  { intros v Hv.
    destruct (host_Clamp_number v (-1) 1) as [m [Em Hm]]; [lra | exact Hv |].
    exists m, m. repeat split; try exact Em; lra. }
  split.
  { intros sensors configs Hlen Hall.
    destruct (host_configureSensors_stored sensors configs) as [Hok Hnth].
    - unfold SENSOR_CONSTRAINTS.maxSensors in Hlen. exact Hlen.
    - split; [exact Hok |].
      apply Forall_forall. intros s Hs.
      destruct (In_nth_error _ _ Hs) as [i Hi].
      assert (Hi' : exists c, nth_error configs i = Some c).
      { unfold TankJs.configureSensors in Hi.
        destruct ((List.length configs =? 0)%nat
                  || (SENSOR_CONSTRAINTS.maxSensors <? List.length configs)%nat)
          eqn:E.
        - apply orb_true_iff in E. unfold SENSOR_CONSTRAINTS.maxSensors in *.
          destruct E as [E | E];
            [apply Nat.eqb_eq in E | apply Nat.ltb_lt in E]; lia.
        - cbn [snd] in Hi. rewrite nth_error_map in Hi.
          destruct (nth_error configs i) as [c |]; [exists c; reflexivity |].
          discriminate Hi. }
      destruct Hi' as [c Hc].
      destruct (Hnth i c Hc) as [s' [Hs' [_ [_ Hin]]]].
      rewrite Hi in Hs'. injection Hs' as <-.
      pose proof (proj1 (Forall_forall _ _) Hall c (nth_error_In _ _ Hc))
        as [Ha Hr].
      exact (Hin Ha Hr). }
  split.
  { intros t v w configs Ht.
    split; [reflexivity |]. split; [reflexivity |].
    split; [apply host_configureSensors_real |].
    split; [apply turn_wellCommanded, move_wellCommanded, Ht
           | apply configureSensors_wellCommanded, Ht]. }
  split; [exact Hai |]. split; [exact Hupd |]. split; reflexivity.
Qed.

Lemma X14_well_commanded_witness :
  wellCommanded tank0
  /\ (exists m r : R,
         TankJs.move JsNumber.PosInfinity = JsNumber.Num m /\ -1 <= m <= 1
         /\ TankJs.turn JsNumber.PosInfinity = JsNumber.Num r
         /\ -1 <= r <= 1)
  /\ (fst (TankJs.configureSensors
             [] [TankJs.mkSensor (JsNumber.Num 500) JsNumber.PosInfinity
                                 (JsNumber.Num 0)]) = true
      /\ Forall withinHostConstraints
                (snd (TankJs.configureSensors
                        [] [TankJs.mkSensor (JsNumber.Num 500)
                                            JsNumber.PosInfinity
                                            (JsNumber.Num 0)])))
  /\ wellCommanded (TankM.turn (TankM.move tank0 7) (-7))
  /\ wellCommanded (BattleSceneM.runTankAI [tank0; tank1] tank0)
  /\ wellCommanded (TankM.update tank0 16).
Proof.
  destruct X14_well_commanded
    as (Hnew & Hin & Hconf & Hreal & Hai & Hupd & _).
  assert (H0 : wellCommanded tank0)
    by exact (Hnew 100 100 "tank-0"%string 1000).
  split; [exact H0 |].
  split; [apply Hin; discriminate |].
  split.
  { apply Hconf.
    - unfold SENSOR_CONSTRAINTS.maxSensors. cbn. lia.
    - constructor; [split; discriminate | constructor]. }
  split; [exact (proj1 (proj2 (proj2 (proj2 (Hreal tank0 7 (-7) [] H0))))) |].
  split; [exact (Hai [tank0; tank1] tank0 H0) | exact (Hupd tank0 16 H0)].
Defined.

Lemma X15_one_shot_per_tick_witness :
  (grantedShots
     (lastTrace (snd (execute plainFixed plainString
                              (brainOf tank0 [] (Some firingTwice)))))
   <= 1)%nat.
Proof.
  apply (X15_one_shot_per_tick plainFixed plainString
                               (brainOf tank0 [] (Some firingTwice))
                               firingTwice).
  - reflexivity.
  - reflexivity.
  - apply isDead_full_health. reflexivity.
  - cbn. lra.
Defined.

(** ** Scanning *)

Section Scanning.

Variable toFixed : R -> nat -> string.
Variable numberToString : R -> string.

Lemma api_scan_value (i : Z) (b : TankBrain) :
  fst (api_scan numberToString i b)
  = Normal (sortBy byDistance
                   (filter (fun e => TankM.isPointInSensorIndex
                                       (tank b) (e_position e) i)
                           (getEnemiesFn b (tank b)))).
Proof. reflexivity. Qed.

Lemma api_scanAll_value (b : TankBrain) :
  fst (api_scanAll numberToString b)
  = Normal (sortBy byDistance
                   (filter (fun e => TankM.isPointDetectable
                                       (tank b) (e_position e))
                           (getEnemiesFn b (tank b)))).
Proof. reflexivity. Qed.

(** X16. [scan(i)] returns exactly the known enemies that lie in the cone
    of sensor [i], each as often as it is known, nearest first; for an
    index that names no sensor it returns the empty list; the tank is
    not changed. *)
Theorem X16_scan (b : TankBrain) (i : Z) :
  exists l,
    fst (api_scan numberToString i b) = Normal l
    /\ Permutation l
         (filter (fun e => TankM.isPointInSensorIndex (tank b) (e_position e) i)
                 (getEnemiesFn b (tank b)))
    /\ byDistanceSorted l
    /\ ((i < 0 \/ Z.of_nat (TankM.getSensorCount (tank b)) <= i)%Z -> l = [])
    /\ tank (snd (api_scan numberToString i b)) = tank b.
Proof.
  eexists. split; [apply api_scan_value |].
  split; [apply sortBy_Permutation |].
  split; [apply sortBy_distance_sorted |].
  split; [| reflexivity].
  intros Hout.
  assert (Hnone : filter (fun e => TankM.isPointInSensorIndex
                                     (tank b) (e_position e) i)
                         (getEnemiesFn b (tank b)) = []).
  { induction (getEnemiesFn b (tank b)) as [| e l IH]; [reflexivity |].
    cbn [filter].
    rewrite (isPointInSensorIndex_out_of_range (tank b) (e_position e) i Hout).
    exact IH. }
  rewrite Hnone. reflexivity.
Qed.

(** X17. [scanAll] is the union of the scans: an enemy is in its result
    exactly when it is in the result of [scan(i)] for some sensor [i];
    an enemy that lies in several cones is listed once for each time it
    is known, not once per cone; the list is sorted nearest first, and
    its first element is what [getNearestEnemy] returns. *)
Theorem X17_scanAll_union (b : TankBrain) :
  exists all,
    fst (api_scanAll numberToString b) = Normal all
    /\ (forall e,
          In e all
          <-> exists (i : Z) (l : list EnemyInfo),
                fst (api_scan numberToString i b) = Normal l /\ In e l)
    /\ Permutation all
         (filter (fun e => TankM.isPointDetectable (tank b) (e_position e))
                 (getEnemiesFn b (tank b)))
    /\ byDistanceSorted all
    /\ fst (api_getNearestEnemy toFixed b) = Normal (hd_error all).
Proof.
  eexists. split; [apply api_scanAll_value |].
  split; [| split; [apply sortBy_Permutation |
                    split; [apply sortBy_distance_sorted |]]].
  - intros e. rewrite sortBy_In, filter_In, isPointDetectable_iff. split.
    + intros [Hin [i Hi]]. exists i. eexists.
      split; [apply api_scan_value |].
      apply sortBy_In, filter_In. split; assumption.
    + intros [i [l [Hl Hin]]]. rewrite api_scan_value in Hl.
      injection Hl as <-. apply sortBy_In, filter_In in Hin.
      destruct Hin as [Hin Hi]. split; [exact Hin | exists i; exact Hi].
  - rewrite api_getNearestEnemy_value.
    destruct (sortBy byDistance _); reflexivity.
Qed.

End Scanning.

(** ** The hitscan: which tank is hit *)

Section ClosestHit.

Variable shooter : Tank.
Variables startPos endPos : Point.
Variable gunRange : R.

(** The state of the search after the pairs [seen] of a tank and one of
    its copies: the closest hit within range among them, the first one
    if several are as close. *)
Let searched (seen : list (Tank * Point)) (closestHit : option BattleSceneM.Hit)
  : Prop :=
  match closestHit with
  | Some h =>
      (exists pos,
          In (BattleSceneM.h_tank h, pos) seen
          /\ BattleSceneM.lineCircleIntersection startPos endPos pos 24
             = Some (BattleSceneM.h_point h))
      /\ BattleSceneM.h_distance h = dist startPos (BattleSceneM.h_point h)
      /\ BattleSceneM.h_distance h <= gunRange
      /\ forall tank pos hit,
          In (tank, pos) seen ->
          BattleSceneM.lineCircleIntersection startPos endPos pos 24 = Some hit ->
          dist startPos hit <= gunRange ->
          BattleSceneM.h_distance h <= dist startPos hit
  | None =>
      forall tank pos hit,
        In (tank, pos) seen ->
        BattleSceneM.lineCircleIntersection startPos endPos pos 24 = Some hit ->
        gunRange < dist startPos hit
  end.

Let inner (tank : Tank) :=
  fun (closestHit : option BattleSceneM.Hit) (pos : Point) =>
    match BattleSceneM.lineCircleIntersection startPos endPos pos 24 with
    | Some hit =>
        if (if Rle_dec (Phaser.DistanceBetween (px startPos) (py startPos)
                                               (px hit) (py hit)) gunRange
            then true else false)
           && BattleSceneM.closer
                (Phaser.DistanceBetween (px startPos) (py startPos)
                                        (px hit) (py hit)) closestHit
        then Some {| BattleSceneM.h_tank := tank;
                     BattleSceneM.h_distance :=
                       Phaser.DistanceBetween (px startPos) (py startPos)
                                              (px hit) (py hit);
                     BattleSceneM.h_point := hit |}
        else closestHit
    | None => closestHit
    end.

Lemma inner_step (tank : Tank) (pos : Point) (seen : list (Tank * Point))
      (closestHit : option BattleSceneM.Hit) :
  searched seen closestHit ->
  searched (seen ++ [(tank, pos)]) (inner tank closestHit pos).
Proof.
  intros Hinv. unfold inner.
  destruct (BattleSceneM.lineCircleIntersection startPos endPos pos 24)
    as [hit |] eqn:Hlc.
  - change (Phaser.DistanceBetween (px startPos) (py startPos) (px hit) (py hit))
      with (dist startPos hit).
    destruct (Rle_dec (dist startPos hit) gunRange) as [Hin | Hout];
      cbn [andb].
    + destruct closestHit as [h |]; cbn [BattleSceneM.closer].
      * destruct Hinv as ((p0 & Hp0 & Hlc0) & Hd & Hr & Hmin).
        destruct (Rlt_dec (dist startPos hit) (BattleSceneM.h_distance h))
          as [Hlt | Hge].
        -- cbn. split; [exists pos; split;
                        [apply in_or_app; right; left; reflexivity | exact Hlc] |].
           split; [reflexivity |]. split; [exact Hin |].
           intros t p q Hq Hlq Hrq. apply in_app_or in Hq.
           destruct Hq as [Hq | [Hq | []]].
           ++ specialize (Hmin t p q Hq Hlq Hrq). lra.
           ++ injection Hq as <- <-. rewrite Hlc in Hlq.
              injection Hlq as <-. lra.
        -- cbn. split; [exists p0; split;
                        [apply in_or_app; left; exact Hp0 | exact Hlc0] |].
           split; [exact Hd |]. split; [exact Hr |].
           intros t p q Hq Hlq Hrq. apply in_app_or in Hq.
           destruct Hq as [Hq | [Hq | []]].
           ++ exact (Hmin t p q Hq Hlq Hrq).
           ++ injection Hq as <- <-. rewrite Hlc in Hlq.
              injection Hlq as <-. lra.
      * cbn. split; [exists pos; split;
                     [apply in_or_app; right; left; reflexivity | exact Hlc] |].
        split; [reflexivity |]. split; [exact Hin |].
        intros t p q Hq Hlq Hrq. apply in_app_or in Hq.
        destruct Hq as [Hq | [Hq | []]].
        -- specialize (Hinv t p q Hq Hlq). lra.
        -- injection Hq as <- <-. rewrite Hlc in Hlq.
           injection Hlq as <-. lra.
    + destruct closestHit as [h |].
      * destruct Hinv as ((p0 & Hp0 & Hlc0) & Hd & Hr & Hmin).
        cbn. split; [exists p0; split;
                     [apply in_or_app; left; exact Hp0 | exact Hlc0] |].
        split; [exact Hd |]. split; [exact Hr |].
        intros t p q Hq Hlq Hrq. apply in_app_or in Hq.
        destruct Hq as [Hq | [Hq | []]].
        -- exact (Hmin t p q Hq Hlq Hrq).
        -- injection Hq as <- <-. rewrite Hlc in Hlq.
           injection Hlq as <-. lra.
      * cbn. intros t p q Hq Hlq. apply in_app_or in Hq.
        destruct Hq as [Hq | [Hq | []]].
        -- exact (Hinv t p q Hq Hlq).
        -- injection Hq as <- <-. rewrite Hlc in Hlq.
           injection Hlq as <-. lra.
  - destruct closestHit as [h |].
    + destruct Hinv as ((p0 & Hp0 & Hlc0) & Hd & Hr & Hmin).
      cbn. split; [exists p0; split;
                   [apply in_or_app; left; exact Hp0 | exact Hlc0] |].
      split; [exact Hd |]. split; [exact Hr |].
      intros t p q Hq Hlq Hrq. apply in_app_or in Hq.
      destruct Hq as [Hq | [Hq | []]].
      * exact (Hmin t p q Hq Hlq Hrq).
      * injection Hq as <- <-. rewrite Hlc in Hlq. discriminate.
    + cbn. intros t p q Hq Hlq. apply in_app_or in Hq.
      destruct Hq as [Hq | [Hq | []]].
      * exact (Hinv t p q Hq Hlq).
      * injection Hq as <- <-. rewrite Hlc in Hlq. discriminate.
Qed.

Lemma inner_loop (tank : Tank) (ps : list Point) (seen : list (Tank * Point))
      (closestHit : option BattleSceneM.Hit) :
  searched seen closestHit ->
  searched (seen ++ map (pair tank) ps) (fold_left (inner tank) ps closestHit).
Proof.
  revert seen closestHit. induction ps as [| p ps IH]; intros seen acc Hinv.
  - cbn. rewrite app_nil_r. exact Hinv.
  - cbn [fold_left map].
    replace (seen ++ (tank, p) :: map (pair tank) ps)%list
      with ((seen ++ [(tank, p)]) ++ map (pair tank) ps)%list
      by (rewrite <- app_assoc; reflexivity).
    apply IH, inner_step, Hinv.
Qed.

Let copies (tank : Tank) : list Point :=
  BattleSceneM.getWrappedPositions
    {| px := x tank; py := y tank |}
    DEFAULT_BATTLE_CONFIG.arenaWidth DEFAULT_BATTLE_CONFIG.arenaHeight.

Let outer :=
  fun (closestHit : option BattleSceneM.Hit) (tank : Tank) =>
    if String.eqb (tankId tank) (tankId shooter)
       || TankM.isDead tank || negb (active tank)
    then closestHit
    else fold_left (inner tank) (copies tank) closestHit.

Lemma outer_loop (tanks : list Tank) (seen : list (Tank * Point))
      (closestHit : option BattleSceneM.Hit) :
  searched seen closestHit ->
  searched (seen ++ flat_map (fun tank => map (pair tank) (copies tank))
                             (filter (opponent shooter) tanks))
           (fold_left outer tanks closestHit).
Proof.
  revert seen closestHit. induction tanks as [| t tanks IH]; intros seen acc Hinv.
  - cbn. rewrite app_nil_r. exact Hinv.
  - cbn [fold_left filter].
    assert (Hout : outer acc t
                   = if opponent shooter t
                     then fold_left (inner t) (copies t) acc else acc).
    { unfold outer, opponent. destruct (_ || _); reflexivity. }
    rewrite Hout. destruct (opponent shooter t).
    + cbn [flat_map]. rewrite app_assoc. apply IH, inner_loop, Hinv.
    + apply IH, Hinv.
Qed.

Lemma findClosestHit_searched (tanks : list Tank) :
  searched (flat_map (fun tank => map (pair tank) (copies tank))
                     (filter (opponent shooter) tanks))
           (BattleSceneM.findClosestHit tanks shooter startPos endPos gunRange).
Proof.
  apply (outer_loop tanks [] None). intros t p q [].
Qed.

Lemma seen_pairs (tanks : list Tank) (tank : Tank) (pos : Point) :
  In (tank, pos)
     (flat_map (fun tank => map (pair tank) (copies tank))
               (filter (opponent shooter) tanks))
  <-> In tank tanks /\ opponent shooter tank = true /\ In pos (copies tank).
Proof.
  rewrite in_flat_map. split.
  - intros [t [Ht Hp]]. apply filter_In in Ht. apply in_map_iff in Hp.
    destruct Hp as [p [Heq Hp]]. injection Heq as <- <-. tauto.
  - intros (Ht & Ho & Hp). exists tank. split; [apply filter_In; tauto |].
    apply in_map_iff. exists pos. tauto.
Qed.

Lemma closest_hit_spec (tanks : list Tank) :
  match BattleSceneM.findClosestHit tanks shooter startPos endPos gunRange with
  | Some h =>
      In (BattleSceneM.h_tank h) tanks
      /\ opponent shooter (BattleSceneM.h_tank h) = true
      /\ (exists pos,
             In pos (BattleSceneM.getWrappedPositions
                       (TankM.getPosition (BattleSceneM.h_tank h))
                       DEFAULT_BATTLE_CONFIG.arenaWidth
                       DEFAULT_BATTLE_CONFIG.arenaHeight)
             /\ BattleSceneM.lineCircleIntersection startPos endPos pos 24
                = Some (BattleSceneM.h_point h))
      /\ BattleSceneM.h_distance h = dist startPos (BattleSceneM.h_point h)
      /\ BattleSceneM.h_distance h <= gunRange
      /\ forall tank pos hit,
          In tank tanks -> opponent shooter tank = true ->
          In pos (BattleSceneM.getWrappedPositions
                    (TankM.getPosition tank)
                    DEFAULT_BATTLE_CONFIG.arenaWidth
                    DEFAULT_BATTLE_CONFIG.arenaHeight) ->
          BattleSceneM.lineCircleIntersection startPos endPos pos 24 = Some hit ->
          dist startPos hit <= gunRange ->
          BattleSceneM.h_distance h <= dist startPos hit
  | None =>
      forall tank pos hit,
        In tank tanks -> opponent shooter tank = true ->
        In pos (BattleSceneM.getWrappedPositions
                  (TankM.getPosition tank)
                  DEFAULT_BATTLE_CONFIG.arenaWidth
                  DEFAULT_BATTLE_CONFIG.arenaHeight) ->
        BattleSceneM.lineCircleIntersection startPos endPos pos 24 = Some hit ->
        gunRange < dist startPos hit
  end.
Proof.
  pose proof (findClosestHit_searched tanks) as H.
  destruct (BattleSceneM.findClosestHit tanks shooter startPos endPos gunRange)
    as [h |]; cbn [searched] in H.
  - destruct H as ((p0 & Hp0 & Hlc0) & Hd & Hr & Hmin).
    apply seen_pairs in Hp0. destruct Hp0 as (Ht & Ho & Hp).
    split; [exact Ht |]. split; [exact Ho |].
    split; [exists p0; split; [exact Hp | exact Hlc0] |].
    split; [exact Hd |]. split; [exact Hr |].
    intros t p q Hin Hopp Hpos. apply (Hmin t p q). apply seen_pairs. tauto.
  - intros t p q Hin Hopp Hpos. apply (H t p q). apply seen_pairs. tauto.
Qed.

End ClosestHit.

(** X18. The search of [fireHitscan] finds the closest point, within gun
    range, at which the shot meets the circle of radius 24 around a copy
    of a tank other than the shooter that is alive and active; it finds
    nothing exactly when no such point is within gun range. *)
Theorem X18_closest_hit (tanks : list Tank) (shooter : Tank)
        (startPos endPos : Point) (gunRange : R) :
  match BattleSceneM.findClosestHit tanks shooter startPos endPos gunRange with
  | Some h =>
      In (BattleSceneM.h_tank h) tanks
      /\ opponent shooter (BattleSceneM.h_tank h) = true
      /\ (exists pos,
             In pos (BattleSceneM.getWrappedPositions
                       (TankM.getPosition (BattleSceneM.h_tank h))
                       DEFAULT_BATTLE_CONFIG.arenaWidth
                       DEFAULT_BATTLE_CONFIG.arenaHeight)
             /\ BattleSceneM.lineCircleIntersection startPos endPos pos 24
                = Some (BattleSceneM.h_point h))
      /\ BattleSceneM.h_distance h = dist startPos (BattleSceneM.h_point h)
      /\ BattleSceneM.h_distance h <= gunRange
      /\ forall tank pos hit,
          In tank tanks -> opponent shooter tank = true ->
          In pos (BattleSceneM.getWrappedPositions
                    (TankM.getPosition tank)
                    DEFAULT_BATTLE_CONFIG.arenaWidth
                    DEFAULT_BATTLE_CONFIG.arenaHeight) ->
          BattleSceneM.lineCircleIntersection startPos endPos pos 24 = Some hit ->
          dist startPos hit <= gunRange ->
          BattleSceneM.h_distance h <= dist startPos hit
  | None =>
      forall tank pos hit,
        In tank tanks -> opponent shooter tank = true ->
        In pos (BattleSceneM.getWrappedPositions
                  (TankM.getPosition tank)
                  DEFAULT_BATTLE_CONFIG.arenaWidth
                  DEFAULT_BATTLE_CONFIG.arenaHeight) ->
        BattleSceneM.lineCircleIntersection startPos endPos pos 24 = Some hit ->
        gunRange < dist startPos hit
  end.
Proof.
  exact (closest_hit_spec shooter startPos endPos gunRange tanks).
Qed.

(** ** The hitscan: what it changes *)

Lemma findTank_In (l : list Tank) (t : Tank) :
  NoDup (map tankId l) -> In t l -> findTank (tankId t) l = Some t.
Proof.
  induction l as [| t0 l IH]; intros Hnd Hin; [destruct Hin |].
  cbn [map] in Hnd. inversion Hnd as [| ? ? Hnotin Hnd']; subst.
  cbn [findTank]. destruct Hin as [-> | Hin].
  - rewrite String.eqb_refl. reflexivity.
  - destruct (String.eqb (tankId t0) (tankId t)) eqn:Heq.
    + apply String.eqb_eq in Heq. exfalso. apply Hnotin. rewrite Heq.
      apply in_map, Hin.
    + apply IH; assumption.
Qed.

Lemma findTank_putTank (l : list Tank) (t : Tank) (id : string) :
  findTank id (putTank t l)
  = if String.eqb id (tankId t)
    then match findTank id l with Some _ => Some t | None => None end
    else findTank id l.
Proof.
  induction l as [| t0 l IH]; cbn [putTank findTank].
  - destruct (String.eqb id (tankId t)); reflexivity.
  - destruct (String.eqb (tankId t0) (tankId t)) eqn:H0.
    + apply String.eqb_eq in H0. cbn [findTank]. rewrite H0.
      rewrite (String.eqb_sym (tankId t) id).
      destruct (String.eqb id (tankId t)); reflexivity.
    + cbn [findTank]. destruct (String.eqb (tankId t0) id) eqn:H1.
      * apply String.eqb_eq in H1. subst id. rewrite H0. reflexivity.
      * exact IH.
Qed.

Lemma findTank_remove (l : list Tank) (gone id : string) :
  findTank id (filter (fun t => negb (String.eqb (tankId t) gone)) l)
  = if String.eqb id gone then None else findTank id l.
Proof.
  induction l as [| t0 l IH]; cbn [filter findTank].
  - destruct (String.eqb id gone); reflexivity.
  - destruct (String.eqb (tankId t0) gone) eqn:H0; cbn [negb findTank].
    + rewrite IH. apply String.eqb_eq in H0.
      destruct (String.eqb id gone) eqn:H1; [reflexivity |].
      destruct (String.eqb (tankId t0) id) eqn:H2; [| reflexivity].
      apply String.eqb_eq in H2. rewrite <- H2, H0, String.eqb_refl in H1.
      discriminate.
    + destruct (String.eqb (tankId t0) id) eqn:H2.
      * apply String.eqb_eq in H2. subst id. rewrite H0. reflexivity.
      * exact IH.
Qed.

Lemma checkWinCondition_tanks (sc : BattleScene) :
  tanks (BattleSceneM.checkWinCondition sc) = tanks sc
  /\ tankBrains (BattleSceneM.checkWinCondition sc) = tankBrains sc
  /\ isPaused (BattleSceneM.checkWinCondition sc) = isPaused sc
  /\ (isGameOver sc = true ->
      isGameOver (BattleSceneM.checkWinCondition sc) = true).
Proof.
  unfold BattleSceneM.checkWinCondition, BattleSceneM.endGame. cbv zeta.
  destruct (_ <=? 1)%nat; [| tauto].
  destruct (isGameOver sc) eqn:H; cbn; rewrite ?H; tauto.
Qed.

(** X19. A shot of an active, living tank changes at most one tank of
    the scene, the one that the search found, and never the shooter:
    that tank takes [projectileDamage]; if this kills it, it leaves the
    scene, otherwise it stays with its health lowered; a shot that finds
    nothing changes nothing.  The units and the pause flag are never
    touched, and a game that is over stays over. *)
Theorem X19_fireHitscan (sc : BattleScene) (shooter : Tank) (startPos : Point)
        (angle : R)
        (Hids : NoDup (map tankId (tanks sc)))
        (Hactive : active shooter = true)
        (Halive : TankM.isDead shooter = false) :
  let sc' := BattleSceneM.fireHitscan sc shooter startPos angle in
  let gunRange := TankM.getGunRange shooter in
  let endPos := {| px := px startPos + cos angle * gunRange;
                   py := py startPos + sin angle * gunRange |} in
  tankBrains sc' = tankBrains sc /\ isPaused sc' = isPaused sc
  /\ (isGameOver sc = true -> isGameOver sc' = true)
  /\ match BattleSceneM.findClosestHit (tanks sc) shooter startPos endPos
                                       gunRange with
     | None => sc' = sc
     | Some h =>
         let target := TankM.takeDamage (BattleSceneM.h_tank h)
                                        (projectileDamage (stats shooter)) in
         tankId (BattleSceneM.h_tank h) <> tankId shooter
         /\ (forall id, id <> tankId (BattleSceneM.h_tank h) ->
                        findTank id (tanks sc') = findTank id (tanks sc))
         /\ findTank (tankId (BattleSceneM.h_tank h)) (tanks sc')
            = if TankM.isDead target then None else Some target
     end.
Proof.
  cbv zeta. unfold BattleSceneM.fireHitscan. rewrite Hactive, Halive.
  cbn [negb orb]. cbv zeta.
  pose proof (closest_hit_spec
                shooter startPos
                {| px := px startPos + cos angle * TankM.getGunRange shooter;
                   py := py startPos + sin angle * TankM.getGunRange shooter |}
                (TankM.getGunRange shooter) (tanks sc)) as Hspec.
  destruct (BattleSceneM.findClosestHit _ _ _ _ _) as [h |].
  2: { repeat split; try reflexivity. intros H; exact H. }
  destruct Hspec as (Hin & Hopp & _).
  destruct (opponent_facts shooter _ Hopp) as (Hid & _ & _).
  set (target := TankM.takeDamage (BattleSceneM.h_tank h)
                                  (projectileDamage (stats shooter))).
  assert (Htid : tankId target = tankId (BattleSceneM.h_tank h)).
  { unfold target, TankM.takeDamage, TankM.onDeath. cbv zeta.
    destruct (Rle_dec _ _); reflexivity. }
  set (sc1 := {| tanks := putTank target (tanks sc);
                 tankBrains := tankBrains sc;
                 isGameOver := isGameOver sc; isPaused := isPaused sc |}).
  assert (Hfound : findTank (tankId (BattleSceneM.h_tank h)) (tanks sc)
                   = Some (BattleSceneM.h_tank h))
    by (apply findTank_In; assumption).
  destruct (TankM.isDead target) eqn:Hdead.
  - unfold BattleSceneM.onTankDeath.
    set (sc2 := {| tanks := filter _ (tanks sc1); tankBrains := tankBrains sc1;
                   isGameOver := isGameOver sc1; isPaused := isPaused sc1 |}).
    destruct (checkWinCondition_tanks sc2) as (Ht & Hb & Hp & Ho).
    rewrite Ht, Hb, Hp.
    split; [reflexivity |]. split; [reflexivity |]. split; [exact Ho |].
    split; [exact Hid |]. split.
    + intros id Hne. cbn [tanks sc2 sc1]. rewrite findTank_remove, Htid.
      apply String.eqb_neq in Hne. rewrite Hne.
      rewrite findTank_putTank, Htid, Hne. reflexivity.
    + cbn [tanks sc2 sc1]. rewrite findTank_remove, Htid, String.eqb_refl.
      reflexivity.
  - split; [reflexivity |]. split; [reflexivity |].
    split; [intros H; exact H |]. split; [exact Hid |]. split.
    + intros id Hne. cbn [tanks sc1]. rewrite findTank_putTank, Htid.
      apply String.eqb_neq in Hne. rewrite Hne. reflexivity.
    + cbn [tanks sc1]. rewrite findTank_putTank, Htid, String.eqb_refl, Hfound.
      reflexivity.
Qed.

Lemma X19_fireHitscan_witness :
  let sc := twoTankScene in
  let shooter := tank0 in
  let startPos := TankM.getPosition tank0 in
  let angle := 0 in
  let sc' := BattleSceneM.fireHitscan sc shooter startPos angle in
  let gunRange := TankM.getGunRange shooter in
  let endPos := {| px := px startPos + cos angle * gunRange;
                   py := py startPos + sin angle * gunRange |} in
  tankBrains sc' = tankBrains sc /\ isPaused sc' = isPaused sc
  /\ (isGameOver sc = true -> isGameOver sc' = true)
  /\ match BattleSceneM.findClosestHit (tanks sc) shooter startPos endPos
                                       gunRange with
     | None => sc' = sc
     | Some h =>
         let target := TankM.takeDamage (BattleSceneM.h_tank h)
                                        (projectileDamage (stats shooter)) in
         tankId (BattleSceneM.h_tank h) <> tankId shooter
         /\ (forall id, id <> tankId (BattleSceneM.h_tank h) ->
                        findTank id (tanks sc') = findTank id (tanks sc))
         /\ findTank (tankId (BattleSceneM.h_tank h)) (tanks sc')
            = if TankM.isDead target then None else Some target
     end.
Proof.
  apply (X19_fireHitscan twoTankScene tank0 (TankM.getPosition tank0) 0).
  - cbn. constructor.
    + intros [H | []]. discriminate.
    + constructor; [intros [] | constructor].
  - reflexivity.
  - apply isDead_full_health. reflexivity.
Defined.

(** ** The default AI *)

(** X20. The default AI commands its own tank and nothing else: it
    leaves the body and the sensors of the tank as they are, it always
    commands a move, and it asks for a shot only when no enemy is in the
    rear sensor, the nearest enemy of the front sensor is within gun
    range and the gun is ready; it then aims at that enemy. *)
Theorem X20_default_AI (tanks : list Tank) (t : Tank)
        (Hactive : active t = true) (Halive : TankM.isDead t = false)
        (Hflag : wantsFire t = false) :
  let t' := BattleSceneM.runTankAI tanks t in
  sameBody t t' /\ sensors t' = sensors t
  /\ moveInput t' <> 0
  /\ (wantsFire t' = true ->
      BattleSceneM.getEnemiesInSensor tanks t 3 = []
      /\ exists enemy rest,
          BattleSceneM.getEnemiesInSensor tanks t 0 = enemy :: rest
          /\ e_distance enemy <= TankM.getGunRange t
          /\ TankM.canFire t = true
          /\ targetTurretAngle t'
             = JsMath.atan2 (py (e_position enemy) - y t)
                            (px (e_position enemy) - x t)).
Proof.
  cbv zeta. unfold BattleSceneM.runTankAI. rewrite Hactive, Halive.
  cbn [negb orb]. cbv zeta.
  assert (Hhalf : Phaser.Clamp (5 / 10) (-1) 1 = 5 / 10)
    by (apply Clamp_inside; lra).
  assert (H3 : Phaser.Clamp (3 / 10) (-1) 1 = 3 / 10)
    by (apply Clamp_inside; lra).
  assert (H8 : Phaser.Clamp (8 / 10) (-1) 1 = 8 / 10)
    by (apply Clamp_inside; lra).
  assert (Hm5 : Phaser.Clamp (- (5 / 10)) (-1) 1 = - (5 / 10))
    by (apply Clamp_inside; lra).
  destruct (0 <? List.length (BattleSceneM.getEnemiesInSensor tanks t 3))%nat
    eqn:Hrear.
  { split; [unfold sameBody; cbn; repeat split |].
    split; [reflexivity |]. cbn. rewrite Hhalf. split; [lra |].
    rewrite Hflag. discriminate. }
  apply Nat.ltb_ge in Hrear.
  assert (Hnone : BattleSceneM.getEnemiesInSensor tanks t 3 = []).
  { apply length_zero_iff_nil. lia. }
  destruct (BattleSceneM.getEnemiesInSensor tanks t 0) as [| enemy rest].
  - destruct (0 <? List.length (BattleSceneM.getEnemiesInSensor tanks t 1))%nat;
      [| destruct (0 <? List.length
                          (BattleSceneM.getEnemiesInSensor tanks t 2))%nat];
      (split; [unfold sameBody; cbn; repeat split |]);
      (split; [reflexivity |]); cbn;
        rewrite ?Hhalf, ?H3; (split; [lra |]);
        rewrite Hflag; discriminate.
  - unfold TankM.canFire, TankM.fire.
    change (now (TankM.aimAt t (e_position enemy))) with (now t).
    change (lastFireTime (TankM.aimAt t (e_position enemy)))
      with (lastFireTime t).
    change (stats (TankM.aimAt t (e_position enemy))) with (stats t).
    destruct (Rle_dec (e_distance enemy) (TankM.getGunRange t)) as [Hr | Hr];
      destruct (Rge_dec (now t - lastFireTime t) (1000 / fireRate (stats t)))
        as [Hc | Hc]; cbn [andb snd];
      (destruct (Rgt_dec (e_distance enemy) (TankM.getGunRange t * (8 / 10)));
       [| destruct (Rlt_dec (e_distance enemy) 150)]);
      (split; [unfold sameBody; cbn; repeat split |]);
      (split; [reflexivity |]); cbn;
        rewrite ?H8, ?H3, ?Hm5; (split; [lra |]);
        rewrite ?Hflag; try discriminate;
        intros _; (split; [exact Hnone |]);
        exists enemy, rest; repeat split; try assumption; reflexivity.
Qed.

Lemma X20_default_AI_witness :
  let t' := BattleSceneM.runTankAI [tank0; tank1] tank0 in
  sameBody tank0 t' /\ sensors t' = sensors tank0
  /\ moveInput t' <> 0
  /\ (wantsFire t' = true ->
      BattleSceneM.getEnemiesInSensor [tank0; tank1] tank0 3 = []
      /\ exists enemy rest,
          BattleSceneM.getEnemiesInSensor [tank0; tank1] tank0 0 = enemy :: rest
          /\ e_distance enemy <= TankM.getGunRange tank0
          /\ TankM.canFire tank0 = true
          /\ targetTurretAngle t'
             = JsMath.atan2 (py (e_position enemy) - y tank0)
                            (px (e_position enemy) - x tank0)).
Proof.
  apply (X20_default_AI [tank0; tank1] tank0).
  - reflexivity.
  - apply isDead_full_health. reflexivity.
  - reflexivity.
Defined.

(** ** The trace panel *)

(** X21. The panel never shows more than sixteen lines and never none:
    an empty trace gives the single line [(no activity)], a trace of at
    most fifteen entries one line per entry, and a longer trace the line
    [...] followed by the lines of its last fifteen entries. *)
Theorem X21_formatTrace (trace : list TraceEntry) :
  (1 <= List.length (BattleSceneM.formatTrace trace) <= 16)%nat
  /\ (trace = [] ->
      BattleSceneM.formatTrace trace = ["  (no activity)"%string])
  /\ ((1 <= List.length trace <= 15)%nat ->
      BattleSceneM.formatTrace trace = map BattleSceneM.formatEntry trace)
  /\ ((15 < List.length trace)%nat ->
      BattleSceneM.formatTrace trace
      = "  ..."%string
          :: map BattleSceneM.formatEntry
                 (skipn (List.length trace - 15) trace)).
Proof.
  unfold BattleSceneM.formatTrace. cbv zeta. rewrite length_map.
  destruct (List.length trace =? 0)%nat eqn:Hzero.
  - apply Nat.eqb_eq in Hzero. cbn [List.length].
    split; [lia |]. split; [reflexivity |].
    split; intros H; lia.
  - apply Nat.eqb_neq in Hzero.
    destruct (15 <? List.length trace)%nat eqn:Hlong.
    + apply Nat.ltb_lt in Hlong. rewrite skipn_map.
      split; [cbn [List.length]; rewrite length_map, length_skipn; lia |].
      split; [intros ->; cbn in Hzero; lia |].
      split; [intros H; lia | reflexivity].
    + apply Nat.ltb_ge in Hlong.
      split; [rewrite length_map; lia |].
      split; [intros ->; cbn in Hzero; lia |].
      split; [reflexivity | intros H; lia].
Qed.

(** ** The validation pipeline *)

Section ValidatePipeline.

Variable newFunction : string -> Outcome Script.

(** X22. What [validate] accepts: [valid] holds exactly when the cleaned
    text parses, no forbidden pattern matches it, and its guarded form
    parses and runs against the stand-in without throwing; [valid] holds
    exactly when [errors] is empty, whatever the warnings; and a text
    that does not parse is reported by the one error of the parser,
    with no warning. *)
Theorem X22_validate_accepts (rawCode : string) :
  let code := CodeValidator.cleanCode rawCode in
  let r := validate newFunction rawCode in
  (valid r = true <-> errors r = [])
  /\ (valid r = true
      <-> (exists fn, newFunction code = Normal fn)
          /\ CodeValidator.checkForbiddenPatterns code = []
          /\ exists fn,
              newFunction (CodeValidator.injectLoopGuards code) = Normal fn
              /\ fst (runScript createMockTank fn freshMock) = Normal tt)
  /\ (forall message,
        newFunction code = Thrown message ->
        r = {| valid := false;
               errors := [("Syntax error: " +++ message)%string];
               warnings := [] |})
  /\ ((exists fn, newFunction code = Normal fn) ->
      warnings r = CodeValidator.validateTankMethods code).
Proof.
  cbv zeta. unfold validate, validateSyntax, testExecution, errorOf.
  cbv zeta.
  destruct (newFunction (CodeValidator.cleanCode rawCode)) as [fn0 | msg0]
    eqn:Hsyn; cbn [ck_valid ck_error negb app].
  - destruct (CodeValidator.checkForbiddenPatterns
                (CodeValidator.cleanCode rawCode)) as [| e es] eqn:Hforb;
      cbn [List.length Nat.eqb app].
    + destruct (newFunction (CodeValidator.injectLoopGuards
                               (CodeValidator.cleanCode rawCode)))
        as [fn | msg] eqn:Hguard.
      * destruct (fst (runScript createMockTank fn freshMock)) as [[] | msg]
          eqn:Hrun; cbn [ck_valid ck_error negb valid errors warnings
                         List.length Nat.eqb app].
        -- split; [tauto |]. split.
           ++ split; [intros _ | reflexivity].
              split; [exists fn0; reflexivity |]. split; [reflexivity |].
              exists fn. split; [reflexivity | exact Hrun].
           ++ split; [intros m Hm; discriminate | intros _; reflexivity].
        -- split; [split; intros H; discriminate |]. split.
           ++ split; [intros H; discriminate |].
              intros (_ & _ & fn' & Hfn' & Hrun').
              injection Hfn' as <-. rewrite Hrun in Hrun'. discriminate.
           ++ split; [intros m Hm; discriminate | intros _; reflexivity].
      * cbn [ck_valid ck_error negb valid errors warnings
             List.length Nat.eqb app].
        split; [split; intros H; discriminate |]. split.
        -- split; [intros H; discriminate |].
           intros (_ & _ & fn' & Hfn' & _). discriminate.
        -- split; [intros m Hm; discriminate | intros _; reflexivity].
    + cbn [valid errors warnings List.length Nat.eqb].
      split; [split; intros H; discriminate |]. split.
      * split; [intros H; discriminate |].
        intros (_ & H & _). discriminate.
      * split; [intros m Hm; discriminate | intros _; reflexivity].
  - cbn [valid errors warnings].
    split; [split; intros H; discriminate |]. split.
    + split; [intros H; discriminate |].
      intros ([fn Hfn] & _). discriminate.
    + split; [| intros [fn Hfn]; discriminate].
      intros m Hm. injection Hm as <-. reflexivity.
Qed.

End ValidatePipeline.

(** ** The orchestrator *)

Section AutoRetry.

Variable SYSTEM_PROMPT : string.
Variable respond : nat -> string -> string -> Outcome LLMResponse.
Variable validate : string -> ValidationResult.
Variable getCleanedCode : string -> string.

Let generate := generateBehavior SYSTEM_PROMPT respond validate getCleanedCode.
Let regenerate :=
  regenerateWithFeedback SYSTEM_PROMPT respond validate getCleanedCode.
Let loop := retryLoop SYSTEM_PROMPT respond validate getCleanedCode.
Let autoRetry :=
  generateWithAutoRetry SYSTEM_PROMPT respond validate getCleanedCode.






End AutoRetry.


(** X24. No request is made in vain: without a loaded model,
    [generateWithAutoRetry] asks the backend nothing, whatever the retry
    budget, and reports that the model is not loaded; and when the first
    answer is accepted by the validator it makes that one request only
    and returns the accepted code. *)
Theorem X24_no_needless_request
        (SYSTEM_PROMPT : string)
        (respond : nat -> string -> string -> Outcome LLMResponse)
        (validate : string -> ValidationResult)
        (getCleanedCode : string -> string)
        (userStrategy : string) (maxRetries : nat) (p : Provider) :
  (modelLoaded p = false ->
   generateWithAutoRetry SYSTEM_PROMPT respond validate getCleanedCode
                         userStrategy maxRetries p
   = (Normal {| success := false; behavior := None;
                gen_error :=
                  Some (exhaustedMessage
                          maxRetries
                          "Model not loaded. Please wait for the model to finish loading.");
                rawResponse := None |},
      p))
  /\ (forall rsp c,
        modelLoaded p = true ->
        respond (requests p) SYSTEM_PROMPT
                (PromptBuilder.buildUserPrompt userStrategy) = Normal rsp ->
        rsp_success rsp = true -> content rsp = Some c -> c <> EmptyString ->
        valid (validate c) = true ->
        generateWithAutoRetry SYSTEM_PROMPT respond validate getCleanedCode
                              userStrategy maxRetries p
        = (Normal {| success := true;
                     behavior := Some {| bh_code := getCleanedCode c;
                                         bh_strategy := userStrategy;
                                         bh_isValid := true;
                                         bh_error := None |};
                     gen_error := None;
                     rawResponse := Some c |},
           {| modelLoaded := true; requests := S (requests p) |})).
Proof.
  split.
  - intros Hl.
    unfold generateWithAutoRetry, generateBehavior, bind, tryCatch, gets.
    rewrite Hl. cbn [negb ret fst snd failure behaviorCode behavior
                     rawResponse orElse falsy render String.eqb].
    cbn. destruct maxRetries; reflexivity.
  - intros rsp c Hl Hrsp Hs Hc Hne Hv.
    unfold generateWithAutoRetry, generateBehavior, bind, tryCatch, gets,
      provider_generate.
    rewrite Hl. cbn [negb]. rewrite Hrsp, Hs, Hc.
    rewrite (falsy_nonempty c Hne). cbn [negb orb render]. rewrite Hv.
    cbn [negb ret]. rewrite Hl.
    destruct maxRetries; reflexivity.
Qed.

Lemma X24_no_needless_request_witness :
  generateWithAutoRetry "system" moveBackend acceptEverything
                        CodeValidator.cleanCode "go" 3
                        {| modelLoaded := false; requests := 0 |}
  = (Normal {| success := false; behavior := None;
               gen_error :=
                 Some (exhaustedMessage
                         3
                         "Model not loaded. Please wait for the model to finish loading.");
               rawResponse := None |},
     {| modelLoaded := false; requests := 0 |})
  /\ generateWithAutoRetry "system" moveBackend acceptEverything
                           CodeValidator.cleanCode "go" 3
                           {| modelLoaded := true; requests := 0 |}
     = (Normal {| success := true;
                  behavior :=
                    Some {| bh_code := CodeValidator.cleanCode "tank.move(1);";
                            bh_strategy := "go";
                            bh_isValid := true; bh_error := None |};
                  gen_error := None;
                  rawResponse := Some "tank.move(1);"%string |},
        {| modelLoaded := true; requests := 1 |}).
Proof.
  split.
  - apply (proj1 (X24_no_needless_request
                    "system" moveBackend acceptEverything
                    CodeValidator.cleanCode "go" 3
                    {| modelLoaded := false; requests := 0 |})).
    reflexivity.
  - apply (proj2 (X24_no_needless_request
                    "system" moveBackend acceptEverything
                    CodeValidator.cleanCode "go" 3
                    {| modelLoaded := true; requests := 0 |})
                 {| rsp_success := true; content := Some "tank.move(1);"%string;
                    rsp_error := None |}
                 "tank.move(1);"%string);
      try reflexivity.
    discriminate.
Defined.


(** ** The loop-guard rewriter *)

Local Open Scope string_scope.

Lemma includes_cons (c : ascii) (s kw : string) :
  Js.includes (String c s) kw = Js.startsWith (String c s) kw || Js.includes s kw.
Proof. reflexivity. Qed.

Lemma includes_false_startsWith (s kw : string) :
  Js.includes s kw = false -> Js.startsWith s kw = false.
Proof.
  destruct s; cbn [Js.includes]; intros H; apply orb_false_iff in H; tauto.
Qed.

Lemma includes_false_tail (c : ascii) (s kw : string) :
  Js.includes (String c s) kw = false -> Js.includes s kw = false.
Proof.
  cbn [Js.includes]. intros H. apply orb_false_iff in H. tauto.
Qed.

(** A literal does not match where the text does not start with it. *)
Lemma run_lit_fail (kw : string) (st : Js.MState)
      (k : Js.MState -> option Js.MState) :
  kw <> "" -> Js.startsWith (Js.rest st) kw = false ->
  Js.run (Js.lit kw) st k = None.
Proof.
  revert st k. induction kw as [| c kw IH]; intros st k Hne Hs;
    [contradiction |].
  destruct kw as [| c' kw'].
  - cbn [Js.lit Js.run Js.ch]. destruct (Js.rest st) as [| a s']; [reflexivity |].
    cbn [Js.startsWith] in Hs. rewrite andb_true_r in Hs.
    rewrite (Ascii.eqb_sym c a), Hs. reflexivity.
  - change (Js.lit (String c (String c' kw')))
      with (Js.Seq (Js.ch c) (Js.lit (String c' kw'))).
    cbn [Js.run Js.ch]. destruct (Js.rest st) as [| a s']; [reflexivity |].
    cbn [Js.startsWith] in Hs.
    rewrite (Ascii.eqb_sym c a).
    destruct (Ascii.eqb a c); [| reflexivity].
    cbn [andb] in Hs. apply IH; [discriminate | exact Hs].
Qed.

(** No loop header where the keyword does not occur. *)
Lemma loop_search_none (kw : string) (p : option ascii) (s : string) :
  kw <> "" -> Js.includes s kw = false ->
  Js.search (CodeValidator.loopRe kw) p s = None.
Proof.
  intros Hne. revert p. induction s as [| c s IH]; intros p Hs.
  - cbn [Js.search]. unfold Js.matchHere, CodeValidator.loopRe.
    cbn [Js.seqs Js.run]. destruct (xorb _ _); [| reflexivity].
    rewrite run_lit_fail; [reflexivity | exact Hne |].
    cbn [Js.rest]. apply includes_false_startsWith, Hs.
  - cbn [Js.search].
    rewrite (IH (Some c) (includes_false_tail c s kw Hs)).
    unfold Js.matchHere, CodeValidator.loopRe.
    cbn [Js.seqs Js.run]. destruct (xorb _ _); [| reflexivity].
    rewrite run_lit_fail; [reflexivity | exact Hne |].
    cbn [Js.rest]. apply includes_false_startsWith, Hs.
Qed.

Lemma loop_replace_none (kw : string) (n : nat) (s : string) :
  kw <> "" -> Js.includes s kw = false ->
  Js.replaceAll (CodeValidator.loopRe kw) (CodeValidator.guardText kw) n s
  = (s, n).
Proof.
  intros Hne Hs. unfold Js.replaceAll. cbn [Js.replaceAllFrom].
  rewrite (loop_search_none kw None s Hne Hs). reflexivity.
Qed.

Lemma injectLoopGuards_loop_free (code : string) :
  Js.includes code "while" = false -> Js.includes code "for" = false ->
  CodeValidator.injectLoopGuards code = code.
Proof.
  intros Hw Hf. unfold CodeValidator.injectLoopGuards. cbv zeta.
  rewrite (loop_replace_none "while" 0 code) by (discriminate || exact Hw).
  cbn [fst snd].
  rewrite (loop_replace_none "for" 0 code) by (discriminate || exact Hf).
  reflexivity.
Qed.

(** X25. Code that names neither loop keyword comes out of the
    loop-guard rewriter unchanged: nothing is inserted and no closing
    brace is appended. *)
Theorem X25_loop_free_unchanged (code : string) :
  loopFree code -> CodeValidator.injectLoopGuards code = code.
Proof.
  intros [Hw Hf]. exact (injectLoopGuards_loop_free code Hw Hf).
Qed.

Lemma X25_loop_free_unchanged_witness :
  CodeValidator.injectLoopGuards "tank.move(1); tank.fire();"
  = "tank.move(1); tank.fire();".
Proof.
  apply (X25_loop_free_unchanged "tank.move(1); tank.fire();").
  split; reflexivity.
Defined.

(** *** A starred character class *)

Lemma star_nil (p : ascii -> bool) (pv : option ascii) (cp : option string)
      (k : Js.MState -> option Js.MState) :
  Js.run (Js.Star (Js.Chr p)) (Js.mkM pv "" cp) k = k (Js.mkM pv "" cp).
Proof. reflexivity. Qed.

Lemma star_stop (p : ascii -> bool) (a : ascii) (s : string)
      (pv : option ascii) (cp : option string)
      (k : Js.MState -> option Js.MState) :
  p a = false ->
  Js.run (Js.Star (Js.Chr p)) (Js.mkM pv (String a s) cp) k
  = k (Js.mkM pv (String a s) cp).
Proof.
  intros H. cbn [Js.run Js.rest String.length]. rewrite H. reflexivity.
Qed.

Lemma star_step (p : ascii -> bool) (a : ascii) (s : string)
      (pv : option ascii) (cp : option string)
      (k : Js.MState -> option Js.MState) :
  p a = true ->
  Js.run (Js.Star (Js.Chr p)) (Js.mkM pv (String a s) cp) k
  = match Js.run (Js.Star (Js.Chr p)) (Js.mkM (Some a) s cp) k with
    | Some res => Some res
    | None => k (Js.mkM pv (String a s) cp)
    end.
Proof.
  intros H. cbn [Js.run Js.rest Js.cap String.length]. rewrite H.
  replace (String.length s <? S (String.length s))%nat with true
    by (symmetry; apply Nat.ltb_lt; lia).
  reflexivity.
Qed.

(** The state after the text [u] has been read. *)
Lemma lastChar_cons (a : ascii) (u : string) :
  lastChar (String a u)
  = match lastChar u with Some c => Some c | None => Some a end.
Proof.
  revert a. induction u as [| b u IH]; intros a; [reflexivity |].
  change (lastChar (String a (String b u))) with (lastChar (String b u)).
  rewrite (IH b). destruct (lastChar u); reflexivity.
Qed.

Lemma after_cons (pv : option ascii) (a : ascii) (u : string) :
  after pv (String a u) = after (Some a) u.
Proof. unfold after. rewrite lastChar_cons. destruct (lastChar u); reflexivity. Qed.

(** Greedy: the whole run of class characters is taken when what follows
    matches. *)
Lemma star_greedy (p : ascii -> bool) (u t : string)
      (cp : option string) (k : Js.MState -> option Js.MState)
      (res : Js.MState) :
  allChars p u = true -> stops p t ->
  forall pv,
    k (Js.mkM (after pv u) t cp) = Some res ->
    Js.run (Js.Star (Js.Chr p)) (Js.mkM pv (u +++ t) cp) k = Some res.
Proof.
  intros Hu Ht. induction u as [| a u IH]; intros pv Hk.
  - cbn [append]. unfold after in Hk. cbn [lastChar] in Hk.
    destruct t as [| c t']; [exact Hk |].
    rewrite (star_stop p c t' pv cp k Ht). exact Hk.
  - cbn [allChars] in Hu. apply andb_true_iff in Hu. destruct Hu as [Ha Hu].
    cbn [append]. rewrite (star_step p a (u +++ t) pv cp k Ha).
    rewrite (IH Hu (Some a)); [reflexivity |].
    rewrite <- (after_cons pv). exact Hk.
Qed.

(** No match when what follows matches at no point of the run. *)
Lemma star_fail (p : ascii -> bool) (u t : string)
      (cp : option string) (k : Js.MState -> option Js.MState) :
  allChars p u = true -> stops p t ->
  forall pv,
    (forall u1 u2, u = u1 +++ u2 ->
                   k (Js.mkM (after pv u1) (u2 +++ t) cp) = None) ->
    Js.run (Js.Star (Js.Chr p)) (Js.mkM pv (u +++ t) cp) k = None.
Proof.
  intros Hu Ht. induction u as [| a u IH]; intros pv Hk.
  - cbn [append]. specialize (Hk "" "" eq_refl).
    unfold after in Hk. cbn [lastChar append] in Hk.
    destruct t as [| c t']; [exact Hk |].
    rewrite (star_stop p c t' pv cp k Ht). exact Hk.
  - cbn [allChars] in Hu. apply andb_true_iff in Hu. destruct Hu as [Ha Hu].
    cbn [append]. rewrite (star_step p a (u +++ t) pv cp k Ha).
    rewrite (IH Hu (Some a)).
    + exact (Hk "" (String a u) eq_refl).
    + intros u1 u2 E. rewrite <- (after_cons pv).
      apply (Hk (String a u1) u2). cbn [append]. rewrite E. reflexivity.
Qed.

(** *** Keywords and separators *)

Lemma startsWith_app_sep (c : ascii) (kw : string) :
  allChars (fun k => negb (Ascii.eqb c k)) kw = true ->
  forall u b, Js.startsWith (u +++ String c b) kw = Js.startsWith u kw.
Proof.
  induction kw as [| k kw IH]; intros Hc u b.
  - destruct u; reflexivity.
  - cbn [allChars] in Hc. apply andb_true_iff in Hc. destruct Hc as [Hk Hc].
    destruct u as [| x u]; cbn [append Js.startsWith].
    + apply negb_true_iff in Hk. rewrite Hk. reflexivity.
    + rewrite (IH Hc). reflexivity.
Qed.

Lemma startsWith_nil (kw : string) :
  kw <> "" -> Js.startsWith "" kw = false.
Proof. destruct kw; [contradiction | reflexivity]. Qed.

Lemma includes_nil (kw : string) : kw <> "" -> Js.includes "" kw = false.
Proof.
  intros H. cbn [Js.includes]. rewrite (startsWith_nil kw H). reflexivity.
Qed.

Lemma includes_app_sep (c : ascii) (kw : string) :
  kw <> "" -> allChars (fun k => negb (Ascii.eqb c k)) kw = true ->
  forall a b,
    Js.includes (a +++ String c b) kw = Js.includes a kw || Js.includes b kw.
Proof.
  intros Hne Hc a b. induction a as [| x a IH].
  - cbn [append]. rewrite includes_cons, (includes_nil kw Hne).
    change (String c b) with ("" +++ String c b) at 1.
    rewrite (startsWith_app_sep c kw Hc), (startsWith_nil kw Hne).
    reflexivity.
  - cbn [append]. rewrite !includes_cons, IH.
    change (String x (a +++ String c b)) with (String x a +++ String c b).
    rewrite (startsWith_app_sep c kw Hc). apply orb_assoc.
Qed.

Lemma includes_app_sep_false (c : ascii) (kw a b : string) :
  kw <> "" -> allChars (fun k => negb (Ascii.eqb c k)) kw = true ->
  Js.includes a kw = false -> Js.includes b kw = false ->
  Js.includes (a +++ String c b) kw = false.
Proof.
  intros Hne Hc Ha Hb. rewrite (includes_app_sep c kw Hne Hc), Ha, Hb.
  reflexivity.
Qed.

(** A keyword made of word characters does not contain a separator. *)
Lemma word_sep (c : ascii) (kw : string) :
  allChars Js.isWord kw = true -> Js.isWord c = false ->
  allChars (fun k => negb (Ascii.eqb c k)) kw = true.
Proof.
  intros Hkw Hc. induction kw as [| k kw IH]; [reflexivity |].
  cbn [allChars] in *. apply andb_true_iff in Hkw. destruct Hkw as [Hk Hkw].
  rewrite (IH Hkw), andb_true_r. apply negb_true_iff.
  destruct (Ascii.eqb c k) eqn:E; [| reflexivity].
  apply Ascii.eqb_eq in E. congruence.
Qed.

Lemma space_not_word (c : ascii) : Js.isSpace c = true -> Js.isWord c = false.
Proof.
  unfold Js.isSpace, Js.isWord, Js.isUpper, Js.isLower, Js.isDigit, Js.code.
  intros H. destruct (Ascii.eqb c "_") eqn:E.
  - apply Ascii.eqb_eq in E. subst c. discriminate H.
  - rewrite orb_false_r.
    apply orb_true_iff in H. destruct H as [H | H].
    + apply Nat.eqb_eq in H. rewrite H. reflexivity.
    + apply andb_true_iff in H. destruct H as [H1 H2].
      apply Nat.leb_le in H1. apply Nat.leb_le in H2.
      repeat match goal with
             | |- context [(?a <=? ?b)%nat] =>
                 destruct (Nat.leb_spec a b)
             end; cbn; try reflexivity; lia.
Qed.

(** A run of spaces contains no keyword. *)
Lemma includes_spaces (kw s : string) :
  kw <> "" -> allChars Js.isWord kw = true ->
  allChars Js.isSpace s = true -> Js.includes s kw = false.
Proof.
  intros Hne Hkw. induction s as [| c s IH]; intros Hs.
  - apply includes_nil, Hne.
  - cbn [allChars] in Hs. apply andb_true_iff in Hs. destruct Hs as [Hc Hs].
    rewrite includes_cons, (IH Hs), orb_false_r.
    destruct kw as [| k kw]; [contradiction |].
    cbn [Js.startsWith]. cbn [allChars] in Hkw.
    apply andb_true_iff in Hkw. destruct Hkw as [Hk _].
    destruct (Ascii.eqb c k) eqn:E; [| reflexivity].
    apply Ascii.eqb_eq in E. subst k.
    rewrite (space_not_word c Hc) in Hk. discriminate Hk.
Qed.

Lemma lastChar_snoc (s : string) (c : ascii) :
  lastChar s = Some c -> exists q, s = q +++ String c "".
Proof.
  induction s as [| a s IH]; intros H; [discriminate H |].
  rewrite lastChar_cons in H. destruct (lastChar s) as [d |] eqn:E.
  - destruct (IH H) as [q Hq]. exists (String a q). cbn [append].
    rewrite <- Hq. reflexivity.
  - destruct s as [| b s'].
    + exists "". injection H as <-. reflexivity.
    + rewrite lastChar_cons in E. destruct (lastChar s'); discriminate E.
Qed.

Lemma lastChar_app_snoc (q : string) (c : ascii) :
  lastChar (q +++ String c "") = Some c.
Proof.
  induction q as [| a q IH]; [reflexivity |].
  cbn [append]. rewrite lastChar_cons, IH. reflexivity.
Qed.

(** *** Searching for a loop header *)

Lemma loop_matchHere_fail (kw : string) (p : option ascii) (s : string) :
  kw <> "" -> Js.startsWith s kw = false ->
  Js.matchHere (CodeValidator.loopRe kw) p s = None.
Proof.
  intros Hne Hs. unfold Js.matchHere, CodeValidator.loopRe.
  cbn [Js.seqs Js.run]. destruct (xorb _ _); [| reflexivity].
  apply run_lit_fail; [exact Hne | exact Hs].
Qed.

Lemma search_cons (r : Js.regex) (p : option ascii) (c : ascii) (s : string) :
  Js.matchHere r p (String c s) = None ->
  Js.search r p (String c s)
  = match Js.search r (Some c) s with
    | Some (skipped, st) => Some (String c skipped, st)
    | None => None
    end.
Proof. intros H. cbn [Js.search]. rewrite H. reflexivity. Qed.

Lemma search_here (r : Js.regex) (p : option ascii) (s : string)
      (st : Js.MState) :
  Js.matchHere r p s = Some st -> Js.search r p s = Some ("", st).
Proof. intros H. destruct s; cbn [Js.search]; rewrite H; reflexivity. Qed.

(** The search passes over a text without the keyword that ends in a
    separator. *)
Lemma loop_search_skip (kw : string) (sep : ascii) :
  kw <> "" -> allChars (fun k => negb (Ascii.eqb sep k)) kw = true ->
  forall q p t,
    Js.includes q kw = false ->
    Js.search (CodeValidator.loopRe kw) p (q +++ String sep t)
    = match Js.search (CodeValidator.loopRe kw) (Some sep) t with
      | Some (skipped, st) => Some (q +++ String sep skipped, st)
      | None => None
      end.
Proof.
  intros Hne Hsep. induction q as [| x q IH]; intros p t Hq.
  - cbn [append]. apply search_cons, loop_matchHere_fail; [exact Hne |].
    change (String sep t) with ("" +++ String sep t).
    rewrite (startsWith_app_sep sep kw Hsep). apply startsWith_nil, Hne.
  - cbn [append]. rewrite search_cons.
    + rewrite (IH (Some x) t (includes_false_tail x q kw Hq)).
      destruct (Js.search _ _ t) as [[sk st] |]; reflexivity.
    + apply loop_matchHere_fail; [exact Hne |].
      change (String x (q +++ String sep t)) with (String x q +++ String sep t).
      rewrite (startsWith_app_sep sep kw Hsep).
      apply includes_false_startsWith, Hq.
Qed.

(** *** Matching a loop header *)

Lemma run_seq (r1 r2 : Js.regex) (st : Js.MState)
      (k : Js.MState -> option Js.MState) :
  Js.run (Js.Seq r1 r2) st k = Js.run r1 st (fun st' => Js.run r2 st' k).
Proof. reflexivity. Qed.

Lemma run_group (r : Js.regex) (st : Js.MState)
      (k : Js.MState -> option Js.MState) :
  Js.run (Js.Group r) st k
  = Js.run r st
      (fun st' =>
         k (Js.mkM (Js.prev st') (Js.rest st')
              (Some (Js.take (String.length (Js.rest st)
                              - String.length (Js.rest st'))
                             (Js.rest st))))).
Proof. reflexivity. Qed.

Lemma run_chr_ok (p : ascii -> bool) (c : ascii) (s : string)
      (pv : option ascii) (cp : option string)
      (k : Js.MState -> option Js.MState) :
  p c = true ->
  Js.run (Js.Chr p) (Js.mkM pv (String c s) cp) k = k (Js.mkM (Some c) s cp).
Proof. intros H. cbn [Js.run Js.rest Js.cap]. rewrite H. reflexivity. Qed.

Lemma run_chr_fail (p : ascii -> bool) (c : ascii) (s : string)
      (pv : option ascii) (cp : option string)
      (k : Js.MState -> option Js.MState) :
  p c = false -> Js.run (Js.Chr p) (Js.mkM pv (String c s) cp) k = None.
Proof. intros H. cbn [Js.run Js.rest Js.cap]. rewrite H. reflexivity. Qed.

Lemma run_lit_ok (kw : string) :
  forall pv t cp k,
    Js.run (Js.lit kw) (Js.mkM pv (kw +++ t) cp) k
    = k (Js.mkM (after pv kw) t cp).
Proof.
  induction kw as [| c kw IH]; intros pv t cp k; [reflexivity |].
  rewrite after_cons. destruct kw as [| c' kw'].
  - cbn [Js.lit append]. unfold Js.ch.
    rewrite run_chr_ok by apply Ascii.eqb_refl. reflexivity.
  - change (Js.lit (String c (String c' kw')))
      with (Js.Seq (Js.ch c) (Js.lit (String c' kw'))).
    rewrite run_seq. cbn [append]. unfold Js.ch at 1.
    rewrite run_chr_ok by apply Ascii.eqb_refl.
    exact (IH (Some c) t cp k).
Qed.

Lemma take_app (u t : string) :
  Js.take (String.length (u +++ t) - String.length t) (u +++ t) = u.
Proof.
  induction u as [| c u IH].
  - cbn [append]. rewrite Nat.sub_diag. destruct t; reflexivity.
  - cbn [append String.length].
    assert (H : (String.length t <= String.length (u +++ t))%nat).
    { clear. induction u as [| c u IH]; cbn [append String.length]; lia. }
    rewrite Nat.sub_succ_l by exact H. cbn [Js.take]. rewrite IH.
    reflexivity.
Qed.

Lemma not_space_paren : Js.isSpace "(" = false.
Proof. reflexivity. Qed.

(** The header [kw sp1 ( cond ) sp2 {], with spaces for [sp1] and [sp2]
    and a condition without a closing parenthesis, is matched up to its
    brace and the condition is captured. *)
Lemma loop_header (kw : string) (pv : option ascii) (sp1 cond sp2 post : string) :
  kw <> "" -> allChars Js.isWord kw = true -> Js.isWordOpt pv = false ->
  allChars Js.isSpace sp1 = true ->
  cond <> "" -> allChars CodeValidator.notClosing cond = true ->
  allChars Js.isSpace sp2 = true ->
  Js.matchHere (CodeValidator.loopRe kw) pv
               (kw +++ sp1 +++ String "(" (cond +++ String ")"
                                            (sp2 +++ String "{" post)))
  = Some (Js.mkM (Some "{"%char) post (Some cond)).
Proof.
  intros Hne Hkw Hpv Hsp1 Hcne Hcond Hsp2.
  unfold Js.matchHere, CodeValidator.loopRe. cbn [Js.seqs].
  rewrite run_seq.
  assert (Hb : Js.run Js.WordB
                 (Js.mkM pv (kw +++ sp1 +++ String "(" (cond +++ String ")"
                                            (sp2 +++ String "{" post))) None)
               = fun k => k (Js.mkM pv (kw +++ sp1 +++ String "(" (cond +++ String ")"
                                            (sp2 +++ String "{" post))) None)).
  { cbn [Js.run Js.prev Js.rest]. rewrite Hpv.
    destruct kw as [| k0 kw']; [contradiction |].
    cbn [allChars] in Hkw. apply andb_true_iff in Hkw. destruct Hkw as [Hk0 _].
    cbn [append Js.nextChar Js.isWordOpt]. rewrite Hk0. reflexivity. }
  rewrite Hb. clear Hb. cbv beta.
  rewrite run_seq, run_lit_ok. rewrite run_seq.
  apply star_greedy; [exact Hsp1 | exact not_space_paren |].
  rewrite run_seq. unfold Js.ch at 1.
  rewrite run_chr_ok by reflexivity.
  rewrite run_seq.
  destruct cond as [| c0 cond']; [contradiction |].
  cbn [allChars] in Hcond. apply andb_true_iff in Hcond.
  destruct Hcond as [Hc0 Hcond'].
  rewrite run_group. unfold Js.Plus. rewrite run_seq.
  cbn [append]. rewrite run_chr_ok by exact Hc0.
  apply star_greedy; [exact Hcond' | reflexivity |].
  cbn [Js.prev Js.rest].
  change (String c0 (cond' +++ String ")" (sp2 +++ String "{" post)))
    with (String c0 cond' +++ String ")" (sp2 +++ String "{" post)).
  rewrite take_app.
  rewrite run_seq. unfold Js.ch at 1. rewrite run_chr_ok by reflexivity.
  rewrite run_seq.
  apply star_greedy; [exact Hsp2 | reflexivity |].
  unfold Js.ch. rewrite run_chr_ok by reflexivity. reflexivity.
Qed.

Lemma sapp_assoc (a b c : string) : (a +++ b) +++ c = a +++ b +++ c.
Proof.
  induction a as [| x a IH]; [reflexivity |].
  cbn [append]. rewrite IH. reflexivity.
Qed.

Lemma sapp_nil_r (a : string) : a +++ "" = a.
Proof.
  induction a as [| x a IH]; [reflexivity |].
  cbn [append]. rewrite IH. reflexivity.
Qed.

(** The first header after a text that has none, and that does not end in
    the middle of a word. *)
Lemma loop_search_at (kw pre X : string) (st : Js.MState) :
  kw <> "" -> allChars Js.isWord kw = true ->
  Js.isWordOpt (lastChar pre) = false -> Js.includes pre kw = false ->
  Js.matchHere (CodeValidator.loopRe kw) (lastChar pre) X = Some st ->
  Js.search (CodeValidator.loopRe kw) None (pre +++ X) = Some (pre, st).
Proof.
  intros Hne Hkw Hb Hpre Hm.
  destruct (lastChar pre) as [sep |] eqn:El.
  - destruct (lastChar_snoc pre sep El) as [q ->].
    cbn [Js.isWordOpt] in Hb.
    pose proof (word_sep sep kw Hkw Hb) as Hsep.
    rewrite (includes_app_sep sep kw Hne Hsep) in Hpre.
    apply orb_false_iff in Hpre. destruct Hpre as [Hq _].
    rewrite sapp_assoc. cbn [append].
    rewrite (loop_search_skip kw sep Hne Hsep q None X Hq).
    rewrite (search_here _ _ _ _ Hm). reflexivity.
  - destruct pre as [| c pre'].
    + cbn [append]. apply search_here, Hm.
    + rewrite lastChar_cons in El. destruct (lastChar pre'); discriminate El.
Qed.

Lemma includes_boundary_app (kw pre X : string) :
  kw <> "" -> allChars Js.isWord kw = true ->
  Js.isWordOpt (lastChar pre) = false ->
  Js.includes pre kw = false -> Js.includes X kw = false ->
  Js.includes (pre +++ X) kw = false.
Proof.
  intros Hne Hkw Hb Hpre HX.
  destruct (lastChar pre) as [sep |] eqn:El.
  - destruct (lastChar_snoc pre sep El) as [q ->].
    cbn [Js.isWordOpt] in Hb.
    pose proof (word_sep sep kw Hkw Hb) as Hsep.
    rewrite (includes_app_sep sep kw Hne Hsep) in Hpre.
    apply orb_false_iff in Hpre. destruct Hpre as [Hq _].
    rewrite sapp_assoc. cbn [append].
    apply includes_app_sep_false; assumption.
  - destruct pre as [| c pre'].
    + exact HX.
    + rewrite lastChar_cons in El. destruct (lastChar pre'); discriminate El.
Qed.

(** One match, and none after it. *)
Lemma replaceAll_one (r : Js.regex) (f : nat -> option string -> string)
      (n : nat) (s skipped : string) (st : Js.MState) :
  Js.search r None s = Some (skipped, st) ->
  Js.search r (Js.prev st) (Js.rest st) = None ->
  Js.replaceAll r f n s = (skipped +++ f n (Js.cap st) +++ Js.rest st, S n).
Proof.
  intros H1 H2. unfold Js.replaceAll. cbn [Js.replaceAllFrom].
  rewrite H1. cbv zeta.
  assert (E : Js.replaceAllFrom (String.length s) r f (S n)
                                (Js.prev st) (Js.rest st)
              = (Js.rest st, S n)).
  { destruct (String.length s); cbn [Js.replaceAllFrom]; [reflexivity |].
    rewrite H2. reflexivity. }
  rewrite E. reflexivity.
Qed.

Lemma guardText_zero (kw cond : string) :
  CodeValidator.guardText kw 0 (Some cond)
  = "{ let __loopGuard0=0; " +++ kw +++ " (" +++ cond
      +++ ") { if(++__loopGuard0>100)break;".
Proof. reflexivity. Qed.

(** The rest of a header contains no keyword. *)
Lemma header_rest_free (kw sp1 cond sp2 post : string) :
  kw <> "" -> allChars Js.isWord kw = true ->
  allChars Js.isSpace sp1 = true -> allChars Js.isSpace sp2 = true ->
  Js.includes cond kw = false -> Js.includes post kw = false ->
  Js.includes (sp1 +++ String "(" (cond +++ String ")"
                                     (sp2 +++ String "{" post))) kw = false.
Proof.
  intros Hne Hkw H1 H2 Hc Hp.
  assert (Hs : forall c, Js.isWord c = false ->
                         allChars (fun k => negb (Ascii.eqb c k)) kw = true)
    by (intros c Hc'; apply word_sep; assumption).
  apply includes_app_sep_false;
    [exact Hne | apply Hs; reflexivity
     | apply includes_spaces; assumption |].
  apply includes_app_sep_false;
    [exact Hne | apply Hs; reflexivity | exact Hc |].
  apply includes_app_sep_false;
    [exact Hne | apply Hs; reflexivity
     | apply includes_spaces; assumption | exact Hp].
Qed.

(** X26. One loop is guarded: in a text whose only loop header is
    [kw sp1 ( cond ) sp2 {], with only white space for [sp1] and [sp2] and
    a condition without a closing parenthesis, the header is replaced by
    a block that declares the counter [__loopGuard0], the header with
    single spaces, and the test that leaves the loop after 100 turns;
    one closing brace is appended at the very end of the text. *)
Theorem X26_one_loop_guarded (kw pre sp1 cond sp2 post : string) :
  kw = "while" \/ kw = "for" ->
  Js.isWordOpt (lastChar pre) = false ->
  allChars Js.isSpace sp1 = true -> allChars Js.isSpace sp2 = true ->
  cond <> "" -> allChars CodeValidator.notClosing cond = true ->
  loopFree pre -> loopFree cond -> loopFree post ->
  CodeValidator.injectLoopGuards
    (pre +++ kw +++ sp1 +++ "(" +++ cond +++ ")" +++ sp2 +++ "{" +++ post)
  = pre +++ "{ let __loopGuard0=0; " +++ kw +++ " (" +++ cond
      +++ ") { if(++__loopGuard0>100)break;" +++ post +++ " }".
Proof.
  intros Hk Hb Hsp1 Hsp2 Hcne Hcond [Hpw Hpf] [Hcw Hcf] [Htw Htf].
  assert (Hhdr : forall k, k <> "" -> allChars Js.isWord k = true ->
            Js.includes pre k = false -> Js.includes post k = false ->
            Js.replaceAll (CodeValidator.loopRe k) (CodeValidator.guardText k)
              0 (pre +++ k +++ sp1 +++ "(" +++ cond +++ ")" +++ sp2
                   +++ "{" +++ post)
            = (pre +++ CodeValidator.guardText k 0 (Some cond) +++ post, 1%nat)).
  { intros k Hne Hkw Hpk Htk.
    rewrite (replaceAll_one _ _ 0 _ pre
               (Js.mkM (Some "{"%char) post (Some cond))).
    - reflexivity.
    - apply loop_search_at; try assumption.
      apply loop_header; assumption.
    - cbn [Js.prev Js.rest]. apply loop_search_none; assumption. }
  unfold CodeValidator.injectLoopGuards. cbv zeta.
  destruct Hk as [-> | ->].
  - rewrite (Hhdr "while") by (discriminate || reflexivity || assumption).
    cbn [fst snd].
    rewrite loop_replace_none.
    + cbn [fst snd CodeValidator.closeGuards]. rewrite guardText_zero.
      rewrite !sapp_assoc. reflexivity.
    + discriminate.
    + rewrite guardText_zero.
      apply includes_boundary_app;
        [discriminate | reflexivity | exact Hb | exact Hpf |].
      change (("{ let __loopGuard0=0; " +++ "while" +++ " (" +++ cond
                 +++ ") { if(++__loopGuard0>100)break;") +++ post)
        with ("{ let __loopGuard0=0; while " +++ String "("
                 (cond +++ ") { if(++__loopGuard0>100)break;") +++ post).
      change (String "(" (cond +++ ") { if(++__loopGuard0>100)break;")
                +++ post)
        with (String "(" ((cond +++ ") { if(++__loopGuard0>100)break;")
                            +++ post)).
      rewrite sapp_assoc.
      change (") { if(++__loopGuard0>100)break;" +++ post)
        with (String ")" (" { if(++__loopGuard0>100)break"
                            +++ String ";" post)).
      repeat (apply includes_app_sep_false;
              [discriminate | reflexivity | try reflexivity; try assumption |]).
      exact Htf.
  - rewrite (loop_replace_none "while" 0
               (pre +++ "for" +++ sp1 +++ "(" +++ cond +++ ")" +++ sp2
                    +++ "{" +++ post)).
    + cbn [fst snd].
      rewrite (Hhdr "for") by (discriminate || reflexivity || assumption).
      cbn [fst snd CodeValidator.closeGuards]. rewrite guardText_zero.
      rewrite !sapp_assoc. reflexivity.
    + discriminate.
    + apply includes_boundary_app;
        [discriminate | reflexivity | exact Hb | exact Hpw |].
      cbn [append]. rewrite !includes_cons.
      cbn [Js.startsWith]. cbn [Ascii.eqb Bool.eqb andb orb].
      apply header_rest_free; try assumption; (discriminate || reflexivity).
Qed.

Lemma X26_one_loop_guarded_witness :
  CodeValidator.injectLoopGuards
    ("x = 1; " +++ "while" +++ " " +++ "(" +++ "x < 9" +++ ")" +++ " "
       +++ "{" +++ " x++; }")
  = "x = 1; " +++ "{ let __loopGuard0=0; " +++ "while" +++ " (" +++ "x < 9"
      +++ ") { if(++__loopGuard0>100)break;" +++ " x++; }" +++ " }".
Proof.
  apply (X26_one_loop_guarded "while" "x = 1; " " " "x < 9" " " " x++; }").
  - left. reflexivity.
  - reflexivity.
  - reflexivity.
  - reflexivity.
  - discriminate.
  - reflexivity.
  - split; reflexivity.
  - split; reflexivity.
  - split; reflexivity.
Defined.

(** *** Headers that the pattern does not recognise *)

Lemma allChars_app (p : ascii -> bool) (u1 u2 : string) :
  allChars p (u1 +++ u2) = allChars p u1 && allChars p u2.
Proof.
  induction u1 as [| c u1 IH]; [reflexivity |].
  cbn [append allChars]. rewrite IH. apply andb_assoc.
Qed.

(** When the first closing parenthesis after the keyword is not followed
    by spaces and a brace, the pattern does not match there. *)
Lemma loop_header_fail (kw : string) (pv : option ascii)
      (sp1 c1 post : string) (x : ascii) :
  allChars Js.isSpace sp1 = true ->
  allChars CodeValidator.notClosing c1 = true ->
  Js.isSpace x = false -> x <> "{"%char ->
  Js.matchHere (CodeValidator.loopRe kw) pv
               (kw +++ sp1 +++ String "(" (c1 +++ String ")" (String x post)))
  = None.
Proof.
  intros Hsp1 Hc1 Hx Hx'.
  unfold Js.matchHere, CodeValidator.loopRe. cbn [Js.seqs].
  rewrite run_seq.
  change (Js.run Js.WordB ?st ?k)
    with (if xorb (Js.isWordOpt (Js.prev st))
                  (Js.isWordOpt (Js.nextChar (Js.rest st)))
          then k st else None).
  destruct (xorb _ _); [| reflexivity].
  rewrite run_seq, run_lit_ok, run_seq.
  apply star_fail; [exact Hsp1 | exact not_space_paren |].
  intros u1 u2 E. rewrite run_seq.
  destruct u2 as [| s0 u2'].
  - cbn [append]. unfold Js.ch at 1. rewrite run_chr_ok by reflexivity.
    rewrite run_seq, run_group. unfold Js.Plus. rewrite run_seq.
    destruct c1 as [| c0 c1'].
    + cbn [append]. apply run_chr_fail. reflexivity.
    + cbn [allChars] in Hc1. apply andb_true_iff in Hc1.
      destruct Hc1 as [Hc0 Hc1'].
      cbn [append]. rewrite run_chr_ok by exact Hc0.
      apply star_fail; [exact Hc1' | reflexivity |].
      intros v1 v2 E'. cbn [Js.prev Js.rest]. rewrite run_seq.
      destruct v2 as [| d v2'].
      * cbn [append]. unfold Js.ch at 1. rewrite run_chr_ok by reflexivity.
        rewrite run_seq.
        change Js.space with (Js.Chr Js.isSpace).
        rewrite (star_stop Js.isSpace x post _ _ _ Hx).
        unfold Js.ch. apply run_chr_fail.
        destruct (Ascii.eqb "{" x) eqn:Ex; [| reflexivity].
        apply Ascii.eqb_eq in Ex. congruence.
      * cbn [append]. unfold Js.ch at 1. apply run_chr_fail.
        rewrite E', allChars_app in Hc1'. apply andb_true_iff in Hc1'.
        destruct Hc1' as [_ Hv2]. cbn [allChars] in Hv2.
        apply andb_true_iff in Hv2. destruct Hv2 as [Hd _].
        unfold CodeValidator.notClosing in Hd. apply negb_true_iff in Hd.
        rewrite Ascii.eqb_sym. exact Hd.
  - cbn [append]. unfold Js.ch at 1. apply run_chr_fail.
    rewrite E, allChars_app in Hsp1. apply andb_true_iff in Hsp1.
    destruct Hsp1 as [_ Hu2]. cbn [allChars] in Hu2.
    apply andb_true_iff in Hu2. destruct Hu2 as [Hs0 _].
    destruct (Ascii.eqb "(" s0) eqn:Es; [| reflexivity].
    apply Ascii.eqb_eq in Es. subst s0. discriminate Hs0.
Qed.

Lemma loop_search_none_at (kw pre X' : string) (c : ascii) :
  kw <> "" -> allChars Js.isWord kw = true ->
  Js.isWordOpt (lastChar pre) = false -> Js.includes pre kw = false ->
  Js.matchHere (CodeValidator.loopRe kw) (lastChar pre) (String c X') = None ->
  Js.includes X' kw = false ->
  Js.search (CodeValidator.loopRe kw) None (pre +++ String c X') = None.
Proof.
  intros Hne Hkw Hb Hpre Hm HX.
  assert (Hat : forall p, Js.matchHere (CodeValidator.loopRe kw) p (String c X')
                          = None ->
                Js.search (CodeValidator.loopRe kw) p (String c X') = None).
  { intros p Hp. rewrite (search_cons _ _ _ _ Hp).
    rewrite (loop_search_none kw (Some c) X' Hne HX). reflexivity. }
  destruct (lastChar pre) as [sep |] eqn:El.
  - destruct (lastChar_snoc pre sep El) as [q ->].
    cbn [Js.isWordOpt] in Hb.
    pose proof (word_sep sep kw Hkw Hb) as Hsep.
    rewrite (includes_app_sep sep kw Hne Hsep) in Hpre.
    apply orb_false_iff in Hpre. destruct Hpre as [Hq _].
    rewrite sapp_assoc. cbn [append].
    rewrite (loop_search_skip kw sep Hne Hsep q None _ Hq).
    rewrite (Hat _ Hm). reflexivity.
  - destruct pre as [| c' pre'].
    + cbn [append]. apply Hat, Hm.
    + rewrite lastChar_cons in El. destruct (lastChar pre'); discriminate El.
Qed.

Lemma replaceAll_none (r : Js.regex) (f : nat -> option string -> string)
      (n : nat) (s : string) :
  Js.search r None s = None -> Js.replaceAll r f n s = (s, n).
Proof.
  intros H. unfold Js.replaceAll. cbn [Js.replaceAllFrom]. rewrite H.
  reflexivity.
Qed.

(** X27. A loop whose condition contains a call is left without a guard:
    when the first closing parenthesis after the keyword's opening one is
    followed by a character that is neither white space nor an opening
    brace, as in [while (tank.canFire()) {], the rewriter returns the
    text unchanged. *)
Theorem X27_call_in_condition_unguarded
        (kw pre sp1 c1 post : string) (x : ascii) :
  kw = "while" \/ kw = "for" ->
  Js.isWordOpt (lastChar pre) = false ->
  allChars Js.isSpace sp1 = true ->
  allChars CodeValidator.notClosing c1 = true ->
  Js.isSpace x = false -> x <> "{"%char ->
  loopFree pre -> loopFree c1 -> loopFree (String x post) ->
  CodeValidator.injectLoopGuards
    (pre +++ kw +++ sp1 +++ "(" +++ c1 +++ ")" +++ String x post)
  = pre +++ kw +++ sp1 +++ "(" +++ c1 +++ ")" +++ String x post.
Proof.
  intros Hk Hb Hsp1 Hc1 Hx Hx' [Hpw Hpf] [Hcw Hcf] [Htw Htf].
  assert (Hrest : forall k, k <> "" -> allChars Js.isWord k = true ->
            Js.includes c1 k = false -> Js.includes (String x post) k = false ->
            Js.includes (sp1 +++ String "(" (c1 +++ String ")" (String x post)))
                        k = false).
  { intros k Hne Hkw Hc Hp.
    apply includes_app_sep_false;
      [exact Hne | apply word_sep; [exact Hkw | reflexivity]
       | apply includes_spaces; assumption |].
    apply includes_app_sep_false;
      [exact Hne | apply word_sep; [exact Hkw | reflexivity]
       | exact Hc | exact Hp]. }
  unfold CodeValidator.injectLoopGuards. cbv zeta.
  destruct Hk as [-> | ->].
  - rewrite (replaceAll_none (CodeValidator.loopRe "while") _ 0
               (pre +++ "while" +++ sp1 +++ "(" +++ c1 +++ ")"
                    +++ String x post)).
    + cbn [fst snd]. rewrite loop_replace_none; [reflexivity | discriminate |].
      apply includes_boundary_app;
        [discriminate | reflexivity | exact Hb | exact Hpf |].
      cbn [append]. rewrite !includes_cons.
      cbn [Js.startsWith]. cbn [Ascii.eqb Bool.eqb andb orb].
      apply Hrest; try assumption; (discriminate || reflexivity).
    + change ("while" +++ sp1 +++ "(" +++ c1 +++ ")" +++ String x post)
        with (String "w" ("hile" +++ sp1 +++ "(" +++ c1 +++ ")"
                                 +++ String x post)).
      apply loop_search_none_at;
        [discriminate | reflexivity | exact Hb | exact Hpw | |].
      * apply (loop_header_fail "while"); assumption.
      * cbn [append]. rewrite !includes_cons.
        cbn [Js.startsWith]. cbn [Ascii.eqb Bool.eqb andb orb].
        apply Hrest; try assumption; (discriminate || reflexivity).
  - rewrite (loop_replace_none "while" 0
               (pre +++ "for" +++ sp1 +++ "(" +++ c1 +++ ")"
                    +++ String x post)).
    + cbn [fst snd].
      rewrite replaceAll_none; [reflexivity |].
      change ("for" +++ sp1 +++ "(" +++ c1 +++ ")" +++ String x post)
        with (String "f" ("or" +++ sp1 +++ "(" +++ c1 +++ ")"
                               +++ String x post)).
      apply loop_search_none_at;
        [discriminate | reflexivity | exact Hb | exact Hpf | |].
      * apply (loop_header_fail "for"); assumption.
      * cbn [append]. rewrite !includes_cons.
        cbn [Js.startsWith]. cbn [Ascii.eqb Bool.eqb andb orb].
        apply Hrest; try assumption; (discriminate || reflexivity).
    + discriminate.
    + apply includes_boundary_app;
        [discriminate | reflexivity | exact Hb | exact Hpw |].
      cbn [append]. rewrite !includes_cons.
      cbn [Js.startsWith]. cbn [Ascii.eqb Bool.eqb andb orb].
      apply Hrest; try assumption; (discriminate || reflexivity).
Qed.

Lemma X27_call_in_condition_unguarded_witness :
  CodeValidator.injectLoopGuards
    ("" +++ "while" +++ " " +++ "(" +++ "tank.canFire(" +++ ")"
        +++ String ")" " { tank.fire(); }")
  = "" +++ "while" +++ " " +++ "(" +++ "tank.canFire(" +++ ")"
       +++ String ")" " { tank.fire(); }".
Proof.
  apply (X27_call_in_condition_unguarded
           "while" "" " " "tank.canFire(" " { tank.fire(); }" ")").
  - left. reflexivity.
  - reflexivity.
  - reflexivity.
  - reflexivity.
  - reflexivity.
  - discriminate.
  - split; reflexivity.
  - split; reflexivity.
  - split; reflexivity.
Defined.

(** ** The cleaner on wrapped answers *)

Local Open Scope string_scope.

Lemma trimEnd_app_keep (u v : string) :
  v <> "" -> Js.trimEnd v = v -> Js.trimEnd (u +++ v) = u +++ v.
Proof.
  intros Hne Hv. induction u as [| c u IH]; [exact Hv |].
  cbn [append Js.trimEnd]. rewrite IH.
  destruct (u +++ v) eqn:E; [| reflexivity].
  destruct u; [cbn [append] in E; contradiction | discriminate E].
Qed.

(** What the first stages of the cleaner do to a body of plain lines. *)
Lemma plainBody_facts (s : string) :
  plainBody s ->
  allBody s = true /\ Js.trim s = s /\ exists w, s = "tank." +++ w.
Proof.
  intros [line [lines [Hall [Hs Htrim]]]].
  pose proof (join_allBody _ Hall) as Hbody. rewrite <- Hs in Hbody.
  assert (Hcall : exists w, s = ("tank." +++ w)%string).
  { inversion Hall as [| ? ? [r [Hline _]] _]; subst line.
    destruct lines as [| line' lines'].
    - exists r. exact Hs.
    - exists (r +++ String Js.newline
                (Js.join (line' :: lines') (String Js.newline EmptyString))).
      exact Hs. }
  destruct Hcall as [w Hw]. split; [exact Hbody |]. split; [| exists w; exact Hw].
  unfold Js.trim. rewrite Hw at 1.
  exact (eq_trans (f_equal Js.trimEnd (eq_sym Hw)) Htrim).
Qed.

Lemma body_fenceOpen_stage (s : string) :
  plainBody s ->
  fst (Js.replaceAll CodeValidator.fenceOpenRe (fun _ _ => "") 0 s) = s.
Proof.
  intros Hs. destruct (plainBody_facts s Hs) as [_ [_ [w ->]]].
  rewrite replaceAll_none; [reflexivity | apply call_fenceOpen].
Qed.

Lemma body_fenceClose_stage (s : string) :
  plainBody s ->
  fst (Js.replaceAll CodeValidator.fenceCloseRe (fun _ _ => "") 0 s) = s.
Proof.
  intros Hs. destruct (plainBody_facts s Hs) as [Hb _].
  rewrite replaceAll_none; [reflexivity | apply body_fenceClose, Hb].
Qed.

(** The closing fence after a body is found, and nothing before it. *)
Lemma fenceClose_found (u : string) :
  allBody u = true ->
  forall p,
    Js.search CodeValidator.fenceCloseRe p (u +++ String Js.newline "```")
    = Some (u, Js.mkM (Some "`"%char) "" None).
Proof.
  induction u as [| c u IH]; intros Hu p.
  - reflexivity.
  - apply allBody_cons in Hu. destruct Hu as [Hc Hu].
    apply bodyChar_inv in Hc. destruct Hc as [_ [_ [Hbq _]]].
    cbn [append]. rewrite search_cons.
    + rewrite (IH Hu (Some c)). reflexivity.
    + unfold Js.matchHere, CodeValidator.fenceCloseRe.
      cbn -[Ascii.eqb Js.newline].
      rewrite (Ascii.eqb_sym "`" c), Hbq.
      destruct (Ascii.eqb Js.newline c); [| reflexivity].
      destruct u as [| c' u']; [reflexivity |].
      apply allBody_cons in Hu. destruct Hu as [Hc' _].
      apply bodyChar_inv in Hc'. destruct Hc' as [_ [_ [Hbq' _]]].
      cbn [append]. rewrite (Ascii.eqb_sym "`" c'), Hbq'. reflexivity.
Qed.

Lemma fenceOpen_found (tag body : string) :
  In tag ["javascript"; "js"; "typescript"; "ts"; ""] ->
  Js.matchHere CodeValidator.fenceOpenRe None
               ("```" +++ tag +++ String Js.newline body)
  = Some (Js.mkM (Some Js.newline) body None).
Proof.
  intros H. cbn [In] in H.
  repeat (destruct H as [<- | H]; [reflexivity |]). contradiction.
Qed.

(** X28. A markdown fence is removed: when the answer is a body of
    plain call lines between an opening fence, bare or tagged
    javascript, js, typescript or ts, and a closing fence, each on a
    line of its own, cleanCode returns exactly the body. *)
Theorem X28_cleanCode_removes_fence (tag body : string) :
  In tag ["javascript"; "js"; "typescript"; "ts"; ""] ->
  plainBody body ->
  CodeValidator.cleanCode (fenced tag body) = body.
Proof.
  intros Htag Hbody. unfold fenced.
  destruct (plainBody_facts body Hbody) as [Hall [Htrim _]].
  transitivity (CodeValidator.cleanCode body);
    [| apply cleanCode_plainBody; exact Hbody].
  set (raw := "```" +++ tag +++ String Js.newline
                    (body +++ String Js.newline "```")).
  assert (Hraw : Js.trim raw = raw).
  { unfold Js.trim.
    replace (Js.trimStart raw) with raw by reflexivity.
    assert (E : raw = ("```" +++ tag +++ String Js.newline
                             (body +++ String Js.newline "``")) +++ "`").
    { unfold raw. repeat (rewrite sapp_assoc || cbn [append]). reflexivity. }
    rewrite E. apply trimEnd_app_keep; [discriminate | reflexivity]. }
  assert (Hopen : fst (Js.replaceAll CodeValidator.fenceOpenRe (fun _ _ => "")
                                     0 raw)
                  = body +++ String Js.newline "```").
  { rewrite (replaceAll_one _ _ 0 raw ""
               (Js.mkM (Some Js.newline) (body +++ String Js.newline "```")
                       None)).
    - reflexivity.
    - apply search_here. apply fenceOpen_found. exact Htag.
    - cbn [Js.prev Js.rest]. apply search_Bos_later. }
  assert (Hclose : fst (Js.replaceAll CodeValidator.fenceCloseRe
                                      (fun _ _ => "") 0
                                      (body +++ String Js.newline "```"))
                   = body).
  { rewrite (replaceAll_one _ _ 0 _ body (Js.mkM (Some "`"%char) "" None)).
    - cbn [fst Js.rest]. apply sapp_nil_r.
    - apply fenceClose_found. exact Hall.
    - reflexivity. }
  unfold CodeValidator.cleanCode. cbv zeta.
  rewrite Hraw, Hopen, Hclose.
  rewrite Htrim, (body_fenceOpen_stage body Hbody),
    (body_fenceClose_stage body Hbody).
  rewrite ?Htrim. reflexivity.
Qed.

Lemma twoCalls_plainBody : plainBody twoCalls.
Proof.
  exists "tank.aimAt(enemy.position);", ["tank.fire();"].
  repeat split.
  repeat constructor.
  - exists "aimAt(enemy.position);". split; reflexivity.
  - exists "fire();". split; reflexivity.
Qed.

Lemma X28_cleanCode_removes_fence_witness :
  CodeValidator.cleanCode (fenced "js" twoCalls) = twoCalls.
Proof.
  apply (X28_cleanCode_removes_fence "js" twoCalls).
  - right. left. reflexivity.
  - exact twoCalls_plainBody.
Defined.

(** *** A function wrapper *)

Lemma tame_inv (c : ascii) :
  tame c = true ->
  Ascii.eqb c CodeValidator.doubleQuote = false
  /\ Ascii.eqb c "'"%char = false
  /\ Ascii.eqb c "`"%char = false
  /\ Ascii.eqb c "/"%char = false.
Proof.
  unfold tame, CodeValidator.isQuote. intros H. apply negb_true_iff in H.
  repeat (apply orb_false_elim in H; destruct H as [H ?]).
  repeat split; assumption.
Qed.

Lemma tame_fenceClose (u : string) :
  allChars tame u = true ->
  forall p, Js.search CodeValidator.fenceCloseRe p u = None.
Proof.
  induction u as [| c u IH]; intros Hu p.
  - reflexivity.
  - cbn [allChars] in Hu. apply andb_true_iff in Hu. destruct Hu as [Hc Hu].
    apply tame_inv in Hc. destruct Hc as [_ [_ [Hbq _]]].
    cbn [Js.search]. rewrite (IH Hu (Some c)).
    unfold Js.matchHere, CodeValidator.fenceCloseRe.
    cbn -[Ascii.eqb Js.newline].
    rewrite (Ascii.eqb_sym "`" c), Hbq.
    destruct (Ascii.eqb Js.newline c); [| reflexivity].
    destruct u as [| c' u']; [reflexivity |].
    cbn [allChars] in Hu. apply andb_true_iff in Hu. destruct Hu as [Hc' _].
    apply tame_inv in Hc'. destruct Hc' as [_ [_ [Hbq' _]]].
    rewrite (Ascii.eqb_sym "`" c'), Hbq'. reflexivity.
Qed.

Lemma tame_scan (u : string) :
  allChars tame u = true -> CodeValidator.scan CodeValidator.InCode u = u.
Proof.
  induction u as [| c u IH]; intros Hu; [reflexivity |].
  cbn [allChars] in Hu. apply andb_true_iff in Hu. destruct Hu as [Hc Hu].
  apply tame_inv in Hc. destruct Hc as [Hdq [Hsq [Hbq Hsl]]].
  cbn [CodeValidator.scan]. unfold CodeValidator.isQuote.
  rewrite Hdq, Hsq, Hbq, Hsl. cbn [orb]. rewrite (IH Hu). reflexivity.
Qed.

Lemma allBody_tame (u : string) : allBody u = true -> allChars tame u = true.
Proof.
  induction u as [| c u IH]; intros Hu; [reflexivity |].
  apply allBody_cons in Hu. destruct Hu as [Hc Hu].
  apply bodyChar_inv in Hc. destruct Hc as [Hdq [Hsq [Hbq [Hsl _]]]].
  cbn [allChars]. rewrite (IH Hu), andb_true_r.
  unfold tame, CodeValidator.isQuote. rewrite Hdq, Hsq, Hbq, Hsl. reflexivity.
Qed.

Lemma word_tame (u : string) :
  allChars Js.isWord u = true -> allChars tame u = true.
Proof.
  induction u as [| c u IH]; intros Hu; [reflexivity |].
  cbn [allChars] in *. apply andb_true_iff in Hu. destruct Hu as [Hc Hu].
  rewrite (IH Hu), andb_true_r.
  unfold tame, CodeValidator.isQuote. apply negb_true_iff.
  repeat match goal with
         | |- context [Ascii.eqb c ?x] =>
             let E := fresh "E" in
             destruct (Ascii.eqb c x) eqn:E;
             [apply Ascii.eqb_eq in E; subst c; discriminate Hc |]
         end.
  reflexivity.
Qed.

(** Lines. *)
Lemma split_nonempty (s : string) : Js.split s Js.newline <> [].
Proof.
  destruct s as [| c s]; cbn [Js.split]; [discriminate |].
  destruct (Ascii.eqb c Js.newline); [discriminate |].
  destruct (Js.split s Js.newline); discriminate.
Qed.

Lemma join_cons (l : string) (ls : list string) :
  ls <> [] ->
  Js.join (l :: ls) (String Js.newline "")
  = l +++ String Js.newline (Js.join ls (String Js.newline "")).
Proof. destruct ls; [contradiction | reflexivity]. Qed.

Lemma join_split (s : string) :
  Js.join (Js.split s Js.newline) (String Js.newline "") = s.
Proof.
  induction s as [| c s IH]; [reflexivity |].
  cbn [Js.split]. pose proof (split_nonempty s) as Hne.
  destruct (Ascii.eqb c Js.newline) eqn:E.
  - apply Ascii.eqb_eq in E. subst c.
    rewrite (join_cons "" _ Hne), IH. reflexivity.
  - destruct (Js.split s Js.newline) as [| h t]; [contradiction |].
    rewrite <- IH. destruct t; reflexivity.
Qed.

Lemma split_app (u v : string) :
  Js.split (u +++ String Js.newline v) Js.newline
  = (Js.split u Js.newline ++ Js.split v Js.newline)%list.
Proof.
  induction u as [| c u IH].
  - cbn [append Js.split]. rewrite Ascii.eqb_refl. reflexivity.
  - cbn [append Js.split]. rewrite IH.
    destruct (Ascii.eqb c Js.newline); [reflexivity |].
    pose proof (split_nonempty u) as Hne.
    destruct (Js.split u Js.newline); [contradiction | reflexivity].
Qed.

Lemma filter_all {X : Type} (f : X -> bool) (l : list X) :
  Forall (fun a => f a = true) l -> filter f l = l.
Proof.
  induction 1 as [| a l Ha _ IH]; [reflexivity |].
  cbn [filter]. rewrite Ha, IH. reflexivity.
Qed.

(** Nothing to strip in a text without quotes, slashes and blank lines. *)
Lemma stripComments_clean (s : string) :
  allChars tame s = true ->
  Forall (fun l => CodeValidator.nonBlank l = true) (Js.split s Js.newline) ->
  CodeValidator.stripComments s = Js.trim s.
Proof.
  intros Ht Hl. unfold CodeValidator.stripComments. cbv zeta.
  rewrite (tame_scan s Ht), (filter_all _ _ Hl), join_split. reflexivity.
Qed.

Lemma trimEnd_spaces (v : string) :
  allChars Js.isSpace v = true -> Js.trimEnd v = "".
Proof.
  induction v as [| c v IH]; intros Hv; [reflexivity |].
  cbn [allChars] in Hv. apply andb_true_iff in Hv. destruct Hv as [Hc Hv].
  cbn [Js.trimEnd]. rewrite (IH Hv), Hc. reflexivity.
Qed.

Lemma trimEnd_app_spaces (u v : string) :
  allChars Js.isSpace v = true -> Js.trimEnd (u +++ v) = Js.trimEnd u.
Proof.
  intros Hv. induction u as [| c u IH].
  - cbn [append]. apply trimEnd_spaces, Hv.
  - cbn [append Js.trimEnd]. rewrite IH. reflexivity.
Qed.

Lemma run_alt_none (r1 r2 : Js.regex) (st : Js.MState)
      (k : Js.MState -> option Js.MState) :
  Js.run r1 st k = None -> Js.run (Js.Alt r1 r2) st k = Js.run r2 st k.
Proof. intros H. cbn [Js.run]. rewrite H. reflexivity. Qed.

(** A greedy star that has to give back the last character. *)
Lemma star_give_back (p : ascii -> bool) (u : string) (c : ascii)
      (cp : option string) (k : Js.MState -> option Js.MState)
      (res : Js.MState) :
  allChars p u = true ->
  forall pv,
    k (Js.mkM (Some c) "" cp) = None ->
    k (Js.mkM (after pv u) (String c "") cp) = Some res ->
    Js.run (Js.Star (Js.Chr p)) (Js.mkM pv (u +++ String c "") cp) k
    = Some res.
Proof.
  intros Hu. induction u as [| a u IH]; intros pv Hend Hk.
  - cbn [append]. destruct (p c) eqn:Hc.
    + rewrite (star_step p c "" pv cp k Hc).
      change (Js.run (Js.Star (Js.Chr p)) (Js.mkM (Some c) "" cp) k)
        with (k (Js.mkM (Some c) "" cp)).
      rewrite Hend. exact Hk.
    + rewrite (star_stop p c "" pv cp k Hc). exact Hk.
  - cbn [allChars] in Hu. apply andb_true_iff in Hu. destruct Hu as [Ha Hu].
    cbn [append]. rewrite (star_step p a (u +++ String c "") pv cp k Ha).
    rewrite (IH Hu (Some a) Hend); [reflexivity |].
    rewrite <- (after_cons pv). exact Hk.
Qed.

Lemma allChars_any (u : string) : allChars (fun _ => true) u = true.
Proof. induction u as [| c u IH]; [reflexivity | exact IH]. Qed.

Lemma stops_space_word (name t : string) :
  allChars Js.isWord name = true -> stops Js.isSpace t ->
  stops Js.isSpace (name +++ t).
Proof.
  intros Hn Ht. destruct name as [| c name]; [exact Ht |].
  cbn [allChars] in Hn. apply andb_true_iff in Hn. destruct Hn as [Hc _].
  cbn [append stops]. destruct (Js.isSpace c) eqn:E; [| reflexivity].
  rewrite (space_not_word c E) in Hc. discriminate Hc.
Qed.

Lemma run_bos (s : string) (cp : option string)
      (k : Js.MState -> option Js.MState) :
  Js.run Js.Bos (Js.mkM None s cp) k = k (Js.mkM None s cp).
Proof. reflexivity. Qed.

Lemma run_eps (st : Js.MState) (k : Js.MState -> option Js.MState) :
  Js.run Js.Eps st k = k st.
Proof. reflexivity. Qed.

Lemma run_eos (pv : option ascii) (cp : option string)
      (k : Js.MState -> option Js.MState) :
  Js.run Js.Eos (Js.mkM pv "" cp) k = k (Js.mkM pv "" cp).
Proof. reflexivity. Qed.

Ltac step_chars :=
  repeat first
    [ rewrite run_seq
    | unfold Js.ch at 1; rewrite run_chr_ok by reflexivity
    | change Js.space with (Js.Chr Js.isSpace) at 1;
      rewrite star_stop by reflexivity ].

(** The wrapper pattern matches a wrapped body and captures what stands
    between the braces. *)
Lemma func_found (name body : string) :
  allChars Js.isWord name = true ->
  Js.matchGroup CodeValidator.funcRe (wrapped name body)
  = Some (String Js.newline (body +++ String Js.newline "")).
Proof.
  intros Hname. unfold Js.matchGroup.
  set (g := String Js.newline (body +++ String Js.newline "")).
  rewrite (search_here _ _ _ (Js.mkM (Some "}"%char) "" (Some g)));
    [reflexivity |].
  unfold Js.matchHere, CodeValidator.funcRe, wrapped.
  cbn [Js.seqs Js.lit append].
  rewrite run_seq, run_bos.
  rewrite run_seq. unfold Js.Opt at 1.
  rewrite run_alt_none
    by (rewrite !run_seq; unfold Js.ch at 1; apply run_chr_fail; reflexivity).
  rewrite run_eps.
  step_chars.
  unfold Js.Plus at 1. step_chars.
  unfold Js.space at 1. rewrite run_chr_ok by reflexivity.
  apply (star_greedy Js.isSpace "" _);
    [reflexivity | apply stops_space_word; [exact Hname | reflexivity] |].
  unfold after at 1. cbn [lastChar].
  rewrite run_seq. unfold Js.word at 1.
  apply star_greedy; [exact Hname | reflexivity |].
  step_chars.
  apply (star_greedy Js.isSpace " " _); [reflexivity | reflexivity |].
  step_chars. rewrite run_group. cbn [Js.rest Js.prev].
  change (String Js.newline (body +++ String Js.newline "}"))
    with (String Js.newline (body +++ (String Js.newline "" +++ "}"))).
  rewrite <- sapp_assoc.
  change (String Js.newline ((body +++ String Js.newline "") +++ "}"))
    with (g +++ "}").
  apply star_give_back; [apply allChars_any | reflexivity |].
  cbn [Js.rest Js.prev]. rewrite (take_app g "}").
  step_chars. reflexivity.
Qed.

Lemma split_one_line (u : string) :
  allChars (fun c => negb (Ascii.eqb c Js.newline)) u = true ->
  Js.split u Js.newline = [u].
Proof.
  induction u as [| c u IH]; intros Hu; [reflexivity |].
  cbn [allChars] in Hu. apply andb_true_iff in Hu. destruct Hu as [Hc Hu].
  apply negb_true_iff in Hc.
  cbn [Js.split]. rewrite Hc, (IH Hu). reflexivity.
Qed.

Lemma word_no_newline (u : string) :
  allChars Js.isWord u = true ->
  allChars (fun c => negb (Ascii.eqb c Js.newline)) u = true.
Proof.
  induction u as [| c u IH]; intros Hu; [reflexivity |].
  cbn [allChars] in *. apply andb_true_iff in Hu. destruct Hu as [Hc Hu].
  rewrite (IH Hu), andb_true_r. apply negb_true_iff.
  destruct (Ascii.eqb c Js.newline) eqn:E; [| reflexivity].
  apply Ascii.eqb_eq in E. subst c. discriminate Hc.
Qed.

Lemma nonBlank_head (c : ascii) (s : string) :
  Js.isSpace c = false -> CodeValidator.nonBlank (String c s) = true.
Proof.
  intros Hc. unfold CodeValidator.nonBlank, Js.trim.
  cbn [Js.trimStart]. rewrite Hc. cbn [Js.trimEnd].
  destruct (Js.trimEnd s); [rewrite Hc |]; reflexivity.
Qed.

Lemma plainBody_lines (s : string) :
  plainBody s ->
  Forall (fun l => CodeValidator.nonBlank l = true) (Js.split s Js.newline).
Proof.
  intros [line [lines [Hall [Hs _]]]].
  rewrite Hs, (split_join line lines Hall).
  clear Hs. induction Hall as [| l ls [r [-> _]] _ IH]; constructor.
  - apply call_nonBlank.
  - exact IH.
Qed.

Lemma body_stripComments (s : string) :
  plainBody s -> CodeValidator.stripComments s = s.
Proof.
  intros Hs. destruct (plainBody_facts s Hs) as [Hb [Ht _]].
  rewrite stripComments_clean;
    [exact Ht | apply allBody_tame, Hb | apply plainBody_lines, Hs].
Qed.

Lemma wrapped_header (name body : string) :
  wrapped name body
  = ("function " +++ name +++ "(tank) {")
      +++ String Js.newline (body +++ String Js.newline "}").
Proof. unfold wrapped. rewrite !sapp_assoc. reflexivity. Qed.

(** X29. A function wrapper is removed: when the answer is
    [function name(tank) {], a body of plain call lines and [}], each on
    lines of its own, cleanCode returns exactly the body. *)
Theorem X29_cleanCode_unwraps_function (name body : string) :
  allChars Js.isWord name = true -> plainBody body ->
  CodeValidator.cleanCode (wrapped name body) = body.
Proof.
  intros Hname Hbody.
  destruct (plainBody_facts body Hbody) as [Hall [Htrim [w Hw]]].
  transitivity (CodeValidator.cleanCode body);
    [| apply cleanCode_plainBody; exact Hbody].
  set (raw := wrapped name body).
  assert (Htame : allChars tame raw = true).
  { unfold raw. rewrite wrapped_header.
    change (String Js.newline (body +++ String Js.newline "}"))
      with (String Js.newline "" +++ body +++ String Js.newline "}").
    rewrite !allChars_app, (word_tame name Hname), (allBody_tame body Hall).
    reflexivity. }
  assert (Hraw : Js.trim raw = raw).
  { unfold Js.trim.
    replace (Js.trimStart raw) with raw by reflexivity.
    assert (E : raw = ("function " +++ name +++ "(tank) {"
                         +++ String Js.newline (body +++ String Js.newline ""))
                        +++ "}").
    { unfold raw, wrapped.
      repeat (rewrite sapp_assoc || cbn [append]). reflexivity. }
    rewrite E. apply trimEnd_app_keep; [discriminate | reflexivity]. }
  assert (Hopen : fst (Js.replaceAll CodeValidator.fenceOpenRe (fun _ _ => "")
                                     0 raw) = raw).
  { rewrite replaceAll_none; [reflexivity |].
    apply search_anchored. reflexivity. }
  assert (Hclose : fst (Js.replaceAll CodeValidator.fenceCloseRe
                                      (fun _ _ => "") 0 raw) = raw).
  { rewrite replaceAll_none; [reflexivity |].
    apply tame_fenceClose, Htame. }
  assert (Hhere : Js.replaceFirst CodeValidator.herePrefixRe (fun _ => "") raw
                  = raw).
  { unfold Js.replaceFirst.
    replace (Js.search CodeValidator.herePrefixRe None raw)
      with (@None (string * Js.MState)); [reflexivity |].
    symmetry. apply search_anchored. reflexivity. }
  assert (Hstrip : CodeValidator.stripComments raw = raw).
  { rewrite stripComments_clean; [exact Hraw | exact Htame |].
    unfold raw. rewrite wrapped_header, !split_app.
    rewrite split_one_line.
    - constructor; [apply nonBlank_head; reflexivity |].
      apply Forall_app. split; [apply plainBody_lines, Hbody |].
      constructor; [reflexivity | constructor].
    - rewrite !allChars_app, (word_no_newline name Hname). reflexivity. }
  assert (Hfunc : Js.trim (String Js.newline (body +++ String Js.newline ""))
                  = body).
  { unfold Js.trim. cbn [Js.trimStart].
    replace (Js.isSpace Js.newline) with true by reflexivity.
    replace (Js.trimStart (body +++ String Js.newline ""))
      with (body +++ String Js.newline "")
      by (rewrite Hw; reflexivity).
    rewrite trimEnd_app_spaces by reflexivity.
    unfold Js.trim in Htrim. rewrite Hw in Htrim at 1.
    cbn [append Js.trimStart] in Htrim.
    replace (Js.isSpace "t") with false in Htrim by reflexivity.
    rewrite Hw at 1. exact Htrim. }
  assert (Hhere' : Js.replaceFirst CodeValidator.herePrefixRe (fun _ => "") body
                   = body).
  { unfold Js.replaceFirst. rewrite Hw at 1. rewrite call_herePrefix.
    reflexivity. }
  assert (Hfunc' : Js.matchGroup CodeValidator.funcRe body = None).
  { unfold Js.matchGroup. rewrite Hw, call_func. reflexivity. }
  unfold CodeValidator.cleanCode. cbv zeta.
  rewrite !Hraw, Hopen, Hclose, !Hraw, Hhere, !Hraw, Hstrip.
  replace (Js.matchGroup CodeValidator.funcRe raw)
    with (Some (String Js.newline (body +++ String Js.newline "")))
    by (symmetry; apply func_found, Hname).
  cbv iota.
  rewrite Hfunc.
  rewrite !Htrim, (body_fenceOpen_stage body Hbody),
    (body_fenceClose_stage body Hbody), !Htrim, Hhere', !Htrim,
    (body_stripComments body Hbody), Hfunc'.
  reflexivity.
Qed.

Lemma X29_cleanCode_unwraps_function_witness :
  CodeValidator.cleanCode (wrapped "ai" twoCalls) = twoCalls.
Proof.
  apply (X29_cleanCode_unwraps_function "ai" twoCalls).
  - reflexivity.
  - exact twoCalls_plainBody.
Defined.

(** ** The comment stripper *)

Local Open Scope string_scope.

Lemma scan_tame_app (a t : string) :
  allChars tame a = true ->
  CodeValidator.scan CodeValidator.InCode (a +++ t)
  = a +++ CodeValidator.scan CodeValidator.InCode t.
Proof.
  induction a as [| c a IH]; intros Ha; [reflexivity |].
  cbn [allChars] in Ha. apply andb_true_iff in Ha. destruct Ha as [Hc Ha].
  apply tame_inv in Hc. destruct Hc as [Hdq [Hsq [Hbq Hsl]]].
  cbn [append CodeValidator.scan]. unfold CodeValidator.isQuote.
  rewrite Hdq, Hsq, Hbq, Hsl. cbn [orb]. rewrite (IH Ha). reflexivity.
Qed.

(** A line comment is skipped up to the line feed, which is kept. *)
Lemma scan_line (c t : string) :
  allChars (fun a => negb (Ascii.eqb a Js.newline)) c = true ->
  CodeValidator.scan CodeValidator.InLine (c +++ String Js.newline t)
  = String Js.newline (CodeValidator.scan CodeValidator.InCode t).
Proof.
  induction c as [| a c IH]; intros Hc.
  - cbn [append CodeValidator.scan]. rewrite Ascii.eqb_refl. reflexivity.
  - cbn [allChars] in Hc. apply andb_true_iff in Hc. destruct Hc as [Ha Hc].
    apply negb_true_iff in Ha.
    cbn [append CodeValidator.scan]. rewrite Ha. exact (IH Hc).
Qed.

(** A block comment is skipped up to its first terminator. *)
Lemma scan_block (c t : string) :
  Js.includes c "*/" = false ->
  CodeValidator.scan CodeValidator.InBlock (c +++ "*/" +++ t)
  = CodeValidator.scan CodeValidator.InCode t.
Proof.
  induction c as [| a c IH]; intros Hc.
  - cbn [append CodeValidator.scan]. reflexivity.
  - pose proof (includes_false_startsWith _ _ Hc) as Hs.
    pose proof (includes_false_tail _ _ _ Hc) as Hc'.
    cbn [append]. cbn [CodeValidator.scan].
    destruct c as [| b c'].
    + cbn [append].
      replace (Ascii.eqb "*" "/") with false by reflexivity.
      rewrite andb_false_r. exact (IH Hc').
    + cbn [append]. cbn [Js.startsWith] in Hs. rewrite andb_true_r in Hs.
      rewrite Hs. exact (IH Hc').
Qed.

(** Inside a string literal everything is kept up to the closing
    quote. *)
Lemma scan_string (q : ascii) (s t : string) :
  CodeValidator.isQuote q = true ->
  allChars (fun a => negb (Ascii.eqb a "\" || Ascii.eqb a q)) s = true ->
  CodeValidator.scan (CodeValidator.InString q) (s +++ String q t)
  = s +++ String q (CodeValidator.scan CodeValidator.InCode t).
Proof.
  intros Hq. induction s as [| a s IH]; intros Hs.
  - cbn [append CodeValidator.scan].
    assert (E : Ascii.eqb q "\" = false).
    { destruct (Ascii.eqb q "\") eqn:E; [| reflexivity].
      apply Ascii.eqb_eq in E. subst q. discriminate Hq. }
    rewrite E, Ascii.eqb_refl. reflexivity.
  - cbn [allChars] in Hs. apply andb_true_iff in Hs. destruct Hs as [Ha Hs].
    apply negb_true_iff, orb_false_iff in Ha. destruct Ha as [Ha1 Ha2].
    cbn [append CodeValidator.scan]. rewrite Ha1, Ha2, (IH Hs). reflexivity.
Qed.

Lemma trim_two_bodies (b1 b2 : string) :
  plainBody b1 -> plainBody b2 ->
  Js.trim (b1 +++ String Js.newline b2) = b1 +++ String Js.newline b2.
Proof.
  intros H1 H2.
  destruct (plainBody_facts b1 H1) as [_ [_ [w1 Hw1]]].
  destruct (plainBody_facts b2 H2) as [_ [Ht2 [w2 Hw2]]].
  unfold Js.trim.
  replace (Js.trimStart (b1 +++ String Js.newline b2))
    with (b1 +++ String Js.newline b2) by (rewrite Hw1; reflexivity).
  change (b1 +++ String Js.newline b2)
    with (b1 +++ String Js.newline "" +++ b2).
  rewrite <- sapp_assoc. apply trimEnd_app_keep.
  - rewrite Hw2. discriminate.
  - unfold Js.trim in Ht2. rewrite Hw2 in Ht2 at 1.
    cbn [append Js.trimStart] in Ht2.
    replace (Js.isSpace "t") with false in Ht2 by reflexivity.
    rewrite Hw2 at 1. exact Ht2.
Qed.

(** A line that holds nothing but a comment disappears with its line
    feed. *)
Lemma strip_comment_line (b1 b2 X : string) :
  plainBody b1 -> plainBody b2 ->
  CodeValidator.scan CodeValidator.InCode X = String Js.newline b2 ->
  CodeValidator.stripComments (b1 +++ String Js.newline X)
  = b1 +++ String Js.newline b2.
Proof.
  intros H1 H2 HX.
  destruct (plainBody_facts b1 H1) as [Hall1 _].
  unfold CodeValidator.stripComments. cbv zeta.
  change (b1 +++ String Js.newline X)
    with (b1 +++ String Js.newline "" +++ X).
  rewrite <- sapp_assoc, scan_tame_app, HX.
  - rewrite sapp_assoc. cbn [append].
    rewrite split_app.
    replace (Js.split (String Js.newline b2) Js.newline)
      with ("" :: Js.split b2 Js.newline) by reflexivity.
    rewrite filter_app. cbn [filter].
    replace (CodeValidator.nonBlank "") with false by reflexivity.
    rewrite !filter_all by (apply plainBody_lines; assumption).
    rewrite <- split_app, join_split.
    apply trim_two_bodies; assumption.
  - rewrite allChars_app, (allBody_tame b1 Hall1). reflexivity.
Qed.

Lemma plain_tame (u : string) : allPlain u = true -> allChars tame u = true.
Proof. intros H. apply allBody_tame, allPlain_allBody, H. Qed.

Lemma plain_one_line (u : string) :
  allPlain u = true ->
  allChars (fun c => negb (Ascii.eqb c Js.newline)) u = true.
Proof.
  induction u as [| c u IH]; intros Hu; [reflexivity |].
  apply allPlain_cons in Hu. destruct Hu as [Hc Hu].
  apply plainChar_inv in Hc. destruct Hc as [Hnl _].
  cbn [allChars]. rewrite Hnl, (IH Hu). reflexivity.
Qed.

Lemma oneCall_plainBody : plainBody "tank.move(1);".
Proof.
  exists "tank.move(1);", []. repeat split.
  repeat constructor. exists "move(1);". split; reflexivity.
Qed.

(** X30. Comments go, strings stay.  Between two bodies of plain call
    lines, a line that holds only a line comment, or only a block
    comment without terminator inside (it may span several lines), is
    removed together with its line feed; and a call line that holds a
    string literal is returned as it is, whatever the literal contains
    apart from its quote, a backslash and a line feed, comment markers
    included. *)
Theorem X30_stripComments (b1 b2 : string) :
  plainBody b1 -> plainBody b2 ->
  (forall c,
      allChars (fun a => negb (Ascii.eqb a Js.newline)) c = true ->
      CodeValidator.stripComments
        (b1 +++ String Js.newline ("//" +++ c +++ String Js.newline b2))
      = b1 +++ String Js.newline b2)
  /\ (forall c,
         Js.includes c "*/" = false ->
         CodeValidator.stripComments
           (b1 +++ String Js.newline
               ("/*" +++ c +++ "*/" +++ String Js.newline b2))
         = b1 +++ String Js.newline b2)
  /\ (forall q a s b,
         CodeValidator.isQuote q = true ->
         allPlain a = true -> allPlain b = true ->
         allChars (fun x => negb (Ascii.eqb x "\" || Ascii.eqb x q)) s = true ->
         allChars (fun x => negb (Ascii.eqb x Js.newline)) s = true ->
         Js.trimEnd (String q b) = String q b ->
         CodeValidator.stripComments ("tank." +++ a +++ String q (s +++ String q b))
         = "tank." +++ a +++ String q (s +++ String q b)).
Proof.
  intros H1 H2.
  destruct (plainBody_facts b2 H2) as [Hall2 _].
  pose proof (tame_scan b2 (allBody_tame b2 Hall2)) as Hscan2.
  split; [| split].
  - intros c Hc. apply strip_comment_line; try assumption.
    change (CodeValidator.scan CodeValidator.InCode
              ("//" +++ c +++ String Js.newline b2))
      with (CodeValidator.scan CodeValidator.InLine
              (c +++ String Js.newline b2)).
    rewrite (scan_line c b2 Hc), Hscan2. reflexivity.
  - intros c Hc. apply strip_comment_line; try assumption.
    change (CodeValidator.scan CodeValidator.InCode
              ("/*" +++ c +++ "*/" +++ String Js.newline b2))
      with (CodeValidator.scan CodeValidator.InBlock
              (c +++ "*/" +++ String Js.newline b2)).
    rewrite (scan_block c (String Js.newline b2) Hc).
    change (CodeValidator.scan CodeValidator.InCode (String Js.newline b2))
      with (String Js.newline (CodeValidator.scan CodeValidator.InCode b2)).
    rewrite Hscan2. reflexivity.
  - intros q a s b Hq Ha Hb Hs Hnl Hend.
    assert (Hqnl : Ascii.eqb q Js.newline = false).
    { destruct (Ascii.eqb q Js.newline) eqn:E; [| reflexivity].
      apply Ascii.eqb_eq in E. subst q. discriminate Hq. }
    unfold CodeValidator.stripComments. cbv zeta.
    change ("tank." +++ a +++ String q (s +++ String q b))
      with (("tank." +++ a) +++ String q (s +++ String q b)).
    rewrite scan_tame_app by (apply (plain_tame ("tank." +++ a)); exact Ha).
    cbn [CodeValidator.scan]. rewrite Hq.
    rewrite (scan_string q s b Hq Hs), (tame_scan b (plain_tame b Hb)).
    rewrite split_one_line.
    + cbn [filter].
      replace (CodeValidator.nonBlank
                 (("tank." +++ a) +++ String q (s +++ String q b)))
        with true by (symmetry; apply (nonBlank_head "t"); reflexivity).
      cbn [Js.join String.concat]. unfold Js.join. cbn [String.concat].
      unfold Js.trim.
      replace (Js.trimStart (("tank." +++ a) +++ String q (s +++ String q b)))
        with (("tank." +++ a) +++ String q (s +++ String q b)) by reflexivity.
      change (String q (s +++ String q b))
        with (String q "" +++ s +++ String q b).
      rewrite <- !sapp_assoc. apply trimEnd_app_keep; [discriminate | exact Hend].
    + change (String q (s +++ String q b))
        with (String q "" +++ s +++ String q b).
      rewrite !allChars_app, (plain_one_line a Ha), Hnl.
      cbn [allChars]. rewrite Hqnl, (plain_one_line b Hb). reflexivity.
Qed.

Lemma X30_stripComments_witness :
  CodeValidator.stripComments
    (twoCalls +++ String Js.newline
              ("//" +++ " then move on" +++ String Js.newline "tank.move(1);"))
  = twoCalls +++ String Js.newline "tank.move(1);".
Proof.
  apply (proj1 (X30_stripComments twoCalls "tank.move(1);"
                                  twoCalls_plainBody oneCall_plainBody)).
  reflexivity.
Defined.

(** ** Answers on which the cleaner is idempotent *)

Local Open Scope string_scope.

(** *** Around the text *)




(** *** The stages before the unwrapping *)









(** *** Scripts that the cleaner leaves as they are *)














Lemma plainBody_solid (body : string) : plainBody body -> solidText body.
Proof.
  intros Hbody. destruct (plainBody_facts body Hbody) as [Hall [_ [w Hw]]].
  split; [| split; [| split]].
  - exists "t"%char, ("ank." +++ w). rewrite Hw.
    split; [reflexivity |].
    split; [reflexivity |]. split; discriminate.
  - destruct Hbody as [line [lines [_ [_ Hend]]]]. exact Hend.
  - apply allBody_tame, Hall.
  - apply plainBody_lines, Hbody.
Qed.

Lemma plainBody_cleanScript (body : string) :
  plainBody body -> cleanScript body.
Proof.
  intros Hbody. pose proof (cleanCode_plainBody body Hbody) as Hfix.
  destruct (plainBody_facts body Hbody) as [Hall [_ [w Hw]]].
  destruct Hbody as [line [lines [Hlines [Hs Hend]]]].
  pose proof (split_join line lines Hlines) as Hsplit. rewrite <- Hs in Hsplit.
  split; [apply plainBody_solid; exists line, lines; auto |].
  split.
  { unfold notWrapped, Js.matchGroup.
    rewrite Hw, call_func, call_arrow, call_pureArrow. auto. }
  rewrite Hsplit. cbn [hd].
  split.
  { assert (Hline : plainLine line) by (inversion Hlines; assumption).
    destruct Hline as [r [Er _]]. rewrite Er, call_trim. reflexivity. }
  split.
  - clear Hs Hsplit Hw Hfix Hend Hall.
    induction Hlines as [| l ls [r [-> _]] _ IH]; [reflexivity |].
    cbn [forallb]. rewrite IH. reflexivity.
  - clear Hs Hsplit Hw Hfix Hend Hall.
    induction Hlines as [| l ls Hl _ IH]; [reflexivity |].
    pose proof (plainLine_allBody l Hl) as Hb.
    cbn [bracesOpen]. cbv zeta.
    rewrite (body_count_open _ Hb), (body_count_close _ Hb). exact IH.
Qed.

(** *** Solid texts *)











(** *** The arrow wrappers *)











